(** * RCAttr: the per-column attribute controller of StoneDB

    A shallow embedding of storage/stonedb/core/rc_attr.cpp.  The controller
    owns a versioned view of one column (a header [hdr], the ordered list
    [m_idx] of DPN indices, a dictionary handle, filter handles and a
    transaction handle) and talks to the column share (the DPN arena) and to
    the engine (object caches, files, deferred removals).

    Stateful member functions are computations in a state monad over [World]
    whose outcome is a normal return, a C++ exception, a fault (failed ASSERT,
    null or out-of-range access) or the exhaustion of the fuel of a loop that
    has no bound of its own. *)

From stdpp Require Import base numbers option list gmap strings pretty.
From Stdlib Require Import ZArith Lia.
From Stdlib.Strings Require Import Byte.

#[local] Open Scope Z_scope.

(** ** Machine integers *)

Definition wrap_unsigned (w x : Z) : Z := x mod 2 ^ w.
Definition wrap_signed (w x : Z) : Z := (x + 2 ^ (w - 1)) mod 2 ^ w - 2 ^ (w - 1).

Definition u32 (x : Z) : Z := wrap_unsigned 32 x.
Definition u64 (x : Z) : Z := wrap_unsigned 64 x.
Definition i32 (x : Z) : Z := wrap_signed 32 x.
Definition i64 (x : Z) : Z := wrap_signed 64 x.

Definition INT64_MAX : Z := 2 ^ 63 - 1.
Definition INT64_MIN : Z := - 2 ^ 63.

(** ** Enumerations *)

(** common::CT, the enumerators this file names. *)
Inductive CT :=
  | CT_STRING | CT_VARCHAR | CT_INT | CT_NUM | CT_DATE | CT_TIME | CT_BYTEINT
  | CT_SMALLINT | CT_BIN | CT_BYTE | CT_VARBYTE | CT_REAL | CT_DATETIME
  | CT_TIMESTAMP | CT_FLOAT | CT_YEAR | CT_MEDIUMINT | CT_BIGINT | CT_LONGTEXT
  | CT_UNK.

Inductive PackType := PT_INT | PT_STR.

Inductive PackOntologicalStatus := NULLS_ONLY | UNIFORM | UNIFORM_AND_NULLS | NORMAL.

Inductive FilterType := FT_HIST | FT_CMAP | FT_BLOOM.

Inductive ErrorCode := EC_SUCCESS | EC_FAILED | EC_DUPP_KEY | EC_OUT_OF_RANGE | EC_VALUE_TRUNCATED.

#[global] Instance CT_eq_dec : EqDecision CT.
Proof. solve_decision. Defined.
#[global] Instance PackType_eq_dec : EqDecision PackType.
Proof. solve_decision. Defined.
#[global] Instance PackOntologicalStatus_eq_dec : EqDecision PackOntologicalStatus.
Proof. solve_decision. Defined.
#[global] Instance FilterType_eq_dec : EqDecision FilterType.
Proof. solve_decision. Defined.
#[global] Instance ErrorCode_eq_dec : EqDecision ErrorCode.
Proof. solve_decision. Defined.
#[global] Instance byte_eq_dec : EqDecision byte := Byte.byte_eq_dec.

(** types::BString: [None] is the null string [types::BString()]. *)
Abbreviation BString := (option string).

(** Transaction ids and DPN indices.  A [TX_ID] is kept as one number; a
    [PACK_INDEX] indexes the DPN arena of the column share. *)
Abbreviation TX_ID := Z.
Abbreviation PACK_INDEX := nat.

(** ** Interfaces of the headers that are not part of this file *)

(** common/common_definitions.h: the sentinels.  Their values are not fixed
    here; the code only relies on the two infinities being 64-bit signed
    numbers, one negative and one positive. *)
Class CommonDefs := {
  NULL_VALUE_32 : Z;
  NULL_VALUE_64 : Z;
  MINUS_INF_64 : Z;
  PLUS_INF_64 : Z;
  SHORT_MAX : Z;
  MAX_XID : TX_ID;
  INF_64_range : - 2 ^ 63 <= MINUS_INF_64 < 0 /\ 0 < PLUS_INF_64 < 2 ^ 63;
}.

(** core/dpn.h: the layout of the tagged pack pointer and the address that
    marks a pack without a body; and the memory the objects live in.
    [heap_addr n] is the address of the [n]-th object allocated, for the
    [heap_limit] objects that fit in memory: it is not null, it carries no
    tag bits, and adding one reference leaves the pointer bits alone.
    [word_bytes z] are the eight bytes of the 64-bit word [z] in the order
    the platform keeps them in memory. *)
Class DpnLayout := {
  DPN_INVALID_ADDR : Z;
  word_bytes : Z -> list byte;
  word_bytes_length : forall z, length (word_bytes z) = 8%nat;
  tag_one : Z;
  tag_mask : Z;
  loading_flag : Z;
  heap_limit : Z;
  heap_addr : Z -> Z;
  loading_flag_nonzero : loading_flag <> 0;
  tag_one_nonneg : 0 <= tag_one;
  heap_addr_range : forall n, 0 <= n < heap_limit ->
    0 < heap_addr n /\ heap_addr n + tag_one < 2 ^ 64;
  heap_addr_inj : forall n m, 0 <= n < heap_limit -> 0 <= m < heap_limit ->
    heap_addr n = heap_addr m -> n = m;
  heap_addr_tag : forall n, 0 <= n < heap_limit ->
    Z.land (heap_addr n + tag_one) tag_mask = heap_addr n;
}.

(** core/rc_attr_typeinfo.h: the static predicates of [ATI] on type names. *)
Class TypeInfo := {
  IsStringType : CT -> bool;
  IsRealType : CT -> bool;
  IsIntegerType : CT -> bool;
  IsDateTimeType : CT -> bool;
  IsDateTimeNType : CT -> bool;
}.

(** IEEE doubles, as far as this file touches them: values travel as the
    64-bit pattern they are stored in, and arithmetic is left to the
    platform. *)
Class Float64 := {
  double : Type;
  double_of_bits : Z -> double;
  bits_of_double : double -> Z;
  double_of_int64 : Z -> double;
  int64_of_double : double -> Z;
  double_add : double -> double -> double;
  double_sub : double -> double -> double;
  double_mul : double -> double -> double;
  double_div : double -> double -> double;
  double_fabs : double -> double;
  double_lt : double -> double -> bool;
  double_0_01 : double;
  Uint64PowOfTen : Z -> double;
}.

(** Text services: comparison of strings (types/rc_data_types.h, collation
    support), parsing and printing of numbers and date-times. *)
Class TextOps := {
  Collation : Type;
  RequiresUTFConversions : Collation -> bool;
  CollationStrCmp : Collation -> BString -> BString -> Z;
  BString_CompareWith : BString -> BString -> Z;
  RCNum_Parse : BString -> CT -> ErrorCode * Z;
  RCNum_ToBString : Z -> Z -> bool -> CT -> BString;
  RCDateTime_ToBString : Z -> CT -> bool -> BString;
}.

(** ** Column type *)

(** The column type [ct] ([Type()]), seen through the accessors of
    core/column_type.h that this file calls. *)
Record ColumnType {TO : TextOps} := {
  ct_TypeName : CT;
  ct_IsLookup : bool;
  ct_NotNull : bool;
  ct_IsString : bool;
  ct_IsFloat : bool;
  ct_Scale : Z;
  ct_Precision : Z;
  ct_DisplaySize : Z;
  ct_Collation : Collation;
}.

(** ** Data pack nodes *)

(** One DPN of the arena (core/dpn.h).  [base = None] stands for
    [common::INVALID_PACK_INDEX].  In the source [min_i], [min_d] and
    [min_s] are the members of one union, eight bytes read as a signed
    word, as a double or as [char[8]]; so are [max_i], [max_d] and [max_s],
    and [sum_i] and [sum_d].  The record keeps the word; the other members
    are views of it ([min_s] and [max_s] below, [double_of_bits] for the
    doubles), so that a write through one member is seen through the
    others. *)
Record DPN := {
  used : bool;
  local : bool;
  synced : bool;
  base : option PACK_INDEX;
  nr : Z;
  nn : Z;
  xmin : TX_ID;
  xmax : TX_ID;
  addr : Z;
  len : Z;
  min_i : Z;
  max_i : Z;
  sum_i : Z;
  pack_ptr : Z;
}.

(** [dpn.min_s] and [dpn.max_s]: the bytes of [min_i] and [max_i]. *)
Definition min_s {DL : DpnLayout} (d : DPN) : list byte := word_bytes (min_i d).
Definition max_s {DL : DpnLayout} (d : DPN) : list byte := word_bytes (max_i d).

(** ** Column version header (COL_VER_HDR) *)

Record COL_VER_HDR := {
  h_nr : Z;
  h_nn : Z;
  h_np : Z;
  h_auto_inc_next : Z;
  h_min : Z;
  h_max : Z;
  h_dict_ver : Z;
  h_unique : bool;
  h_unique_updated : bool;
  h_natural_size : Z;
  h_compressed_size : Z;
}.

(** ** Values handed to the controller *)

(** core::Value, the argument of [UpdateData]: empty, an integer or a
    string. *)
Inductive Value := V_none | V_int (i : Z) | V_string (s : string).

#[global] Instance Value_eq_dec : EqDecision Value.
Proof. solve_decision. Defined.

Definition Value_HasValue (v : Value) : bool :=
  match v with V_none => false | _ => true end.

(** types::RCDataType, the argument of [EncodeValue64], with the members the
    encoder reads: [IsNull], [Type], and for a number [ValueInt], [Scale],
    [IsReal]; for a date-time [GetInt64]. *)
Inductive RCDataType :=
  | RCNum (null : bool) (value : Z) (scale : Z) (is_real : bool) (attrt : CT)
  | RCDateTime (null : bool) (dt : Z) (attrt : CT)
  | RCBString (s : BString).

Definition RCDataType_IsNull (v : RCDataType) : bool :=
  match v with
  | RCNum n _ _ _ _ => n
  | RCDateTime n _ _ => n
  | RCBString s => bool_decide (s = None)
  end.

Definition RCDataType_Type (v : RCDataType) : CT :=
  match v with
  | RCNum _ _ _ _ t => t
  | RCDateTime _ _ t => t
  | RCBString _ => CT_STRING
  end.

(** loader::ValueCache, the batch handed to [LoadData]: its values, of
    which [NumOfValues] and [NumOfNulls] are the counts, and the accessors
    of its statistics.  The statistics are those left by [CalcIntStats(nv)]
    and [CalcRealStats(nv)], which depend on the filler [nv] of a NOT NULL
    column. *)
Record ValueCache {F : Float64} := {
  vc_values : list Value;
  vc_SumarizedSize : Z;
  vc_MinInt : option Z -> Z;
  vc_MaxInt : option Z -> Z;
  vc_SumInt : option Z -> Z;
  vc_MinDouble : option Z -> double;
  vc_MaxDouble : option Z -> double;
  vc_SumDouble : option Z -> double;
}.

Definition vc_NumOfValues {F : Float64} (vc : ValueCache) : Z :=
  Z.of_nat (length (vc_values vc)).

Definition vc_NumOfNulls {F : Float64} (vc : ValueCache) : Z :=
  Z.of_nat (length (filter (fun v => v = V_none) (vc_values vc))).

(** ** Dictionary *)

(** Modelled from the spec: the FTree dictionary (core/ftree.h is not among
    the sources), "a bidirectional map between string values and 32-bit
    codes, copy-on-write clonable".  A value's code is its position in the
    order of insertion, a missing value encodes as a negative number, and
    [ft_changed] tells whether the tree was modified since it was loaded or
    cloned. *)
Record FTree := {
  ft_values : list string;
  ft_changed : bool;
  ft_locks : Z;
}.

Fixpoint FTree_find (s : string) (l : list string) (i : Z) : Z :=
  match l with
  | [] => -1
  | x :: l' => if bool_decide (x = s) then i else FTree_find s l' (i + 1)
  end.

Definition FTree_GetEncodedValue (t : FTree) (s : string) : Z :=
  FTree_find s (ft_values t) 0.

Definition FTree_Add (t : FTree) (s : string) : FTree * Z :=
  let c := FTree_GetEncodedValue t s in
  if c <? 0
  then ({| ft_values := ft_values t ++ [s]; ft_changed := true; ft_locks := ft_locks t |},
        Z.of_nat (length (ft_values t)))
  else (t, c).

Definition FTree_Clone (t : FTree) : FTree :=
  {| ft_values := ft_values t; ft_changed := ft_changed t; ft_locks := 0 |}.

Definition FTree_Changed (t : FTree) : bool := ft_changed t.

Definition FTree_Unlock (t : FTree) : FTree :=
  {| ft_values := ft_values t; ft_changed := ft_changed t; ft_locks := ft_locks t - 1 |}.

Definition FTree_Lock (t : FTree) : FTree :=
  {| ft_values := ft_values t; ft_changed := ft_changed t; ft_locks := ft_locks t + 1 |}.

Definition FTree_GetRealValue (t : FTree) (code : Z) : BString :=
  if code <? 0 then None else ft_values t !! Z.to_nat code.


Definition FTree_LoadData (vals : list string) : FTree :=
  {| ft_values := vals; ft_changed := false; ft_locks := 0 |}.

(** ** Packs *)

(** The capability set of core/pack_int.h and core/pack_str.h.  A pack keeps
    a pointer to its DPN and refreshes the statistics there, so every
    mutator takes the DPN and returns it updated.  The constructor reads the
    body from the data file and [Save] writes it; both can fail with an
    exception ([None]).  The laws say what the controller relies on: loading
    a batch advances the row count of the DPN by the size of the batch, and
    no pack operation touches the fields of the DPN that the controller
    owns. *)
Definition dpn_control_eq (d d' : DPN) : Prop :=
  used d' = used d /\ local d' = local d /\ base d' = base d /\
  xmin d' = xmin d /\ xmax d' = xmax d /\ pack_ptr d' = pack_ptr d.

Class PackOps {F : Float64} := {
  Pack : Type;
  Pack_new : PackType -> DPN -> option Pack;
  Pack_Clone : Pack -> Pack;
  Pack_Save : Pack -> DPN -> option (Pack * DPN);
  PackInt_LoadValues : Pack -> DPN -> ValueCache -> option Z -> Pack * DPN;
  PackStr_LoadValues : Pack -> DPN -> ValueCache -> Pack * DPN;
  Pack_UpdateValue : Pack -> DPN -> Z -> Value -> Pack * DPN;
  Pack_IsNull : Pack -> Z -> bool;
  PackStr_GetValueBinary : Pack -> Z -> BString;
  PackInt_GetValInt : Pack -> Z -> Z;
  PackInt_LoadValues_nr : forall p d vc nv,
    nr (PackInt_LoadValues p d vc nv).2 = u32 (nr d + vc_NumOfValues vc);
  PackStr_LoadValues_nr : forall p d vc,
    nr (PackStr_LoadValues p d vc).2 = u32 (nr d + vc_NumOfValues vc);
  PackInt_LoadValues_control : forall p d vc nv,
    dpn_control_eq d (PackInt_LoadValues p d vc nv).2;
  PackStr_LoadValues_control : forall p d vc,
    dpn_control_eq d (PackStr_LoadValues p d vc).2;
  Pack_UpdateValue_control : forall p d n v,
    dpn_control_eq d (Pack_UpdateValue p d n v).2;
  Pack_Save_control : forall p d p' d',
    Pack_Save p d = Some (p', d') -> dpn_control_eq d d' /\ nr d' = nr d /\ nn d' = nn d;
}.

(** A pack object in memory: the body, the arena index of the DPN it points
    to, and its lock count in the memory manager. *)
Record PackObj {F : Float64} {P : PackOps} := {
  po_body : Pack;
  po_dpn : PACK_INDEX;
  po_locks : Z;
}.

(** ** Bitmap filters over rows *)

(** Modelled from the spec: core/filter.h is not among the sources; MinS and
    MaxS run "over a bitmap filter" with one block of bits per pack.  The
    iterator over the set bits ([FilterOnesIterator]) is the list of the
    positions (pack, offset in pack) still to visit, in ascending order. *)
Record Filter := { f_blocks : list (list bool) }.

Definition Filter_NumOfBlocks (f : Filter) : Z := Z.of_nat (length (f_blocks f)).

Definition Filter_IsEmpty (f : Filter) : bool :=
  forallb (fun b => forallb negb b) (f_blocks f).

Definition Filter_IsFull (f : Filter) (b : Z) : bool :=
  if b <? 0 then false
  else match f_blocks f !! Z.to_nat b with
       | Some bits => forallb id bits
       | None => false
       end.

Fixpoint ones_of_block (b : Z) (n : Z) (bits : list bool) : list (Z * Z) :=
  match bits with
  | [] => []
  | x :: bits' => (if x then [(b, n)] else []) ++ ones_of_block b (n + 1) bits'
  end.

Fixpoint ones_of_blocks (b : Z) (blocks : list (list bool)) : list (Z * Z) :=
  match blocks with
  | [] => []
  | bits :: blocks' => ones_of_block b 0 bits ++ ones_of_blocks (b + 1) blocks'
  end.

Definition FilterOnesIterator (f : Filter) : list (Z * Z) := ones_of_blocks 0 (f_blocks f).

Fixpoint it_skip_pack (b : Z) (it : list (Z * Z)) : list (Z * Z) :=
  match it with
  | [] => []
  | x :: it' => if bool_decide (x.1 = b) then it_skip_pack b it' else it
  end.

Definition it_NextPack (it : list (Z * Z)) : list (Z * Z) :=
  match it with
  | [] => []
  | (b, _) :: _ => it_skip_pack b it
  end.

(** ** The engine, the column share and the controller *)

(** A rough-set filter handle (core/rsi_*.h), kept as the list of the packs
    it was updated for. *)
Abbreviation RSIndex := (list Z).

(** The files whose removal [PostCommit] defers. *)
Inductive DeferPath :=
  | VersionPath (v : TX_ID)
  | FilterPath (t : FilterType) (v : TX_ID).

(** index::RCTableIndex, the primary-key index of the table. *)
Inductive IndexKey := KeyStr (s : BString) | KeyInt (i : Z).

Record RCTableIndex := {
  ti_KeyCols : list Z;
  ti_UpdateIndex : IndexKey -> IndexKey -> Z -> ErrorCode;
}.

(** Modelled from the spec: the engine handle [rceng] with the interfaces
    the controller consumes (section 6): the object cache for packs and
    dictionaries with the objects it keeps alive, the column's files, the
    queue of deferred removals, [MaxXID()] and the system variables.  A pack
    coordinate of this column is the arena index of its DPN; a dictionary
    coordinate is the dictionary version. *)
Record Engine {F : Float64} {P : PackOps} := {
  pack_heap : gmap Z PackObj;
  pack_cache : gmap PACK_INDEX Z;
  dict_heap : gmap Z FTree;
  dict_cache : gmap Z Z;
  heap_count : Z;
  filter_files : FilterType -> gmap TX_ID RSIndex;
  version_files : gmap TX_ID (COL_VER_HDR * list PACK_INDEX);
  dict_files : gmap Z (list string);
  deferred : list (DeferPath * Z);
  max_xid : TX_ID;
  sysvar_sync_buffers : bool;
  sysvar_enable_histogram_cmap_bloom : bool;
  table_index : option RCTableIndex;
}.

(** ColumnShare: the DPN arena and the filter-presence flags. *)
Record ColumnShare := {
  dpns : list DPN;
  has_filter_hist : bool;
  has_filter_cmap : bool;
  has_filter_bloom : bool;
}.

(** The members of RCAttr.  [m_tx] is the transaction handle, known by the
    id it answers to [GetID()]; [m_dict] is the address of the dictionary
    object. *)
Record RCAttr {TO : TextOps} := {
  hdr : COL_VER_HDR;
  m_idx : list PACK_INDEX;
  m_version : TX_ID;
  m_tx : option TX_ID;
  current_tx : option TX_ID;
  no_change : bool;
  m_dict : option Z;
  filter_hist : option RSIndex;
  filter_cmap : option RSIndex;
  filter_bloom : option RSIndex;
  is_unique : bool;
  is_unique_updated : bool;
  pss : Z;
  ct : ColumnType;
  pack_type : PackType;
  m_tid : Z;
  m_cid : Z;
}.

Record World {TO : TextOps} {F : Float64} {P : PackOps} := {
  attr : RCAttr;
  share : ColumnShare;
  eng : Engine;
}.

(** ** Outcomes and the monad *)

Inductive Exn :=
  | DatabaseException (msg : string)
  | DupKeyException
  | Exception (msg : string)
  | IOException
  | BadAlloc.

Inductive Fault := AssertFailed | NullPointer | OutOfRange | BadCast.

Inductive Outcome (A : Type) :=
  | Ret (a : A)
  | Throw (e : Exn)
  | Crash (f : Fault)
  | OutOfFuel.
Arguments Ret {A} a.
Arguments Throw {A} e.
Arguments Crash {A} f.
Arguments OutOfFuel {A}.

Section Model.
Context {CD : CommonDefs} {DL : DpnLayout} {TI : TypeInfo} {F : Float64}
        {TO : TextOps} {P : PackOps}.

Definition M (A : Type) : Type := World -> Outcome A * World.

#[export] Instance M_ret : MRet M := fun A a w => (Ret a, w).

#[export] Instance M_bind : MBind M := fun A B f m w =>
  match m w with
  | (Ret a, w') => f a w'
  | (Throw e, w') => (Throw e, w')
  | (Crash c, w') => (Crash c, w')
  | (OutOfFuel, w') => (OutOfFuel, w')
  end.

(** The state a computation ends in, and its outcome. *)
Definition run {A} (m : M A) (w : World) : World := (m w).2.
Definition outcome {A} (m : M A) (w : World) : Outcome A := (m w).1.

Definition throw {A} (e : Exn) : M A := fun w => (Throw e, w).
Definition crash {A} (c : Fault) : M A := fun w => (Crash c, w).
Definition out_of_fuel {A} : M A := fun w => (OutOfFuel, w).
Definition gets {A} (f : World -> A) : M A := fun w => (Ret (f w), w).
Definition modify (f : World -> World) : M unit := fun w => (Ret tt, f w).

(** [ASSERT(cond, msg)] of core/tools.h. *)
Definition ASSERT (cond : bool) : M unit :=
  if cond then mret tt else crash AssertFailed.

(** [try { m } catch (...) { h; throw; }]. *)
Definition try_catch_rethrow {A} (m : M A) (h : M unit) : M A := fun w =>
  match m w with
  | (Throw e, w') =>
      match h w' with
      | (Ret _, w'') => (Throw e, w'')
      | (Throw e', w'') => (Throw e', w'')
      | (Crash c, w'') => (Crash c, w'')
      | (OutOfFuel, w'') => (OutOfFuel, w'')
      end
  | r => r
  end.

(** A scope guard (FunctionExecutor): [fin] runs when [m] is left, by return
    or by exception; a guard that does not return normally takes over the
    outcome. *)
Definition scope_exit {A} (m : M A) (fin : M unit) : M A := fun w =>
  match m w with
  | (Ret a, w') =>
      match fin w' with
      | (Ret _, w'') => (Ret a, w'')
      | (Throw e, w'') => (Throw e, w'')
      | (Crash c, w'') => (Crash c, w'')
      | (OutOfFuel, w'') => (OutOfFuel, w'')
      end
  | (Throw e, w') =>
      match fin w' with
      | (Ret _, w'') => (Throw e, w'')
      | (Throw _, w'') => (Crash AssertFailed, w'')
      | (Crash c, w'') => (Crash c, w'')
      | (OutOfFuel, w'') => (OutOfFuel, w'')
      end
  | r => r
  end.

Fixpoint for_each {A} (l : list A) (body : A -> M unit) : M unit :=
  match l with
  | [] => mret tt
  | x :: l' => body x ;; for_each l' body
  end.

(** The indices [0 .. n-1] of a loop [for (i = 0; i < n; i++)]. *)
Definition indices (n : nat) : list Z := Z.of_nat <$> seq 0 n.

(** ** Field updates *)

Definition DPN_set_local (b : bool) (d : DPN) : DPN :=
  {| used := used d; local := b; synced := synced d; base := base d; nr := nr d;
     nn := nn d; xmin := xmin d; xmax := xmax d; addr := addr d; len := len d;
     min_i := min_i d; max_i := max_i d; sum_i := sum_i d; pack_ptr := pack_ptr d |}.

Definition DPN_set_synced (b : bool) (d : DPN) : DPN :=
  {| used := used d; local := local d; synced := b; base := base d; nr := nr d;
     nn := nn d; xmin := xmin d; xmax := xmax d; addr := addr d; len := len d;
     min_i := min_i d; max_i := max_i d; sum_i := sum_i d; pack_ptr := pack_ptr d |}.

Definition DPN_set_counts (r n : Z) (d : DPN) : DPN :=
  {| used := used d; local := local d; synced := synced d; base := base d; nr := r;
     nn := n; xmin := xmin d; xmax := xmax d; addr := addr d; len := len d;
     min_i := min_i d; max_i := max_i d; sum_i := sum_i d; pack_ptr := pack_ptr d |}.

Definition DPN_set_stats (mn mx sm : Z) (d : DPN) : DPN :=
  {| used := used d; local := local d; synced := synced d; base := base d; nr := nr d;
     nn := nn d; xmin := xmin d; xmax := xmax d; addr := addr d; len := len d;
     min_i := mn; max_i := mx; sum_i := sm; pack_ptr := pack_ptr d |}.

Definition DPN_set_xmax (x : TX_ID) (d : DPN) : DPN :=
  {| used := used d; local := local d; synced := synced d; base := base d; nr := nr d;
     nn := nn d; xmin := xmin d; xmax := x; addr := addr d; len := len d;
     min_i := min_i d; max_i := max_i d; sum_i := sum_i d; pack_ptr := pack_ptr d |}.

Definition DPN_SetPackPtr (v : Z) (d : DPN) : DPN :=
  {| used := used d; local := local d; synced := synced d; base := base d; nr := nr d;
     nn := nn d; xmin := xmin d; xmax := xmax d; addr := addr d; len := len d;
     min_i := min_i d; max_i := max_i d; sum_i := sum_i d; pack_ptr := v |}.

Definition hdr_set_counts (r n sz : Z) (h : COL_VER_HDR) : COL_VER_HDR :=
  {| h_nr := r; h_nn := n; h_np := h_np h; h_auto_inc_next := h_auto_inc_next h;
     h_min := h_min h; h_max := h_max h; h_dict_ver := h_dict_ver h;
     h_unique := h_unique h; h_unique_updated := h_unique_updated h;
     h_natural_size := sz; h_compressed_size := h_compressed_size h |}.

Definition hdr_set_nn (n : Z) (h : COL_VER_HDR) : COL_VER_HDR :=
  hdr_set_counts (h_nr h) n (h_natural_size h) h.

Definition hdr_set_min (v : Z) (h : COL_VER_HDR) : COL_VER_HDR :=
  {| h_nr := h_nr h; h_nn := h_nn h; h_np := h_np h; h_auto_inc_next := h_auto_inc_next h;
     h_min := v; h_max := h_max h; h_dict_ver := h_dict_ver h;
     h_unique := h_unique h; h_unique_updated := h_unique_updated h;
     h_natural_size := h_natural_size h; h_compressed_size := h_compressed_size h |}.

Definition hdr_set_max (v : Z) (h : COL_VER_HDR) : COL_VER_HDR :=
  {| h_nr := h_nr h; h_nn := h_nn h; h_np := h_np h; h_auto_inc_next := h_auto_inc_next h;
     h_min := h_min h; h_max := v; h_dict_ver := h_dict_ver h;
     h_unique := h_unique h; h_unique_updated := h_unique_updated h;
     h_natural_size := h_natural_size h; h_compressed_size := h_compressed_size h |}.

Definition hdr_set_dict_ver (v : Z) (h : COL_VER_HDR) : COL_VER_HDR :=
  {| h_nr := h_nr h; h_nn := h_nn h; h_np := h_np h; h_auto_inc_next := h_auto_inc_next h;
     h_min := h_min h; h_max := h_max h; h_dict_ver := v;
     h_unique := h_unique h; h_unique_updated := h_unique_updated h;
     h_natural_size := h_natural_size h; h_compressed_size := h_compressed_size h |}.

Definition hdr_set_saved (u uu : bool) (np cs : Z) (h : COL_VER_HDR) : COL_VER_HDR :=
  {| h_nr := h_nr h; h_nn := h_nn h; h_np := np; h_auto_inc_next := h_auto_inc_next h;
     h_min := h_min h; h_max := h_max h; h_dict_ver := h_dict_ver h;
     h_unique := u; h_unique_updated := uu;
     h_natural_size := h_natural_size h; h_compressed_size := cs |}.

(** [hdr = {}]. *)
Definition hdr_zero : COL_VER_HDR :=
  {| h_nr := 0; h_nn := 0; h_np := 0; h_auto_inc_next := 0; h_min := 0; h_max := 0;
     h_dict_ver := 0; h_unique := false; h_unique_updated := false;
     h_natural_size := 0; h_compressed_size := 0 |}.

Definition upd_attr (f : RCAttr -> RCAttr) (w : World) : World :=
  {| attr := f (attr w); share := share w; eng := eng w |}.
Definition upd_share (f : ColumnShare -> ColumnShare) (w : World) : World :=
  {| attr := attr w; share := f (share w); eng := eng w |}.
Definition upd_eng (f : Engine -> Engine) (w : World) : World :=
  {| attr := attr w; share := share w; eng := f (eng w) |}.

Definition attr_set_hdr (h : COL_VER_HDR) (a : RCAttr) : RCAttr :=
  {| hdr := h; m_idx := m_idx a; m_version := m_version a; m_tx := m_tx a;
     current_tx := current_tx a; no_change := no_change a; m_dict := m_dict a;
     filter_hist := filter_hist a; filter_cmap := filter_cmap a;
     filter_bloom := filter_bloom a; is_unique := is_unique a;
     is_unique_updated := is_unique_updated a; pss := pss a; ct := ct a;
     pack_type := pack_type a; m_tid := m_tid a; m_cid := m_cid a |}.

Definition attr_set_m_idx (l : list PACK_INDEX) (a : RCAttr) : RCAttr :=
  {| hdr := hdr a; m_idx := l; m_version := m_version a; m_tx := m_tx a;
     current_tx := current_tx a; no_change := no_change a; m_dict := m_dict a;
     filter_hist := filter_hist a; filter_cmap := filter_cmap a;
     filter_bloom := filter_bloom a; is_unique := is_unique a;
     is_unique_updated := is_unique_updated a; pss := pss a; ct := ct a;
     pack_type := pack_type a; m_tid := m_tid a; m_cid := m_cid a |}.

Definition attr_set_tx (v : TX_ID) (tx cur : option TX_ID) (a : RCAttr) : RCAttr :=
  {| hdr := hdr a; m_idx := m_idx a; m_version := v; m_tx := tx;
     current_tx := cur; no_change := no_change a; m_dict := m_dict a;
     filter_hist := filter_hist a; filter_cmap := filter_cmap a;
     filter_bloom := filter_bloom a; is_unique := is_unique a;
     is_unique_updated := is_unique_updated a; pss := pss a; ct := ct a;
     pack_type := pack_type a; m_tid := m_tid a; m_cid := m_cid a |}.

Definition attr_set_no_change (b : bool) (a : RCAttr) : RCAttr :=
  {| hdr := hdr a; m_idx := m_idx a; m_version := m_version a; m_tx := m_tx a;
     current_tx := current_tx a; no_change := b; m_dict := m_dict a;
     filter_hist := filter_hist a; filter_cmap := filter_cmap a;
     filter_bloom := filter_bloom a; is_unique := is_unique a;
     is_unique_updated := is_unique_updated a; pss := pss a; ct := ct a;
     pack_type := pack_type a; m_tid := m_tid a; m_cid := m_cid a |}.

Definition attr_set_m_dict (p : option Z) (a : RCAttr) : RCAttr :=
  {| hdr := hdr a; m_idx := m_idx a; m_version := m_version a; m_tx := m_tx a;
     current_tx := current_tx a; no_change := no_change a; m_dict := p;
     filter_hist := filter_hist a; filter_cmap := filter_cmap a;
     filter_bloom := filter_bloom a; is_unique := is_unique a;
     is_unique_updated := is_unique_updated a; pss := pss a; ct := ct a;
     pack_type := pack_type a; m_tid := m_tid a; m_cid := m_cid a |}.

Definition attr_set_filters (fh fc fb : option RSIndex) (a : RCAttr) : RCAttr :=
  {| hdr := hdr a; m_idx := m_idx a; m_version := m_version a; m_tx := m_tx a;
     current_tx := current_tx a; no_change := no_change a; m_dict := m_dict a;
     filter_hist := fh; filter_cmap := fc;
     filter_bloom := fb; is_unique := is_unique a;
     is_unique_updated := is_unique_updated a; pss := pss a; ct := ct a;
     pack_type := pack_type a; m_tid := m_tid a; m_cid := m_cid a |}.

Definition attr_set_unique (u uu : bool) (a : RCAttr) : RCAttr :=
  {| hdr := hdr a; m_idx := m_idx a; m_version := m_version a; m_tx := m_tx a;
     current_tx := current_tx a; no_change := no_change a; m_dict := m_dict a;
     filter_hist := filter_hist a; filter_cmap := filter_cmap a;
     filter_bloom := filter_bloom a; is_unique := u;
     is_unique_updated := uu; pss := pss a; ct := ct a;
     pack_type := pack_type a; m_tid := m_tid a; m_cid := m_cid a |}.

Definition share_set_dpns (l : list DPN) (s : ColumnShare) : ColumnShare :=
  {| dpns := l; has_filter_hist := has_filter_hist s;
     has_filter_cmap := has_filter_cmap s; has_filter_bloom := has_filter_bloom s |}.

Definition eng_set_packs (h : gmap Z PackObj) (c : gmap PACK_INDEX Z) (n : Z)
    (e : Engine) : Engine :=
  {| pack_heap := h; pack_cache := c; dict_heap := dict_heap e;
     dict_cache := dict_cache e; heap_count := n; filter_files := filter_files e;
     version_files := version_files e; dict_files := dict_files e;
     deferred := deferred e; max_xid := max_xid e;
     sysvar_sync_buffers := sysvar_sync_buffers e;
     sysvar_enable_histogram_cmap_bloom := sysvar_enable_histogram_cmap_bloom e;
     table_index := table_index e |}.

Definition eng_set_dicts (h : gmap Z FTree) (c : gmap Z Z) (n : Z)
    (e : Engine) : Engine :=
  {| pack_heap := pack_heap e; pack_cache := pack_cache e; dict_heap := h;
     dict_cache := c; heap_count := n; filter_files := filter_files e;
     version_files := version_files e; dict_files := dict_files e;
     deferred := deferred e; max_xid := max_xid e;
     sysvar_sync_buffers := sysvar_sync_buffers e;
     sysvar_enable_histogram_cmap_bloom := sysvar_enable_histogram_cmap_bloom e;
     table_index := table_index e |}.

Definition eng_set_files (ff : FilterType -> gmap TX_ID RSIndex)
    (vf : gmap TX_ID (COL_VER_HDR * list PACK_INDEX)) (df : gmap Z (list string))
    (e : Engine) : Engine :=
  {| pack_heap := pack_heap e; pack_cache := pack_cache e; dict_heap := dict_heap e;
     dict_cache := dict_cache e; heap_count := heap_count e; filter_files := ff;
     version_files := vf; dict_files := df;
     deferred := deferred e; max_xid := max_xid e;
     sysvar_sync_buffers := sysvar_sync_buffers e;
     sysvar_enable_histogram_cmap_bloom := sysvar_enable_histogram_cmap_bloom e;
     table_index := table_index e |}.

Definition eng_set_deferred (l : list (DeferPath * Z)) (e : Engine) : Engine :=
  {| pack_heap := pack_heap e; pack_cache := pack_cache e; dict_heap := dict_heap e;
     dict_cache := dict_cache e; heap_count := heap_count e;
     filter_files := filter_files e;
     version_files := version_files e; dict_files := dict_files e;
     deferred := l; max_xid := max_xid e;
     sysvar_sync_buffers := sysvar_sync_buffers e;
     sysvar_enable_histogram_cmap_bloom := sysvar_enable_histogram_cmap_bloom e;
     table_index := table_index e |}.

(** ** DPN methods *)

(** Modelled from the spec: the inline members of core/dpn.h.  "A trivial
    DPN (addr == DPN_INVALID_ADDR)", a nulls-only DPN has as many nulls as
    rows (as [Create] writes them), and section 4.F.5 for the tagged word:
    [IncRef] adds [tag_one] only to a pointer-tagged word, [CAS] replaces the
    word when it holds the expected value. *)
Definition DPN_Trivial (d : DPN) : bool := addr d =? DPN_INVALID_ADDR.
Definition DPN_NullOnly (d : DPN) : bool := nr d =? nn d.
Definition DPN_IsLocal (d : DPN) : bool := local d.
Definition DPN_GetPackPtr (d : DPN) : Z := pack_ptr d.

Definition DPN_CAS (expected desired : Z) (d : DPN) : bool * DPN :=
  if pack_ptr d =? expected then (true, DPN_SetPackPtr desired d) else (false, d).

Definition DPN_IncRef (d : DPN) : bool * DPN :=
  let v := pack_ptr d in
  if (v =? 0) || (v =? loading_flag) then (false, d)
  else (true, DPN_SetPackPtr (u64 (v + tag_one)) d).

(** [dpn.reset()]: every byte zero. *)
Definition DPN_reset : DPN :=
  {| used := false; local := false; synced := false; base := Some 0%nat; nr := 0;
     nn := 0; xmin := 0; xmax := 0; addr := 0; len := 0; min_i := 0; max_i := 0;
     sum_i := 0; pack_ptr := 0 |}.

(** Modelled from the spec: [ColumnShare::alloc_dpn(xid, from)], "allocate a
    new DPN from the share at the writer's xid", with the old DPN as base
    when one is given; the arena "is append-only during a transaction".  The
    new DPN is local and starts with the statistics of its base, or empty
    and without a body. *)
Definition init_dpn (xid : TX_ID) (from : option (PACK_INDEX * DPN)) : DPN :=
  let d0 := match from with
            | Some (_, d) => d
            | None =>
                {| used := false; local := false; synced := false; base := None;
                   nr := 0; nn := 0; xmin := 0; xmax := 0; addr := DPN_INVALID_ADDR;
                   len := 0; min_i := 0; max_i := 0; sum_i := 0; pack_ptr := 0 |}
            end in
  {| used := true; local := true; synced := synced d0; base := fst <$> from;
     nr := nr d0; nn := nn d0; xmin := xid; xmax := MAX_XID; addr := addr d0;
     len := len d0; min_i := min_i d0; max_i := max_i d0; sum_i := sum_i d0;
     pack_ptr := 0 |}.

Definition alloc_dpn (xid : TX_ID) (from : option (PACK_INDEX * DPN)) : M PACK_INDEX :=
  fun w =>
    let arena := dpns (share w) in
    (Ret (length arena), upd_share (share_set_dpns (arena ++ [init_dpn xid from])) w).

(** ** Accessors of the controller (core/rc_attr.h) *)

Definition SizeOfPack : M Z := gets (fun w => Z.of_nat (length (m_idx (attr w)))).
Definition NumOfObj : M Z := gets (fun w => h_nr (hdr (attr w))).
Definition NumOfNulls : M Z := gets (fun w => h_nn (hdr (attr w))).
Definition GetPackType : M PackType := gets (fun w => pack_type (attr w)).
Definition Type_ : M ColumnType := gets (fun w => ct (attr w)).
Definition TypeName : M CT := gets (fun w => ct_TypeName (ct (attr w))).

(** Modelled from the spec: "pack = row >> pss, offset = row & ((1<<pss)-1)". *)
Definition row2pack (row : Z) : M Z := gets (fun w => Z.shiftr row (pss (attr w))).
Definition row2offset (row : Z) : M Z :=
  gets (fun w => Z.land row (Z.shiftl 1 (pss (attr w)) - 1)).

(** [m_idx[i]]; an index outside the vector is a fault. *)
Definition idx_at (i : Z) : M PACK_INDEX := fun w =>
  if i <? 0 then (Crash OutOfRange, w)
  else match m_idx (attr w) !! Z.to_nat i with
       | Some k => (Ret k, w)
       | None => (Crash OutOfRange, w)
       end.

(** [*m_share->get_dpn_ptr(k)], read and written in place. *)
Definition read_dpn (k : PACK_INDEX) : M DPN := fun w =>
  match dpns (share w) !! k with
  | Some d => (Ret d, w)
  | None => (Crash OutOfRange, w)
  end.

Definition upd_dpn (k : PACK_INDEX) (f : DPN -> DPN) (w : World) : World :=
  upd_share (fun s => share_set_dpns (alter f k (dpns s)) s) w.

Definition modify_dpn (k : PACK_INDEX) (f : DPN -> DPN) : M unit := fun w =>
  match dpns (share w) !! k with
  | Some _ => (Ret tt, upd_dpn k f w)
  | None => (Crash OutOfRange, w)
  end.

(** [get_dpn(i)]: the slot of the DPN of pack [i] and its present value. *)
Definition get_dpn (i : Z) : M (PACK_INDEX * DPN) :=
  k ← idx_at i; d ← read_dpn k; mret (k, d).

(** [get_pc(i)]: within one column a pack coordinate is the DPN index. *)
Definition get_pc (i : Z) : M PACK_INDEX := idx_at i.

(** [get_pack(i)], the pointer bits of the tagged word (line 1171). *)
Definition get_pack (i : Z) : M Z :=
  '(_, d) ← get_dpn i; mret (Z.land (DPN_GetPackPtr d) tag_mask).

(** ** Objects and the cache *)

Definition pack_deref (a : Z) : M PackObj := fun w =>
  if a =? 0 then (Crash NullPointer, w)
  else match pack_heap (eng w) !! a with
       | Some o => (Ret o, w)
       | None => (Crash NullPointer, w)
       end.

Definition pack_store (a : Z) (o : PackObj) : M unit :=
  modify (upd_eng (fun e =>
    eng_set_packs (<[a := o]> (pack_heap e)) (pack_cache e) (heap_count e) e)).

(** [std::make_shared]: the next address of the memory, or
    [std::bad_alloc] when the memory is used up. *)
Definition pack_alloc (o : PackObj) : M Z := fun w =>
  let e := eng w in
  let a := heap_addr (heap_count e) in
  if (0 <=? heap_count e) && (heap_count e <? heap_limit) then
    (Ret a, upd_eng (eng_set_packs (<[a := o]> (pack_heap e)) (pack_cache e)
                                   (heap_count e + 1)) w)
  else (Throw BadAlloc, w).

Definition PackObj_lock (d : Z) (o : PackObj) : PackObj :=
  {| po_body := po_body o; po_dpn := po_dpn o; po_locks := po_locks o + d |}.

Definition PackObj_SetDPN (k : PACK_INDEX) (o : PackObj) : PackObj :=
  {| po_body := po_body o; po_dpn := k; po_locks := po_locks o |}.

Definition PackObj_set_body (b : Pack) (o : PackObj) : PackObj :=
  {| po_body := b; po_dpn := po_dpn o; po_locks := po_locks o |}.

(** [p->Unlock()]. *)
Definition Pack_Unlock (a : Z) : M unit :=
  o ← pack_deref a; pack_store a (PackObj_lock (-1) o).

(** [RCAttr::Fetch(const PackCoordinate &)] (line 791): a new pack object on
    the DPN of the coordinate. *)
Definition Fetch_Pack (pc : PACK_INDEX) : M PackObj :=
  d ← read_dpn pc;
  pt ← GetPackType;
  match Pack_new pt d with
  | Some b => mret {| po_body := b; po_dpn := pc; po_locks := 1 |}
  | None => throw IOException
  end.

Definition cache_PutObject_Pack (pc : PACK_INDEX) (a : Z) : M unit :=
  modify (upd_eng (fun e =>
    eng_set_packs (pack_heap e) (<[pc := a]> (pack_cache e)) (heap_count e) e)).

Definition cache_DropObject_Pack (pc : PACK_INDEX) : M unit :=
  modify (upd_eng (fun e =>
    eng_set_packs (pack_heap e) (delete pc (pack_cache e)) (heap_count e) e)).

(** [GetLockedObject]: the cached object, locked, or a null pointer. *)
Definition cache_GetLockedObject_Pack (pc : PACK_INDEX) : M Z :=
  c ← gets (fun w => pack_cache (eng w));
  match c !! pc with
  | Some a => o ← pack_deref a; pack_store a (PackObj_lock 1 o);; mret a
  | None => mret 0
  end.

(** [GetOrFetchObject<Pack>(pc, this)]: the cached object, locked, or the
    one [Fetch] produces, which then enters the cache. *)
Definition cache_GetOrFetchObject_Pack (pc : PACK_INDEX) : M Z :=
  c ← gets (fun w => pack_cache (eng w));
  match c !! pc with
  | Some a => o ← pack_deref a; pack_store a (PackObj_lock 1 o);; mret a
  | None => o ← Fetch_Pack pc; a ← pack_alloc o; cache_PutObject_Pack pc a;; mret a
  end.

Definition dict_deref (p : option Z) : M FTree := fun w =>
  match p with
  | None => (Crash NullPointer, w)
  | Some a => match dict_heap (eng w) !! a with
              | Some t => (Ret t, w)
              | None => (Crash NullPointer, w)
              end
  end.

Definition dict_store (a : Z) (t : FTree) : M unit :=
  modify (upd_eng (fun e =>
    eng_set_dicts (<[a := t]> (dict_heap e)) (dict_cache e) (heap_count e) e)).

Definition dict_alloc (t : FTree) : M Z := fun w =>
  let e := eng w in
  let a := heap_addr (heap_count e) in
  if (0 <=? heap_count e) && (heap_count e <? heap_limit) then
    (Ret a, upd_eng (eng_set_dicts (<[a := t]> (dict_heap e)) (dict_cache e)
                                   (heap_count e + 1)) w)
  else (Throw BadAlloc, w).

Definition cache_PutObject_FTree (ver : Z) (a : Z) : M unit :=
  modify (upd_eng (fun e =>
    eng_set_dicts (dict_heap e) (<[ver := a]> (dict_cache e)) (heap_count e) e)).

(** [RCAttr::Fetch(const FTreeCoordinate &)] (line 797): the file read is the
    one named by [hdr.dict_ver]. *)
Definition Fetch_FTree : M FTree :=
  v ← gets (fun w => h_dict_ver (hdr (attr w)));
  files ← gets (fun w => dict_files (eng w));
  match files !! v with
  | Some vals => mret (FTree_Lock (FTree_LoadData vals))
  | None => throw IOException
  end.

Definition cache_GetOrFetchObject_FTree (ver : Z) : M Z :=
  c ← gets (fun w => dict_cache (eng w));
  match c !! ver with
  | Some a => t ← dict_deref (Some a); dict_store a (FTree_Lock t);; mret a
  | None => t ← Fetch_FTree; a ← dict_alloc t; cache_PutObject_FTree ver a;; mret a
  end.

(** ** Version life cycle *)

(** [m_tx->GetID()]. *)
Definition tx_GetID : M TX_ID := fun w =>
  match m_tx (attr w) with
  | Some x => (Ret x, w)
  | None => (Crash NullPointer, w)
  end.

Definition upd_hdr (f : COL_VER_HDR -> COL_VER_HDR) (w : World) : World :=
  upd_attr (fun a => attr_set_hdr (f (hdr a)) a) w.
Definition modify_hdr (f : COL_VER_HDR -> COL_VER_HDR) : M unit := modify (upd_hdr f).
Definition get_hdr : M COL_VER_HDR := gets (fun w => hdr (attr w)).
Definition set_no_change (b : bool) : M unit := modify (upd_attr (attr_set_no_change b)).
Definition set_m_dict (p : option Z) : M unit := modify (upd_attr (attr_set_m_dict p)).
Definition set_m_idx (l : list PACK_INDEX) : M unit := modify (upd_attr (attr_set_m_idx l)).

(** [FTree::SaveData(Path() / COL_DICT_DIR / std::to_string(ver))]. *)
Definition dict_SaveData (ver : Z) (t : FTree) : M unit :=
  modify (upd_eng (fun e =>
    eng_set_files (filter_files e) (version_files e)
                  (<[ver := ft_values t]> (dict_files e)) e)).

(** [RCAttr::LoadVersion] (line 157).  The version file of [xid] holds a
    header and the indices written after it.  Modelled from the spec:
    [StoneDBFile::OpenReadOnly] and [ReadExact] are not among the sources;
    "fails with NotFound if the file is missing", and a file that holds
    fewer than [hdr.np] indices fails the second read, which leaves in
    [m_idx] what [resize] made of it with the indices that were read in
    front.  [resize] keeps the leading entries and fills up with zeros. *)
Definition LoadVersion (xid : TX_ID) : M unit :=
  files ← gets (fun w => version_files (eng w));
  match files !! xid with
  | None => throw IOException
  | Some (h, idx) =>
      modify_hdr (fun _ => h);;
      modify (upd_attr (attr_set_unique (h_unique h) (h_unique_updated h)));;
      (if negb (h_dict_ver h =? 0)
       then a ← cache_GetOrFetchObject_FTree (h_dict_ver h); set_m_dict (Some a)
       else mret tt);;
      old ← gets (fun w => m_idx (attr w));
      let np := Z.to_nat (h_np h) in
      let resized := take np old ++ replicate (np - length old) 0%nat in
      set_m_idx resized;;
      if (length idx <? np)%nat
      then set_m_idx (idx ++ drop (length idx) resized);; throw IOException
      else set_m_idx (take np idx)
  end.


(** [RCAttr::LoadPackInfo] (line 348). *)
Definition LoadPackInfo : M unit :=
  h ← get_hdr;
  d ← gets (fun w => m_dict (attr w));
  if negb (h_dict_ver h =? 0) && bool_decide (d = None)
  then a ← cache_GetOrFetchObject_FTree (h_dict_ver h); set_m_dict (Some a)
  else mret tt.

(** [RCAttr::GetPackOntologicalStatus] (line 354). *)
Definition GetPackOntologicalStatus (pack_no : Z) : M PackOntologicalStatus :=
  LoadPackInfo;;
  if pack_no <? 0 then mret NULLS_ONLY
  else
    '(_, dpn) ← get_dpn pack_no;
    if DPN_NullOnly dpn then mret NULLS_ONLY
    else
      pt ← GetPackType;
      if bool_decide (pt = PT_INT) && (min_i dpn =? max_i dpn)
      then (if nn dpn =? 0 then mret UNIFORM else mret UNIFORM_AND_NULLS)
      else mret NORMAL.

(** ** Rough-set filters *)

Definition set_filter_hist (f : option RSIndex) : M unit :=
  modify (upd_attr (fun a => attr_set_filters f (filter_cmap a) (filter_bloom a) a)).
Definition set_filter_cmap (f : option RSIndex) : M unit :=
  modify (upd_attr (fun a => attr_set_filters (filter_hist a) f (filter_bloom a) a)).
Definition set_filter_bloom (f : option RSIndex) : M unit :=
  modify (upd_attr (fun a => attr_set_filters (filter_hist a) (filter_cmap a) f a)).

(** [std::make_shared<RSIndex_*>(Path() / COL_FILTER_DIR, v)], also what the
    filter cache produces through [filter_creator]: the filter of version
    [v] as its file has it, empty without a file. *)
Definition RSIndex_open (t : FilterType) (v : TX_ID) : M RSIndex :=
  gets (fun w => default [] (filter_files (eng w) t !! v)).

(** [RCAttr::GetFilter_Hist] (line 1175). *)
Definition GetFilter_Hist : M (option RSIndex) :=
  en ← gets (fun w => sysvar_enable_histogram_cmap_bloom (eng w));
  if negb en then mret None
  else
    has ← gets (fun w => has_filter_hist (share w));
    if negb has then mret None
    else
      tx ← gets (fun w => m_tx (attr w));
      cur ← gets (fun w => filter_hist (attr w));
      v ← gets (fun w => m_version (attr w));
      match cur with
      | Some f => mret (Some f)
      | None => f ← RSIndex_open FT_HIST v; set_filter_hist (Some f);; mret (Some f)
      end.

(** [RCAttr::GetFilter_CMap] (line 1192). *)
Definition GetFilter_CMap : M (option RSIndex) :=
  en ← gets (fun w => sysvar_enable_histogram_cmap_bloom (eng w));
  if negb en then mret None
  else
    has ← gets (fun w => has_filter_cmap (share w));
    if negb has then mret None
    else
      tx ← gets (fun w => m_tx (attr w));
      cur ← gets (fun w => filter_cmap (attr w));
      v ← gets (fun w => m_version (attr w));
      match tx with
      | Some _ =>
          match cur with
          | Some f => mret (Some f)
          | None => f ← RSIndex_open FT_CMAP v; set_filter_cmap (Some f);; mret (Some f)
          end
      | None => f ← RSIndex_open FT_CMAP v; mret (Some f)
      end.

(** [RCAttr::GetFilter_Bloom] (line 1207). *)
Definition GetFilter_Bloom : M (option RSIndex) :=
  en ← gets (fun w => sysvar_enable_histogram_cmap_bloom (eng w));
  if negb en then mret None
  else
    has ← gets (fun w => has_filter_bloom (share w));
    if negb has then mret None
    else
      tx ← gets (fun w => m_tx (attr w));
      cur ← gets (fun w => filter_bloom (attr w));
      v ← gets (fun w => m_version (attr w));
      match tx with
      | Some _ =>
          match cur with
          | Some f => mret (Some f)
          | None => f ← RSIndex_open FT_BLOOM v; set_filter_bloom (Some f);; mret (Some f)
          end
      | None => f ← RSIndex_open FT_BLOOM v; mret (Some f)
      end.

(** [filter->Update(pi, get_dpn(pi), get_pack(pi))] on the member handle. *)
Definition RSIndex_Update (member : option RSIndex) (pi : Z) : M RSIndex :=
  match member with
  | Some f => _ ← get_dpn pi; _ ← get_pack pi; mret (f ++ [pi])
  | None => crash NullPointer
  end.

(** [RCAttr::UpdateRSI_Hist] (line 1133). *)
Definition UpdateRSI_Hist (pi : Z) : M unit :=
  f ← GetFilter_Hist;
  if bool_decide (f = None) then mret tt
  else
    pt ← GetPackType; n ← NumOfObj;
    if negb (bool_decide (pt = PT_INT)) || (n =? 0) then mret tt
    else
      m ← gets (fun w => filter_hist (attr w));
      f' ← RSIndex_Update m pi; set_filter_hist (Some f').

(** [RCAttr::UpdateRSI_CMap] (line 1143). *)
Definition UpdateRSI_CMap (pi : Z) : M unit :=
  pt ← GetPackType; n ← NumOfObj; ty ← Type_;
  if negb (bool_decide (pt = PT_STR)) || (n =? 0)
     || RequiresUTFConversions (ct_Collation ty) then mret tt
  else
    f ← GetFilter_CMap;
    if bool_decide (f = None) then mret tt
    else
      st ← GetPackOntologicalStatus pi;
      if bool_decide (st = NULLS_ONLY) then mret tt
      else
        m ← gets (fun w => filter_cmap (attr w));
        f' ← RSIndex_Update m pi; set_filter_cmap (Some f').

(** [RCAttr::UpdateRSI_Bloom] (line 1153). *)
Definition UpdateRSI_Bloom (pi : Z) : M unit :=
  f ← GetFilter_Bloom;
  if bool_decide (f = None) then mret tt
  else
    n ← NumOfObj;
    if n =? 0 then mret tt
    else
      st ← GetPackOntologicalStatus pi;
      if bool_decide (st = NULLS_ONLY) then mret tt
      else
        m ← gets (fun w => filter_bloom (attr w));
        f' ← RSIndex_Update m pi; set_filter_bloom (Some f').

(** [RCAttr::RefreshFilter] (line 1165). *)
Definition RefreshFilter (pi : Z) : M unit :=
  UpdateRSI_Bloom pi;; UpdateRSI_CMap pi;; UpdateRSI_Hist pi.

(** [filter->SaveToFile(xid)]. *)
Definition RSIndex_SaveToFile (t : FilterType) (xid : TX_ID) (f : RSIndex) : M unit :=
  modify (upd_eng (fun e =>
    eng_set_files
      (fun t' => if bool_decide (t' = t) then <[xid := f]> (filter_files e t')
                 else filter_files e t')
      (version_files e) (dict_files e) e)).

(** [RCAttr::SaveFilters] (line 236). *)
Definition SaveFilters : M unit :=
  fh ← gets (fun w => filter_hist (attr w));
  match fh with
  | Some f => x ← tx_GetID; RSIndex_SaveToFile FT_HIST x f;; set_filter_hist None
  | None => mret tt
  end;;
  fc ← gets (fun w => filter_cmap (attr w));
  match fc with
  | Some f => x ← tx_GetID; RSIndex_SaveToFile FT_CMAP x f;; set_filter_cmap None
  | None => mret tt
  end;;
  fb ← gets (fun w => filter_bloom (attr w));
  match fb with
  | Some f => x ← tx_GetID; RSIndex_SaveToFile FT_BLOOM x f;; set_filter_bloom None
  | None => mret tt
  end.

(** [get_pack(i)->Save()]: the pack writes its body and refreshes its DPN. *)
Definition Pack_Save_at (a : Z) : M unit :=
  o ← pack_deref a;
  d ← read_dpn (po_dpn o);
  match Pack_Save (po_body o) d with
  | Some (b', _) =>
      pack_store a (PackObj_set_body b' o);;
      modify_dpn (po_dpn o) (fun d => from_option snd d (Pack_Save (po_body o) d))
  | None => throw IOException
  end.

(** The body of the loop of [SaveVersion] (lines 259-277). *)
Definition SaveVersion_pack (i : Z) : M unit :=
  '(_, dpn) ← get_dpn i;
  if DPN_IsLocal dpn then
    set_no_change false;;
    RefreshFilter i;;
    '(k, dpn) ← get_dpn i;
    if DPN_Trivial dpn || synced dpn then
      p ← get_pack i;
      if negb (p =? 0) then
        Pack_Unlock p;;
        pc ← get_pc i;
        cache_DropObject_Pack pc;;
        modify_dpn k (DPN_SetPackPtr 0)
      else mret tt
    else
      p ← get_pack i; Pack_Save_at p;;
      p ← get_pack i; Pack_Unlock p;;
      modify_dpn k (DPN_SetPackPtr 0)
  else mret tt.

(** The [std::accumulate] of [SaveVersion] (lines 294-300), in [size_t]
    arithmetic; [None] when an index of [m_idx] falls outside the arena. *)
Fixpoint accumulate_len (arena : list DPN) (idx : list PACK_INDEX) (sum : Z) : option Z :=
  match idx with
  | [] => Some sum
  | pi :: idx' =>
      match arena !! pi with
      | Some dpn =>
          accumulate_len arena idx'
            (if negb (addr dpn =? DPN_INVALID_ADDR) then u64 (sum + len dpn) else sum)
      | None => None
      end
  end.

(** Writing the version file (lines 303-309): the header, then the first
    [hdr.np] entries of [m_idx]. *)
Definition write_version_file : M unit :=
  x ← tx_GetID;
  h ← get_hdr;
  idx ← gets (fun w => m_idx (attr w));
  if Z.of_nat (length idx) <? h_np h then crash OutOfRange
  else
    modify (upd_eng (fun e =>
      eng_set_files (filter_files e)
                    (<[x := (h, take (Z.to_nat (h_np h)) idx)]> (version_files e))
                    (dict_files e) e)).

(** Saving the dictionary when it was modified (lines 287-289). *)
Definition SaveVersion_dict : M unit :=
  md ← gets (fun w => m_dict (attr w));
  match md with
  | Some a =>
      t ← dict_deref (Some a);
      if FTree_Changed t
      then v ← gets (fun w => h_dict_ver (hdr (attr w))); dict_SaveData v t
      else mret tt
  | None => mret tt
  end.

(** The block for a column that is not empty (lines 283-301). *)
Definition SaveVersion_header : M unit :=
  idx ← gets (fun w => m_idx (attr w));
  if negb (bool_decide (idx = [])) then
    SaveFilters;;
    SaveVersion_dict;;
    arena ← gets (fun w => dpns (share w));
    u ← gets (fun w => is_unique (attr w));
    uu ← gets (fun w => is_unique_updated (attr w));
    match accumulate_len arena idx 0 with
    | Some cs => modify_hdr (hdr_set_saved u uu (Z.of_nat (length idx)) cs)
    | None => crash OutOfRange
    end
  else mret tt.

(** [RCAttr::SaveVersion] (line 255). *)
Definition SaveVersion : M bool :=
  tx ← gets (fun w => m_tx (attr w));
  ASSERT (negb (bool_decide (tx = None)));;
  n ← gets (fun w => length (m_idx (attr w)));
  for_each (indices n) SaveVersion_pack;;
  nc ← gets (fun w => no_change (attr w));
  if (nc : bool) then mret false
  else
    SaveVersion_header;;
    write_version_file;;
    mret true.

(** [rceng->DeferRemove(path, m_tid)]. *)
Definition DeferRemove (p : DeferPath) : M unit :=
  modify (fun w =>
    upd_eng (fun e => eng_set_deferred (deferred e ++ [(p, m_tid (attr w))]) e) w).

(** The body of the loop of [PostCommit] (lines 317-321). *)
Definition PostCommit_pack (i : Z) : M unit :=
  '(k, dpn) ← get_dpn i;
  if DPN_IsLocal dpn then
    modify_dpn k (DPN_set_local false);;
    match base dpn with
    | Some b => mx ← gets (fun w => max_xid (eng w)); modify_dpn b (DPN_set_xmax mx)
    | None => mret tt
    end
  else mret tt.

(** [RCAttr::PostCommit] (line 314). *)
Definition PostCommit : M unit :=
  nc ← gets (fun w => no_change (attr w));
  (if negb nc then
     n ← gets (fun w => length (m_idx (attr w)));
     for_each (indices n) PostCommit_pack;;
     v ← gets (fun w => m_version (attr w));
     DeferRemove (VersionPath v);;
     hb ← gets (fun w => has_filter_bloom (share w));
     (if (hb : bool) then DeferRemove (FilterPath FT_BLOOM v) else mret tt);;
     hc ← gets (fun w => has_filter_cmap (share w));
     (if (hc : bool) then DeferRemove (FilterPath FT_CMAP v) else mret tt);;
     hh ← gets (fun w => has_filter_hist (share w));
     (if (hh : bool) then DeferRemove (FilterPath FT_HIST v) else mret tt);;
     x ← tx_GetID;
     modify (upd_attr (fun a => attr_set_tx x (m_tx a) (current_tx a) a))
   else mret tt);;
  modify (upd_attr (fun a => attr_set_tx (m_version a) None (current_tx a) a)).

(** The body of the loop of [Rollback] (lines 339-343). *)
Definition Rollback_pack (i : Z) : M unit :=
  '(k, dpn) ← get_dpn i;
  if DPN_IsLocal dpn then
    pc ← get_pc i; cache_DropObject_Pack pc;; modify_dpn k (fun _ => DPN_reset)
  else mret tt.

(** [RCAttr::Rollback] (line 337). *)
Definition Rollback : M unit :=
  n ← gets (fun w => length (m_idx (attr w)));
  for_each (indices n) Rollback_pack;;
  modify (upd_attr (fun a => attr_set_tx (m_version a) None (current_tx a) a)).

(** ** Statistics *)

(** [RCAttr::GetSum] (line 516).  The out-parameter [nonnegative] is taken
    with its value at the call and returned with the result.  The division
    is that of C++, truncating. *)
Definition GetSum (pack : Z) (nonnegative : bool) : M (Z * bool) :=
  LoadPackInfo;;
  k ← idx_at pack;
  st ← GetPackOntologicalStatus pack;
  ty ← Type_;
  if bool_decide (st = NULLS_ONLY) || ct_IsString ty then mret (NULL_VALUE_64, nonnegative)
  else
    dpn ← read_dpn k;
    if negb (ct_IsFloat ty)
       && ((min_i dpn <? Z.quot MINUS_INF_64 (SHORT_MAX + 1))
           || (max_i dpn >? Z.quot PLUS_INF_64 (SHORT_MAX + 1)))
    then mret (NULL_VALUE_64, nonnegative)
    else mret (sum_i dpn, min_i dpn >=? 0).

(** [s[i]] in an eight-byte field. *)
Definition byte_at (s : list byte) (i : Z) : byte := nth (Z.to_nat i) s x00.

(** The loop of [GetPrefixLength] (line 715); [sizeof(uint64_t)] is 8 and
    bounds the number of rounds. *)
Fixpoint GetPrefixLength_loop (rounds : nat) (mn mx : list byte) (dif_pos : Z) : Z :=
  match rounds with
  | O => dif_pos
  | S rounds' =>
      if (dif_pos <? 8)
         && negb (Byte.eqb (byte_at mn dif_pos) x00)
         && Byte.eqb (byte_at mn dif_pos) (byte_at mx dif_pos)
      then GetPrefixLength_loop rounds' mn mx (dif_pos + 1)
      else dif_pos
  end.

(** [RCAttr::GetPrefixLength] (line 708). *)
Definition GetPrefixLength (pack : Z) : M Z :=
  LoadPackInfo;;
  st ← GetPackOntologicalStatus pack;
  if bool_decide (st = NULLS_ONLY) then mret 0
  else
    '(_, dpn) ← get_dpn pack;
    mret (GetPrefixLength_loop 8 (min_s dpn) (max_s dpn) 0).

(** [RCAttr::GetActualSize] (line 510); the result is a [size_t]. *)
Definition GetActualSize (pack : Z) : M Z :=
  st ← GetPackOntologicalStatus pack;
  if bool_decide (st = NULLS_ONLY) then mret 0
  else
    ty ← Type_;
    pt ← GetPackType;
    if ct_IsLookup ty || negb (bool_decide (pt = PT_STR)) then mret (ct_Precision ty)
    else '(_, dpn) ← get_dpn pack; mret (u64 (sum_i dpn)).

(** Modelled from the spec: [types::BString(s, len, true)], a string that
    holds a copy of the first [len] bytes of [s]; the bounds are
    "reconstructed from the 8-byte prefix". *)
Definition BString_of_bytes (s : list byte) (len : Z) : BString :=
  Some (String.string_of_list_byte (take (Z.to_nat len) s)).

(** The loop of [GetMaxString] (line 550): [min_len] goes down while the
    byte it indexes is not NUL.  It starts below 8, so eight rounds end
    it. *)
Fixpoint GetMaxString_loop (rounds : nat) (s : list byte) (min_len : Z) : Z :=
  match rounds with
  | O => min_len
  | S rounds' =>
      if (min_len >=? 0) && negb (Byte.eqb (byte_at s min_len) x00)
      then GetMaxString_loop rounds' s (min_len - 1)
      else min_len
  end.

(** [RCAttr::GetMaxString] (line 542). *)
Definition GetMaxString (pack : Z) : M BString :=
  LoadPackInfo;;
  st ← GetPackOntologicalStatus pack;
  pt ← GetPackType;
  if bool_decide (st = NULLS_ONLY) || negb (bool_decide (pt = PT_STR)) then mret None
  else
    '(_, dpn) ← get_dpn pack;
    let s := max_s dpn in
    sz ← GetActualSize pack;
    let max_len := if sz >? 8 then 8 else sz in
    let min_len := GetMaxString_loop 8 s (max_len - 1) in
    mret (BString_of_bytes s (if min_len >=? 0 then min_len else max_len)).

(** The loop of [GetMinString] (line 561): [min_len] goes down while the
    byte before it is NUL. *)
Fixpoint GetMinString_loop (rounds : nat) (s : list byte) (min_len : Z) : Z :=
  match rounds with
  | O => min_len
  | S rounds' =>
      if (min_len >? 0) && Byte.eqb (byte_at s (min_len - 1)) x00
      then GetMinString_loop rounds' s (min_len - 1)
      else min_len
  end.

(** [RCAttr::GetMinString] (line 554). *)
Definition GetMinString (pack : Z) : M BString :=
  LoadPackInfo;;
  st ← GetPackOntologicalStatus pack;
  pt ← GetPackType;
  if bool_decide (st = NULLS_ONLY) || negb (bool_decide (pt = PT_STR)) then mret None
  else
    '(_, dpn) ← get_dpn pack;
    let s := min_s dpn in
    sz ← GetActualSize pack;
    let min_len := GetMinString_loop 8 s (if sz >? 8 then 8 else sz) in
    mret (BString_of_bytes s min_len).

(** ** Encoding and decoding *)

(** [RCAttr::DecodeValue_S] (line 577). *)
Definition DecodeValue_S (code : Z) : M BString :=
  if code =? NULL_VALUE_64 then mret None
  else
    ty ← Type_;
    if ct_IsLookup ty then
      md ← gets (fun w => m_dict (attr w));
      t ← dict_deref md;
      mret (FTree_GetRealValue t (i32 code))
    else
      let a_type := ct_TypeName ty in
      if IsIntegerType a_type then mret (RCNum_ToBString code (-1) false a_type)
      else if IsRealType a_type then mret (RCNum_ToBString code (-1) true a_type)
      else if bool_decide (a_type = CT_NUM)
      then mret (RCNum_ToBString code (ct_Scale ty) false a_type)
      else if IsDateTimeType a_type
      then mret (RCDateTime_ToBString code a_type (bool_decide (a_type = CT_TIMESTAMP)))
      else mret None.

(** The copy-on-write block that [EncodeValue_T] (lines 629-637) and
    [UpdateData] (lines 962-970) both contain: clone an unchanged
    dictionary, unlock the original, advance [hdr.dict_ver], put the clone
    in the cache; then add the value to [m_dict]. *)
Definition dict_copy_on_write_add (s : string) : M Z :=
  sp ← gets (fun w => m_dict (attr w));
  t ← dict_deref sp;
  (if negb (FTree_Changed t) then
     a' ← dict_alloc (FTree_Clone t);
     set_m_dict (Some a');;
     t0 ← dict_deref sp;
     match sp with
     | Some a => dict_store a (FTree_Unlock t0)
     | None => mret tt
     end;;
     modify_hdr (fun h => hdr_set_dict_ver (u32 (h_dict_ver h + 1)) h);;
     h ← get_hdr;
     cache_PutObject_FTree (h_dict_ver h) a'
   else mret tt);;
  md ← gets (fun w => m_dict (attr w));
  t ← dict_deref md;
  match md with
  | Some a => dict_store a (FTree_Add t s).1;; mret (FTree_Add t s).2
  | None => crash NullPointer
  end.

(** [RCAttr::EncodeValue_T] (line 615); the error code written through
    [sdbrc] is returned with the code. *)
Definition EncodeValue_T (rcbs : BString) (new_val : bool) : M (Z * ErrorCode) :=
  match rcbs with
  | None => mret (NULL_VALUE_32, EC_SUCCESS)
  | Some s =>
      tn ← TypeName;
      if IsStringType tn then
        LoadPackInfo;;
        md ← gets (fun w => m_dict (attr w));
        t ← dict_deref md;
        let vs := FTree_GetEncodedValue t s in
        if vs <? 0 then
          if negb new_val then mret (NULL_VALUE_32, EC_SUCCESS)
          else
            tx ← gets (fun w => m_tx (attr w));
            ASSERT (negb (bool_decide (tx = None)));;
            vs ← dict_copy_on_write_add s;
            mret (vs, EC_SUCCESS)
        else mret (vs, EC_SUCCESS)
      else if IsDateTimeType tn || bool_decide (tn = CT_BIGINT) then crash AssertFailed
      else
        let '(rc, rcn) := RCNum_Parse rcbs tn in
        mret (i32 rcn, rc)
  end.

Definition RCDataType_ToBString (v : RCDataType) : BString :=
  match v with
  | RCNum _ value scale is_real t => RCNum_ToBString value scale is_real t
  | RCDateTime _ dt t => RCDateTime_ToBString dt t false
  | RCBString s => s
  end.

(** The two loops of [EncodeValue64] (lines 690-700).  The first runs
    [dplaces - vp] rounds unless it returns a saturated value; the second
    runs [vp - dplaces] rounds.  [/] and [%] truncate towards zero. *)
Fixpoint EncodeValue64_mul (rounds : nat) (vv : Z) : Z + Z :=
  match rounds with
  | O => inr vv
  | S rounds' =>
      if vv <? Z.quot MINUS_INF_64 10 then inl MINUS_INF_64
      else if vv >? Z.quot PLUS_INF_64 10 then inl PLUS_INF_64
      else EncodeValue64_mul rounds' (i64 (vv * 10))
  end.

Fixpoint EncodeValue64_div (rounds : nat) (vv : Z) (rounded : bool) : Z * bool :=
  match rounds with
  | O => (vv, rounded)
  | S rounds' =>
      EncodeValue64_div rounds' (Z.quot vv 10)
                        (if negb (Z.rem vv 10 =? 0) then true else rounded)
  end.

(** [RCAttr::EncodeValue64] (line 657): the code, [rounded] and [sdbrc]. *)
Definition EncodeValue64 (v : option RCDataType) : M (Z * bool * ErrorCode) :=
  match v with
  | None => mret (NULL_VALUE_64, false, EC_SUCCESS)
  | Some v =>
      if RCDataType_IsNull v then mret (NULL_VALUE_64, false, EC_SUCCESS)
      else
        ty ← Type_;
        let tn := ct_TypeName ty in
        if ct_IsLookup ty && negb (bool_decide (RCDataType_Type v = CT_NUM)) then
          '(c, rc) ← EncodeValue_T (RCDataType_ToBString v) false;
          mret (c, false, rc)
        else if IsDateTimeType tn || IsDateTimeNType tn then
          match v with
          | RCDateTime _ dt _ => mret (dt, false, EC_SUCCESS)
          | _ => crash BadCast
          end
        else
          pt ← GetPackType;
          ASSERT (bool_decide (pt = PT_INT));;
          match v with
          | RCNum _ vv vp is_real _ =>
              if IsRealType tn then
                if is_real then mret (vv, false, EC_SUCCESS)
                else
                  let res := double_div (double_of_int64 vv) (Uint64PowOfTen vp) in
                  mret (bits_of_double res, false, EC_SUCCESS)
              else if is_real then
                let vd := double_mul (double_of_bits vv) (Uint64PowOfTen (ct_Scale ty)) in
                if double_lt (double_of_int64 PLUS_INF_64) vd
                then mret (PLUS_INF_64, false, EC_SUCCESS)
                else if double_lt vd (double_of_int64 MINUS_INF_64)
                then mret (MINUS_INF_64, false, EC_SUCCESS)
                else
                  let res := int64_of_double vd in
                  let rounded :=
                    double_lt double_0_01
                              (double_fabs (double_sub vd (double_of_int64 res))) in
                  mret (res, rounded, EC_SUCCESS)
              else
                let dplaces := ct_Scale ty mod 256 in
                match EncodeValue64_mul (Z.to_nat (dplaces - vp)) vv with
                | inl sat => mret (sat, false, EC_SUCCESS)
                | inr vv' =>
                    let '(r, rounded) :=
                      EncodeValue64_div (Z.to_nat (vp - dplaces)) vv' false in
                    mret (r, rounded, EC_SUCCESS)
                end
          | _ => crash BadCast
          end
  end.

(** ** The pack lock protocol *)

(** The DPN that carries the lock of pack [pn] (lines 722-723 and 760-761):
    the DPN of the view, or its base when that DPN is local. *)
Definition lock_dpn (pn : Z) : M PACK_INDEX :=
  '(k, dpn) ← get_dpn pn;
  if DPN_IsLocal dpn then
    match base dpn with
    | Some b => _ ← read_dpn b; mret b
    | None => crash OutOfRange
    end
  else mret k.

(** The loop of [LockPackForUse] (lines 727-756).  A round that finds the
    flag of another loader sleeps and tries again; [fuel] bounds the number
    of rounds. *)
Fixpoint LockPackForUse_loop (fuel : nat) (pn : Z) (k : PACK_INDEX) : M unit :=
  match fuel with
  | O => out_of_fuel
  | S fuel' =>
      dpn ← read_dpn k;
      if (DPN_IncRef dpn).1 then modify_dpn k (fun d => (DPN_IncRef d).2)
      else if (DPN_CAS 0 loading_flag dpn).1 then
        modify_dpn k (fun d => (DPN_CAS 0 loading_flag d).2);;
        sp ← try_catch_rethrow (pc ← get_pc pn; cache_GetOrFetchObject_Pack pc)
                               (modify_dpn k (DPN_SetPackPtr 0));
        let newv := u64 (sp + tag_one) in
        dpn ← read_dpn k;
        modify_dpn k (fun d => (DPN_CAS loading_flag newv d).2);;
        ASSERT (DPN_CAS loading_flag newv dpn).1
      else LockPackForUse_loop fuel' pn k
  end.

(** [RCAttr::LockPackForUse] (line 721). *)
Definition LockPackForUse (fuel : nat) (pn : Z) : M unit :=
  k ← lock_dpn pn;
  dpn ← read_dpn k;
  if DPN_Trivial dpn && negb (DPN_IsLocal dpn) then mret tt
  else LockPackForUse_loop fuel pn k.

(** [RCAttr::UnlockPackFromUse] (line 759).  Without another thread the
    compare-and-swap of the loop succeeds in its first round. *)
Definition UnlockPackFromUse (pn : Z) : M unit :=
  k ← lock_dpn pn;
  dpn ← read_dpn k;
  if DPN_Trivial dpn then mret tt
  else
    let v := DPN_GetPackPtr dpn in
    ASSERT (v >? tag_one);;
    let newv := if Z.land v (Z.lnot tag_mask) =? tag_one then 0 else v - tag_one in
    modify_dpn k (fun d => (DPN_CAS v newv d).2);;
    if newv =? 0 then Pack_Unlock (Z.land v tag_mask) else mret tt.

(** ** Copy-on-write and append *)

(** [RCAttr::CopyPackForWrite] (line 1006). *)
Definition CopyPackForWrite (pi : Z) : M unit :=
  '(k_old, old_dpn) ← get_dpn pi;
  if DPN_IsLocal old_dpn then mret tt
  else
    x ← tx_GetID;
    pos ← alloc_dpn x (Some (k_old, old_dpn));
    idx ← gets (fun w => m_idx (attr w));
    set_m_idx (<[Z.to_nat pi := pos]> idx);;
    pc_new ← get_pc pi;
    pack ← cache_GetLockedObject_Pack k_old;
    new_pack ←
      (if negb (pack =? 0) then
         o ← pack_deref pack;
         np ← pack_alloc {| po_body := Pack_Clone (po_body o); po_dpn := po_dpn o;
                            po_locks := 1 |};
         o' ← pack_deref np;
         pack_store np (PackObj_SetDPN pos o');;
         cache_PutObject_Pack pc_new np;;
         Pack_Unlock pack;;
         mret np
       else
         pc ← get_pc pi; cache_GetOrFetchObject_Pack pc);
    modify_dpn pos (DPN_SetPackPtr (u64 (new_pack + tag_one))).

(** [RCAttr::PreparePackForLoad] (line 803).  [1U << pss] is a 32-bit
    shift. *)
Definition PreparePackForLoad : M unit :=
  sz ← SizeOfPack;
  full ← (if sz =? 0 then mret true
          else '(_, last) ← get_dpn (sz - 1);
               p ← gets (fun w => pss (attr w));
               mret (nr last =? u32 (Z.shiftl 1 p)));
  if (full : bool) then
    x ← tx_GetID;
    ret ← alloc_dpn x None;
    idx ← gets (fun w => m_idx (attr w));
    set_m_idx (idx ++ [ret])
  else CopyPackForWrite (sz - 1).

(** [get_packN(pi)->LoadValues(nvs, nv)] and [get_packS(pi)->LoadValues(nvs)]. *)
Definition PackInt_LoadValues_at (a : Z) (nvs : ValueCache) (nv : option Z) : M unit :=
  o ← pack_deref a;
  d ← read_dpn (po_dpn o);
  pack_store a (PackObj_set_body (PackInt_LoadValues (po_body o) d nvs nv).1 o);;
  modify_dpn (po_dpn o) (fun d => (PackInt_LoadValues (po_body o) d nvs nv).2).

Definition PackStr_LoadValues_at (a : Z) (nvs : ValueCache) : M unit :=
  o ← pack_deref a;
  d ← read_dpn (po_dpn o);
  pack_store a (PackObj_set_body (PackStr_LoadValues (po_body o) d nvs).1 o);;
  modify_dpn (po_dpn o) (fun d => (PackStr_LoadValues (po_body o) d nvs).2).

(** [SetMinInt64(v)] and [SetMaxInt64(v)]. *)
Definition set_hdr_min (v : Z) : M unit := modify_hdr (hdr_set_min v).
Definition set_hdr_max (v : Z) : M unit := modify_hdr (hdr_set_max v).

(** [RCAttr::LoadDataPackN] (line 839). *)
Definition LoadDataPackN (pi : Z) (nvs : ValueCache) : M unit :=
  ty ← Type_;
  nv ← (if ct_NotNull ty then
          if IsStringType (ct_TypeName ty)
          then '(c, _) ← EncodeValue_T (Some EmptyString) true; mret (Some c)
          else mret (Some 0)
        else mret None);
  k ← idx_at pi;
  let load_values := vc_NumOfValues nvs in
  let load_nulls := if bool_decide (nv = None) then vc_NumOfNulls nvs else 0 in
  dpn ← read_dpn k;
  if (load_nulls =? load_values) && ((nr dpn =? 0) || DPN_NullOnly dpn) then
    modify_dpn k (fun d =>
      DPN_set_counts (u32 (nr d + load_values)) (u32 (nn d + load_values)) d)
  else
    let is_real_type := IsRealType (ct_TypeName ty) in
    let load_min :=
      if negb is_real_type then vc_MinInt nvs nv else bits_of_double (vc_MinDouble nvs nv) in
    let load_max :=
      if negb is_real_type then vc_MaxInt nvs nv else bits_of_double (vc_MaxDouble nvs nv) in
    modify_dpn k (fun d =>
      DPN_set_stats (min_i d) (max_i d)
        (if negb is_real_type then i64 (sum_i d + vc_SumInt nvs nv)
         else bits_of_double
                (double_add (double_of_bits (sum_i d)) (vc_SumDouble nvs nv))) d);;
    dpn ← read_dpn k;
    (if (u64 (nn dpn + load_nulls) =? 0) && (load_min =? load_max)
        && ((nr dpn =? 0) || ((min_i dpn =? load_min) && (max_i dpn =? load_max)))
     then
       modify_dpn k (fun d =>
         DPN_set_counts (u32 (nr d + load_values)) (nn d)
                        (DPN_set_stats load_min load_max (sum_i d) d))
     else
       (if DPN_Trivial dpn then
          pc ← get_pc pi;
          sp ← cache_GetOrFetchObject_Pack pc;
          modify_dpn k (DPN_SetPackPtr (u64 (sp + tag_one)))
        else mret tt);;
       p ← get_pack pi;
       PackInt_LoadValues_at p nvs nv);;
    if negb (vc_NumOfNulls nvs =? vc_NumOfValues nvs) then
      dpn ← read_dpn k;
      n ← NumOfObj;
      if n =? 0 then set_hdr_min (min_i dpn);; set_hdr_max (max_i dpn)
      else if negb (IsRealType (ct_TypeName ty)) then
        h ← get_hdr;
        (if h_min h >? min_i dpn then set_hdr_min (min_i dpn) else mret tt);;
        h ← get_hdr;
        (if h_max h <? max_i dpn then set_hdr_max (max_i dpn) else mret tt)
      else
        h ← get_hdr;
        (if double_lt (double_of_bits (min_i dpn)) (double_of_bits (h_min h))
         then set_hdr_min (min_i dpn) else mret tt);;
        (if double_lt (double_of_bits (h_max h)) (double_of_bits (max_i dpn))
         then set_hdr_max (max_i dpn) else mret tt)
    else mret tt.

(** [RCAttr::LoadDataPackS] (line 916). *)
Definition LoadDataPackS (pi : Z) (nvs : ValueCache) : M unit :=
  k ← idx_at pi;
  ty ← Type_;
  let load_nulls := if ct_NotNull ty then 0 else vc_NumOfNulls nvs in
  let cnt := vc_NumOfValues nvs in
  dpn ← read_dpn k;
  if (load_nulls =? cnt) && ((nr dpn =? 0) || DPN_NullOnly dpn) then
    modify_dpn k (fun d => DPN_set_counts (u32 (nr d + cnt)) (u32 (nn d + cnt)) d)
  else
    (if (nr dpn =? 0) || DPN_NullOnly dpn then
       pc ← get_pc pi;
       sp ← cache_GetOrFetchObject_Pack pc;
       modify_dpn k (DPN_SetPackPtr (u64 (sp + tag_one)))
     else mret tt);;
    p ← get_pack pi;
    PackStr_LoadValues_at p nvs.

(** [RCAttr::LoadData] (line 813). *)
Definition LoadData (nvs : ValueCache) (conn_info : option TX_ID) : M unit :=
  set_no_change false;;
  match conn_info with
  | Some _ => modify (upd_attr (fun a => attr_set_tx (m_version a) (m_tx a) conn_info a))
  | None => mret tt
  end;;
  PreparePackForLoad;;
  sz ← SizeOfPack;
  let pi := sz - 1 in
  pt ← GetPackType;
  match pt with
  | PT_INT => LoadDataPackN pi nvs
  | PT_STR => LoadDataPackS pi nvs
  end;;
  '(_, dpn) ← get_dpn pi;
  (if negb (DPN_Trivial dpn) then p ← get_pack pi; Pack_Save_at p else mret tt);;
  ty ← Type_;
  modify_hdr (fun h =>
    hdr_set_counts (u64 (h_nr h + vc_NumOfValues nvs))
                   (u64 (h_nn h + (if ct_NotNull ty then 0 else vc_NumOfNulls nvs)))
                   (u64 (h_natural_size h + vc_SumarizedSize nvs)) h).

(** ** Point update *)

(** Modelled from the spec: [GetValueInt64(row)] is an inline member of
    core/rc_attr.h, "decomposes the row; if the DPN is null-only or the row
    is null, returns NULL_VALUE_64, else returns the raw code from PackInt";
    a pack without a body that is not nulls-only is uniform and answers its
    minimum. *)
Definition GetValueInt64 (obj : Z) : M Z :=
  if obj =? NULL_VALUE_64 then mret NULL_VALUE_64
  else
    pack ← row2pack obj;
    offset ← row2offset obj;
    '(_, dpn) ← get_dpn pack;
    if DPN_NullOnly dpn then mret NULL_VALUE_64
    else if DPN_Trivial dpn then mret (min_i dpn)
    else
      p ← get_pack pack;
      o ← pack_deref p;
      if Pack_IsNull (po_body o) offset then mret NULL_VALUE_64
      else
        tn ← TypeName;
        let res := PackInt_GetValInt (po_body o) offset in
        if IsRealType tn then mret res else mret (i64 (res + min_i dpn)).

(** [RCAttr::GetValueString] (line 367). *)
Definition GetValueString (obj : Z) : M BString :=
  if obj =? NULL_VALUE_64 then mret None
  else
    pack ← row2pack obj;
    offset ← row2offset obj;
    pt ← GetPackType;
    if bool_decide (pt = PT_STR) then
      '(_, dpn) ← get_dpn pack;
      if DPN_Trivial dpn then mret None
      else
        p ← get_pack pack;
        o ← pack_deref p;
        mret (PackStr_GetValueBinary (po_body o) offset)
    else
      v ← GetValueInt64 obj;
      DecodeValue_S v.

(** [v.GetString()] and [v.GetInt()]: the alternative held, or the
    exception of [std::get]. *)
Definition Value_GetString (v : Value) : M string :=
  match v with
  | V_string s => mret s
  | _ => throw (Exception "bad_variant_access")
  end.

Definition Value_GetInt (v : Value) : M Z :=
  match v with
  | V_int i => mret i
  | _ => throw (Exception "bad_variant_access")
  end.

(** [RCAttr::UpdateIfIndex] (line 1222). *)
Definition UpdateIfIndex (row : Z) (col : Z) (v : Value) : M unit :=
  tab ← gets (fun w => table_index (eng w));
  match tab with
  | None => mret tt
  | Some tab =>
      if negb (bool_decide (col ∈ ti_KeyCols tab)) then mret tt
      else if negb (Value_HasValue v) then throw (Exception "primary key not support null!")
      else
        pt ← GetPackType;
        if bool_decide (pt = PT_STR) then
          vnew ← Value_GetString v;
          vold ← GetValueString row;
          let rc := ti_UpdateIndex tab (KeyStr (Some vnew)) (KeyStr vold) row in
          if bool_decide (rc = EC_DUPP_KEY) || bool_decide (rc = EC_FAILED)
          then throw DupKeyException else mret tt
        else
          vnew ← Value_GetInt v;
          vold ← GetValueInt64 row;
          let rc := ti_UpdateIndex tab (KeyInt vnew) (KeyInt vold) row in
          if bool_decide (rc = EC_DUPP_KEY) || bool_decide (rc = EC_FAILED)
          then throw DupKeyException else mret tt
  end.

(** [get_pack(pn)->UpdateValue(offset, v)]. *)
Definition Pack_UpdateValue_at (a : Z) (offset : Z) (v : Value) : M unit :=
  o ← pack_deref a;
  d ← read_dpn (po_dpn o);
  pack_store a (PackObj_set_body (Pack_UpdateValue (po_body o) d offset v).1 o);;
  modify_dpn (po_dpn o) (fun d => (Pack_UpdateValue (po_body o) d offset v).2).

(** The recomputation of [hdr.min] and [hdr.max] over all packs (lines
    987-990 and 997-1000). *)
Definition UpdateData_recalc_min (i : Z) : M unit :=
  '(_, dpn) ← get_dpn i;
  if negb (DPN_NullOnly dpn)
  then modify_hdr (fun h => hdr_set_min (Z.min (min_i dpn) (h_min h)) h)
  else mret tt.

Definition UpdateData_recalc_max (i : Z) : M unit :=
  '(_, dpn) ← get_dpn i;
  if negb (DPN_NullOnly dpn)
  then modify_hdr (fun h => hdr_set_max (Z.max (max_i dpn) (h_max h)) h)
  else mret tt.

(** The bounds of the header after the update of a pack with DPN [dpn]
    (lines 981-1003): extended, or computed again over all packs. *)
Definition UpdateData_refresh (dpn : DPN) : M unit :=
  pt ← GetPackType;
  if bool_decide (pt = PT_INT) then
    n ← gets (fun w => length (m_idx (attr w)));
    h ← get_hdr;
    (if min_i dpn <? h_min h then set_hdr_min (min_i dpn)
     else set_hdr_min INT64_MAX;; for_each (indices n) UpdateData_recalc_min);;
    h ← get_hdr;
    (if max_i dpn >? h_max h then set_hdr_max (max_i dpn)
     else set_hdr_max INT64_MIN;; for_each (indices n) UpdateData_recalc_max)
  else mret tt.

(** The value of a lookup column is replaced by its code (lines 957-973);
    the value is changed in place, through the reference. *)
Definition UpdateData_lookup (v : Value) : M Value :=
  ty ← Type_;
  if ct_IsLookup ty && Value_HasValue v then
    str ← Value_GetString v;
    md ← gets (fun w => m_dict (attr w));
    t ← dict_deref md;
    let code := FTree_GetEncodedValue t str in
    if code <? 0 then
      tx ← gets (fun w => m_tx (attr w));
      ASSERT (negb (bool_decide (tx = None)));;
      code ← dict_copy_on_write_add str;
      mret (V_int code)
    else mret (V_int code)
  else mret v.

(** The body of [UpdateData] under the lock of the pack (lines 946-1003). *)
Definition UpdateData_locked (row : Z) (pn : Z) (v : Value) : M unit :=
  cid ← gets (fun w => m_cid (attr w));
  UpdateIfIndex row cid v;;
  CopyPackForWrite pn;;
  '(k, dpn_save) ← get_dpn pn;
  (if DPN_Trivial dpn_save
   then pc ← get_pc pn; _ ← cache_GetOrFetchObject_Pack pc; mret tt
   else mret tt);;
  v ← UpdateData_lookup v;
  p ← get_pack pn;
  offset ← row2offset row;
  Pack_UpdateValue_at p offset v;;
  modify_dpn k (DPN_set_synced false);;
  dpn ← read_dpn k;
  modify_hdr (fun h => hdr_set_nn (u64 (u64 (h_nn h - nn dpn_save) + nn dpn)) h);;
  UpdateData_refresh dpn.

(** [RCAttr::UpdateData] (line 938).  The FunctionExecutor locks the pack
    when it is built and unlocks it when the function is left. *)
Definition UpdateData (fuel : nat) (row : Z) (v : Value) : M unit :=
  set_no_change false;;
  pn ← row2pack row;
  LockPackForUse fuel pn;;
  scope_exit (UpdateData_locked row pn v) (UnlockPackFromUse pn).

(** ** Minimum of a string column over a filter *)

(** [RCAttr::CompareAndSetCurrentMin] (line 1037).  [min] is passed by
    reference and returned; [set] is passed by value, so the assignment
    [set = true] of line 1047 is lost with the call. *)
Definition CompareAndSetCurrentMin (tstmp min : BString) (set : bool) : M BString :=
  ty ← Type_;
  let res :=
    if RequiresUTFConversions (ct_Collation ty)
    then CollationStrCmp (ct_Collation ty) tstmp min <? 0
    else BString_CompareWith tstmp min <? 0 in
  if negb set || res then mret tstmp else mret min.

(** The inner loop of [MinS] (lines 1085-1091) over the bits of pack [b]. *)
Fixpoint MinS_in_pack (b : Z) (p : Z) (it : list (Z * Z)) (min : BString) (set : bool)
    : M (list (Z * Z) * BString) :=
  match it with
  | [] => mret (it, min)
  | (b', n) :: it' =>
      if b =? b' then
        pt ← GetPackType;
        min' ← (if bool_decide (pt = PT_STR) then
                  o ← pack_deref p;
                  if negb (Pack_IsNull (po_body o) n)
                  then CompareAndSetCurrentMin (PackStr_GetValueBinary (po_body o) n) min set
                  else mret min
                else mret min);
        MinS_in_pack b p it' min' set
      else mret (it, min)
  end.

(** The outer loop of [MinS] (lines 1074-1093).  A round that does not
    advance the iterator repeats itself; [fuel] bounds the rounds. *)
Fixpoint MinS_loop (fuel : nat) (f : Filter) (it : list (Z * Z)) (min : BString)
    (set : bool) : M BString :=
  match fuel with
  | O => out_of_fuel
  | S fuel' =>
      match it with
      | [] => mret min
      | (b, _) :: _ =>
          sz ← SizeOfPack;
          if b >=? sz then MinS_loop fuel' f it min set
          else
            '(_, dpn) ← get_dpn b;
            p ← get_pack b;
            pt ← GetPackType;
            uniform ←
              (if bool_decide (pt = PT_INT) then
                 st ← GetPackOntologicalStatus b;
                 if bool_decide (st = UNIFORM) then mret true
                 else
                   st' ← GetPackOntologicalStatus b;
                   mret (bool_decide (st' = UNIFORM_AND_NULLS) && Filter_IsFull f b)
               else mret false);
            if (uniform : bool) then
              s ← DecodeValue_S (min_i dpn);
              min' ← CompareAndSetCurrentMin s min set;
              MinS_loop fuel' f (it_NextPack it) min' set
            else if negb (DPN_NullOnly dpn || (nr dpn =? 0)) then
              '(it', min') ← MinS_in_pack b p it min set;
              MinS_loop fuel' f it' min' set
            else MinS_loop fuel' f it min set
      end
  end.

(** [RCAttr::MinS] (line 1064). *)
Definition MinS (fuel : nat) (f : Filter) : M BString :=
  tn ← TypeName; n ← NumOfObj; nulls ← NumOfNulls;
  if Filter_IsEmpty f || negb (IsStringType tn) || (n =? 0) || (n =? nulls) then mret None
  else
    sz ← SizeOfPack;
    if negb (Filter_NumOfBlocks f =? sz)
    then throw (DatabaseException "Data integrity error, query cannot be evaluated (MinS).")
    else LoadPackInfo;; MinS_loop fuel f (FilterOnesIterator f) None false.

(** ** Maximum of a string column over a filter *)

(** [RCAttr::CompareAndSetCurrentMax] (line 1051); [max] is passed by
    reference and returned. *)
Definition CompareAndSetCurrentMax (tstmp max : BString) : M BString :=
  ty ← Type_;
  let res :=
    if RequiresUTFConversions (ct_Collation ty)
    then CollationStrCmp (ct_Collation ty) tstmp max >? 0
    else BString_CompareWith tstmp max >? 0 in
  if res then mret tstmp else mret max.

(** The inner loop of [MaxS] (lines 1117-1125) over the bits of pack [b]:
    a row of a string pack gives its value, a row of an integer pack the
    string its code decodes to. *)
Fixpoint MaxS_in_pack (b : Z) (p : Z) (dpn : DPN) (it : list (Z * Z)) (max : BString)
    : M (list (Z * Z) * BString) :=
  match it with
  | [] => mret (it, max)
  | (b', n) :: it' =>
      if b =? b' then
        pt ← GetPackType;
        max' ← (if bool_decide (pt = PT_STR) then
                  o ← pack_deref p;
                  if negb (Pack_IsNull (po_body o) n)
                  then CompareAndSetCurrentMax (PackStr_GetValueBinary (po_body o) n) max
                  else mret max
                else
                  o ← pack_deref p;
                  if negb (Pack_IsNull (po_body o) n) then
                    pn ← get_pack b;
                    on ← pack_deref pn;
                    s ← DecodeValue_S (i64 (PackInt_GetValInt (po_body on) n + min_i dpn));
                    CompareAndSetCurrentMax s max
                  else mret max);
        MaxS_in_pack b p dpn it' max'
      else mret (it, max)
  end.

(** The outer loop of [MaxS] (lines 1108-1127).  A round that does not
    advance the iterator repeats itself; [fuel] bounds the rounds. *)
Fixpoint MaxS_loop (fuel : nat) (f : Filter) (it : list (Z * Z)) (max : BString)
    : M BString :=
  match fuel with
  | O => out_of_fuel
  | S fuel' =>
      match it with
      | [] => mret max
      | (b, _) :: _ =>
          sz ← SizeOfPack;
          if b >=? sz then MaxS_loop fuel' f it max
          else
            '(_, dpn) ← get_dpn b;
            p ← get_pack b;
            pt ← GetPackType;
            uniform ←
              (if bool_decide (pt = PT_INT) then
                 st ← GetPackOntologicalStatus b;
                 if bool_decide (st = UNIFORM) then mret true
                 else
                   st' ← GetPackOntologicalStatus b;
                   mret (bool_decide (st' = UNIFORM_AND_NULLS) && Filter_IsFull f b)
               else mret false);
            if (uniform : bool) then
              s ← DecodeValue_S (min_i dpn);
              max' ← CompareAndSetCurrentMax s max;
              MaxS_loop fuel' f it max'
            else if negb (DPN_NullOnly dpn || (nr dpn =? 0)) then
              '(it', max') ← MaxS_in_pack b p dpn it max;
              MaxS_loop fuel' f it' max'
            else MaxS_loop fuel' f it max
      end
  end.

(** [RCAttr::MaxS] (line 1098). *)
Definition MaxS (fuel : nat) (f : Filter) : M BString :=
  tn ← TypeName; n ← NumOfObj; nulls ← NumOfNulls;
  if Filter_IsEmpty f || negb (IsStringType tn) || (n =? 0) || (n =? nulls) then mret None
  else
    sz ← SizeOfPack;
    if negb (Filter_NumOfBlocks f =? sz)
    then throw (DatabaseException "Data integrity error, query cannot be evaluated (MaxS).")
    else LoadPackInfo;; MaxS_loop fuel f (FilterOnesIterator f) None.

End Model.

(** * An implementation of the interfaces

    The theorems below hold for every implementation of the interfaces.
    The examples run the controller on this one: the sentinels with the
    values of the 64-bit engine, the tagged word with the reference count in
    its low four bits, and packs that keep their rows in a list. *)

#[export] Instance engine_defs : CommonDefs := {|
  NULL_VALUE_32 := - 2 ^ 31;
  NULL_VALUE_64 := - 2 ^ 63 + 1;
  MINUS_INF_64 := - 2 ^ 63;
  PLUS_INF_64 := 2 ^ 63 - 1;
  SHORT_MAX := 2 ^ 15 - 1;
  MAX_XID := 2 ^ 64 - 1;
  INF_64_range := ltac:(repeat split; discriminate);
|}.

(** The bytes of a word, least significant first, and the word of bytes
    in that order. *)
Definition byte_of_Z (z : Z) : byte := default x00 (Byte.of_N (Z.to_N (z mod 256))).

Fixpoint le_bytes (n : nat) (z : Z) : list byte :=
  match n with
  | O => []
  | S n' => byte_of_Z z :: le_bytes n' (Z.shiftr z 8)
  end.

Fixpoint le_word (bs : list byte) : Z :=
  match bs with
  | [] => 0
  | b :: bs' => Z.of_N (Byte.to_N b) + 256 * le_word bs'
  end.

Lemma le_bytes_length n z : length (le_bytes n z) = n.
Proof. revert z. induction n as [| n IH]; intros z; simpl; [done | by rewrite IH]. Qed.

#[export] Instance engine_layout : DpnLayout.
Proof.
  refine {| DPN_INVALID_ADDR := 2 ^ 64 - 1;
            word_bytes := le_bytes 8;
            tag_one := 1;
            tag_mask := 2 ^ 64 - 16;
            loading_flag := 2 ^ 64 - 1;
            heap_limit := 2 ^ 48;
            heap_addr := fun n => 4096 + 16 * n |}.
  - intros z. apply le_bytes_length.
  - discriminate.
  - discriminate.
  - intros n Hn. lia.
  - intros n m _ _ Hnm. lia.
  - intros n Hn.
    replace (4096 + 16 * n) with (Z.shiftl (256 + n) 4)
      by (rewrite Z.shiftl_mul_pow2; lia).
    assert (H1 : Z.land (Z.shiftl (256 + n) 4) 1 = 0).
    { change 1 with (Z.ones 1) at 1. rewrite Z.land_ones by lia.
      rewrite Z.shiftl_mul_pow2 by lia.
      replace ((256 + n) * 2 ^ 4) with (((256 + n) * 8) * 2) by lia.
      apply Z.mod_mul. lia. }
    rewrite (Z.add_nocarry_lxor _ 1 H1), (Z.lxor_lor _ _ H1), Z.land_lor_distr_l.
    change (Z.land 1 (2 ^ 64 - 16)) with 0. rewrite Z.lor_0_r.
    change (2 ^ 64 - 16) with (Z.shiftl (Z.ones 60) 4).
    rewrite <- Z.shiftl_land, Z.land_ones by lia.
    rewrite Z.mod_small; [reflexivity | lia].
Defined.

#[export] Instance engine_types : TypeInfo := {|
  IsStringType := fun t =>
    match t with CT_STRING | CT_VARCHAR | CT_LONGTEXT => true | _ => false end;
  IsRealType := fun t =>
    match t with CT_REAL | CT_FLOAT => true | _ => false end;
  IsIntegerType := fun t =>
    match t with
    | CT_INT | CT_BYTEINT | CT_SMALLINT | CT_MEDIUMINT | CT_BIGINT => true
    | _ => false
    end;
  IsDateTimeType := fun t =>
    match t with
    | CT_DATE | CT_TIME | CT_YEAR | CT_DATETIME | CT_TIMESTAMP => true
    | _ => false
    end;
  IsDateTimeNType := fun _ => false;
|}.

(** Exact integer arithmetic in the place of IEEE doubles; no example takes
    a path that computes with reals. *)
#[export] Instance integer_doubles : Float64 := {|
  double := Z;
  double_of_bits := fun b => b;
  bits_of_double := fun d => d;
  double_of_int64 := fun i => i;
  int64_of_double := fun d => d;
  double_add := Z.add;
  double_sub := Z.sub;
  double_mul := Z.mul;
  double_div := Z.quot;
  double_fabs := Z.abs;
  double_lt := Z.ltb;
  double_0_01 := 0;
  Uint64PowOfTen := fun n => 10 ^ n;
|}.

Definition Z_of_comparison (c : comparison) : Z :=
  match c with Lt => -1 | Eq => 0 | Gt => 1 end.

Definition BString_compare (a b : BString) : Z :=
  match a, b with
  | Some x, Some y => Z_of_comparison (String.compare x y)
  | None, None => 0
  | None, Some _ => -1
  | Some _, None => 1
  end.

(** Byte-wise comparison of strings and a collation that needs no
    conversion; numbers are printed in decimal and never parsed. *)
#[export] Instance binary_text : TextOps := {|
  Collation := unit;
  RequiresUTFConversions := fun _ => false;
  CollationStrCmp := fun _ => BString_compare;
  BString_CompareWith := BString_compare;
  RCNum_Parse := fun _ _ => (EC_FAILED, 0);
  RCNum_ToBString := fun v _ _ _ => Some (pretty v);
  RCDateTime_ToBString := fun v _ _ => Some (pretty v);
|}.

Definition DPN_set_disk (a l : Z) (d : DPN) : DPN :=
  {| used := used d; local := local d; synced := synced d; base := base d; nr := nr d;
     nn := nn d; xmin := xmin d; xmax := xmax d; addr := a; len := l;
     min_i := min_i d; max_i := max_i d; sum_i := sum_i d; pack_ptr := pack_ptr d |}.

Definition ints_of (l : list Value) : list Z :=
  omap (fun v => match v with V_int i => Some i | _ => None end) l.

Definition list_min (l : list Z) : Z :=
  match l with [] => 0 | x :: l' => foldr Z.min x l' end.
Definition list_max (l : list Z) : Z :=
  match l with [] => 0 | x :: l' => foldr Z.max x l' end.
Definition list_sum (l : list Z) : Z := foldr Z.add 0 l.

Definition count_nulls (l : list Value) : Z :=
  Z.of_nat (length (filter (fun v => v = V_none) l)).

(** The DPN of a list pack after its rows became [rows]: counts and
    statistics follow the rows, the pack has a body from now on. *)
Definition list_pack_dpn (rows : list Value) (r n : Z) (d : DPN) : DPN :=
  let zs := ints_of rows in
  DPN_set_synced false
    (DPN_set_disk (if addr d =? 2 ^ 64 - 1 then 0 else addr d) (len d)
       (DPN_set_stats (list_min zs) (list_max zs) (i64 (list_sum zs))
          (DPN_set_counts r n d))).

Definition fill_nulls (nv : option Z) (l : list Value) : list Value :=
  match nv with
  | Some x => (fun v => match v with V_none => V_int x | _ => v end) <$> l
  | None => l
  end.

#[export] Instance list_packs : PackOps.
Proof.
  refine {|
    Pack := list Value;
    Pack_new := fun _ d => Some (replicate (Z.to_nat (nr d)) V_none);
    Pack_Clone := fun p => p;
    Pack_Save := fun p d =>
      Some (p, DPN_set_synced true (DPN_set_disk (addr d) (Z.of_nat (length p)) d));
    PackInt_LoadValues := fun p d vc nv =>
      let rows := p ++ fill_nulls nv (vc_values vc) in
      (rows, list_pack_dpn rows (u32 (nr d + vc_NumOfValues vc))
                           (u32 (nn d + count_nulls (fill_nulls nv (vc_values vc)))) d);
    PackStr_LoadValues := fun p d vc =>
      let rows := p ++ vc_values vc in
      (rows, list_pack_dpn rows (u32 (nr d + vc_NumOfValues vc))
                           (u32 (nn d + vc_NumOfNulls vc)) d);
    Pack_UpdateValue := fun p d n v =>
      let rows := <[Z.to_nat n := v]> p in
      (rows, list_pack_dpn rows (nr d) (count_nulls rows) d);
    Pack_IsNull := fun p n =>
      match p !! Z.to_nat n with Some V_none | None => true | _ => false end;
    PackStr_GetValueBinary := fun p n =>
      match p !! Z.to_nat n with Some (V_string s) => Some s | _ => None end;
    PackInt_GetValInt := fun p n =>
      match p !! Z.to_nat n with Some (V_int i) => i | _ => 0 end;
  |}.
  - reflexivity.
  - reflexivity.
  - intros; repeat split.
  - intros; repeat split.
  - intros; repeat split.
  - intros p d p' d' [= <- <-]; repeat split.
Defined.

(** ** Example states *)

Definition example_engine : Engine :=
  {| pack_heap := ∅; pack_cache := ∅; dict_heap := ∅; dict_cache := ∅;
     heap_count := 0; filter_files := fun _ => ∅; version_files := ∅;
     dict_files := ∅; deferred := []; max_xid := 100;
     sysvar_sync_buffers := false; sysvar_enable_histogram_cmap_bloom := true;
     table_index := None |}.

Definition example_type (tn : CT) (lookup not_null str flt : bool) (sc : Z) : ColumnType :=
  {| ct_TypeName := tn; ct_IsLookup := lookup; ct_NotNull := not_null;
     ct_IsString := str; ct_IsFloat := flt; ct_Scale := sc; ct_Precision := 18;
     ct_DisplaySize := 20; ct_Collation := tt |}.

(** An empty column opened at version 3 by the writer of transaction 5. *)
Definition example_attr (ty : ColumnType) (pt : PackType) (p : Z) : RCAttr :=
  {| hdr := hdr_zero; m_idx := []; m_version := 3; m_tx := Some 5; current_tx := None;
     no_change := true; m_dict := None; filter_hist := None; filter_cmap := None;
     filter_bloom := None; is_unique := false; is_unique_updated := false;
     pss := p; ct := ty; pack_type := pt; m_tid := 1; m_cid := 0 |}.

Definition example_share : ColumnShare :=
  {| dpns := []; has_filter_hist := true; has_filter_cmap := true;
     has_filter_bloom := true |}.

Definition example_world (ty : ColumnType) (pt : PackType) (p : Z) : World :=
  {| attr := example_attr ty pt p; share := example_share; eng := example_engine |}.

Definition example_batch (vals : list Value) : ValueCache :=
  {| vc_values := vals; vc_SumarizedSize := 8 * Z.of_nat (length vals);
     vc_MinInt := fun nv => list_min (ints_of (fill_nulls nv vals));
     vc_MaxInt := fun nv => list_max (ints_of (fill_nulls nv vals));
     vc_SumInt := fun nv => list_sum (ints_of (fill_nulls nv vals));
     vc_MinDouble := fun nv => list_min (ints_of (fill_nulls nv vals));
     vc_MaxDouble := fun nv => list_max (ints_of (fill_nulls nv vals));
     vc_SumDouble := fun nv => list_sum (ints_of (fill_nulls nv vals)) |}.


(** A committed DPN with a body on disk and the given counts and integer
    statistics; and one of a string pack with the given bounds, whose
    [sum_i] holds the length of the longest string, as [GetActualSize]
    reads it. *)
Definition example_dpn (r n mn mx sm : Z) : DPN :=
  {| used := true; local := false; synced := true; base := None; nr := r; nn := n;
     xmin := 0; xmax := 2 ^ 64 - 1; addr := 0; len := 0; min_i := mn; max_i := mx;
     sum_i := sm; pack_ptr := 0 |}.

Definition example_str_dpn (r n longest : Z) (smin smax : list byte) : DPN :=
  example_dpn r n (i64 (le_word smin)) (i64 (le_word smax)) longest.

Lemma byte_of_Z_cons b r : byte_of_Z (Z.of_N (Byte.to_N b) + 256 * r) = b.
Proof.
  unfold byte_of_Z. pose proof (Byte.to_N_bounded b) as Hb.
  rewrite (Z.mul_comm 256 r), Z.mod_add by lia.
  rewrite Z.mod_small by lia. by rewrite N2Z.id, Byte.of_to_N.
Qed.

Lemma shiftr_8_cons b r : Z.shiftr (Z.of_N (Byte.to_N b) + 256 * r) 8 = r.
Proof.
  pose proof (Byte.to_N_bounded b) as Hb.
  rewrite Z.shiftr_div_pow2 by lia. change (2 ^ 8) with 256.
  rewrite (Z.mul_comm 256 r), Z.div_add by lia.
  rewrite Z.div_small by lia. lia.
Qed.

Lemma le_bytes_le_word bs : le_bytes (length bs) (le_word bs) = bs.
Proof.
  induction bs as [| b bs IH]; [done |].
  cbn [length le_word le_bytes]. by rewrite byte_of_Z_cons, shiftr_8_cons, IH.
Qed.

Lemma le_bytes_wrap n : forall z k,
  le_bytes n (z + k * 2 ^ (8 * Z.of_nat n)) = le_bytes n z.
Proof.
  induction n as [| n IH]; intros z k; [done |].
  cbn [le_bytes].
  replace (8 * Z.of_nat (S n)) with (8 * Z.of_nat n + 8) by lia.
  rewrite Z.pow_add_r by lia. change (2 ^ 8) with 256.
  f_equal.
  - unfold byte_of_Z. by rewrite Z.mul_assoc, Z.mod_add by lia.
  - rewrite !Z.shiftr_div_pow2 by lia. change (2 ^ 8) with 256.
    rewrite Z.mul_assoc, Z.div_add by lia. apply IH.
Qed.

(** The bounds of [example_str_dpn], read as strings, are the bytes it was
    given. *)
Lemma example_str_dpn_bounds r n longest smin smax :
  length smin = 8%nat -> length smax = 8%nat ->
  min_s (example_str_dpn r n longest smin smax) = smin /\
  max_s (example_str_dpn r n longest smin smax) = smax.
Proof.
  assert (forall bs, length bs = 8%nat -> le_bytes 8 (i64 (le_word bs)) = bs) as Hbs.
  { intros bs Hlen. unfold i64, wrap_signed.
    replace ((le_word bs + 2 ^ (64 - 1)) mod 2 ^ 64 - 2 ^ (64 - 1))
      with (le_word bs + - ((le_word bs + 2 ^ (64 - 1)) / 2 ^ 64) * 2 ^ (8 * Z.of_nat 8)).
    - rewrite le_bytes_wrap, <- Hlen. apply le_bytes_le_word.
    - change (2 ^ (8 * Z.of_nat 8)) with (2 ^ 64).
      pose proof (Z.div_mod (le_word bs + 2 ^ (64 - 1)) (2 ^ 64)). lia. }
  intros Hmin Hmax. split; [by apply Hbs | by apply Hbs].
Qed.

(** A column of the given packs with [r] rows of which [n] are null. *)
Definition example_column (ty : ColumnType) (pt : PackType) (p : Z) (r n : Z)
    (ds : list DPN) : World :=
  upd_hdr (hdr_set_counts r n 0)
    (upd_share (share_set_dpns ds)
       (upd_attr (attr_set_m_idx (seq 0 (length ds))) (example_world ty pt p))).

(** DECIMAL columns of scale 2 and 1, a DOUBLE column, a VARCHAR column
    kept in string packs, and a dictionary-encoded VARCHAR column. *)
Definition decimal2 : ColumnType := example_type CT_NUM false false false false 2.
Definition decimal1 : ColumnType := example_type CT_NUM false false false false 1.
Definition double_type : ColumnType := example_type CT_REAL false false false true 0.
Definition varchar_type : ColumnType := example_type CT_VARCHAR false false true false 0.
Definition lookup_type : ColumnType := example_type CT_VARCHAR true false true false 0.
Definition int_type : ColumnType := example_type CT_INT false false false false 0.

(** Eight bytes holding "ab", NUL-padded. *)
Definition bytes_ab : list byte := [x61; x62; x00; x00; x00; x00; x00; x00].
Definition bytes_abc : list byte := [x61; x62; x63; x00; x00; x00; x00; x00].
Definition bytes_abd : list byte := [x61; x62; x64; x00; x00; x00; x00; x00].

(** A string column of one pack of two rows that both hold "ab", and one
    whose rows hold "abc" and "abd". *)
Definition column_ab : World :=
  example_column varchar_type PT_STR 16 2 0 [example_str_dpn 2 0 2 bytes_ab bytes_ab].
Definition column_abc_abd : World :=
  example_column varchar_type PT_STR 16 2 0 [example_str_dpn 2 0 3 bytes_abc bytes_abd].

(** A DOUBLE column of one pack whose smallest value is -1.0 (the pattern
    0xBFF0000000000000) and whose largest is 1.0. *)
Definition column_doubles : World :=
  example_column double_type PT_INT 16 2 0
    [example_dpn 2 0 (-4616189618054758400) 4607182418800017408 0].

(** An INT column of one pack with values from 3 to 40 that sum to 100. *)
Definition column_ints : World :=
  example_column int_type PT_INT 16 5 0 [example_dpn 5 0 3 40 100].

(** A committed pack of five nulls, without a body. *)
Definition nulls_dpn : DPN :=
  {| used := true; local := false; synced := true; base := None; nr := 5; nn := 5;
     xmin := 0; xmax := 2 ^ 64 - 1; addr := 2 ^ 64 - 1; len := 0; min_i := 0;
     max_i := 0; sum_i := 0; pack_ptr := 0 |}.

Definition column_nulls : World :=
  example_column int_type PT_INT 16 5 5 [nulls_dpn].

(** Packs whose data file cannot be read: building a pack throws. *)
Definition unreadable_packs : PackOps.
Proof.
  refine {|
    Pack := list Value;
    Pack_new := fun _ _ => None;
    Pack_Clone := fun p => p;
    Pack_Save := fun p d => None;
    PackInt_LoadValues := fun p d vc nv =>
      (p, DPN_set_counts (u32 (nr d + vc_NumOfValues vc)) (nn d) d);
    PackStr_LoadValues := fun p d vc =>
      (p, DPN_set_counts (u32 (nr d + vc_NumOfValues vc)) (nn d) d);
    Pack_UpdateValue := fun p d n v => (p, d);
    Pack_IsNull := fun p n => true;
    PackStr_GetValueBinary := fun p n => None;
    PackInt_GetValInt := fun p n => 0;
  |}.
  - reflexivity.
  - reflexivity.
  - intros; repeat split.
  - intros; repeat split.
  - intros; repeat split.
  - intros p d p' d' [=].
Defined.

(** The column [column_ints] on a disk that cannot be read. *)
Definition column_unreadable : @World binary_text integer_doubles unreadable_packs :=
  {| attr := attr column_ints; share := share column_ints;
     eng := {| pack_heap := ∅; pack_cache := ∅; dict_heap := ∅; dict_cache := ∅;
               heap_count := 0; filter_files := fun _ => ∅; version_files := ∅;
               dict_files := ∅; deferred := []; max_xid := 100;
               sysvar_sync_buffers := false;
               sysvar_enable_histogram_cmap_bloom := true;
               table_index := None |} |}.

(** A VARCHAR column into which the rows "b", "a", "c" were loaded, and the
    filter that selects its three rows. *)
Definition column_b_a_c : World :=
  run (LoadData (example_batch [V_string "b"; V_string "a"; V_string "c"]) None)
      (example_world varchar_type PT_STR 16).

Definition all_three_rows : Filter := {| f_blocks := [[true; true; true]] |}.

(** An empty INT column with packs of two rows, three batches of one, one
    and two rows that fill two packs, and a batch of three rows. *)
Definition column_of_pairs : World := example_world int_type PT_INT 1.

Definition fitting_batches : list (ValueCache * option TX_ID) :=
  [(example_batch [V_int 1], None); (example_batch [V_int 2], None);
   (example_batch [V_int 3; V_int 4], None)].

Definition batch_of_three : ValueCache := example_batch [V_int 1; V_int 2; V_int 3].

(** A dictionary-encoded VARCHAR column at version 1 of its dictionary, which
    holds "red" and "green" and is at hand, as the cache gave it. *)
Definition column_colours : World :=
  upd_hdr (hdr_set_dict_ver 1)
    (upd_attr (attr_set_m_dict (Some (heap_addr 0)))
       (upd_eng (eng_set_dicts
                   {[heap_addr 0 := FTree_Lock (FTree_LoadData ["red"; "green"]%string)]}
                   {[1 := heap_addr 0]} 1)
          (example_world lookup_type PT_INT 16))).

(** * Properties *)

Section Theory.
Context {CD : CommonDefs} {DL : DpnLayout} {TI : TypeInfo} {F : Float64}
        {TO : TextOps} {P : PackOps}.

(** ** Reasoning about computations *)

(** A computation leaves an observation [keep] of the state unchanged,
    whatever its outcome; a read-only computation leaves the state itself
    unchanged. *)
Definition unchanged {B A} (keep : World -> B) (m : M A) : Prop :=
  forall w, keep (m w).2 = keep w.

Definition readonly {A} (m : M A) : Prop := unchanged (fun w => w) m.

Lemma readonly_unchanged {B A} (keep : World -> B) (m : M A) :
  readonly m -> unchanged keep m.
Proof. intros Hm w. by rewrite (Hm w). Qed.

Lemma bind_eq {A B} (m : M A) (f : A -> M B) w :
  (m ≫= f) w =
  match m w with
  | (Ret a, w') => f a w'
  | (Throw e, w') => (Throw e, w')
  | (Crash c, w') => (Crash c, w')
  | (OutOfFuel, w') => (OutOfFuel, w')
  end.
Proof. reflexivity. Qed.

Lemma bind_ret_inv {A B} (m : M A) (f : A -> M B) w b w' :
  (m ≫= f) w = (Ret b, w') ->
  exists a w1, m w = (Ret a, w1) /\ f a w1 = (Ret b, w').
Proof.
  rewrite bind_eq. destruct (m w) as [[a | e | c |] w1]; try discriminate.
  intros Hf. by exists a, w1.
Qed.

(** A computation is determined by its outcome and the state it leaves. *)
Lemma outcome_run {A} (m : M A) w r :
  outcome m w = r -> m w = (r, run m w).
Proof. unfold outcome, run. intros <-. by destruct (m w). Qed.

Lemma bind_ret_l {A B} (m : M A) (f : A -> M B) w a w1 :
  m w = (Ret a, w1) -> (m ≫= f) w = f a w1.
Proof. intros Hm. by rewrite bind_eq, Hm. Qed.

Lemma unchanged_ret {B A} (keep : World -> B) (a : A) : unchanged keep (mret a).
Proof. by intros w. Qed.

Lemma unchanged_bind {B A C} (keep : World -> B) (m : M A) (f : A -> M C) :
  unchanged keep m -> (forall a, unchanged keep (f a)) -> unchanged keep (m ≫= f).
Proof.
  intros Hm Hf w. rewrite bind_eq. specialize (Hm w).
  destruct (m w) as [[a | e | c |] w1]; simpl in *; try done.
  by rewrite Hf.
Qed.

Lemma unchanged_gets {B A} (keep : World -> B) (f : World -> A) : unchanged keep (gets f).
Proof. by intros w. Qed.

Lemma unchanged_throw {B A} (keep : World -> B) e : unchanged keep (throw (A := A) e).
Proof. by intros w. Qed.

Lemma unchanged_crash {B A} (keep : World -> B) c : unchanged keep (crash (A := A) c).
Proof. by intros w. Qed.

Lemma unchanged_out_of_fuel {B A} (keep : World -> B) :
  unchanged keep (out_of_fuel (A := A)).
Proof. by intros w. Qed.

Lemma unchanged_modify {B} (keep : World -> B) (u : World -> World) :
  (forall w, keep (u w) = keep w) -> unchanged keep (modify u).
Proof. intros Hu w. apply Hu. Qed.

Lemma unchanged_ASSERT {B} (keep : World -> B) b : unchanged keep (ASSERT b).
Proof. by destruct b; intros w. Qed.

Lemma unchanged_try_catch_rethrow {B A} (keep : World -> B) (m : M A) (h : M unit) :
  unchanged keep m -> unchanged keep h -> unchanged keep (try_catch_rethrow m h).
Proof.
  intros Hm Hh w. unfold try_catch_rethrow. specialize (Hm w).
  destruct (m w) as [[a | e | c |] w1]; simpl in *; try done.
  specialize (Hh w1). destruct (h w1) as [[[] | e' | c |] w2]; simpl in *; congruence.
Qed.

Lemma unchanged_scope_exit {B A} (keep : World -> B) (m : M A) (fin : M unit) :
  unchanged keep m -> unchanged keep fin -> unchanged keep (scope_exit m fin).
Proof.
  intros Hm Hf w. unfold scope_exit. specialize (Hm w).
  destruct (m w) as [[a | e | c |] w1]; simpl in *; try done;
    specialize (Hf w1); destruct (fin w1) as [[[] | e' | c |] w2]; simpl in *; congruence.
Qed.

Lemma unchanged_for_each {B A} (keep : World -> B) (l : list A) (body : A -> M unit) :
  (forall x, unchanged keep (body x)) -> unchanged keep (for_each l body).
Proof.
  intros Hb. induction l as [| x l IH]; simpl.
  - apply unchanged_ret.
  - apply unchanged_bind; auto.
Qed.

Lemma unchanged_modify_dpn {B} (keep : World -> B) k f :
  (forall w, keep (upd_dpn k f w) = keep w) -> unchanged keep (modify_dpn k f).
Proof.
  intros Hu w. unfold modify_dpn. destruct (dpns (share w) !! k); simpl; auto.
Qed.

Lemma unchanged_pack_alloc {B} (keep : World -> B) o :
  (forall w h c n, keep (upd_eng (eng_set_packs h c n) w) = keep w) ->
  unchanged keep (pack_alloc o).
Proof.
  intros Hu w. unfold pack_alloc.
  destruct (_ && _); simpl; auto.
Qed.

Lemma unchanged_dict_alloc {B} (keep : World -> B) t :
  (forall w h c n, keep (upd_eng (eng_set_dicts h c n) w) = keep w) ->
  unchanged keep (dict_alloc t).
Proof.
  intros Hu w. unfold dict_alloc.
  destruct (_ && _); simpl; auto.
Qed.

Lemma unchanged_alloc_dpn {B} (keep : World -> B) x from :
  (forall w d, keep (upd_share (share_set_dpns (dpns (share w) ++ [d])) w) = keep w) ->
  unchanged keep (alloc_dpn x from).
Proof. intros Hu w. apply Hu. Qed.

(** Read-only primitives. *)
Lemma readonly_idx_at i : readonly (idx_at i).
Proof. intros w. unfold idx_at. by repeat case_match. Qed.

Lemma readonly_read_dpn k : readonly (read_dpn k).
Proof. intros w. unfold read_dpn. by case_match. Qed.

Lemma readonly_pack_deref a : readonly (pack_deref a).
Proof. intros w. unfold pack_deref. by repeat case_match. Qed.

Lemma readonly_dict_deref p : readonly (dict_deref p).
Proof. intros w. unfold dict_deref. by repeat case_match. Qed.

Lemma readonly_tx_GetID : readonly tx_GetID.
Proof. intros w. unfold tx_GetID. by case_match. Qed.

Create HintDb frame.

#[local] Hint Resolve readonly_idx_at readonly_read_dpn readonly_pack_deref
  readonly_dict_deref readonly_tx_GetID : frame.

Ltac head_of t := lazymatch t with ?f _ => head_of f | _ => t end.

(** One step of a frame proof: follow the structure of the computation,
    close the leaves with the hints, unfold what has no lemma yet. *)
Ltac frame_step :=
  lazymatch goal with
  | |- unchanged _ (mret _) => apply unchanged_ret
  | |- unchanged _ (_ ≫= _) => apply unchanged_bind; [| intros ?]
  | |- unchanged _ (gets _) => apply unchanged_gets
  | |- unchanged _ (throw _) => apply unchanged_throw
  | |- unchanged _ (crash _) => apply unchanged_crash
  | |- unchanged _ out_of_fuel => apply unchanged_out_of_fuel
  | |- unchanged _ (ASSERT _) => apply unchanged_ASSERT
  | |- unchanged _ (modify _) => apply unchanged_modify; intros ?; try reflexivity
  | |- unchanged _ (modify_dpn _ _) => apply unchanged_modify_dpn; intros ?; try reflexivity
  | |- unchanged _ (pack_alloc _) => apply unchanged_pack_alloc; intros; try reflexivity
  | |- unchanged _ (dict_alloc _) => apply unchanged_dict_alloc; intros; try reflexivity
  | |- unchanged _ (alloc_dpn _ _) => apply unchanged_alloc_dpn; intros; try reflexivity
  | |- unchanged _ (try_catch_rethrow _ _) => apply unchanged_try_catch_rethrow
  | |- unchanged _ (scope_exit _ _) => apply unchanged_scope_exit
  | |- unchanged _ (for_each _ _) => apply unchanged_for_each; intros ?
  | |- unchanged _ (match ?x with _ => _ end) => destruct x
  | |- unchanged _ ?m =>
      first [ solve [auto 2 with frame]
            | solve [apply readonly_unchanged; auto 2 with frame]
            | let h := head_of m in progress unfold h ]
  | |- readonly _ => unfold readonly
  end.

Ltac frame := repeat frame_step.

(** Run the leading steps of a computation that are plain reads. *)
Ltac msimpl :=
  repeat first [ rewrite bind_eq
               | progress cbn [mret M_ret gets modify throw crash ASSERT negb] ].

Ltac msimpl_in H :=
  repeat first [ rewrite bind_eq in H
               | progress cbn [mret M_ret gets modify throw crash ASSERT negb] in H ].

Lemma readonly_get_dpn i : readonly (get_dpn i).
Proof. frame. Qed.

Lemma readonly_get_pc i : readonly (get_pc i).
Proof. frame. Qed.

Lemma readonly_get_pack i : readonly (get_pack i).
Proof. frame. Qed.

#[local] Hint Resolve readonly_get_dpn readonly_get_pc readonly_get_pack : frame.

(** ** Machine integers *)

Lemma i64_small x : - 2 ^ 63 <= x < 2 ^ 63 -> i64 x = x.
Proof.
  intros Hx. unfold i64, wrap_signed.
  replace (2 ^ (64 - 1)) with (2 ^ 63) by reflexivity.
  rewrite Z.mod_small; lia.
Qed.

Lemma u64_small x : 0 <= x < 2 ^ 64 -> u64 x = x.
Proof. intros Hx. unfold u64, wrap_unsigned. apply Z.mod_small. lia. Qed.

Lemma u32_small x : 0 <= x < 2 ^ 32 -> u32 x = x.
Proof. intros Hx. unfold u32, wrap_unsigned. apply Z.mod_small. lia. Qed.

(** ** EncodeValue64: the two scale loops *)

Lemma quot10_bounds vv :
  Z.quot MINUS_INF_64 10 <= vv <= Z.quot PLUS_INF_64 10 -> - 2 ^ 63 <= vv * 10 < 2 ^ 63.
Proof.
  intros [Hlo Hhi]. destruct INF_64_range as [[Hm _] [_ Hp]].
  pose proof (Z.quot_rem' MINUS_INF_64 10) as Em.
  pose proof (Z.quot_rem' PLUS_INF_64 10) as Ep.
  pose proof (Z.rem_bound_abs MINUS_INF_64 10 ltac:(lia)) as Bm.
  pose proof (Z.rem_bound_abs PLUS_INF_64 10 ltac:(lia)) as Bp.
  split.
  - destruct (Z.le_gt_cases 0 MINUS_INF_64).
    + lia.
    + assert (Z.rem MINUS_INF_64 10 <= 0) by (apply Z.rem_nonpos; lia). lia.
  - destruct (Z.le_gt_cases 0 PLUS_INF_64).
    + assert (0 <= Z.rem PLUS_INF_64 10) by (apply Z.rem_nonneg; lia). lia.
    + lia.
Qed.

(** The values the multiplying loop goes through stay in range while no
    round saturates. *)
Definition mul_in_range (vv : Z) (j : Z) : Prop :=
  Z.quot MINUS_INF_64 10 <= vv * 10 ^ j <= Z.quot PLUS_INF_64 10.

Lemma EncodeValue64_mul_inr n vv r :
  EncodeValue64_mul n vv = inr r ->
  r = vv * 10 ^ Z.of_nat n /\ forall j, 0 <= j < Z.of_nat n -> mul_in_range vv j.
Proof.
  revert vv. induction n as [| n IH]; intros vv; simpl EncodeValue64_mul.
  - intros [= <-]. split; [simpl; lia | intros j Hj; lia].
  - destruct (Z.ltb_spec vv (Z.quot MINUS_INF_64 10)); [discriminate |].
    destruct (Z.gtb_spec vv (Z.quot PLUS_INF_64 10)); [discriminate |].
    rewrite i64_small by (apply quot10_bounds; lia).
    intros Hr. apply IH in Hr as [-> Hr]. split.
    + rewrite Nat2Z.inj_succ, Z.pow_succ_r by lia. lia.
    + intros j Hj. destruct (decide (j = 0)) as [-> | Hne].
      * unfold mul_in_range. rewrite Z.pow_0_r. lia.
      * specialize (Hr (j - 1) ltac:(lia)). unfold mul_in_range in *.
        replace (vv * 10 ^ j) with (vv * 10 * 10 ^ (j - 1)); [done |].
        replace j with (Z.succ (j - 1)) at 2 by lia.
        rewrite Z.pow_succ_r by lia. lia.
Qed.

Lemma EncodeValue64_mul_inl n vv s :
  EncodeValue64_mul n vv = inl s ->
  exists j, 0 <= j < Z.of_nat n /\ (forall i, 0 <= i < j -> mul_in_range vv i) /\
    ((s = MINUS_INF_64 /\ vv * 10 ^ j < Z.quot MINUS_INF_64 10) \/
     (s = PLUS_INF_64 /\ vv * 10 ^ j > Z.quot PLUS_INF_64 10)).
Proof.
  revert vv. induction n as [| n IH]; intros vv; simpl EncodeValue64_mul; [discriminate |].
  destruct (Z.ltb_spec vv (Z.quot MINUS_INF_64 10)).
  { intros [= <-]. exists 0. rewrite Z.pow_0_r.
    split; [lia |]. split; [intros; lia |]. left. lia. }
  destruct (Z.gtb_spec vv (Z.quot PLUS_INF_64 10)).
  { intros [= <-]. exists 0. rewrite Z.pow_0_r.
    split; [lia |]. split; [intros; lia |]. right. lia. }
  rewrite i64_small by (apply quot10_bounds; lia).
  intros Hs. apply IH in Hs as (j & Hj & Hin & Hsat).
  assert (Hpow : forall i, 0 <= i -> vv * 10 * 10 ^ i = vv * 10 ^ (i + 1)).
  { intros i Hi. rewrite Z.pow_add_r by lia. lia. }
  exists (j + 1). split; [lia |]. split.
  - intros i Hi. destruct (decide (i = 0)) as [-> | Hne].
    + unfold mul_in_range. rewrite Z.pow_0_r. lia.
    + specialize (Hin (i - 1) ltac:(lia)). unfold mul_in_range in *.
      rewrite Hpow in Hin by lia. by replace (i - 1 + 1) with i in Hin by lia.
  - rewrite <- Hpow by lia. done.
Qed.

Lemma rem10_sum_zero a b :
  Z.rem a 10 + 10 * Z.rem (Z.quot a 10) b = 0 <->
  Z.rem a 10 = 0 /\ Z.rem (Z.quot a 10) b = 0.
Proof.
  split; [| intros [-> ->]; lia].
  intros Hs.
  pose proof (Z.rem_bound_abs a 10 ltac:(lia)). lia.
Qed.

Lemma rem_mul10 a c :
  c <> 0 -> Z.rem a (10 * c) = Z.rem a 10 + 10 * Z.rem (Z.quot a 10) c.
Proof.
  intros Hc. rewrite !Z.rem_eq by lia. rewrite <- Z.quot_quot by lia. lia.
Qed.

Lemma EncodeValue64_div_spec n vv rounded :
  EncodeValue64_div n vv rounded =
  (Z.quot vv (10 ^ Z.of_nat n),
   if bool_decide (Z.rem vv (10 ^ Z.of_nat n) = 0) then rounded else true).
Proof.
  revert vv rounded. induction n as [| n IH]; intros vv rounded; simpl EncodeValue64_div.
  - rewrite Z.pow_0_r, Z.quot_1_r, Z.rem_1_r. by rewrite bool_decide_eq_true_2.
  - rewrite IH, Nat2Z.inj_succ, Z.pow_succ_r by lia.
    rewrite Z.quot_quot by lia. f_equal.
    rewrite (rem_mul10 vv (10 ^ Z.of_nat n)) by lia.
    pose proof (rem10_sum_zero vv (10 ^ Z.of_nat n)) as Hz.
    destruct (Z.eqb_spec (Z.rem vv 10) 0) as [H0 | H0]; simpl;
      repeat case_bool_decide; try done; tauto.
Qed.

Lemma quot10_signs : Z.quot MINUS_INF_64 10 <= 0 <= Z.quot PLUS_INF_64 10.
Proof.
  destruct INF_64_range as [[_ Hm] [Hp _]]. split.
  - transitivity (Z.quot 0 10); [apply Z.quot_le_mono; lia | done].
  - transitivity (Z.quot 0 10); [done | apply Z.quot_le_mono; lia].
Qed.

(** The column and the value take [EncodeValue64] to its integer path: the
    value is not sent to the dictionary, the column holds neither
    date-times nor reals, and its packs are numeric. *)
Definition integer_path (w : World) (t : CT) : Prop :=
  ct_IsLookup (ct (attr w)) && negb (bool_decide (t = CT_NUM)) = false /\
  IsDateTimeType (ct_TypeName (ct (attr w)))
    || IsDateTimeNType (ct_TypeName (ct (attr w))) = false /\
  pack_type (attr w) = PT_INT /\
  IsRealType (ct_TypeName (ct (attr w))) = false.

Lemma EncodeValue64_integer w vv vp t :
  integer_path w t ->
  EncodeValue64 (Some (RCNum false vv vp false t)) w =
  (Ret (match EncodeValue64_mul (Z.to_nat (ct_Scale (ct (attr w)) mod 256 - vp)) vv with
        | inl sat => (sat, false, EC_SUCCESS)
        | inr vv' =>
            (EncodeValue64_div (Z.to_nat (vp - ct_Scale (ct (attr w)) mod 256)) vv' false,
             EC_SUCCESS)
        end), w).
Proof.
  intros (Hl & Hd & Hp & Hr).
  unfold EncodeValue64. cbn [RCDataType_IsNull RCDataType_Type].
  rewrite bind_eq. cbn [Type_ gets]. rewrite Hl, Hd.
  rewrite bind_eq. cbn [GetPackType gets]. rewrite Hp.
  rewrite bind_eq, bool_decide_eq_true_2 by done. cbn. rewrite Hr.
  destruct (EncodeValue64_mul _ vv); [done |].
  by destruct (EncodeValue64_div _ _ _).
Qed.

Lemma EncodeValue64_real_clamp w vv vp t :
  integer_path w t ->
  let vd := double_mul (double_of_bits vv) (Uint64PowOfTen (ct_Scale (ct (attr w)))) in
  (double_lt (double_of_int64 PLUS_INF_64) vd = true ->
   EncodeValue64 (Some (RCNum false vv vp true t)) w =
   (Ret (PLUS_INF_64, false, EC_SUCCESS), w)) /\
  (double_lt (double_of_int64 PLUS_INF_64) vd = false ->
   double_lt vd (double_of_int64 MINUS_INF_64) = true ->
   EncodeValue64 (Some (RCNum false vv vp true t)) w =
   (Ret (MINUS_INF_64, false, EC_SUCCESS), w)).
Proof.
  intros (Hl & Hd & Hp & Hr) vd.
  unfold EncodeValue64. cbn [RCDataType_IsNull RCDataType_Type].
  rewrite bind_eq. cbn [Type_ gets]. rewrite Hl, Hd.
  rewrite bind_eq. cbn [GetPackType gets]. rewrite Hp.
  rewrite bind_eq, bool_decide_eq_true_2 by done. cbn. rewrite Hr. fold vd.
  split.
  - by intros ->.
  - by intros -> ->.
Qed.

(** What [EncodeValue64] answers for an integer-like value [vv] of scale
    [vp] on a column of scale [dplaces], and for a real value that leaves
    the 64-bit range. *)
Definition scale_reconciled (w : World) (vv vp : Z) (t : CT) : Prop :=
  let dplaces := ct_Scale (ct (attr w)) mod 256 in
  (exists r rounded,
     EncodeValue64 (Some (RCNum false vv vp false t)) w =
       (Ret (r, rounded, EC_SUCCESS), w) /\
     (vp <= dplaces ->
        rounded = false /\
        ((forall j, 0 <= j < dplaces - vp -> mul_in_range vv j) ->
         r = vv * 10 ^ (dplaces - vp)) /\
        (forall j, 0 <= j < dplaces - vp ->
           (forall i, 0 <= i < j -> mul_in_range vv i) ->
           (vv * 10 ^ j < Z.quot MINUS_INF_64 10 -> r = MINUS_INF_64) /\
           (vv * 10 ^ j > Z.quot PLUS_INF_64 10 -> r = PLUS_INF_64))) /\
     (dplaces < vp ->
        r = Z.quot vv (10 ^ (vp - dplaces)) /\
        (rounded = true <-> Z.rem vv (10 ^ (vp - dplaces)) <> 0))) /\
  (let vd := double_mul (double_of_bits vv) (Uint64PowOfTen (ct_Scale (ct (attr w)))) in
   (double_lt (double_of_int64 PLUS_INF_64) vd = true ->
    EncodeValue64 (Some (RCNum false vv vp true t)) w =
      (Ret (PLUS_INF_64, false, EC_SUCCESS), w)) /\
   (double_lt (double_of_int64 PLUS_INF_64) vd = false ->
    double_lt vd (double_of_int64 MINUS_INF_64) = true ->
    EncodeValue64 (Some (RCNum false vv vp true t)) w =
      (Ret (MINUS_INF_64, false, EC_SUCCESS), w))).

(** C3 (amended).  On its integer path, [EncodeValue64] returns normally
    and leaves the state alone.  With [vp <= dplaces] it multiplies by ten
    [dplaces - vp] times: the result is [vv * 10 ^ (dplaces - vp)] when every
    intermediate value stays within [MINUS_INF_64 / 10 .. PLUS_INF_64 / 10],
    and the infinity of the side that is left first otherwise; [rounded]
    stays false in both cases.  With [vp > dplaces] it divides by ten
    [vp - dplaces] times, truncating, and [rounded] is true exactly when the
    digits dropped are not all zero.  A real value whose scaled magnitude
    leaves the 64-bit range is clamped to the same infinities, again with
    [rounded] false. *)
Theorem EncodeValue64_scale_reconciliation (w : World) (vv vp : Z) (t : CT) :
  integer_path w t -> scale_reconciled w vv vp t.
Proof.
  intros Hpath. split; [| by apply EncodeValue64_real_clamp].
  rewrite (EncodeValue64_integer w vv vp t Hpath).
  set (dplaces := ct_Scale (ct (attr w)) mod 256).
  pose proof quot10_signs as [Hqm Hqp].
  destruct (EncodeValue64_mul (Z.to_nat (dplaces - vp)) vv) as [sat | vv'] eqn:Hmul.
  - (* a round of the multiplying loop saturated *)
    apply EncodeValue64_mul_inl in Hmul as (j0 & Hj0 & Hin0 & Hsat).
    exists sat, false. split; [done |]. split.
    + intros Hle. split; [done |]. split.
      * intros Hall. specialize (Hall j0 ltac:(lia)). unfold mul_in_range in Hall. lia.
      * intros j Hj Hin.
        assert (Hsame : mul_in_range vv j \/ j = j0).
        { destruct (Z.lt_trichotomy j j0) as [Hlt | [-> | Hgt]]; [| by right |].
          - left. apply Hin0. lia.
          - specialize (Hin j0 ltac:(lia)). unfold mul_in_range in Hin. lia. }
        unfold mul_in_range in Hsame.
        destruct Hsame as [Hr | ->]; split; intros; lia.
    + intros Hlt. lia.
  - (* the multiplying loop ran to its end *)
    apply EncodeValue64_mul_inr in Hmul as [-> Hin].
    rewrite EncodeValue64_div_spec.
    eexists _, _. split; [done |]. split.
    + intros Hle.
      replace (Z.to_nat (vp - dplaces)) with 0%nat by lia.
      rewrite Z.pow_0_r, Z.quot_1_r, Z.rem_1_r, bool_decide_eq_true_2 by done.
      rewrite Z2Nat.id by lia. split; [done |]. split; [done |].
      intros j Hj _. specialize (Hin j ltac:(lia)). unfold mul_in_range in Hin.
      split; intros; lia.
    + intros Hlt.
      replace (Z.to_nat (dplaces - vp)) with 0%nat by lia.
      rewrite Z.pow_0_r, Z.mul_1_r, Z2Nat.id by lia. split; [done |].
      case_bool_decide; split; intros; congruence.
Qed.

(** ** The view of the column *)

(** The slot and the DPN of pack [i], when [i] is a pack of the view and its
    index lies in the arena. *)
Definition view_dpn (w : World) (i : Z) : option (PACK_INDEX * DPN) :=
  if i <? 0 then None
  else (k ← m_idx (attr w) !! Z.to_nat i;
        d ← dpns (share w) !! k;
        Some (k, d)).

Lemma get_dpn_eq w i :
  get_dpn i w = match view_dpn w i with
                | Some kd => (Ret kd, w)
                | None => (Crash OutOfRange, w)
                end.
Proof.
  unfold get_dpn, view_dpn, idx_at, read_dpn. rewrite bind_eq.
  destruct (i <? 0); [done |].
  destruct (m_idx (attr w) !! Z.to_nat i) as [k |]; [| done]. simpl.
  rewrite bind_eq. by destruct (dpns (share w) !! k).
Qed.

Lemma idx_at_eq w i k d :
  view_dpn w i = Some (k, d) -> idx_at i w = (Ret k, w).
Proof.
  unfold view_dpn, idx_at. destruct (i <? 0); [done |].
  destruct (m_idx (attr w) !! Z.to_nat i) as [k' |]; [| done]. simpl.
  destruct (dpns (share w) !! k'); [| done]. by intros [= -> _].
Qed.

Lemma read_dpn_eq w i k d :
  view_dpn w i = Some (k, d) -> read_dpn k w = (Ret d, w).
Proof.
  unfold view_dpn, read_dpn. destruct (i <? 0); [done |].
  destruct (m_idx (attr w) !! Z.to_nat i) as [k' |]; [| done]. simpl.
  destruct (dpns (share w) !! k') eqn:Hk; [| done]. intros [= -> ->]. by rewrite Hk.
Qed.

(** The dictionary is not needed or already at hand, so that
    [LoadPackInfo] has nothing to do. *)
Definition dict_ready (w : World) : Prop :=
  h_dict_ver (hdr (attr w)) = 0 \/ m_dict (attr w) <> None.

(** What the reading functions see of the column. *)
Definition keep_view (w : World) :=
  (hdr (attr w), m_idx (attr w), dpns (share w), pack_type (attr w), ct (attr w)).

Lemma LoadPackInfo_ready w : dict_ready w -> LoadPackInfo w = (Ret tt, w).
Proof.
  intros Hr. unfold LoadPackInfo, get_hdr, gets. rewrite !bind_eq.
  destruct Hr as [-> | Hd]; [done |].
  rewrite (bool_decide_eq_false_2 _ Hd). by rewrite andb_false_r.
Qed.

Lemma unchanged_view_LoadPackInfo : unchanged keep_view LoadPackInfo.
Proof. frame. Qed.

Lemma LoadPackInfo_ret w w1 :
  LoadPackInfo w = (Ret tt, w1) -> dict_ready w1 /\ keep_view w1 = keep_view w.
Proof.
  intros Hl. split; [| by rewrite <- (unchanged_view_LoadPackInfo w), Hl].
  revert Hl. unfold LoadPackInfo, get_hdr, gets. rewrite !bind_eq.
  destruct (negb (h_dict_ver (hdr (attr w)) =? 0)) eqn:Hv; simpl.
  - case_bool_decide as Hd; simpl.
    + rewrite bind_eq.
      destruct (cache_GetOrFetchObject_FTree _ w) as [[a | e | c |] w2]; try done.
      intros [= <-]. by right.
    + intros [= <-]. by right.
  - intros [= <-]. left. apply negb_false_iff in Hv. lia.
Qed.

(** [GetPackOntologicalStatus] as a function of the pack type and the DPN. *)
Definition ontological_status (pt : PackType) (d : DPN) : PackOntologicalStatus :=
  if DPN_NullOnly d then NULLS_ONLY
  else if bool_decide (pt = PT_INT) && (min_i d =? max_i d)
       then (if nn d =? 0 then UNIFORM else UNIFORM_AND_NULLS)
       else NORMAL.

Lemma GetPackOntologicalStatus_ready w pack k d :
  dict_ready w -> view_dpn w pack = Some (k, d) ->
  GetPackOntologicalStatus pack w =
  (Ret (ontological_status (pack_type (attr w)) d), w).
Proof.
  intros Hr Hv. unfold GetPackOntologicalStatus.
  rewrite bind_eq, (LoadPackInfo_ready w Hr).
  assert ((pack <? 0) = false) as ->.
  { unfold view_dpn in Hv. by destruct (pack <? 0). }
  rewrite bind_eq, get_dpn_eq, Hv. unfold ontological_status.
  destruct (DPN_NullOnly d); [done |].
  unfold GetPackType, gets. rewrite bind_eq.
  destruct (_ && _); [| done]. by destruct (nn d =? 0).
Qed.

(** ** GetPrefixLength *)

(** [n] is where the comparison of two eight-byte fields stops: the bytes
    before [n] agree and are not NUL, and either [n] is 8, or byte [n] of
    the first field is NUL or differs from that of the second. *)
Definition prefix_before_nul (mn mx : list byte) (n : Z) : Prop :=
  0 <= n <= 8 /\
  (forall i, 0 <= i < n -> byte_at mn i <> x00 /\ byte_at mn i = byte_at mx i) /\
  (n < 8 -> byte_at mn n = x00 \/ byte_at mn n <> byte_at mx n).

Lemma byte_eqb_spec (a b : byte) : Byte.eqb a b = bool_decide (a = b).
Proof.
  case_bool_decide as Hab.
  - subst. apply Byte.byte_dec_lb. done.
  - destruct (Byte.eqb a b) eqn:He; [| done]. apply Byte.byte_dec_bl in He. done.
Qed.

Lemma GetPrefixLength_loop_spec rounds mn mx pos :
  0 <= pos -> 8 <= pos + Z.of_nat rounds ->
  (forall i, 0 <= i < pos -> byte_at mn i <> x00 /\ byte_at mn i = byte_at mx i) ->
  prefix_before_nul mn mx (GetPrefixLength_loop rounds mn mx pos) \/ 8 < pos.
Proof.
  revert pos. induction rounds as [| rounds IH]; intros pos Hpos Hfuel Hbefore.
  - simpl. destruct (decide (pos = 8)) as [-> | Hne]; [left | right; lia].
    repeat split; try lia; apply Hbefore; lia.
  - simpl GetPrefixLength_loop. rewrite !byte_eqb_spec.
    destruct (Z.ltb_spec pos 8) as [Hlt | Hge]; simpl.
    + destruct (decide (byte_at mn pos = x00)) as [Hz | Hz].
      { rewrite (bool_decide_eq_true_2 _ Hz). simpl. left.
        repeat split; try lia; try (apply Hbefore; lia). intros _. by left. }
      rewrite (bool_decide_eq_false_2 _ Hz). simpl.
      destruct (decide (byte_at mn pos = byte_at mx pos)) as [He | He].
      * rewrite (bool_decide_eq_true_2 _ He).
        assert (Hnext : forall i, 0 <= i < pos + 1 ->
                   byte_at mn i <> x00 /\ byte_at mn i = byte_at mx i).
        { intros i Hi. destruct (decide (i = pos)) as [-> | Hne]; [by split |].
          apply Hbefore. lia. }
        destruct (IH (pos + 1) ltac:(lia) ltac:(lia) Hnext) as [Hp | Hgt];
          [by left | lia].
      * rewrite (bool_decide_eq_false_2 _ He). left.
        repeat split; try lia; try (apply Hbefore; lia). intros _. by right.
    + destruct (decide (pos = 8)) as [-> | Hne]; [left | right; lia].
      repeat split; try lia; apply Hbefore; lia.
Qed.

(** C8 (amended).  Once the dictionary is at hand, [GetPrefixLength(pack)]
    returns 0 for a nulls-only pack; for any other pack it returns the
    length of the longest common prefix of [min_s] and [max_s] that contains
    no NUL byte, at most 8: it stops at the first NUL of [min_s] even where
    the two fields agree beyond it. *)
Theorem GetPrefixLength_spec (w w1 : World) (pack : Z) (k : PACK_INDEX) (d : DPN) :
  LoadPackInfo w = (Ret tt, w1) ->
  view_dpn w pack = Some (k, d) ->
  exists n, GetPrefixLength pack w = (Ret n, w1) /\
            if DPN_NullOnly d then n = 0
            else prefix_before_nul (min_s d) (max_s d) n.
Proof.
  intros Hl Hv. apply LoadPackInfo_ret in Hl as Hl'. destruct Hl' as [Hr Hk].
  assert (Hv1 : view_dpn w1 pack = Some (k, d)).
  { unfold view_dpn, keep_view in *. by injection Hk as _ -> -> _ _. }
  unfold GetPrefixLength. rewrite bind_eq, Hl, bind_eq.
  rewrite (GetPackOntologicalStatus_ready w1 pack k d Hr Hv1).
  unfold ontological_status.
  destruct (DPN_NullOnly d) eqn:Hn.
  { exists 0. by rewrite bool_decide_eq_true_2. }
  eexists. split.
  - rewrite bool_decide_eq_false_2 by (repeat case_match; done).
    rewrite bind_eq, get_dpn_eq, Hv1. done.
  - destruct (GetPrefixLength_loop_spec 8 (min_s d) (max_s d) 0) as [Hp | Hgt];
      [lia | simpl; lia | intros; lia | done | lia].
Qed.

(** ** GetSum *)

(** The conservative overflow test of [GetSum] (line 523). *)
Definition sum_guard (d : DPN) : bool :=
  (min_i d <? Z.quot MINUS_INF_64 (SHORT_MAX + 1))
  || (max_i d >? Z.quot PLUS_INF_64 (SHORT_MAX + 1)).

(** C4 (amended).  Once the dictionary is at hand, [GetSum(pack,
    &nonnegative)] returns [NULL_VALUE_64] and leaves [nonnegative] as it
    was when the pack is nulls-only, or the column is a string column, or
    the column is not a float column and the overflow guard is tripped;
    otherwise (in particular for every float column that is not nulls-only)
    it returns [dpn.sum_i] and sets [nonnegative] to [dpn.min_i >= 0]. *)
Theorem GetSum_spec (w w1 : World) (pack : Z) (k : PACK_INDEX) (d : DPN)
    (nonnegative : bool) :
  LoadPackInfo w = (Ret tt, w1) ->
  view_dpn w pack = Some (k, d) ->
  GetSum pack nonnegative w =
  (Ret (if DPN_NullOnly d || ct_IsString (ct (attr w))
           || (negb (ct_IsFloat (ct (attr w))) && sum_guard d)
        then (NULL_VALUE_64, nonnegative)
        else (sum_i d, min_i d >=? 0)), w1).
Proof.
  intros Hl Hv. apply LoadPackInfo_ret in Hl as Hl'. destruct Hl' as [Hr Hk].
  assert (Hv1 : view_dpn w1 pack = Some (k, d)).
  { unfold view_dpn, keep_view in *. by injection Hk as _ -> -> _ _. }
  assert (Hct : ct (attr w1) = ct (attr w)) by (by injection Hk).
  unfold GetSum. rewrite bind_eq, Hl, bind_eq, (idx_at_eq w1 pack k d Hv1), bind_eq.
  rewrite (GetPackOntologicalStatus_ready w1 pack k d Hr Hv1).
  unfold Type_, gets. rewrite bind_eq, Hct. unfold ontological_status.
  destruct (DPN_NullOnly d) eqn:Hn; simpl; [done |].
  rewrite bool_decide_eq_false_2 by (repeat case_match; done). simpl.
  destruct (ct_IsString (ct (attr w))); simpl; [done |].
  rewrite bind_eq, (read_dpn_eq w1 pack k d Hv1). unfold sum_guard.
  by destruct (negb (ct_IsFloat (ct (attr w))) && _).
Qed.

(** ** PostCommit *)

(** The state with the transaction handle cleared and nothing else changed. *)
Definition clear_tx (w : World) : World :=
  upd_attr (fun a => attr_set_tx (m_version a) None (current_tx a) a) w.

(** ** LockPackForUse *)

Lemma lock_dpn_readonly pn : readonly (lock_dpn pn).
Proof. frame. Qed.

Lemma lookup_upd_dpn w k f :
  dpns (share (upd_dpn k f w)) !! k = f <$> dpns (share w) !! k.
Proof. simpl. apply list_lookup_alter_eq. Qed.

Lemma LockPackForUse_loop_throw fuel pn k w e w' :
  LockPackForUse_loop fuel pn k w = (Throw e, w') ->
  exists d', dpns (share w') !! k = Some d' /\ pack_ptr d' = 0.
Proof.
  revert w. induction fuel as [| fuel IH]; intros w; simpl; [done |].
  rewrite bind_eq. unfold read_dpn at 1.
  destruct (dpns (share w) !! k) as [dpn |] eqn:Hk; [| done].
  destruct (DPN_IncRef dpn).1.
  { unfold modify_dpn. by rewrite Hk. }
  destruct (DPN_CAS 0 loading_flag dpn).1; [| apply IH].
  rewrite bind_eq. unfold modify_dpn at 1. rewrite Hk.
  rewrite bind_eq. unfold try_catch_rethrow.
  destruct ((get_pc pn ≫= _) _) as [[sp | e' | c |] w2]; try done.
  - rewrite bind_eq. unfold read_dpn.
    destruct (dpns (share w2) !! k) as [d2 |] eqn:Hk2; [| done].
    rewrite bind_eq. unfold modify_dpn. rewrite Hk2.
    by destruct (DPN_CAS loading_flag _ d2).1.
  - unfold modify_dpn.
    destruct (dpns (share w2) !! k) as [d2 |] eqn:Hk2; [| done].
    intros [= <- <-]. exists (DPN_SetPackPtr 0 d2).
    by rewrite lookup_upd_dpn, Hk2.
Qed.

(** C5.  [LockPackForUse(pn)] on a trivial DPN that is not local returns at
    once and changes nothing, so that a tagged word that is zero stays zero.
    And if it leaves with an exception, which it can do only from the fetch
    that follows the transition from zero to the loading flag, the tagged
    word of the DPN that carries the lock is zero: neither the loading flag
    nor a pointer is left behind.  The fetch does fail that way when the
    pack is not cached and cannot be built. *)
Theorem LockPackForUse_trivial_and_failed_load (w : World) (pn : Z) :
  (forall fuel k d,
     view_dpn w pn = Some (k, d) -> DPN_IsLocal d = false -> DPN_Trivial d = true ->
     LockPackForUse fuel pn w = (Ret tt, w)) /\
  (forall fuel e w',
     LockPackForUse fuel pn w = (Throw e, w') ->
     exists k d', lock_dpn pn w = (Ret k, w) /\
                  dpns (share w') !! k = Some d' /\ pack_ptr d' = 0 /\
                  pack_ptr d' <> loading_flag) /\
  (forall fuel k d,
     view_dpn w pn = Some (k, d) -> DPN_IsLocal d = false -> DPN_Trivial d = false ->
     pack_ptr d = 0 ->
     pack_cache (eng w) !! k = None ->
     Pack_new (pack_type (attr w)) (DPN_SetPackPtr loading_flag d) = None ->
     exists w', LockPackForUse (S fuel) pn w = (Throw IOException, w') /\
                (pack_ptr <$> dpns (share w') !! k) = Some 0).
Proof.
  split; [| split].
  - (* the trivial DPN *)
    intros fuel k d Hv Hloc Htriv.
    unfold LockPackForUse, lock_dpn. rewrite !bind_eq, get_dpn_eq, Hv.
    rewrite Hloc. cbn [mret M_ret].
    rewrite bind_eq, (read_dpn_eq w pn k d Hv). by rewrite Htriv, Hloc.
  - (* a load that fails *)
    intros fuel e w' Hl. unfold LockPackForUse in Hl. rewrite bind_eq in Hl.
    pose proof (lock_dpn_readonly pn w) as Hro. simpl in Hro.
    destruct (lock_dpn pn w) as [[k | e' | c |] w0] eqn:Hk; simpl in Hro; subst w0.
    2-4: unfold lock_dpn in Hk; rewrite bind_eq, get_dpn_eq in Hk;
         destruct (view_dpn w pn) as [[k0 d0] |]; [| done];
         destruct (DPN_IsLocal d0); [| done];
         destruct (base d0); [| done];
         rewrite bind_eq in Hk; unfold read_dpn in Hk;
         destruct (dpns (share w) !! _); done.
    rewrite bind_eq in Hl. unfold read_dpn in Hl.
    destruct (dpns (share w) !! k) as [d |]; [| done].
    destruct (DPN_Trivial d && negb (DPN_IsLocal d)); [done |].
    apply LockPackForUse_loop_throw in Hl as (d' & Hd' & Hz).
    exists k, d'. repeat split; try done. rewrite Hz. pose proof loading_flag_nonzero. done.
  - (* the fetch fails *)
    intros fuel k d Hv Hloc Htriv Hptr Hcache Hnew.
    assert (Hk : dpns (share w) !! k = Some d).
    { pose proof (read_dpn_eq w pn k d Hv) as Hr. unfold read_dpn in Hr.
      destruct (dpns (share w) !! k); [by injection Hr as -> | done]. }
    unfold LockPackForUse, lock_dpn. rewrite !bind_eq, get_dpn_eq, Hv, Hloc.
    cbn [mret M_ret].
    rewrite bind_eq, (read_dpn_eq w pn k d Hv), Htriv. simpl.
    rewrite bind_eq, (read_dpn_eq w pn k d Hv).
    unfold DPN_IncRef, DPN_CAS. rewrite Hptr. simpl.
    rewrite bind_eq. unfold modify_dpn at 1. rewrite Hk.
    rewrite bind_eq. unfold try_catch_rethrow.
    set (w1 := upd_dpn k _ w).
    assert (Hv1 : view_dpn w1 pn = Some (k, DPN_SetPackPtr loading_flag d)).
    { unfold view_dpn in *. destruct (pn <? 0); [done |]. simpl.
      destruct (m_idx (attr w) !! Z.to_nat pn) as [k' |]; [| done]. simpl in *.
      destruct (dpns (share w) !! k') eqn:Hk'; [| done]. injection Hv as -> ->.
      rewrite list_lookup_alter_eq, Hk'. simpl. by rewrite Hptr. }
    rewrite bind_eq. unfold get_pc. rewrite (idx_at_eq w1 pn k _ Hv1).
    unfold cache_GetOrFetchObject_Pack, gets. rewrite bind_eq.
    change (pack_cache (eng w1)) with (pack_cache (eng w)). rewrite Hcache.
    rewrite bind_eq. unfold Fetch_Pack. rewrite bind_eq, (read_dpn_eq w1 pn k _ Hv1).
    unfold GetPackType, gets. rewrite bind_eq.
    change (pack_type (attr w1)) with (pack_type (attr w)). rewrite Hnew.
    unfold throw, modify_dpn.
    pose proof (read_dpn_eq w1 pn k _ Hv1) as Hr. unfold read_dpn in Hr.
    destruct (dpns (share w1) !! k) as [d1 |] eqn:Hk1; [| done].
    eexists. split; [done |]. by rewrite lookup_upd_dpn, Hk1.
Qed.

(** ** MinS *)

(** Called with [set] false, as [MinS] always calls it, the helper hands
    back the candidate whatever the comparison says. *)
Lemma CompareAndSetCurrentMin_unset tstmp min w :
  CompareAndSetCurrentMin tstmp min false w = (Ret tstmp, w).
Proof. unfold CompareAndSetCurrentMin, Type_, gets. by rewrite bind_eq. Qed.

(** The inner loop of [MinS] on a string pack, without the comparison:
    every selected row that is not null replaces the running value. *)
Fixpoint last_in_pack (body : Pack) (b : Z) (it : list (Z * Z)) (min : BString)
    : list (Z * Z) * BString :=
  match it with
  | [] => (it, min)
  | (b', n) :: it' =>
      if b =? b'
      then last_in_pack body b it'
             (if negb (Pack_IsNull body n) then PackStr_GetValueBinary body n else min)
      else (it, min)
  end.

Lemma MinS_in_pack_is_last w b p o it min :
  pack_type (attr w) = PT_STR ->
  pack_deref p w = (Ret o, w) ->
  MinS_in_pack b p it min false w = (Ret (last_in_pack (po_body o) b it min), w).
Proof.
  intros Hpt Hp. revert min. induction it as [| [b' n] it IH]; intros min; simpl; [done |].
  destruct (b =? b'); [| done].
  unfold GetPackType, gets. rewrite bind_eq, Hpt, bind_eq.
  rewrite bool_decide_eq_true_2 by done. rewrite bind_eq, Hp.
  destruct (Pack_IsNull (po_body o) n); simpl; apply IH.
Qed.

(** ** SaveVersion *)

(** What the loop over the packs and the saving of filters and dictionary
    leave alone: the header, the index, the transaction, the uniqueness
    flags and the version files. *)
Definition keep_saved (w : World) :=
  (hdr (attr w), m_idx (attr w), m_tx (attr w), is_unique (attr w),
   is_unique_updated (attr w), version_files (eng w)).

Lemma unchanged_saved_SaveVersion_pack i : unchanged keep_saved (SaveVersion_pack i).
Proof. frame. Qed.

Lemma unchanged_saved_SaveFilters : unchanged keep_saved SaveFilters.
Proof. frame. Qed.

Lemma unchanged_dpns_SaveFilters : unchanged (fun w => dpns (share w)) SaveFilters.
Proof. frame. Qed.

Lemma for_each_noop {A} (l : list A) (body : A -> M unit) w :
  (forall x, x ∈ l -> body x w = (Ret tt, w)) -> for_each l body w = (Ret tt, w).
Proof.
  induction l as [| x l IH]; intros Hb; simpl; [done |].
  rewrite bind_eq, Hb by set_solver. apply IH. intros y Hy. apply Hb. set_solver.
Qed.

Lemma for_each_app {A} (l1 l2 : list A) (body : A -> M unit) :
  forall w, for_each (l1 ++ l2) body w = (for_each l1 body ;; for_each l2 body) w.
Proof.
  induction l1 as [| x l1 IH]; intros w; simpl.
  - rewrite bind_eq. done.
  - rewrite !bind_eq. destruct (body x w) as [[[] | e | c |] w1]; try done.
Qed.

Lemma elem_of_indices n i : i ∈ indices n <-> 0 <= i < Z.of_nat n.
Proof.
  unfold indices. rewrite list_elem_of_fmap. split.
  - intros (j & -> & Hj). apply elem_of_seq in Hj. lia.
  - intros Hi. exists (Z.to_nat i). split; [lia |]. apply elem_of_seq. lia.
Qed.

(** Every pack of the view has its DPN in the arena, and none is local. *)
Definition no_local_dpn (w : World) : Prop :=
  forall i, 0 <= i < Z.of_nat (length (m_idx (attr w))) ->
    exists k d, view_dpn w i = Some (k, d) /\ DPN_IsLocal d = false.

Lemma SaveVersion_pack_not_local w i k d :
  view_dpn w i = Some (k, d) -> DPN_IsLocal d = false ->
  SaveVersion_pack i w = (Ret tt, w).
Proof.
  intros Hv Hl. unfold SaveVersion_pack. by rewrite bind_eq, get_dpn_eq, Hv, Hl.
Qed.

Lemma SaveVersion_pack_still_unchanged w i w' :
  SaveVersion_pack i w = (Ret tt, w') -> no_change (attr w') = true ->
  w' = w /\ exists k d, view_dpn w i = Some (k, d) /\ DPN_IsLocal d = false.
Proof.
  unfold SaveVersion_pack. rewrite bind_eq, get_dpn_eq.
  destruct (view_dpn w i) as [[k d] |] eqn:Hv; [| done].
  destruct (DPN_IsLocal d) eqn:Hl.
  - intros Hs Hnc. exfalso.
    apply bind_ret_inv in Hs as ([] & w1 & Hset & Hrest).
    injection Hset as <-.
    match type of Hrest with
    | ?m _ = _ => assert (Hu : unchanged (fun w => no_change (attr w)) m) by frame
    end.
    specialize (Hu (upd_attr (attr_set_no_change false) w)).
    rewrite Hrest in Hu. simpl in Hu. congruence.
  - intros [= <-] _. split; [done |]. by exists k, d.
Qed.

Lemma SaveVersion_loop_still_unchanged w n w' :
  (n <= length (m_idx (attr w)))%nat ->
  for_each (indices n) SaveVersion_pack w = (Ret tt, w') ->
  no_change (attr w') = true ->
  w' = w /\ forall i, 0 <= i < Z.of_nat n ->
              exists k d, view_dpn w i = Some (k, d) /\ DPN_IsLocal d = false.
Proof.
  revert w'. induction n as [| n IH]; intros w' Hn.
  - simpl. intros [= <-] _. split; [done | intros; lia].
  - unfold indices. rewrite seq_S, fmap_app, for_each_app. simpl.
    intros Hf Hnc. apply bind_ret_inv in Hf as ([] & w1 & Hloop & Hlast).
    apply bind_ret_inv in Hlast as ([] & w2 & Hlast & Hret). injection Hret as <-.
    apply SaveVersion_pack_still_unchanged in Hlast as [-> (k & d & Hv & Hl)]; [| done].
    destruct (IH w1 ltac:(lia) Hloop Hnc) as [-> Hall]. split; [done |].
    intros i Hi. destruct (decide (i = Z.of_nat n)) as [-> | Hne]; [by exists k, d |].
    apply Hall. lia.
Qed.

(** The sum of [dpn.len] over the DPNs of the index that have a body. *)
Definition compressed_sum (arena : list DPN) (idx : list PACK_INDEX) : Z :=
  foldr (fun pi acc =>
           match arena !! pi with
           | Some d => if addr d =? DPN_INVALID_ADDR then acc else acc + len d
           | None => acc
           end) 0 idx.

Lemma accumulate_len_spec arena idx s r :
  accumulate_len arena idx s = Some r ->
  0 <= s < 2 ^ 64 ->
  r = (s + compressed_sum arena idx) mod 2 ^ 64.
Proof.
  revert s. induction idx as [| pi idx IH]; intros s; simpl.
  - intros [= <-] Hs. rewrite Z.add_0_r, Z.mod_small; lia.
  - destruct (arena !! pi) as [d |]; [| done].
    destruct (addr d =? DPN_INVALID_ADDR); simpl.
    + apply IH.
    + intros Ha Hs. apply IH in Ha; [| apply Z.mod_pos_bound; lia].
      rewrite Ha. unfold u64, wrap_unsigned.
      rewrite Z.add_mod_idemp_l by lia. f_equal. lia.
Qed.

(** The parts of the state [SaveVersion] reads after its loop, other than
    the header. *)
Definition keep_index (w : World) :=
  (m_idx (attr w), m_tx (attr w), version_files (eng w), dpns (share w)).

Lemma unchanged_saved_SaveVersion_dict : unchanged keep_saved SaveVersion_dict.
Proof. frame. Qed.

Lemma unchanged_index_SaveVersion_header : unchanged keep_index SaveVersion_header.
Proof. frame. Qed.

Lemma SaveVersion_header_ret w w' :
  SaveVersion_header w = (Ret tt, w') ->
  if bool_decide (m_idx (attr w) = []) then w' = w
  else h_np (hdr (attr w')) = Z.of_nat (length (m_idx (attr w))) /\
       h_compressed_size (hdr (attr w')) =
         compressed_sum (dpns (share w')) (m_idx (attr w)) mod 2 ^ 64.
Proof.
  intros Hh.
  pose proof (unchanged_index_SaveVersion_header w) as Hk. rewrite Hh in Hk.
  revert Hh. unfold SaveVersion_header, gets. rewrite bind_eq.
  case_bool_decide as He; simpl; [by intros [= <-] |].
  intros Hh.
  apply bind_ret_inv in Hh as ([] & w1 & Hf & Hh).
  apply bind_ret_inv in Hh as ([] & w2 & Hd & Hh).
  rewrite !bind_eq in Hh.
  destruct (accumulate_len (dpns (share w2)) (m_idx (attr w)) 0) as [cs |] eqn:Ha; [| done].
  injection Hh as <-. simpl. split; [done |].
  apply accumulate_len_spec in Ha; [| lia]. rewrite Ha. done.
Qed.

Lemma write_version_file_ret w w' :
  write_version_file w = (Ret tt, w') ->
  exists x, m_tx (attr w) = Some x /\
            h_np (hdr (attr w)) <= Z.of_nat (length (m_idx (attr w))) /\
            attr w' = attr w /\ share w' = share w /\
            version_files (eng w') !! x =
              Some (hdr (attr w), take (Z.to_nat (h_np (hdr (attr w)))) (m_idx (attr w))).
Proof.
  unfold write_version_file, tx_GetID. rewrite bind_eq.
  destruct (m_tx (attr w)) as [x |]; [| done].
  unfold get_hdr, gets. rewrite !bind_eq.
  destruct (Z.ltb_spec (Z.of_nat (length (m_idx (attr w)))) (h_np (hdr (attr w))));
    [done |].
  intros [= <-]. exists x. repeat split; try done. simpl. by rewrite lookup_insert_eq.
Qed.

(** The version file of the transaction holds the header and the index of
    the state [w'], the header counts the entries of the index, and for a
    column that is not empty the compressed size is the sum, in 64-bit
    unsigned arithmetic, of the lengths of the DPNs that have a body. *)
Definition persisted (w w' : World) : Prop :=
  exists x, m_tx (attr w) = Some x /\
    version_files (eng w') !! x = Some (hdr (attr w'), m_idx (attr w')) /\
    m_idx (attr w') = m_idx (attr w) /\
    h_np (hdr (attr w')) = Z.of_nat (length (m_idx (attr w'))) /\
    (m_idx (attr w) <> [] ->
     h_compressed_size (hdr (attr w')) =
       compressed_sum (dpns (share w')) (m_idx (attr w')) mod 2 ^ 64 /\
     (0 <= compressed_sum (dpns (share w')) (m_idx (attr w')) < 2 ^ 64 ->
      h_compressed_size (hdr (attr w')) =
        compressed_sum (dpns (share w')) (m_idx (attr w')))).

(** C6.  In a writer's hands, [SaveVersion] returns false and leaves the
    state as it is, files included, when [no_change] is true and no DPN of
    the view is local; it returns false in no other case.  When it returns
    true it has written the version file of the transaction: [hdr] followed
    by [m_idx], with [hdr.np] equal to the size of [m_idx], and for a column
    that is not empty [hdr.compressed_size] is the sum of [dpn.len] over the
    DPNs of [m_idx] whose [addr] is not [DPN_INVALID_ADDR]. *)
Theorem SaveVersion_spec (w : World) :
  (m_tx (attr w) <> None -> no_change (attr w) = true -> no_local_dpn w ->
   SaveVersion w = (Ret false, w)) /\
  (forall w', SaveVersion w = (Ret false, w') ->
     w' = w /\ no_change (attr w) = true /\ no_local_dpn w) /\
  (0 <= h_np (hdr (attr w)) ->
   forall w', SaveVersion w = (Ret true, w') -> persisted w w').
Proof.
  split; [| split].
  - intros Htx Hnc Hnl. unfold SaveVersion, gets. rewrite bind_eq.
    rewrite (bool_decide_eq_false_2 _ Htx). msimpl.
    rewrite for_each_noop; [msimpl; by rewrite Hnc |].
    intros i Hi. apply elem_of_indices in Hi.
    destruct (Hnl i Hi) as (k & d & Hv & Hl).
    by apply (SaveVersion_pack_not_local w i k d).
  - intros w' Hs. unfold SaveVersion, gets in Hs. rewrite bind_eq in Hs.
    apply bind_ret_inv in Hs as ([] & w0 & Ha & Hs).
    assert (w0 = w) as ->.
    { unfold ASSERT in Ha. by destruct (negb _); injection Ha. }
    rewrite bind_eq in Hs.
    apply bind_ret_inv in Hs as ([] & w1 & Hloop & Hs).
    rewrite bind_eq in Hs.
    destruct (no_change (attr w1)) eqn:Hnc.
    + injection Hs as <-.
      apply SaveVersion_loop_still_unchanged in Hloop as [-> Hall]; [| done | done].
      done.
    + apply bind_ret_inv in Hs as ([] & w2 & _ & Hs).
      apply bind_ret_inv in Hs as ([] & w3 & _ & Hs). done.
  - intros Hnp w' Hs. unfold SaveVersion, gets in Hs. rewrite bind_eq in Hs.
    apply bind_ret_inv in Hs as ([] & w0 & Ha & Hs).
    assert (w0 = w) as ->.
    { unfold ASSERT in Ha. by destruct (negb _); injection Ha. }
    rewrite bind_eq in Hs.
    apply bind_ret_inv in Hs as ([] & w1 & Hloop & Hs).
    rewrite bind_eq in Hs.
    destruct (no_change (attr w1)) eqn:Hnc; [done |].
    apply bind_ret_inv in Hs as ([] & w2 & Hh & Hs).
    apply bind_ret_inv in Hs as ([] & w3 & Hw & Hs). injection Hs as <-.
    (* the loop and the header block leave index and transaction alone *)
    pose proof (unchanged_for_each keep_saved (indices (length (m_idx (attr w))))
                  SaveVersion_pack unchanged_saved_SaveVersion_pack w) as Hk1.
    rewrite Hloop in Hk1. simpl in Hk1.
    pose proof (unchanged_index_SaveVersion_header w1) as Hk2.
    rewrite Hh in Hk2. simpl in Hk2.
    injection Hk1 as Hhdr1 Hidx1 Htx1 _ _ _.
    injection Hk2 as Hidx2 Htx2 _ Hdp2.
    apply write_version_file_ret in Hw as (x & Hx & Hle & Hattr & Hshare & Hfile).
    apply SaveVersion_header_ret in Hh.
    assert (Hnp2 : h_np (hdr (attr w2)) = Z.of_nat (length (m_idx (attr w2)))).
    { destruct (decide (m_idx (attr w1) = [])) as [He | He].
      - rewrite (bool_decide_eq_true_2 _ He) in Hh. subst w2.
        rewrite He in *. simpl in *. rewrite Hhdr1 in *. lia.
      - rewrite (bool_decide_eq_false_2 _ He) in Hh. rewrite Hidx2. apply Hh. }
    exists x. rewrite Hattr, Hshare.
    split; [congruence |]. split.
    { rewrite Hfile, Hnp2, Nat2Z.id, firstn_all. done. }
    split; [congruence |]. split; [done |].
    intros Hne. rewrite bool_decide_eq_false_2 in Hh by congruence.
    destruct Hh as [_ Hcs]. rewrite Hidx2.
    split; [done |]. intros Hr. rewrite Hcs. apply Z.mod_small. done.
Qed.

(** ** The dictionary: copy on write *)

(** What the code outside the two dictionary blocks leaves alone: the
    version of the dictionary, the pointer to it and the trees. *)
Definition keep_dict (w : World) :=
  (h_dict_ver (hdr (attr w)), m_dict (attr w), dict_heap (eng w)).

(** The dictionary at hand was modified since it was loaded or cloned. *)
Definition dict_changed (w : World) : Prop :=
  exists a t, m_dict (attr w) = Some a /\ dict_heap (eng w) !! a = Some t /\
              ft_changed t = true.

(** What a piece of code may do to the version of the dictionary: leave it,
    and a changed dictionary stays a changed dictionary; or, from a
    dictionary that is not changed, add one to the version and leave a
    changed dictionary. *)
Definition dict_step (w w' : World) : Prop :=
  (h_dict_ver (hdr (attr w')) = h_dict_ver (hdr (attr w)) /\
   (dict_changed w -> dict_changed w')) \/
  (~ dict_changed w /\
   h_dict_ver (hdr (attr w')) = u32 (h_dict_ver (hdr (attr w)) + 1) /\
   dict_changed w').

(** A computation moves the state along a relation, whatever its outcome. *)
Definition steps {A} (R : relation World) (m : M A) : Prop :=
  forall w, R w (m w).2.

#[local] Instance dict_step_preorder : PreOrder dict_step.
Proof.
  split.
  - intros w. left. done.
  - intros w1 w2 w3 [[E1 C1] | (N1 & E1 & C1)] [[E2 C2] | (N2 & E2 & C2)].
    + left. split; [congruence | auto].
    + right. split; [tauto |]. split; [congruence | done].
    + right. split; [done |]. split; [congruence | auto].
    + tauto.
Qed.

Lemma steps_ret {A} (R : relation World) `{!Reflexive R} (a : A) : steps R (mret a).
Proof. intros w. simpl. reflexivity. Qed.

Lemma steps_bind {A B} (R : relation World) `{!Transitive R}
    (m : M A) (f : A -> M B) :
  steps R m -> (forall a, steps R (f a)) -> steps R (m ≫= f).
Proof.
  intros Hm Hf w. rewrite bind_eq. specialize (Hm w).
  destruct (m w) as [[a | e | c |] w1]; simpl in *; try done.
  etrans; [exact Hm | apply Hf].
Qed.

Lemma steps_scope_exit {A} (R : relation World) `{!Transitive R}
    (m : M A) (fin : M unit) :
  steps R m -> steps R fin -> steps R (scope_exit m fin).
Proof.
  intros Hm Hf w. unfold scope_exit. specialize (Hm w).
  destruct (m w) as [[a | e | c |] w1]; simpl in *;
    specialize (Hf w1); destruct (fin w1) as [[[] | e' | c' |] w2]; simpl in *;
    first [done | by etrans].
Qed.

Lemma keep_dict_step w w' : keep_dict w' = keep_dict w -> dict_step w w'.
Proof.
  unfold keep_dict. intros [= Hv Hm Hh]. left. split; [done |].
  intros (a & t & Ha & Ht & Hc). exists a, t. rewrite Hm, Hh. done.
Qed.

Lemma unchanged_steps {A} (m : M A) : unchanged keep_dict m -> steps dict_step m.
Proof. intros Hm w. apply keep_dict_step, Hm. Qed.

Lemma unchanged_dict_LockPackForUse_loop fuel pn k :
  unchanged keep_dict (LockPackForUse_loop fuel pn k).
Proof.
  induction fuel as [| fuel IH]; simpl; [apply unchanged_out_of_fuel |].
  apply unchanged_bind; [frame | intros dpn].
  destruct (DPN_IncRef dpn).1; [frame |].
  destruct (DPN_CAS 0 loading_flag dpn).1; [frame | apply IH].
Qed.

Lemma unchanged_dict_LockPackForUse fuel pn :
  unchanged keep_dict (LockPackForUse fuel pn).
Proof.
  unfold LockPackForUse. apply unchanged_bind; [frame | intros k].
  apply unchanged_bind; [frame | intros dpn].
  destruct (_ && _); [frame | apply unchanged_dict_LockPackForUse_loop].
Qed.

Lemma unchanged_dict_UnlockPackFromUse pn : unchanged keep_dict (UnlockPackFromUse pn).
Proof. frame. Qed.

Lemma unchanged_dict_CopyPackForWrite pi : unchanged keep_dict (CopyPackForWrite pi).
Proof. frame. Qed.

Lemma unchanged_dict_UpdateIfIndex row col v : unchanged keep_dict (UpdateIfIndex row col v).
Proof. frame. Qed.

(** The state after the first insertion of a transaction: the tree [t] at
    [a] was cloned to the next free address, released, the version went up
    by one, the clone entered the cache under the new version, and [s] was
    added to the clone. *)
Definition dict_cloned (s : string) (a : Z) (t : FTree) (w : World) : World :=
  let a' := heap_addr (heap_count (eng w)) in
  let v' := u32 (h_dict_ver (hdr (attr w)) + 1) in
  upd_eng (fun e =>
    eng_set_dicts
      (<[a' := (FTree_Add (FTree_Clone t) s).1]> (<[a := FTree_Unlock t]>
         (<[a' := FTree_Clone t]> (dict_heap e))))
      (<[v' := a']> (dict_cache e)) (heap_count e + 1) e)
    (upd_hdr (hdr_set_dict_ver v') (upd_attr (attr_set_m_dict (Some a')) w)).

(** The state after a later insertion: [s] was added to the tree at hand. *)
Definition dict_added (s : string) (a : Z) (t : FTree) (w : World) : World :=
  upd_eng (fun e =>
    eng_set_dicts (<[a := (FTree_Add t s).1]> (dict_heap e)) (dict_cache e)
                  (heap_count e) e) w.

Lemma FTree_Add_missing t s :
  FTree_GetEncodedValue t s < 0 ->
  FTree_Add t s =
    ({| ft_values := ft_values t ++ [s]; ft_changed := true; ft_locks := ft_locks t |},
     Z.of_nat (length (ft_values t))).
Proof. intros Hc. unfold FTree_Add. by rewrite (proj2 (Z.ltb_lt _ _) Hc). Qed.

Lemma dict_copy_on_write_add_first s w a t :
  m_dict (attr w) = Some a ->
  dict_heap (eng w) !! a = Some t ->
  ft_changed t = false ->
  FTree_GetEncodedValue t s < 0 ->
  0 <= heap_count (eng w) < heap_limit ->
  a <> heap_addr (heap_count (eng w)) ->
  dict_copy_on_write_add s w = (Ret (Z.of_nat (length (ft_values t))), dict_cloned s a t w).
Proof.
  intros Hm Ht Hc Hs Hn Ha. unfold dict_copy_on_write_add. msimpl.
  rewrite Hm. unfold dict_deref at 1. rewrite Ht. unfold FTree_Changed. rewrite Hc.
  msimpl.
  unfold dict_alloc at 1.
  rewrite (proj2 (Z.leb_le _ _) (proj1 Hn)), (proj2 (Z.ltb_lt _ _) (proj2 Hn)).
  cbn [andb]. unfold set_m_dict, dict_store, modify_hdr, get_hdr, cache_PutObject_FTree.
  msimpl. unfold dict_deref at 1. cbn [eng upd_eng upd_attr dict_heap eng_set_dicts].
  rewrite lookup_insert_ne by done. rewrite Ht. msimpl.
  cbn [attr upd_eng upd_attr upd_hdr m_dict attr_set_hdr attr_set_m_dict].
  unfold dict_deref. cbn [eng upd_eng upd_attr upd_hdr dict_heap eng_set_dicts].
  rewrite lookup_insert_ne by done. rewrite lookup_insert_eq. msimpl.
  unfold dict_cloned. rewrite !FTree_Add_missing by done. reflexivity.
Qed.

Lemma dict_copy_on_write_add_later s w a t :
  m_dict (attr w) = Some a ->
  dict_heap (eng w) !! a = Some t ->
  ft_changed t = true ->
  dict_copy_on_write_add s w = (Ret (FTree_Add t s).2, dict_added s a t w).
Proof.
  intros Hm Ht Hc. unfold dict_copy_on_write_add. msimpl.
  rewrite Hm. unfold dict_deref. rewrite Ht. unfold FTree_Changed. rewrite Hc.
  msimpl. rewrite Hm, Ht. reflexivity.
Qed.

Lemma FTree_Add_changed t s : ft_changed t = true -> ft_changed (FTree_Add t s).1 = true.
Proof. intros Hc. unfold FTree_Add. by destruct (_ <? 0). Qed.

Lemma dict_changed_cloned s a t w :
  FTree_GetEncodedValue t s < 0 -> dict_changed (dict_cloned s a t w).
Proof.
  intros Hs. eexists _, _. split; [reflexivity |]. split.
  - cbn [dict_cloned eng upd_eng dict_heap eng_set_dicts]. apply lookup_insert_eq.
  - by rewrite FTree_Add_missing.
Qed.

(** Whatever becomes of it, the dictionary block moves the version by one
    step: the string it is run on is missing from the tree at hand. *)
Lemma dict_step_copy_on_write_add s w a t :
  m_dict (attr w) = Some a ->
  dict_heap (eng w) !! a = Some t ->
  FTree_GetEncodedValue t s < 0 ->
  dict_step w (dict_copy_on_write_add s w).2.
Proof.
  intros Hm Ht Hs. destruct (ft_changed t) eqn:Hc.
  - rewrite (dict_copy_on_write_add_later s w a t) by done. simpl.
    left. split; [done |]. intros _. exists a, (FTree_Add t s).1.
    split; [done |]. split; [apply lookup_insert_eq | by apply FTree_Add_changed].
  - assert (~ dict_changed w) as Hnc.
    { intros (a0 & t0 & Ha0 & Ht0 & Hc0). congruence. }
    destruct (decide (0 <= heap_count (eng w) < heap_limit)) as [Hn | Hn].
    + destruct (decide (a = heap_addr (heap_count (eng w)))) as [Ha | Ha].
      * unfold dict_copy_on_write_add. msimpl.
        rewrite Hm. unfold dict_deref at 1. rewrite Ht. unfold FTree_Changed. rewrite Hc.
        msimpl. unfold dict_alloc at 1.
        rewrite (proj2 (Z.leb_le _ _) (proj1 Hn)), (proj2 (Z.ltb_lt _ _) (proj2 Hn)).
        cbn [andb]. unfold set_m_dict, dict_store, modify_hdr, get_hdr, cache_PutObject_FTree.
        msimpl. unfold dict_deref at 1. cbn [eng upd_eng upd_attr dict_heap eng_set_dicts].
        rewrite <- Ha. rewrite lookup_insert_eq. msimpl.
        cbn [attr upd_eng upd_attr upd_hdr m_dict attr_set_hdr attr_set_m_dict].
        unfold dict_deref. cbn [eng upd_eng upd_attr upd_hdr dict_heap eng_set_dicts].
        rewrite lookup_insert_eq. msimpl.
        right. split; [done |]. split; [reflexivity |].
        eexists _, _. split; [reflexivity |]. split; [apply lookup_insert_eq |].
        by rewrite FTree_Add_missing.
      * rewrite (dict_copy_on_write_add_first s w a t) by done. simpl.
        right. split; [done |]. split; [reflexivity |]. by apply dict_changed_cloned.
    + unfold dict_copy_on_write_add. msimpl.
      rewrite Hm. unfold dict_deref at 1. rewrite Ht. unfold FTree_Changed. rewrite Hc.
      msimpl. unfold dict_alloc at 1.
      destruct (_ && _) eqn:Hb; [| reflexivity].
      apply andb_true_iff in Hb as [H1 H2]. apply Z.leb_le in H1. apply Z.ltb_lt in H2. lia.
Qed.

Lemma steps_LoadPackInfo : steps dict_step LoadPackInfo.
Proof.
  intros w. unfold LoadPackInfo, get_hdr. msimpl.
  destruct (negb _ && bool_decide _) eqn:Hb; [| reflexivity].
  apply andb_true_iff in Hb as [_ Hd]. apply bool_decide_eq_true in Hd.
  left. split.
  - assert (unchanged (fun w => h_dict_ver (hdr (attr w)))
              (a ← cache_GetOrFetchObject_FTree (h_dict_ver (hdr (attr w)));
               set_m_dict (Some a))) as Hu by frame.
    apply Hu.
  - intros (a & t & Ha & _). congruence.
Qed.

(** The test and the dictionary block, as both functions run them. *)
Lemma steps_encode_missing (s : string) {A} (k : Z -> M A) (found : Z -> M A) :
  (forall c, steps dict_step (k c)) ->
  (forall c, steps dict_step (found c)) ->
  steps dict_step
    (md ← gets (fun w => m_dict (attr w));
     t ← dict_deref md;
     let code := FTree_GetEncodedValue t s in
     if code <? 0 then
       tx ← gets (fun w => m_tx (attr w));
       ASSERT (negb (bool_decide (tx = None)));;
       code ← dict_copy_on_write_add s;
       k code
     else found code).
Proof.
  intros Hk Hfound w. msimpl. unfold dict_deref at 1.
  destruct (m_dict (attr w)) as [a |] eqn:Hm; [| reflexivity].
  destruct (dict_heap (eng w) !! a) as [t |] eqn:Ht; [| reflexivity].
  cbv zeta. destruct (FTree_GetEncodedValue t s <? 0) eqn:Hs; [| apply Hfound].
  apply Z.ltb_lt in Hs. msimpl.
  destruct (bool_decide (m_tx (attr w) = None)); [reflexivity |]. msimpl.
  pose proof (dict_step_copy_on_write_add s w a t Hm Ht Hs) as Hstep.
  destruct (dict_copy_on_write_add s w) as [[c | e | f |] w1]; simpl in *; try done.
  etrans; [exact Hstep | apply Hk].
Qed.

Lemma steps_EncodeValue_T rcbs new_val : steps dict_step (EncodeValue_T rcbs new_val).
Proof.
  destruct rcbs as [s |]; [| apply steps_ret, _].
  unfold EncodeValue_T. apply steps_bind; [apply _ | apply unchanged_steps; frame |].
  intros tn. destruct (IsStringType tn).
  - apply steps_bind; [apply _ | apply steps_LoadPackInfo | intros _].
    destruct new_val; cbn [negb].
    + apply (steps_encode_missing s (fun vs => mret (vs, EC_SUCCESS))
                                    (fun vs => mret (vs, EC_SUCCESS)));
        intros c; apply steps_ret, _.
    + apply unchanged_steps. frame.
  - apply unchanged_steps. frame.
Qed.

Lemma steps_UpdateData_lookup v : steps dict_step (UpdateData_lookup v).
Proof.
  unfold UpdateData_lookup. apply steps_bind; [apply _ | apply unchanged_steps; frame |].
  intros ty. destruct (_ && _); [| apply steps_ret, _].
  destruct v as [| i | s]; cbn [Value_GetString]; intros w; rewrite bind_eq;
    cbn [mret M_ret throw]; try reflexivity.
  apply (steps_encode_missing s (fun c => mret (V_int c)) (fun c => mret (V_int c)));
    intros c; apply steps_ret, _.
Qed.

Lemma steps_UpdateData_locked row pn v : steps dict_step (UpdateData_locked row pn v).
Proof.
  unfold UpdateData_locked.
  apply steps_bind; [apply _ | apply unchanged_steps; frame | intros cid].
  apply steps_bind; [apply _ | apply unchanged_steps, unchanged_dict_UpdateIfIndex | intros _].
  apply steps_bind; [apply _ | apply unchanged_steps, unchanged_dict_CopyPackForWrite | intros _].
  apply steps_bind; [apply _ | apply unchanged_steps; frame | intros [k dpn_save]].
  apply steps_bind; [apply _ | apply unchanged_steps; frame | intros _].
  apply steps_bind; [apply _ | apply steps_UpdateData_lookup | intros v'].
  apply unchanged_steps. frame.
Qed.

Lemma steps_UpdateData fuel row v : steps dict_step (UpdateData fuel row v).
Proof.
  unfold UpdateData.
  apply steps_bind; [apply _ | apply unchanged_steps; frame | intros _].
  apply steps_bind; [apply _ | apply unchanged_steps; frame | intros pn].
  apply steps_bind; [apply _ | apply unchanged_steps, unchanged_dict_LockPackForUse | intros _].
  apply steps_scope_exit; [apply _ | apply steps_UpdateData_locked |].
  apply unchanged_steps, unchanged_dict_UnlockPackFromUse.
Qed.

(** The operations of a transaction that can modify the dictionary, and the
    state a sequence of them leaves, whatever their outcomes. *)
Inductive dict_op :=
  | OpEncodeValue_T (rcbs : BString) (new_val : bool)
  | OpUpdateData (fuel : nat) (row : Z) (v : Value).

Definition run_op (op : dict_op) (w : World) : World :=
  match op with
  | OpEncodeValue_T rcbs new_val => run (EncodeValue_T rcbs new_val) w
  | OpUpdateData fuel row v => run (UpdateData fuel row v) w
  end.

Definition run_ops (ops : list dict_op) (w : World) : World :=
  foldl (fun w op => run_op op w) w ops.

Lemma dict_step_run_ops ops : forall w, dict_step w (run_ops ops w).
Proof.
  induction ops as [| op ops IH]; intros w; [reflexivity |].
  change (run_ops (op :: ops) w) with (run_ops ops (run_op op w)).
  etrans; [| apply IH].
  destruct op; [apply steps_EncodeValue_T | apply steps_UpdateData].
Qed.

Lemma dict_step_bounds w w' :
  0 <= h_dict_ver (hdr (attr w)) -> h_dict_ver (hdr (attr w)) + 1 < 2 ^ 32 ->
  dict_step w w' ->
  h_dict_ver (hdr (attr w')) = h_dict_ver (hdr (attr w)) \/
  (h_dict_ver (hdr (attr w')) = h_dict_ver (hdr (attr w)) + 1 /\ dict_changed w').
Proof.
  intros H0 H1 [[E _] | (_ & E & C)]; [by left | right].
  rewrite u32_small in E by lia. done.
Qed.

(** The function [EncodeValue_T] and the block of [UpdateData] on a string
    that the dictionary at hand lacks. *)
Lemma encode_missing s w a t c w' :
  m_dict (attr w) = Some a ->
  dict_heap (eng w) !! a = Some t ->
  FTree_GetEncodedValue t s < 0 ->
  m_tx (attr w) <> None ->
  dict_copy_on_write_add s w = (Ret c, w') ->
  (IsStringType (ct_TypeName (ct (attr w))) = true ->
   EncodeValue_T (Some s) true w = (Ret (c, EC_SUCCESS), w')) /\
  (ct_IsLookup (ct (attr w)) = true ->
   UpdateData_lookup (V_string s) w = (Ret (V_int c), w')).
Proof.
  intros Hm Ht Hs Htx Hadd. apply Z.ltb_lt in Hs. split; intros Hty.
  - unfold EncodeValue_T, TypeName, LoadPackInfo, get_hdr. msimpl. rewrite Hty. msimpl.
    rewrite Hm. rewrite bool_decide_eq_false_2 by done. rewrite andb_false_r.
    msimpl. rewrite Hm. unfold dict_deref. rewrite Ht, Hs.
    msimpl. rewrite bool_decide_eq_false_2 by done. msimpl. by rewrite Hadd.
  - unfold UpdateData_lookup, Type_. msimpl. rewrite Hty. cbn [Value_HasValue andb Value_GetString].
    msimpl. rewrite Hm. unfold dict_deref. rewrite Ht, Hs.
    msimpl. rewrite bool_decide_eq_false_2 by done. msimpl. by rewrite Hadd.
Qed.

(** C7.  A lookup column at version [v] of its dictionary, with room for one
    more version.  (1) The first insertion of a missing string, by
    [EncodeValue_T] with [new_val] or by the block of [UpdateData], when the
    tree at hand is not changed: the tree is cloned to the next free
    address, the version becomes [v + 1], the clone is in the cache under
    [v + 1] and is the dictionary at hand, it holds the string under the
    code that is returned, and the tree it was cloned from lost a lock and
    nothing else.  (2) A later insertion, when the tree at hand is changed:
    the string goes to that same tree, the version and the cache stay.
    (3) Whatever sequence of [EncodeValue_T] and [UpdateData] calls a
    transaction makes and whatever their outcomes, the version never goes
    down and ends at [v] or [v + 1]. *)
Theorem dictionary_copy_on_write (w : World) :
  let v := h_dict_ver (hdr (attr w)) in
  0 <= v -> v + 1 < 2 ^ 32 ->
  (forall s a t,
     m_dict (attr w) = Some a -> dict_heap (eng w) !! a = Some t ->
     FTree_GetEncodedValue t s < 0 -> m_tx (attr w) <> None ->
     ft_changed t = false ->
     0 <= heap_count (eng w) < heap_limit -> a <> heap_addr (heap_count (eng w)) ->
     let a' := heap_addr (heap_count (eng w)) in
     let code := Z.of_nat (length (ft_values t)) in
     exists w',
       (IsStringType (ct_TypeName (ct (attr w))) = true ->
        EncodeValue_T (Some s) true w = (Ret (code, EC_SUCCESS), w')) /\
       (ct_IsLookup (ct (attr w)) = true ->
        UpdateData_lookup (V_string s) w = (Ret (V_int code), w')) /\
       h_dict_ver (hdr (attr w')) = v + 1 /\
       m_dict (attr w') = Some a' /\
       dict_cache (eng w') !! (v + 1) = Some a' /\
       dict_heap (eng w') !! a' =
         Some {| ft_values := ft_values t ++ [s]; ft_changed := true; ft_locks := 0 |} /\
       dict_heap (eng w') !! a = Some (FTree_Unlock t)) /\
  (forall s a t,
     m_dict (attr w) = Some a -> dict_heap (eng w) !! a = Some t ->
     FTree_GetEncodedValue t s < 0 -> m_tx (attr w) <> None ->
     ft_changed t = true ->
     let code := Z.of_nat (length (ft_values t)) in
     exists w',
       (IsStringType (ct_TypeName (ct (attr w))) = true ->
        EncodeValue_T (Some s) true w = (Ret (code, EC_SUCCESS), w')) /\
       (ct_IsLookup (ct (attr w)) = true ->
        UpdateData_lookup (V_string s) w = (Ret (V_int code), w')) /\
       h_dict_ver (hdr (attr w')) = v /\
       m_dict (attr w') = Some a /\
       dict_cache (eng w') = dict_cache (eng w) /\
       heap_count (eng w') = heap_count (eng w) /\
       dict_heap (eng w') !! a =
         Some {| ft_values := ft_values t ++ [s]; ft_changed := true;
                 ft_locks := ft_locks t |}) /\
  (forall ops1 ops2,
     v <= h_dict_ver (hdr (attr (run_ops ops1 w)))
       <= h_dict_ver (hdr (attr (run_ops (ops1 ++ ops2) w))) /\
     h_dict_ver (hdr (attr (run_ops (ops1 ++ ops2) w))) <= v + 1).
Proof.
  intros v Hv0 Hv1. split; [| split].
  - intros s a t Hm Ht Hs Htx Hc Hn Ha a' code.
    pose proof (dict_copy_on_write_add_first s w a t Hm Ht Hc Hs Hn Ha) as Hadd.
    destruct (encode_missing s w a t _ _ Hm Ht Hs Htx Hadd) as [He Hu].
    exists (dict_cloned s a t w). split; [exact He |]. split; [exact Hu |].
    split; [apply u32_small; subst v; lia |]. split; [reflexivity |].
    cbn [dict_cloned eng upd_eng dict_cache dict_heap eng_set_dicts].
    fold v. rewrite (u32_small (v + 1)) by lia.
    split; [apply lookup_insert_eq |]. split.
    + rewrite lookup_insert_eq, FTree_Add_missing by done. reflexivity.
    + rewrite lookup_insert_ne by done. apply lookup_insert_eq.
  - intros s a t Hm Ht Hs Htx Hc code.
    pose proof (dict_copy_on_write_add_later s w a t Hm Ht Hc) as Hadd.
    rewrite FTree_Add_missing in Hadd by done.
    destruct (encode_missing s w a t _ _ Hm Ht Hs Htx Hadd) as [He Hu].
    exists (dict_added s a t w). split; [exact He |]. split; [exact Hu |].
    split; [reflexivity |]. split; [exact Hm |]. split; [reflexivity |].
    split; [reflexivity |].
    cbn [dict_added eng upd_eng dict_heap eng_set_dicts].
    rewrite lookup_insert_eq, FTree_Add_missing by done. reflexivity.
  - intros ops1 ops2.
    assert (run_ops (ops1 ++ ops2) w = run_ops ops2 (run_ops ops1 w)) as ->
      by apply foldl_app.
    pose proof (dict_step_run_ops ops1 w) as S1.
    pose proof (dict_step_run_ops ops2 (run_ops ops1 w)) as S2.
    assert (dict_step w (run_ops ops2 (run_ops ops1 w))) as S12 by (by etrans).
    apply dict_step_bounds in S12; [| done | done].
    destruct (dict_step_bounds _ _ Hv0 Hv1 S1) as [E1 | [E1 C1]].
    + fold v in S12, E1. lia.
    + destruct S2 as [[E2 _] | (N2 & _)]; [| done].
      fold v in S12, E1. lia.
Qed.

(** ** UpdateData: the statistics of the header *)

(** The pack type of the column and the bounds of its header. *)
Definition keep_minmax (w : World) :=
  (pack_type (attr w), h_min (hdr (attr w)), h_max (hdr (attr w))).

(** The pack type stays, and on a column of string packs so do the bounds. *)
Definition minmax_step (w w' : World) : Prop :=
  pack_type (attr w') = pack_type (attr w) /\
  (pack_type (attr w) = PT_STR ->
   h_min (hdr (attr w')) = h_min (hdr (attr w)) /\
   h_max (hdr (attr w')) = h_max (hdr (attr w))).

#[local] Instance minmax_step_preorder : PreOrder minmax_step.
Proof.
  split.
  - intros w. done.
  - intros w1 w2 w3 [T1 B1] [T2 B2]. split; [congruence |].
    intros Hs. destruct (B1 Hs) as [E1 E2]. destruct B2 as [E3 E4]; [congruence |].
    split; congruence.
Qed.

Lemma unchanged_minmax_steps {A} (m : M A) :
  unchanged keep_minmax m -> steps minmax_step m.
Proof.
  intros Hm w. specialize (Hm w). unfold keep_minmax in Hm.
  injection Hm as Ht Hmin Hmax. done.
Qed.

(** The rounds of the lock loop are run by induction on the fuel. *)
Ltac frame_lock_loop :=
  let fuel := fresh "fuel" in
  let IH := fresh "IH" in
  intros fuel; induction fuel as [| fuel IH]; intros ? ?; simpl;
  [ apply unchanged_out_of_fuel
  | apply unchanged_bind; [frame | intros ?];
    match goal with |- unchanged _ (if ?b then _ else _) => destruct b end; [frame |];
    match goal with |- unchanged _ (if ?b then _ else _) => destruct b end;
    [frame | apply IH] ].

Ltac frame_lock IHloop :=
  intros ? ?; unfold LockPackForUse;
  apply unchanged_bind; [frame | intros ?];
  apply unchanged_bind; [frame | intros ?];
  match goal with |- unchanged _ (if ?b then _ else _) => destruct b end;
  [frame | apply IHloop].

Lemma unchanged_minmax_LockPackForUse_loop :
  forall fuel pn k, unchanged keep_minmax (LockPackForUse_loop fuel pn k).
Proof. frame_lock_loop. Qed.

Lemma unchanged_minmax_LockPackForUse :
  forall fuel pn, unchanged keep_minmax (LockPackForUse fuel pn).
Proof. frame_lock unchanged_minmax_LockPackForUse_loop. Qed.

(** A sequence of steps each of which leaves the observation alone. *)
Ltac steps_seq lift :=
  repeat (lazymatch goal with |- steps _ (_ ≫= _) => apply steps_bind end;
          [ apply _
          | solve [apply lift; frame]
          | intros ?;
            try match goal with
                | |- steps _ (let '(_, _) := ?x in _) => destruct x
                end ]).

Lemma steps_minmax_UpdateData_refresh dpn : steps minmax_step (UpdateData_refresh dpn).
Proof.
  intros w. unfold UpdateData_refresh, GetPackType. msimpl.
  destruct (pack_type (attr w)) eqn:Hpt.
  - rewrite bool_decide_eq_true_2 by done. split; [| by rewrite Hpt].
    match goal with
    | |- pack_type (attr (?m w).2) = _ =>
        assert (unchanged (fun w => pack_type (attr w)) m) as Hu by frame
    end.
    apply Hu.
  - rewrite bool_decide_eq_false_2 by done. reflexivity.
Qed.

Lemma steps_minmax_UpdateData_locked row pn v :
  steps minmax_step (UpdateData_locked row pn v).
Proof.
  unfold UpdateData_locked. steps_seq @unchanged_minmax_steps.
  apply steps_minmax_UpdateData_refresh.
Qed.

Lemma steps_minmax_UpdateData fuel row v : steps minmax_step (UpdateData fuel row v).
Proof.
  unfold UpdateData.
  apply steps_bind; [apply _ | apply unchanged_minmax_steps; frame | intros _].
  apply steps_bind; [apply _ | apply unchanged_minmax_steps; frame | intros pn].
  apply steps_bind;
    [apply _ | apply unchanged_minmax_steps, unchanged_minmax_LockPackForUse | intros _].
  apply steps_scope_exit; [apply _ | apply steps_minmax_UpdateData_locked |].
  apply unchanged_minmax_steps. frame.
Qed.

(** The count of nulls of the header, the view, and the counts of nulls of
    the DPNs of the arena. *)
Definition keep_nn (w : World) :=
  (h_nn (hdr (attr w)), m_idx (attr w), nn <$> dpns (share w)).

Lemma keep_nn_upd_dpn k f w :
  (forall d, nn (f d) = nn d) -> keep_nn (upd_dpn k f w) = keep_nn w.
Proof.
  intros Hf. unfold keep_nn, upd_dpn. simpl. f_equal.
  apply list_eq. intros i. rewrite !list_lookup_fmap.
  destruct (decide (i = k)) as [-> | Hne].
  - rewrite list_lookup_alter_eq. destruct (dpns (share w) !! k); simpl; [| done].
    by rewrite Hf.
  - by rewrite list_lookup_alter_ne.
Qed.

(** The writes of the lock protocol go to the tagged word. *)
Ltac frame_nn :=
  frame;
  try (apply keep_nn_upd_dpn; intros ?; unfold DPN_IncRef, DPN_CAS;
       repeat case_match; reflexivity).

Lemma keep_nn_view w w' pn k d :
  keep_nn w' = keep_nn w -> view_dpn w pn = Some (k, d) ->
  exists d', view_dpn w' pn = Some (k, d') /\ nn d' = nn d.
Proof.
  unfold keep_nn, view_dpn. intros [= Hh Hi Hd]. destruct (pn <? 0); [done |].
  rewrite Hi. destruct (m_idx (attr w) !! Z.to_nat pn) as [k' |]; simpl; [| done].
  destruct (dpns (share w) !! k') as [d0 |] eqn:Hk; simpl; [| done].
  intros [= -> ->].
  assert ((nn <$> dpns (share w')) !! k = Some (nn d)) as Hn
    by (by rewrite Hd, list_lookup_fmap, Hk).
  rewrite list_lookup_fmap in Hn.
  destruct (dpns (share w') !! k) as [d' |]; simpl in Hn; [| done].
  exists d'. split; [done | congruence].
Qed.

Lemma unchanged_nn_LockPackForUse_loop :
  forall fuel pn k, unchanged keep_nn (LockPackForUse_loop fuel pn k).
Proof.
  intros fuel; induction fuel as [| fuel IH]; intros pn k; simpl;
    [apply unchanged_out_of_fuel |].
  apply unchanged_bind; [frame | intros dpn].
  destruct (DPN_IncRef dpn).1; [frame_nn |].
  destruct (DPN_CAS 0 loading_flag dpn).1; [frame_nn | apply IH].
Qed.

Lemma unchanged_nn_LockPackForUse :
  forall fuel pn, unchanged keep_nn (LockPackForUse fuel pn).
Proof. frame_lock unchanged_nn_LockPackForUse_loop. Qed.

Lemma unchanged_nn_UnlockPackFromUse pn : unchanged keep_nn (UnlockPackFromUse pn).
Proof. frame_nn. Qed.

Lemma unchanged_nn_UpdateIfIndex row col v : unchanged keep_nn (UpdateIfIndex row col v).
Proof. frame. Qed.

Lemma unchanged_nn_UpdateData_lookup v : unchanged keep_nn (UpdateData_lookup v).
Proof. frame. Qed.

Lemma unchanged_nn_UpdateData_refresh dpn : unchanged keep_nn (UpdateData_refresh dpn).
Proof. frame. Qed.

Lemma unchanged_nn_cache_GetOrFetchObject_Pack pc :
  unchanged keep_nn (cache_GetOrFetchObject_Pack pc).
Proof. frame. Qed.

Lemma CopyPackForWrite_nn pi w w1 k d :
  view_dpn w pi = Some (k, d) ->
  CopyPackForWrite pi w = (Ret tt, w1) ->
  h_nn (hdr (attr w1)) = h_nn (hdr (attr w)) /\
  exists k1 d1, view_dpn w1 pi = Some (k1, d1) /\ nn d1 = nn d.
Proof.
  intros Hv. unfold CopyPackForWrite. rewrite bind_eq, get_dpn_eq, Hv.
  destruct (DPN_IsLocal d).
  { intros [= <-]. split; [done |]. by exists k, d. }
  unfold tx_GetID. rewrite bind_eq. destruct (m_tx (attr w)) as [x |]; [| done].
  rewrite bind_eq. unfold alloc_dpn. rewrite bind_eq. cbn [gets].
  rewrite bind_eq. unfold set_m_idx. cbn [modify].
  match goal with
  | |- ?rest ?w2 = _ -> _ =>
      assert (unchanged keep_nn rest) as Hu by frame_nn;
      specialize (Hu w2); set (w2' := w2) in *
  end.
  intros Hrest. rewrite Hrest in Hu. simpl in Hu.
  assert (view_dpn w2' pi =
          Some (length (dpns (share w)), init_dpn x (Some (k, d)))) as Hv2.
  { unfold view_dpn in *. destruct (pi <? 0); [done |]. subst w2'. simpl.
    destruct (m_idx (attr w) !! Z.to_nat pi) as [k' |] eqn:Hk; [| done].
    rewrite list_lookup_insert_eq by (by eapply lookup_lt_Some). simpl.
    by rewrite lookup_app_r, Nat.sub_diag by done. }
  destruct (keep_nn_view _ _ _ _ _ Hu Hv2) as (d' & Hv1 & Hn).
  split.
  - injection Hu as Hh _ _. rewrite Hh. reflexivity.
  - eexists _, d'. split; [exact Hv1 |]. rewrite Hn. reflexivity.
Qed.

Lemma scope_exit_ret_inv {A} (m : M A) (fin : M unit) w a w' :
  scope_exit m fin w = (Ret a, w') ->
  exists w1, m w = (Ret a, w1) /\ fin w1 = (Ret tt, w').
Proof.
  unfold scope_exit. destruct (m w) as [[a1 | e | c |] w1]; try discriminate.
  - destruct (fin w1) as [[[] | e' | c' |] w2] eqn:Hf; try discriminate.
    intros [= -> ->]. by exists w1.
  - destruct (fin w1) as [[[] | e' | c' |] w2]; discriminate.
Qed.

Lemma unchanged_ret_eq {B A} (keep : World -> B) (m : M A) w a w' :
  unchanged keep m -> m w = (Ret a, w') -> keep w' = keep w.
Proof. intros Hu Hm. specialize (Hu w). by rewrite Hm in Hu. Qed.

Lemma readonly_ret_eq {A} (m : M A) w a w' : readonly m -> m w = (Ret a, w') -> w' = w.
Proof. apply unchanged_ret_eq. Qed.

Lemma UpdateData_locked_nn row pn v w w2 k d :
  view_dpn w pn = Some (k, d) ->
  UpdateData_locked row pn v w = (Ret tt, w2) ->
  exists k' d', view_dpn w2 pn = Some (k', d') /\
    h_nn (hdr (attr w2)) = u64 (u64 (h_nn (hdr (attr w)) - nn d) + nn d').
Proof.
  intros Hv Hrun. unfold UpdateData_locked in Hrun.
  apply bind_ret_inv in Hrun as (cid & wa & Hcid & Hrun). injection Hcid as _ <-.
  apply bind_ret_inv in Hrun as ([] & wb & Hidx & Hrun).
  apply (unchanged_ret_eq keep_nn) in Hidx; [| apply unchanged_nn_UpdateIfIndex].
  destruct (keep_nn_view _ _ _ _ _ Hidx Hv) as (db & Hvb & Hnb).
  apply bind_ret_inv in Hrun as ([] & wc & Hcopy & Hrun).
  destruct (CopyPackForWrite_nn _ _ _ _ _ Hvb Hcopy) as (Hhc & kc & dc & Hvc & Hnc).
  apply bind_ret_inv in Hrun as ([k1 dpn_save] & wc' & Hget & Hrun).
  rewrite get_dpn_eq, Hvc in Hget. injection Hget as <- <- <-.
  apply bind_ret_inv in Hrun as ([] & wd & Hfetch & Hrun).
  assert (keep_nn wd = keep_nn wc) as Hkd.
  { eapply unchanged_ret_eq; [| exact Hfetch]. frame. }
  apply bind_ret_inv in Hrun as (v' & we & Hlook & Hrun).
  apply (unchanged_ret_eq keep_nn) in Hlook; [| apply unchanged_nn_UpdateData_lookup].
  apply bind_ret_inv in Hrun as (p & we' & Hp & Hrun).
  apply readonly_ret_eq in Hp as ->; [| apply readonly_get_pack].
  apply bind_ret_inv in Hrun as (offset & we' & Hoff & Hrun). injection Hoff as _ <-.
  apply bind_ret_inv in Hrun as ([] & wf & Hupd & Hrun).
  assert ((h_nn (hdr (attr wf)), m_idx (attr wf)) = (h_nn (hdr (attr we)), m_idx (attr we)))
    as Hkf.
  { eapply (unchanged_ret_eq (fun w => (h_nn (hdr (attr w)), m_idx (attr w))));
      [| exact Hupd]. frame. }
  apply bind_ret_inv in Hrun as ([] & wg & Hsync & Hrun).
  assert ((h_nn (hdr (attr wg)), m_idx (attr wg)) = (h_nn (hdr (attr wf)), m_idx (attr wf)))
    as Hkg.
  { eapply (unchanged_ret_eq (fun w => (h_nn (hdr (attr w)), m_idx (attr w))));
      [| exact Hsync]. frame. }
  apply bind_ret_inv in Hrun as (dpn & wg' & Hread & Hrun).
  assert (wg' = wg /\ dpns (share wg) !! kc = Some dpn) as [-> Hdpn].
  { unfold read_dpn in Hread. destruct (dpns (share wg) !! kc); [| done].
    by injection Hread as -> ->. }
  apply bind_ret_inv in Hrun as ([] & wh & Hhdr & Hrun). injection Hhdr as <-.
  apply (unchanged_ret_eq keep_nn) in Hrun; [| apply unchanged_nn_UpdateData_refresh].
  injection Hidx as Hh1 _ _. injection Hkd as Hh2 Hi2 _. injection Hlook as Hh3 Hi3 _.
  injection Hkf as Hh4 Hi4. injection Hkg as Hh5 Hi5.
  assert (view_dpn (upd_hdr
            (fun h => hdr_set_nn (u64 (u64 (h_nn h - nn dc) + nn dpn)) h) wg) pn
          = Some (kc, dpn)) as Hvh.
  { unfold view_dpn in *. destruct (pn <? 0); [done |]. simpl.
    rewrite Hi5, Hi4, Hi3, Hi2.
    destruct (m_idx (attr wc) !! Z.to_nat pn) as [k0 |]; simpl in *; [| done].
    destruct (dpns (share wc) !! k0); simpl in *; [| done].
    injection Hvc as -> _. by rewrite Hdpn. }
  destruct (keep_nn_view _ _ _ _ _ Hrun Hvh) as (d' & Hv2 & Hn2).
  exists kc, d'. split; [exact Hv2 |].
  injection Hrun as Hh6 _ _. rewrite Hh6. simpl.
  rewrite Hh5, Hh4, Hh3, Hh2, Hhc, Hh1, Hnc, Hnb, Hn2. reflexivity.
Qed.

(** C9.  [UpdateData(row, v)] on a column of string packs leaves [hdr.min]
    and [hdr.max] as they were, whatever its outcome (and never changes the
    pack type); and on a column of either pack type, when it returns,
    [hdr.nn] was lowered by the count of nulls the pack of the row had and
    raised by the count it has now, in 64-bit arithmetic. *)
Theorem UpdateData_header_statistics (fuel : nat) (row : Z) (v : Value) (w : World) :
  (pack_type (attr w) = PT_STR ->
   h_min (hdr (attr (run (UpdateData fuel row v) w))) = h_min (hdr (attr w)) /\
   h_max (hdr (attr (run (UpdateData fuel row v) w))) = h_max (hdr (attr w))) /\
  (forall w', UpdateData fuel row v w = (Ret tt, w') ->
     let pn := Z.shiftr row (pss (attr w)) in
     exists k d k' d',
       view_dpn w pn = Some (k, d) /\ view_dpn w' pn = Some (k', d') /\
       h_nn (hdr (attr w')) = u64 (u64 (h_nn (hdr (attr w)) - nn d) + nn d')).
Proof.
  split.
  - apply (steps_minmax_UpdateData fuel row v w).
  - intros w' Hrun pn. unfold UpdateData in Hrun.
    apply bind_ret_inv in Hrun as ([] & w0 & Hnc & Hrun). injection Hnc as <-.
    apply bind_ret_inv in Hrun as (pn' & w0' & Hpn & Hrun). injection Hpn as <- <-.
    cbn [attr upd_attr pss attr_set_no_change] in Hrun. fold pn in Hrun.
    apply bind_ret_inv in Hrun as ([] & w1 & Hlock & Hrun).
    apply scope_exit_ret_inv in Hrun as (w2 & Hbody & Hunlock).
    assert (exists k d, view_dpn w pn = Some (k, d)) as (k & d & Hv).
    { unfold LockPackForUse, lock_dpn in Hlock.
      apply bind_ret_inv in Hlock as (k0 & w0 & Hl & _).
      apply bind_ret_inv in Hl as ([k d] & w0' & Hget & _).
      rewrite get_dpn_eq in Hget.
      change (view_dpn (upd_attr (attr_set_no_change false) w) pn) with (view_dpn w pn)
        in Hget.
      destruct (view_dpn w pn) as [[k' d'] |]; [| done]. by exists k', d'. }
    apply (unchanged_ret_eq keep_nn) in Hlock; [| apply unchanged_nn_LockPackForUse].
    change (keep_nn (upd_attr (attr_set_no_change false) w)) with (keep_nn w) in Hlock.
    destruct (keep_nn_view _ _ _ _ _ Hlock Hv) as (d1 & Hv1 & Hn1).
    destruct (UpdateData_locked_nn _ _ _ _ _ _ _ Hv1 Hbody) as (k2 & d2 & Hv2 & Hh2).
    apply (unchanged_ret_eq keep_nn) in Hunlock; [| apply unchanged_nn_UnlockPackFromUse].
    destruct (keep_nn_view _ _ _ _ _ Hunlock Hv2) as (d3 & Hv3 & Hn3).
    exists k, d, k2, d3. split; [exact Hv |]. split; [exact Hv3 |].
    injection Hunlock as Hh3 _ _. injection Hlock as Hh1 _ _.
    rewrite Hh3, Hh2, Hh1, Hn1, Hn3. reflexivity.
Qed.

(** ** LoadData: rows, packs and batches *)

(** The row counts of the packs of the view, in order. *)
Definition view_nrs (w : World) : list Z :=
  (fun k => from_option nr 0 (dpns (share w) !! k)) <$> m_idx (attr w).

(** The capacity of a pack, [1U << pss]. *)
Definition pack_capacity (w : World) : Z := u32 (Z.shiftl 1 (pss (attr w))).

(** What one call of [LoadData] with [n] values does to the row counts: a
    new pack when there is none or the last one is full, and otherwise the
    last pack takes them all. *)
Definition load_nrs (cap n : Z) (l : list Z) : list Z :=
  match last l with
  | Some r => if r =? cap then l ++ [u32 n] else removelast l ++ [u32 (r + n)]
  | None => l ++ [u32 n]
  end.

(** [T] rows in packs of [cap] rows: full packs and a rest. *)
Definition chunks (cap T : Z) : list Z :=
  replicate (Z.to_nat (T / cap)) cap ++ (if T mod cap =? 0 then [] else [T mod cap]).

(** Every batch has a row and fits in what is left of the last pack. *)
Fixpoint fits (cap T : Z) (sizes : list Z) : Prop :=
  match sizes with
  | [] => True
  | n :: sizes' => 1 <= n <= cap - T mod cap /\ fits cap (T + n) sizes'
  end.

Lemma replicate_snoc {A} (n : nat) (x : A) : replicate (S n) x = replicate n x ++ [x].
Proof. induction n as [| n IH]; [done |]. simpl in *. by rewrite <- IH. Qed.

Lemma chunks_load cap T n :
  0 < cap < 2 ^ 32 -> 0 <= T -> 1 <= n <= cap - T mod cap ->
  load_nrs cap n (chunks cap T) = chunks cap (T + n).
Proof.
  intros Hcap HT Hn.
  pose proof (Z.div_mod T cap ltac:(lia)) as Hdm.
  pose proof (Z.mod_pos_bound T cap ltac:(lia)) as Hr.
  pose proof (Z.div_pos T cap HT ltac:(lia)) as Hq.
  set (q := T / cap) in *. set (r := T mod cap) in *.
  assert (forall x, 0 <= x < cap -> (T + n) = cap * q + x ->
            (T + n) / cap = q /\ (T + n) mod cap = x) as Hlow.
  { intros x Hx E. rewrite E. split.
    - rewrite Z.mul_comm, Z.div_add_l, Z.div_small by lia. lia.
    - rewrite Z.mul_comm, Z.add_comm, Z.mod_add, Z.mod_small by lia. lia. }
  assert ((T + n) = cap * (q + 1) ->
            (T + n) / cap = q + 1 /\ (T + n) mod cap = 0) as Hfull.
  { intros E. rewrite E. split.
    - rewrite Z.mul_comm, Z.div_mul by lia. lia.
    - rewrite Z.mul_comm, Z.mod_mul by lia. lia. }
  unfold chunks at 1. fold q r. unfold load_nrs.
  destruct (r =? 0) eqn:Hr0.
  - apply Z.eqb_eq in Hr0. rewrite app_nil_r.
    assert (u32 n = n) as -> by (apply u32_small; lia).
    assert (chunks cap (T + n) = replicate (Z.to_nat q) cap ++ [n]) as ->.
    { unfold chunks. destruct (decide (n = cap)) as [-> | Hne].
      - destruct Hfull as [-> ->]; [lia |]. simpl.
        rewrite app_nil_r, Z2Nat.inj_add by lia.
        rewrite Nat.add_comm. apply replicate_snoc.
      - destruct (Hlow n) as [-> ->]; [lia | lia |].
        by rewrite (proj2 (Z.eqb_neq n 0)) by lia. }
    destruct (Z.to_nat q) as [| m] eqn:Hm; [done |].
    rewrite replicate_snoc, last_snoc, Z.eqb_refl. done.
  - apply Z.eqb_neq in Hr0. rewrite last_snoc.
    rewrite (proj2 (Z.eqb_neq r cap)) by lia.
    rewrite removelast_last.
    assert (u32 (r + n) = r + n) as -> by (apply u32_small; lia).
    unfold chunks. destruct (decide (r + n = cap)) as [E | Hne].
    + destruct Hfull as [-> ->]; [lia |]. simpl.
      rewrite app_nil_r, Z2Nat.inj_add by lia.
      rewrite Nat.add_comm, replicate_snoc. by rewrite E.
    + destruct (Hlow (r + n)) as [-> ->]; [lia | lia |].
      by rewrite (proj2 (Z.eqb_neq (r + n) 0)) by lia.
Qed.

Lemma chunks_length cap T :
  0 < cap -> 0 <= T -> Z.of_nat (length (chunks cap T)) = (T + cap - 1) / cap.
Proof.
  intros Hcap HT.
  pose proof (Z.div_mod T cap ltac:(lia)) as Hdm.
  pose proof (Z.mod_pos_bound T cap ltac:(lia)) as Hr.
  pose proof (Z.div_pos T cap HT ltac:(lia)) as Hq.
  unfold chunks. rewrite length_app, length_replicate.
  set (q := T / cap) in *. set (r := T mod cap) in *.
  destruct (r =? 0) eqn:Hr0.
  - apply Z.eqb_eq in Hr0. simpl.
    replace (T + cap - 1) with ((cap - 1) + q * cap) by lia.
    rewrite Z.div_add, Z.div_small by lia. lia.
  - apply Z.eqb_neq in Hr0. simpl.
    replace (T + cap - 1) with ((r - 1) + (q + 1) * cap) by lia.
    rewrite Z.div_add, Z.div_small by lia. lia.
Qed.

Lemma chunks_full cap T i :
  (i < length (chunks cap T) - 1)%nat -> chunks cap T !! i = Some cap.
Proof.
  unfold chunks. rewrite length_app, length_replicate. intros Hi.
  rewrite lookup_app_l by (rewrite length_replicate; destruct (_ =? 0); simpl in *; lia).
  apply lookup_replicate_2. destruct (_ =? 0); simpl in *; lia.
Qed.

(** The object at [a], if there is one, is the pack of DPN [k]; and [a] is
    an address the memory has handed out. *)
Definition points_to (w : World) (a : Z) (k : PACK_INDEX) : Prop :=
  forall o, pack_heap (eng w) !! a = Some o -> po_dpn o = k.

Definition allocated (w : World) (a : Z) : Prop :=
  exists n, 0 <= n < heap_count (eng w) /\ n < heap_limit /\ a = heap_addr n.

(** The pointer bits of the tagged word of DPN [k] are null or lead to its
    own pack. *)
Definition ptr_ok (w : World) (k : PACK_INDEX) (d : DPN) : Prop :=
  let a := Z.land (pack_ptr d) tag_mask in
  a = 0 \/ (allocated w a /\ points_to w a k).

(** The packs of a column that one writer loads from nothing: every DPN of
    the view is a local one of the arena, no DPN is there twice, and the
    pointers of the DPNs and of the cache lead to the right packs. *)
Record load_inv (w : World) : Prop := {
  inv_view : forall k, k ∈ m_idx (attr w) ->
    exists d, dpns (share w) !! k = Some d /\ local d = true /\ ptr_ok w k d;
  inv_nodup : NoDup (m_idx (attr w));
  inv_cache : forall k a, pack_cache (eng w) !! k = Some a ->
    allocated w a /\ points_to w a k;
}.

(** The part of the state the invariant reads, the shift and the row count
    of the header; the memory may have handed out more addresses. *)
Definition keep_packs (w : World) :=
  (m_idx (attr w), dpns (share w), pack_heap (eng w), pack_cache (eng w),
   pss (attr w), h_nr (hdr (attr w))).

Definition grows (w w' : World) : Prop :=
  keep_packs w' = keep_packs w /\ heap_count (eng w) <= heap_count (eng w').

#[local] Instance grows_preorder : PreOrder grows.
Proof.
  split.
  - intros w. split; [done | lia].
  - intros w1 w2 w3 [E1 L1] [E2 L2]. split; [congruence | lia].
Qed.

Lemma allocated_mono w w' a :
  heap_count (eng w) <= heap_count (eng w') -> allocated w a -> allocated w' a.
Proof. intros Hc (n & Hn & Hl & ->). exists n. split; [lia | done]. Qed.

Lemma ptr_ok_mono w w' k d :
  pack_heap (eng w') = pack_heap (eng w) ->
  heap_count (eng w) <= heap_count (eng w') -> ptr_ok w k d -> ptr_ok w' k d.
Proof.
  intros Hh Hc [H0 | [Ha Hp]]; [by left | right]. split.
  - by eapply allocated_mono.
  - unfold points_to. by rewrite Hh.
Qed.

Lemma grows_load_inv w w' : grows w w' -> load_inv w -> load_inv w'.
Proof.
  intros [[= Hi Hd Hh Hc _ _] Hn] [Iv In Ic]. split.
  - rewrite Hi, Hd. intros k Hk. destruct (Iv k Hk) as (d & Hd' & Hl & Hp).
    exists d. split; [done |]. split; [done |]. by eapply ptr_ok_mono.
  - by rewrite Hi.
  - rewrite Hc. intros k a Hk. destruct (Ic k a Hk) as [Ha Hp]. split.
    + by eapply allocated_mono.
    + unfold points_to. by rewrite Hh.
Qed.

Lemma grows_view_nrs w w' : grows w w' -> view_nrs w' = view_nrs w.
Proof. intros [[= Hi Hd _ _ _ _] _]. unfold view_nrs. by rewrite Hi, Hd. Qed.

Lemma unchanged_grows {A} (m : M A) :
  unchanged (fun w => (keep_packs w, heap_count (eng w))) m -> steps grows m.
Proof.
  intros Hm w. specialize (Hm w). simpl in Hm.
  assert (keep_packs (m w).2 = keep_packs w) as Hk by congruence.
  assert (heap_count (eng (m w).2) = heap_count (eng w)) as Hc by congruence.
  split; [done | lia].
Qed.

Lemma steps_grows_dict_alloc t : steps grows (dict_alloc t).
Proof.
  intros w. unfold dict_alloc. destruct (_ && _); simpl; [| reflexivity].
  split; [done | simpl; lia].
Qed.

(** The dictionary code allocates trees; it leaves the packs alone. *)
Ltac grows_step :=
  lazymatch goal with
  | |- steps _ (dict_alloc _) => apply steps_grows_dict_alloc
  | |- steps _ (mret _) => apply steps_ret, _
  | |- steps _ (_ ≫= _) => apply steps_bind; [apply _ | | intros ?]
  | |- steps _ (match ?x with _ => _ end) => destruct x
  | |- steps _ (let '(_, _) := ?x in _) => destruct x
  | |- steps _ ?m =>
      first [ solve [apply unchanged_grows; frame]
            | let h := head_of m in progress unfold h ]
  end.

Lemma steps_grows_EncodeValue_T rcbs new_val : steps grows (EncodeValue_T rcbs new_val).
Proof. repeat grows_step. Qed.

Lemma load_inv_update w w' :
  load_inv w ->
  m_idx (attr w') = m_idx (attr w) ->
  heap_count (eng w) <= heap_count (eng w') ->
  (forall a k, allocated w a -> points_to w a k -> points_to w' a k) ->
  (forall k d, k ∈ m_idx (attr w) -> dpns (share w) !! k = Some d ->
     exists d', dpns (share w') !! k = Some d' /\ local d' = local d /\
       (Z.land (pack_ptr d') tag_mask = Z.land (pack_ptr d) tag_mask \/ ptr_ok w' k d')) ->
  (forall k a, pack_cache (eng w') !! k = Some a ->
     pack_cache (eng w) !! k = Some a \/ (allocated w' a /\ points_to w' a k)) ->
  load_inv w'.
Proof.
  intros [Iv In Ic] Hi Hc Hp Hd Hk. split.
  - rewrite Hi. intros k Hin. destruct (Iv k Hin) as (d & Hdk & Hl & Hok).
    destruct (Hd k d Hin Hdk) as (d' & Hdk' & Hl' & Hptr).
    exists d'. split; [done |]. split; [congruence |].
    destruct Hptr as [Hsame | Hnew]; [| done].
    unfold ptr_ok in *. rewrite Hsame.
    destruct Hok as [H0 | [Ha Hpt]]; [by left | right].
    split; [by eapply allocated_mono | by apply Hp].
  - by rewrite Hi.
  - intros k a Hka. destruct (Hk k a Hka) as [Hold | Hnew]; [| done].
    destruct (Ic k a Hold) as [Ha Hpt].
    split; [by eapply allocated_mono | by apply Hp].
Qed.

(** The state moved while the pack of DPN [k] was worked on: the invariant
    holds again, the view, the shift and the row count of the header are
    the same, and so are the other DPNs. *)
Definition touched (k : PACK_INDEX) (w w' : World) : Prop :=
  load_inv w' /\
  m_idx (attr w') = m_idx (attr w) /\
  pss (attr w') = pss (attr w) /\
  h_nr (hdr (attr w')) = h_nr (hdr (attr w)) /\
  (forall k', k' <> k -> dpns (share w') !! k' = dpns (share w) !! k').

Lemma touched_trans k w1 w2 w3 : touched k w1 w2 -> touched k w2 w3 -> touched k w1 w3.
Proof.
  intros (_ & Hi1 & Hp1 & Hn1 & Ho1) (I3 & Hi2 & Hp2 & Hn2 & Ho2).
  split; [done |]. split; [congruence |]. split; [congruence |]. split; [congruence |].
  intros k' Hk'. rewrite Ho2, Ho1 by done. done.
Qed.

Lemma grows_touched k w w' : load_inv w -> grows w w' -> touched k w w'.
Proof.
  intros Hinv Hg. split; [by eapply grows_load_inv |].
  destruct Hg as [[= Hi Hd _ _ Hp Hn] _]. rewrite Hd. done.
Qed.

Lemma grows_dpns w w' : grows w w' -> dpns (share w') = dpns (share w).
Proof. by intros [[= _ Hd _ _ _ _] _]. Qed.

(** A write to DPN [k] that leaves the controller's fields alone. *)
Lemma touched_upd_dpn k f w :
  load_inv w ->
  (forall d, local (f d) = local d /\ pack_ptr (f d) = pack_ptr d) ->
  touched k w (upd_dpn k f w).
Proof.
  intros Hinv Hf. split; [| split; [done |]; split; [done |]; split; [done |]].
  - apply (load_inv_update w); [done | done | simpl; lia | done | | auto].
    simpl. intros k' d Hin Hd. destruct (decide (k' = k)) as [-> | Hne].
    + exists (f d). rewrite list_lookup_alter_eq, Hd. simpl.
      destruct (Hf d) as [-> ->]. auto.
    + exists d. rewrite list_lookup_alter_ne by done. auto.
  - intros k' Hne. simpl. by rewrite list_lookup_alter_ne.
Qed.

(** The pointer of DPN [k] is set to its pack. *)
Lemma touched_set_ptr k a w :
  load_inv w -> allocated w a -> points_to w a k ->
  touched k w (upd_dpn k (DPN_SetPackPtr (u64 (a + tag_one))) w).
Proof.
  intros Hinv Ha Hp. split; [| split; [done |]; split; [done |]; split; [done |]].
  - apply (load_inv_update w); [done | done | simpl; lia | done | | auto].
    simpl. intros k' d Hin Hd. destruct (decide (k' = k)) as [-> | Hne].
    + exists (DPN_SetPackPtr (u64 (a + tag_one)) d).
      rewrite list_lookup_alter_eq, Hd. simpl. split; [done |]. split; [done |].
      right. unfold ptr_ok. simpl. destruct Ha as (n & Hn & Hl & ->).
      assert (0 <= n < heap_limit) as Hnl by lia.
      pose proof (heap_addr_range n Hnl) as Hr. pose proof tag_one_nonneg.
      rewrite u64_small, heap_addr_tag by lia.
      right. split; [by exists n | done].
    + exists d. rewrite list_lookup_alter_ne by done. auto.
  - intros k' Hne. simpl. by rewrite list_lookup_alter_ne.
Qed.

(** The object at [a] is replaced by one of the same DPN. *)
Lemma touched_pack_store k a o o' w :
  load_inv w -> pack_heap (eng w) !! a = Some o -> po_dpn o' = po_dpn o ->
  touched k w (upd_eng (fun e =>
    eng_set_packs (<[a := o']> (pack_heap e)) (pack_cache e) (heap_count e) e) w).
Proof.
  intros Hinv Ho Hd. split; [| done].
  apply (load_inv_update w); [done | done | simpl; lia | | | auto].
  - intros a' k' _ Hp o1. simpl. destruct (decide (a' = a)) as [-> | Hne].
    + rewrite lookup_insert_eq. intros [= <-]. rewrite Hd. by apply Hp.
    + rewrite lookup_insert_ne by done. apply Hp.
  - intros k' d Hin Hdk. exists d. auto.
Qed.

(** [GetOrFetchObject] answers an address the memory handed out, of an
    object that is the pack of the DPN asked for. *)
Lemma cache_GetOrFetchObject_Pack_spec k w sp w' :
  load_inv w ->
  cache_GetOrFetchObject_Pack k w = (Ret sp, w') ->
  touched k w w' /\ dpns (share w') = dpns (share w) /\
  allocated w' sp /\ points_to w' sp k.
Proof.
  intros Hinv. unfold cache_GetOrFetchObject_Pack. msimpl.
  destruct (pack_cache (eng w) !! k) as [a |] eqn:Hc.
  - destruct (inv_cache w Hinv k a Hc) as [Ha Hp].
    unfold pack_deref. rewrite bind_eq. destruct (a =? 0); [done |].
    destruct (pack_heap (eng w) !! a) as [o |] eqn:Ho; [| done].
    unfold pack_store. msimpl. intros [= <- <-].
    split; [by eapply touched_pack_store |]. split; [done |]. split; [done |].
    intros o'. simpl. rewrite lookup_insert_eq. intros [= <-]. simpl. by apply Hp.
  - unfold Fetch_Pack, read_dpn, GetPackType. rewrite !bind_eq.
    destruct (dpns (share w) !! k) as [d |] eqn:Hd; [| done]. msimpl.
    destruct (Pack_new (pack_type (attr w)) d) as [b |]; [| done]. msimpl.
    unfold pack_alloc. destruct (_ && _) eqn:Hn; [| done].
    apply andb_true_iff in Hn as [H0 Hl]. apply Z.leb_le in H0. apply Z.ltb_lt in Hl.
    unfold cache_PutObject_Pack. msimpl. intros [= <- <-].
    assert (allocated
              (upd_eng (fun e => eng_set_packs (pack_heap e)
                                   (<[k := heap_addr (heap_count (eng w))]> (pack_cache e))
                                   (heap_count e) e)
                 (upd_eng (eng_set_packs
                             (<[heap_addr (heap_count (eng w)) :=
                                  {| po_body := b; po_dpn := k; po_locks := 1 |}]>
                                (pack_heap (eng w)))
                             (pack_cache (eng w)) (heap_count (eng w) + 1)) w))
              (heap_addr (heap_count (eng w)))) as Hnew.
    { exists (heap_count (eng w)). simpl. split; [lia | done]. }
    split; [| split; [done |]; split; [done |]].
    + split; [| done].
      apply (load_inv_update w); [done | done | simpl; lia | | | ].
      * intros a' k' (n & Hn & Hnl & ->) Hp o'. simpl.
        rewrite lookup_insert_ne; [apply Hp |].
        intros E. apply heap_addr_inj in E; lia.
      * intros k' d' _ Hd'. exists d'. auto.
      * intros k' a'. simpl. destruct (decide (k' = k)) as [-> | Hne].
        -- rewrite lookup_insert_eq. intros [= <-]. right. split; [done |].
           intros o'. simpl. rewrite lookup_insert_eq. by intros [= <-].
        -- rewrite lookup_insert_ne by done. auto.
    + intros o'. simpl. rewrite lookup_insert_eq. by intros [= <-].
Qed.

(** The pointer bits of a DPN of the view lead to its pack. *)
Lemma view_pack_deref k d w o w1 :
  load_inv w -> k ∈ m_idx (attr w) -> dpns (share w) !! k = Some d ->
  pack_deref (Z.land (pack_ptr d) tag_mask) w = (Ret o, w1) ->
  w1 = w /\ pack_heap (eng w) !! Z.land (pack_ptr d) tag_mask = Some o /\ po_dpn o = k.
Proof.
  intros Hinv Hin Hd. destruct (inv_view w Hinv k Hin) as (d' & Hd' & _ & Hok).
  assert (d' = d) as -> by congruence.
  unfold pack_deref. destruct Hok as [-> | [_ Hp]]; [done |].
  destruct (_ =? 0); [done |].
  destruct (pack_heap (eng w) !! _) as [o' |] eqn:Ho; [| done].
  intros [= <- <-]. split; [done |]. split; [done |]. by apply Hp.
Qed.

(** A method of the pack of DPN [k] writes its body and its DPN. *)
Lemma pack_method_spec k a o b' f d w w' :
  load_inv w -> pack_heap (eng w) !! a = Some o -> po_dpn o = k ->
  dpns (share w) !! k = Some d ->
  (forall d, local (f d) = local d /\ pack_ptr (f d) = pack_ptr d) ->
  (pack_store a (PackObj_set_body b' o);; modify_dpn k f) w = (Ret tt, w') ->
  touched k w w' /\ dpns (share w') !! k = Some (f d).
Proof.
  intros Hinv Ho Hk Hd Hf. unfold pack_store. msimpl.
  unfold modify_dpn. simpl. rewrite Hd. intros [= <-].
  split.
  - pose proof (touched_pack_store k a o (PackObj_set_body b' o) w Hinv Ho eq_refl)
      as Hstore.
    eapply touched_trans; [exact Hstore |].
    apply touched_upd_dpn; [apply Hstore | done].
  - simpl. by rewrite list_lookup_alter_eq, Hd.
Qed.

Lemma steps_ret_eq {A} (R : relation World) (m : M A) w a w' :
  steps R m -> m w = (Ret a, w') -> R w w'.
Proof. intros Hs Hm. specialize (Hs w). by rewrite Hm in Hs. Qed.

Lemma read_dpn_ret k w d w' :
  read_dpn k w = (Ret d, w') -> w' = w /\ dpns (share w) !! k = Some d.
Proof. unfold read_dpn. destruct (dpns (share w) !! k); [| done]. by intros [= -> ->]. Qed.

Lemma idx_at_lookup pi k w :
  0 <= pi -> m_idx (attr w) !! Z.to_nat pi = Some k -> idx_at pi w = (Ret k, w).
Proof.
  intros H0 Hk. unfold idx_at. rewrite (proj2 (Z.ltb_ge pi 0)) by lia. by rewrite Hk.
Qed.

Lemma get_pack_lookup pi k d w :
  0 <= pi -> m_idx (attr w) !! Z.to_nat pi = Some k -> dpns (share w) !! k = Some d ->
  get_pack pi w = (Ret (Z.land (pack_ptr d) tag_mask), w).
Proof.
  intros H0 Hk Hd. unfold get_pack, get_dpn. rewrite !bind_eq, (idx_at_lookup pi k) by done.
  rewrite bind_eq. unfold read_dpn. rewrite Hd. reflexivity.
Qed.

Lemma modify_dpn_touched k f w w' d :
  load_inv w -> dpns (share w) !! k = Some d ->
  (forall d, local (f d) = local d /\ pack_ptr (f d) = pack_ptr d) ->
  modify_dpn k f w = (Ret tt, w') ->
  touched k w w' /\ dpns (share w') !! k = Some (f d).
Proof.
  intros Hinv Hd Hf. unfold modify_dpn. rewrite Hd. intros [= <-]. split.
  - by apply touched_upd_dpn.
  - simpl. by rewrite list_lookup_alter_eq, Hd.
Qed.

Lemma control_local_ptr d d' :
  dpn_control_eq d d' -> local d' = local d /\ pack_ptr d' = pack_ptr d.
Proof. intros (_ & Hl & _ & _ & _ & Hp). done. Qed.

Lemma PackInt_LoadValues_at_spec k d nvs nv w w' :
  load_inv w -> k ∈ m_idx (attr w) -> dpns (share w) !! k = Some d ->
  PackInt_LoadValues_at (Z.land (pack_ptr d) tag_mask) nvs nv w = (Ret tt, w') ->
  touched k w w' /\
  exists d', dpns (share w') !! k = Some d' /\ nr d' = u32 (nr d + vc_NumOfValues nvs).
Proof.
  intros Hinv Hin Hd Hrun. unfold PackInt_LoadValues_at in Hrun.
  apply bind_ret_inv in Hrun as (o & w1 & Ho & Hrun).
  destruct (view_pack_deref _ _ _ _ _ Hinv Hin Hd Ho) as (-> & Hheap & Hk).
  apply bind_ret_inv in Hrun as (d0 & w1 & Hread & Hrun). rewrite Hk in Hread, Hrun.
  apply read_dpn_ret in Hread as [-> Hd0]. assert (d0 = d) as -> by congruence.
  eapply pack_method_spec in Hrun as [Ht Hd']; [| done | done | done | done |].
  - split; [exact Ht |]. eexists. split; [exact Hd' |]. apply PackInt_LoadValues_nr.
  - intros d1. apply control_local_ptr, PackInt_LoadValues_control.
Qed.

Lemma PackStr_LoadValues_at_spec k d nvs w w' :
  load_inv w -> k ∈ m_idx (attr w) -> dpns (share w) !! k = Some d ->
  PackStr_LoadValues_at (Z.land (pack_ptr d) tag_mask) nvs w = (Ret tt, w') ->
  touched k w w' /\
  exists d', dpns (share w') !! k = Some d' /\ nr d' = u32 (nr d + vc_NumOfValues nvs).
Proof.
  intros Hinv Hin Hd Hrun. unfold PackStr_LoadValues_at in Hrun.
  apply bind_ret_inv in Hrun as (o & w1 & Ho & Hrun).
  destruct (view_pack_deref _ _ _ _ _ Hinv Hin Hd Ho) as (-> & Hheap & Hk).
  apply bind_ret_inv in Hrun as (d0 & w1 & Hread & Hrun). rewrite Hk in Hread, Hrun.
  apply read_dpn_ret in Hread as [-> Hd0]. assert (d0 = d) as -> by congruence.
  eapply pack_method_spec in Hrun as [Ht Hd']; [| done | done | done | done |].
  - split; [exact Ht |]. eexists. split; [exact Hd' |]. apply PackStr_LoadValues_nr.
  - intros d1. apply control_local_ptr, PackStr_LoadValues_control.
Qed.

Lemma Pack_Save_at_spec k d w w' :
  load_inv w -> k ∈ m_idx (attr w) -> dpns (share w) !! k = Some d ->
  Pack_Save_at (Z.land (pack_ptr d) tag_mask) w = (Ret tt, w') ->
  touched k w w' /\ exists d', dpns (share w') !! k = Some d' /\ nr d' = nr d.
Proof.
  intros Hinv Hin Hd Hrun. unfold Pack_Save_at in Hrun.
  apply bind_ret_inv in Hrun as (o & w1 & Ho & Hrun).
  destruct (view_pack_deref _ _ _ _ _ Hinv Hin Hd Ho) as (-> & Hheap & Hk).
  apply bind_ret_inv in Hrun as (d0 & w1 & Hread & Hrun). rewrite Hk in Hread, Hrun.
  apply read_dpn_ret in Hread as [-> Hd0]. assert (d0 = d) as -> by congruence.
  destruct (Pack_Save (po_body o) d) as [[b' d1] |] eqn:Hsave; [| done].
  eapply pack_method_spec in Hrun as [Ht Hd']; [| done | done | done | done |].
  - split; [exact Ht |]. eexists. split; [exact Hd' |]. rewrite Hsave. simpl.
    by destruct (Pack_Save_control _ _ _ _ Hsave) as (_ & -> & _).
  - intros d2. destruct (Pack_Save (po_body o) d2) as [[b2 d3] |] eqn:Hs2; simpl; [| done].
    destruct (Pack_Save_control _ _ _ _ Hs2) as (Hc & _). by apply control_local_ptr.
Qed.

(** The DPN of pack [pi] is [k], at present [d]. *)
Definition pack_at (w : World) (pi : Z) (k : PACK_INDEX) (d : DPN) : Prop :=
  0 <= pi /\ m_idx (attr w) !! Z.to_nat pi = Some k /\ dpns (share w) !! k = Some d.

Lemma pack_at_elem w pi k d : pack_at w pi k d -> k ∈ m_idx (attr w).
Proof. intros (_ & Hk & _). by eapply list_elem_of_lookup_2. Qed.

Lemma pack_at_touched w w' pi k d d' :
  pack_at w pi k d -> touched k w w' -> dpns (share w') !! k = Some d' ->
  pack_at w' pi k d'.
Proof. intros (H0 & Hk & _) (_ & Hi & _) Hd. by rewrite <- Hi in Hk. Qed.

(** A pack object is made for a DPN that had none (lines 898-901, 930-931). *)
Lemma fetch_and_set_spec pi k d w w' :
  load_inv w -> pack_at w pi k d ->
  (pc ← get_pc pi; sp ← cache_GetOrFetchObject_Pack pc;
   modify_dpn k (DPN_SetPackPtr (u64 (sp + tag_one)))) w = (Ret tt, w') ->
  touched k w w' /\ exists d', dpns (share w') !! k = Some d' /\ nr d' = nr d.
Proof.
  intros Hinv Hat Hrun. destruct Hat as (H0 & Hk & Hd).
  unfold get_pc in Hrun. rewrite bind_eq, (idx_at_lookup pi k) in Hrun by done.
  apply bind_ret_inv in Hrun as (sp & w1 & Hfetch & Hset).
  destruct (cache_GetOrFetchObject_Pack_spec _ _ _ _ Hinv Hfetch)
    as (Ht1 & Hd1 & Ha & Hp).
  unfold modify_dpn in Hset. rewrite Hd1, Hd in Hset. injection Hset as <-.
  split.
  - eapply touched_trans; [exact Ht1 |]. apply touched_set_ptr; [apply Ht1 | done | done].
  - eexists. split; [simpl; by rewrite list_lookup_alter_eq, Hd1, Hd | done].
Qed.

Lemma LoadDataPackS_spec pi k d nvs w w' :
  load_inv w -> pack_at w pi k d ->
  LoadDataPackS pi nvs w = (Ret tt, w') ->
  touched k w w' /\
  exists d', dpns (share w') !! k = Some d' /\ nr d' = u32 (nr d + vc_NumOfValues nvs).
Proof.
  intros Hinv Hat. pose proof Hat as (H0 & Hk & Hd). unfold LoadDataPackS.
  rewrite bind_eq, (idx_at_lookup pi k) by done. unfold Type_. msimpl. cbv zeta.
  unfold read_dpn at 1. rewrite Hd.
  destruct (_ && _).
  - intros Hrun. eapply modify_dpn_touched in Hrun as [Ht Hd']; [| done | done | done].
    split; [done |]. eexists. split; [exact Hd' | done].
  - intros Hrun. apply bind_ret_inv in Hrun as ([] & w1 & Hpre & Hrun).
    assert (touched k w w1 /\ exists d1, dpns (share w1) !! k = Some d1 /\ nr d1 = nr d)
      as (Ht1 & d1 & Hd1 & Hn1).
    { destruct (_ || _).
      - by eapply fetch_and_set_spec.
      - injection Hpre as <-. split; [| by exists d].
        apply grows_touched; [done | reflexivity]. }
    pose proof (pack_at_touched _ _ _ _ _ _ Hat Ht1 Hd1) as Hat1.
    destruct Hat1 as (_ & Hk1 & _).
    rewrite bind_eq, (get_pack_lookup pi k d1) in Hrun by done.
    eapply PackStr_LoadValues_at_spec in Hrun as (Ht2 & d2 & Hd2 & Hn2);
      [| apply Ht1 | by eapply list_elem_of_lookup_2 | done].
    split; [by eapply touched_trans |]. exists d2. split; [done |]. by rewrite Hn2, Hn1.
Qed.

Lemma LoadDataPackN_spec pi k d nvs w w' :
  load_inv w -> pack_at w pi k d ->
  LoadDataPackN pi nvs w = (Ret tt, w') ->
  touched k w w' /\
  exists d', dpns (share w') !! k = Some d' /\ nr d' = u32 (nr d + vc_NumOfValues nvs).
Proof.
  intros Hinv Hat Hrun. unfold LoadDataPackN, Type_ in Hrun.
  rewrite bind_eq in Hrun. cbn [gets] in Hrun.
  apply bind_ret_inv in Hrun as (nv & w1 & Hnv & Hrun).
  assert (grows w w1) as Hg.
  { eapply steps_ret_eq; [| exact Hnv]. repeat grows_step. }
  pose proof (grows_touched k _ _ Hinv Hg) as Ht1.
  assert (pack_at w1 pi k d) as Hat1.
  { eapply pack_at_touched; [exact Hat | exact Ht1 |].
    rewrite (grows_dpns _ _ Hg). apply Hat. }
  pose proof Hat1 as (H0 & Hk1 & Hd1).
  rewrite bind_eq, (idx_at_lookup pi k) in Hrun by done. cbv zeta in Hrun.
  rewrite bind_eq in Hrun. unfold read_dpn at 1 in Hrun. rewrite Hd1 in Hrun.
  destruct (_ && _).
  - eapply modify_dpn_touched in Hrun as [Ht Hd']; [| apply Ht1 | done | done].
    split; [by eapply touched_trans |]. eexists. split; [exact Hd' | done].
  - apply bind_ret_inv in Hrun as ([] & w2 & Hsum & Hrun).
    eapply modify_dpn_touched in Hsum as [Ht2 Hd2]; [| apply Ht1 | done | done].
    rewrite bind_eq in Hrun. unfold read_dpn at 1 in Hrun. rewrite Hd2 in Hrun.
    apply bind_ret_inv in Hrun as ([] & w3 & Hload & Htail).
    assert (touched k w2 w3 /\
            exists d3, dpns (share w3) !! k = Some d3 /\
                       nr d3 = u32 (nr d + vc_NumOfValues nvs)) as (Ht3 & d3 & Hd3 & Hn3).
    { destruct (_ && _ && _).
      - eapply modify_dpn_touched in Hload as [Ht Hd']; [| apply Ht2 | done | done].
        split; [done |]. eexists. split; [exact Hd' | done].
      - apply bind_ret_inv in Hload as ([] & w2' & Hpre & Hload).
        pose proof (pack_at_touched _ _ _ _ _ _ Hat1 Ht2 Hd2) as Hat2.
        assert (touched k w2 w2' /\ exists d2', dpns (share w2') !! k = Some d2' /\
                  nr d2' = nr d) as (Ht2' & d2' & Hd2' & Hn2').
        { destruct (DPN_Trivial _).
          - eapply fetch_and_set_spec in Hpre as (Ht & dx & Hdx & Hnx);
              [| apply Ht2 | exact Hat2].
            split; [done |]. exists dx. split; [done |]. by rewrite Hnx.
          - injection Hpre as <-. split; [| by eexists].
            apply grows_touched; [apply Ht2 | reflexivity]. }
        pose proof (pack_at_touched _ _ _ _ _ _ Hat2 Ht2' Hd2') as (_ & Hk2' & _).
        rewrite bind_eq, (get_pack_lookup pi k d2') in Hload by done.
        eapply PackInt_LoadValues_at_spec in Hload as (Ht & dx & Hdx & Hnx);
          [| apply Ht2' | by eapply list_elem_of_lookup_2 | done].
        split; [by eapply touched_trans |]. exists dx. split; [done |].
        by rewrite Hnx, Hn2'. }
    assert (grows w3 w') as Hg'.
    { eapply steps_ret_eq; [| exact Htail]. apply unchanged_grows. frame. }
    split.
    + eapply touched_trans; [exact Ht1 |]. eapply touched_trans; [exact Ht2 |].
      eapply touched_trans; [exact Ht3 |]. apply grows_touched; [apply Ht3 | done].
    + exists d3. split; [| done]. by rewrite (grows_dpns _ _ Hg').
Qed.

(** The state after [alloc_dpn] and [push_back] (lines 806-807). *)
Definition appended (x : TX_ID) (w : World) : World :=
  upd_attr (attr_set_m_idx (m_idx (attr w) ++ [length (dpns (share w))]))
    (upd_share (share_set_dpns (dpns (share w) ++ [init_dpn x None])) w).

Lemma load_inv_in_arena w k :
  load_inv w -> k ∈ m_idx (attr w) -> (k < length (dpns (share w)))%nat.
Proof.
  intros Hinv Hin. destruct (inv_view w Hinv k Hin) as (d & Hd & _).
  by eapply lookup_lt_Some.
Qed.

Lemma load_inv_appended x w : load_inv w -> load_inv (appended x w).
Proof.
  intros Hinv. split.
  - simpl. intros k Hin. apply elem_of_app in Hin as [Hin | Hin].
    + destruct (inv_view w Hinv k Hin) as (d & Hd & Hl & Hok).
      exists d. split; [| done]. rewrite lookup_app_l; [done |]. by eapply lookup_lt_Some.
    + apply list_elem_of_singleton in Hin as ->.
      exists (init_dpn x None). split; [| split; [done |]].
      * by rewrite lookup_app_r, Nat.sub_diag.
      * left. simpl. apply Z.land_0_l.
  - simpl. apply NoDup_app. split; [apply Hinv |]. split; [| apply NoDup_singleton].
    intros k Hin Hk. apply list_elem_of_singleton in Hk as ->.
    apply (load_inv_in_arena w) in Hin; [lia | done].
  - apply (inv_cache w Hinv).
Qed.

Lemma view_nrs_snoc w idx0 k d :
  m_idx (attr w) = idx0 ++ [k] -> dpns (share w) !! k = Some d ->
  view_nrs w = ((fun k => from_option nr 0 (dpns (share w) !! k)) <$> idx0) ++ [nr d].
Proof. intros Hi Hd. unfold view_nrs. by rewrite Hi, fmap_app; simpl; rewrite Hd. Qed.

Lemma load_nrs_new cap n l :
  last l = None \/ last l = Some cap -> load_nrs cap n l = l ++ [u32 (0 + n)].
Proof. unfold load_nrs. intros [-> | ->]; [done |]. by rewrite Z.eqb_refl. Qed.

Lemma load_nrs_extend cap n l r :
  r <> cap -> load_nrs cap n (l ++ [r]) = l ++ [u32 (r + n)].
Proof.
  intros Hr. unfold load_nrs. rewrite last_snoc, (proj2 (Z.eqb_neq r cap)) by done.
  by rewrite removelast_last.
Qed.

(** [PreparePackForLoad] leaves a last pack [k] to load into: a new one
    when the column has none or the last is full, the last one otherwise. *)
Lemma PreparePackForLoad_spec w w1 :
  load_inv w -> PreparePackForLoad w = (Ret tt, w1) ->
  load_inv w1 /\ pss (attr w1) = pss (attr w) /\
  h_nr (hdr (attr w1)) = h_nr (hdr (attr w)) /\
  exists idx0 k d,
    m_idx (attr w1) = idx0 ++ [k] /\ dpns (share w1) !! k = Some d /\
    forall n, load_nrs (pack_capacity w) n (view_nrs w) =
              ((fun k => from_option nr 0 (dpns (share w1) !! k)) <$> idx0)
                ++ [u32 (nr d + n)].
Proof.
  intros Hinv Hrun.
  assert (forall x, m_tx (attr w) = Some x ->
            last (view_nrs w) = None \/ last (view_nrs w) = Some (pack_capacity w) ->
            let w1 := appended x w in
            load_inv w1 /\ pss (attr w1) = pss (attr w) /\
            h_nr (hdr (attr w1)) = h_nr (hdr (attr w)) /\
            exists idx0 k d,
              m_idx (attr w1) = idx0 ++ [k] /\ dpns (share w1) !! k = Some d /\
              forall n, load_nrs (pack_capacity w) n (view_nrs w) =
                ((fun k => from_option nr 0 (dpns (share w1) !! k)) <$> idx0)
                  ++ [u32 (nr d + n)]) as Hnew.
  { intros x Hx Hlast w1'. split; [by apply load_inv_appended |].
    split; [done |]. split; [done |].
    exists (m_idx (attr w)), (length (dpns (share w))), (init_dpn x None).
    split; [done |]. split; [simpl; by rewrite lookup_app_r, Nat.sub_diag |].
    intros n. rewrite load_nrs_new by done. f_equal.
    unfold view_nrs. apply list_fmap_ext. intros i k Hk. simpl.
    rewrite lookup_app_l; [done |].
    apply load_inv_in_arena; [done |]. by eapply list_elem_of_lookup_2. }
  match goal with
  | |- ?G =>
      assert ((last (view_nrs w) = None \/ last (view_nrs w) = Some (pack_capacity w)) ->
              (x ← tx_GetID; ret ← alloc_dpn x None;
               idx ← gets (fun w => m_idx (attr w)); set_m_idx (idx ++ [ret])) w
              = (Ret tt, w1) -> G) as Hthen
  end.
  { intros Hlast Hr. unfold tx_GetID in Hr. rewrite bind_eq in Hr.
    destruct (m_tx (attr w)) as [x |] eqn:Hx; [| done].
    unfold alloc_dpn, set_m_idx in Hr. msimpl_in Hr.
    assert (w1 = appended x w) as -> by (by injection Hr as <-).
    by apply Hnew. }
  assert (m_idx (attr w) = [] \/ exists idx k0, m_idx (attr w) = idx ++ [k0])
    as [Hidx | (idx & k0 & Hidx)].
  { destruct (m_idx (attr w)) as [| a l _] using rev_ind; [by left | right; eauto]. }
  - unfold PreparePackForLoad, SizeOfPack in Hrun. rewrite bind_eq in Hrun.
    cbn [gets] in Hrun. rewrite Hidx in Hrun. simpl in Hrun.
    rewrite bind_eq in Hrun. cbn [mret M_ret] in Hrun.
    apply Hthen; [| exact Hrun]. left. unfold view_nrs. by rewrite Hidx.
  - assert (k0 ∈ m_idx (attr w)) as Hin
      by (rewrite Hidx; apply elem_of_app; right; by apply list_elem_of_singleton).
    destruct (inv_view w Hinv k0 Hin) as (dl & Hdl & Hlocal & _).
    assert (view_dpn w (Z.of_nat (length (m_idx (attr w))) - 1) = Some (k0, dl)) as Hview.
    { unfold view_dpn. rewrite Hidx, length_app. simpl.
      rewrite (proj2 (Z.ltb_ge _ 0)) by lia.
      replace (Z.to_nat (Z.of_nat (length idx + 1) - 1)) with (length idx) by lia.
      rewrite lookup_app_r, Nat.sub_diag by done. simpl. by rewrite Hdl. }
    pose proof (view_nrs_snoc w idx k0 dl Hidx Hdl) as Hnrs.
    unfold PreparePackForLoad, SizeOfPack in Hrun. rewrite bind_eq in Hrun.
    cbn [gets] in Hrun.
    rewrite (proj2 (Z.eqb_neq (Z.of_nat (length (m_idx (attr w)))) 0)) in Hrun
      by (rewrite Hidx, length_app; simpl; lia).
    rewrite !bind_eq, get_dpn_eq, Hview in Hrun. msimpl_in Hrun.
    fold (pack_capacity w) in Hrun.
    destruct (nr dl =? pack_capacity w) eqn:Hfull.
    + apply Z.eqb_eq in Hfull. apply Hthen; [| exact Hrun].
      right. by rewrite Hnrs, last_snoc, Hfull.
    + apply Z.eqb_neq in Hfull. unfold CopyPackForWrite in Hrun.
      rewrite bind_eq, get_dpn_eq, Hview in Hrun. unfold DPN_IsLocal in Hrun.
      rewrite Hlocal in Hrun. injection Hrun as <-.
      split; [done |]. split; [done |]. split; [done |].
      exists idx, k0, dl. split; [done |]. split; [done |].
      intros n. rewrite Hnrs. by apply load_nrs_extend.
Qed.

Lemma load_inv_upd_hdr f w : load_inv w -> load_inv (upd_hdr f w).
Proof. intros [Iv In Ic]. by split. Qed.

(** One call of [LoadData] that returns: the rows of the batch are counted
    in the header and all go to one pack. *)
Lemma LoadData_spec nvs conn_info w w' :
  load_inv w -> LoadData nvs conn_info w = (Ret tt, w') ->
  load_inv w' /\ pss (attr w') = pss (attr w) /\
  h_nr (hdr (attr w')) = u64 (h_nr (hdr (attr w)) + vc_NumOfValues nvs) /\
  view_nrs w' = load_nrs (pack_capacity w) (vc_NumOfValues nvs) (view_nrs w).
Proof.
  intros Hinv Hrun. unfold LoadData in Hrun.
  apply bind_ret_inv in Hrun as ([] & w0 & Hnc & Hrun). injection Hnc as <-.
  apply bind_ret_inv in Hrun as ([] & w0' & Htx & Hrun).
  assert (grows w w0') as Hg0.
  { etrans; [| eapply steps_ret_eq; [| exact Htx]].
    - split; [done | simpl; lia].
    - destruct conn_info; apply unchanged_grows; frame. }
  apply bind_ret_inv in Hrun as ([] & w1 & Hprep & Hrun).
  apply PreparePackForLoad_spec in Hprep
    as (Hinv1 & Hp1 & Hn1 & idx0 & k & d & Hidx1 & Hd1 & Hnrs);
    [| by eapply grows_load_inv].
  rewrite (grows_view_nrs _ _ Hg0) in Hnrs.
  assert (pack_capacity w0' = pack_capacity w) as Hcap.
  { unfold pack_capacity. destruct Hg0 as [[= _ _ _ _ -> _] _]. done. }
  rewrite Hcap in Hnrs.
  assert (pss (attr w0') = pss (attr w) /\ h_nr (hdr (attr w0')) = h_nr (hdr (attr w)))
    as [Hp0 Hn0] by (by destruct Hg0 as [[= _ _ _ _ -> ->] _]).
  unfold SizeOfPack in Hrun. rewrite bind_eq in Hrun. cbn [gets] in Hrun. cbv zeta in Hrun.
  assert (pack_at w1 (Z.of_nat (length (m_idx (attr w1))) - 1) k d) as Hat.
  { split; [rewrite Hidx1, length_app; simpl; lia |]. split; [| done].
    rewrite Hidx1, length_app. simpl.
    replace (Z.to_nat (Z.of_nat (length idx0 + 1) - 1)) with (length idx0) by lia.
    by rewrite lookup_app_r, Nat.sub_diag. }
  set (pi := Z.of_nat (length (m_idx (attr w1))) - 1) in *.
  unfold GetPackType in Hrun. rewrite bind_eq in Hrun. cbn [gets] in Hrun.
  apply bind_ret_inv in Hrun as ([] & w2 & Hload & Hrun).
  assert (touched k w1 w2 /\ exists d2, dpns (share w2) !! k = Some d2 /\
            nr d2 = u32 (nr d + vc_NumOfValues nvs)) as (Ht2 & d2 & Hd2 & Hn2).
  { destruct (pack_type (attr w1)).
    - by eapply LoadDataPackN_spec.
    - by eapply LoadDataPackS_spec. }
  pose proof (pack_at_touched _ _ _ _ _ _ Hat Ht2 Hd2) as Hat2.
  pose proof Hat2 as (H0 & Hk2 & _).
  unfold get_dpn in Hrun. rewrite !bind_eq, (idx_at_lookup pi k) in Hrun by done.
  rewrite bind_eq in Hrun. unfold read_dpn at 1 in Hrun. rewrite Hd2 in Hrun.
  cbn [mret M_ret] in Hrun.
  apply bind_ret_inv in Hrun as ([] & w3 & Hsave & Hrun).
  assert (touched k w2 w3 /\ exists d3, dpns (share w3) !! k = Some d3 /\ nr d3 = nr d2)
    as (Ht3 & d3 & Hd3 & Hn3).
  { destruct (negb (DPN_Trivial d2)).
    - rewrite bind_eq, (get_pack_lookup pi k d2) in Hsave by done.
      eapply Pack_Save_at_spec in Hsave; [done | apply Ht2 | | done].
      by eapply pack_at_elem.
    - injection Hsave as <-. split; [| by exists d2].
      apply grows_touched; [apply Ht2 | reflexivity]. }
  unfold Type_ in Hrun. rewrite bind_eq in Hrun. cbn [gets] in Hrun.
  unfold modify_hdr in Hrun. cbn [modify] in Hrun. injection Hrun as <-.
  pose proof (touched_trans _ _ _ _ Ht2 Ht3) as (Hinv3 & Hi3 & Hp3 & Hh3 & Ho3).
  split; [| split; [| split]].
  - by apply load_inv_upd_hdr.
  - simpl. congruence.
  - simpl. congruence.
  - rewrite Hnrs. unfold view_nrs at 1. simpl. rewrite Hi3, Hidx1, fmap_app. simpl.
    rewrite Hd3. simpl. rewrite Hn3, Hn2. f_equal.
    apply list_fmap_ext. intros i k' Hk'. simpl. rewrite Ho3; [done |].
    intros ->. pose proof (inv_nodup w1 Hinv1) as Hnd. rewrite Hidx1 in Hnd.
    apply NoDup_app in Hnd as (_ & Hnd & _).
    apply (Hnd k); [by eapply list_elem_of_lookup_2 | by apply list_elem_of_singleton].
Qed.

(** A sequence of calls of [LoadData], one per batch. *)
Definition load_all (batches : list (ValueCache * option TX_ID)) : M unit :=
  for_each batches (fun b => LoadData b.1 b.2).

Definition batch_sizes (batches : list (ValueCache * option TX_ID)) : list Z :=
  (fun b => vc_NumOfValues b.1) <$> batches.

Definition total (sizes : list Z) : Z := foldr Z.add 0 sizes.

Lemma fits_total cap T sizes : fits cap T sizes -> 0 <= total sizes.
Proof.
  revert T. induction sizes as [| n sizes IH]; intros T; simpl; [lia |].
  intros [Hn Hf]. specialize (IH _ Hf). lia.
Qed.

Lemma pack_capacity_range w : 0 <= pack_capacity w < 2 ^ 32.
Proof. unfold pack_capacity, u32, wrap_unsigned. apply Z.mod_pos_bound. lia. Qed.

(** The row counts of the packs and of the header after a sequence of
    batches. *)
Definition loads_nrs (cap : Z) (sizes : list Z) (l : list Z) : list Z :=
  foldl (fun l n => load_nrs cap n l) l sizes.

Definition loads_rows (sizes : list Z) (h : Z) : Z :=
  foldl (fun h n => u64 (h + n)) h sizes.

Lemma load_all_spec batches : forall w w',
  load_inv w -> load_all batches w = (Ret tt, w') ->
  load_inv w' /\ pss (attr w') = pss (attr w) /\
  h_nr (hdr (attr w')) = loads_rows (batch_sizes batches) (h_nr (hdr (attr w))) /\
  view_nrs w' = loads_nrs (pack_capacity w) (batch_sizes batches) (view_nrs w).
Proof.
  induction batches as [| [nvs ci] batches IH]; intros w w' Hinv.
  - by intros [= <-].
  - unfold load_all. simpl. intros Hrun.
    apply bind_ret_inv in Hrun as ([] & w1 & Hload & Hrun).
    destruct (LoadData_spec _ _ _ _ Hinv Hload) as (Hinv1 & Hp1 & Hn1 & Hv1).
    destruct (IH w1 w' Hinv1 Hrun) as (Hinv' & Hp' & Hn' & Hv').
    assert (pack_capacity w1 = pack_capacity w) as Hc1
      by (unfold pack_capacity; by rewrite Hp1).
    split; [done |]. split; [congruence |].
    rewrite Hn', Hv', Hn1, Hv1, Hc1. done.
Qed.

Lemma batch_sizes_nonneg batches : Forall (fun n => 0 <= n) (batch_sizes batches).
Proof. apply Forall_fmap, Forall_forall. intros b _. simpl. unfold vc_NumOfValues. lia. Qed.

Lemma total_nonneg sizes : Forall (fun n => 0 <= n) sizes -> 0 <= total sizes.
Proof. induction 1; simpl; lia. Qed.

Lemma loads_rows_total sizes : forall T,
  0 <= T -> Forall (fun n => 0 <= n) sizes -> T + total sizes < 2 ^ 64 ->
  loads_rows sizes T = T + total sizes.
Proof.
  induction sizes as [| n sizes IH]; intros T HT Hs Hsum; simpl in *; [lia |].
  apply Forall_cons in Hs as [Hn Hs]. pose proof (total_nonneg _ Hs).
  change (loads_rows (n :: sizes) T) with (loads_rows sizes (u64 (T + n))).
  rewrite u64_small by lia. rewrite IH; [lia | lia | done | lia].
Qed.

(** Every pack but the last is full. *)
Definition full_but_last (cap : Z) (l : list Z) : Prop :=
  forall i, (i < length l - 1)%nat -> l !! i = Some cap.

Lemma load_nrs_full cap n l : full_but_last cap l -> full_but_last cap (load_nrs cap n l).
Proof.
  intros Hl. unfold load_nrs. destruct (last l) as [r |] eqn:Hlast.
  - apply last_Some in Hlast as [l0 ->]. destruct (r =? cap) eqn:Hr.
    + apply Z.eqb_eq in Hr as ->. intros i Hi. rewrite !length_app in Hi. simpl in Hi.
      rewrite lookup_app_l by (rewrite length_app; simpl; lia).
      destruct (decide (i = length l0)) as [-> | Hne].
      * by rewrite lookup_app_r, Nat.sub_diag.
      * apply Hl. rewrite length_app. simpl. lia.
    + rewrite removelast_last. intros i Hi. rewrite length_app in Hi. simpl in Hi.
      rewrite lookup_app_l by lia.
      rewrite <- (lookup_app_l l0 [r]) by lia. apply Hl. rewrite length_app. simpl. lia.
  - apply last_None in Hlast as ->. intros i Hi. simpl in Hi. lia.
Qed.

Lemma loads_nrs_full cap sizes : forall l,
  full_but_last cap l -> full_but_last cap (loads_nrs cap sizes l).
Proof.
  induction sizes as [| n sizes IH]; intros l Hl; [done |].
  apply IH. by apply load_nrs_full.
Qed.

Lemma loads_nrs_chunks cap sizes : forall T,
  0 < cap < 2 ^ 32 -> 0 <= T -> fits cap T sizes ->
  loads_nrs cap sizes (chunks cap T) = chunks cap (T + total sizes).
Proof.
  induction sizes as [| n sizes IH]; intros T Hcap HT Hfit; simpl.
  - by rewrite Z.add_0_r.
  - destruct Hfit as [Hn Hfit]. unfold loads_nrs in *. simpl.
    rewrite chunks_load by done. rewrite IH by (done || lia).
    by rewrite Z.add_assoc.
Qed.

(** The two branches of [PreparePackForLoad], on any state of a writer. *)
Lemma PreparePackForLoad_cases w x :
  m_tx (attr w) = Some x ->
  let last_pack := Z.of_nat (length (m_idx (attr w))) - 1 in
  (m_idx (attr w) = [] -> PreparePackForLoad w = (Ret tt, appended x w)) /\
  (forall k d, view_dpn w last_pack = Some (k, d) ->
     PreparePackForLoad w =
       if nr d =? pack_capacity w then (Ret tt, appended x w)
       else CopyPackForWrite last_pack w).
Proof.
  intros Hx last_pack.
  assert ((x ← tx_GetID; ret ← alloc_dpn x None;
           idx ← gets (fun w => m_idx (attr w)); set_m_idx (idx ++ [ret])) w
          = (Ret tt, appended x w)) as Hthen.
  { unfold tx_GetID. rewrite bind_eq, Hx. reflexivity. }
  split.
  - intros Hidx. unfold PreparePackForLoad, SizeOfPack. rewrite bind_eq. cbn [gets].
    rewrite Hidx. simpl. rewrite bind_eq. cbn [mret M_ret]. exact Hthen.
  - intros k d Hview. unfold PreparePackForLoad, SizeOfPack. rewrite bind_eq. cbn [gets].
    fold last_pack.
    assert ((Z.of_nat (length (m_idx (attr w))) =? 0) = false) as ->.
    { apply Z.eqb_neq. intros E. unfold view_dpn, last_pack in Hview.
      rewrite E in Hview. done. }
    rewrite !bind_eq, get_dpn_eq, Hview. msimpl. fold (pack_capacity w).
    destruct (nr d =? pack_capacity w); [exact Hthen | reflexivity].
Qed.

(** The pointers of the cache lead to the right packs. *)
Definition cache_coherent (w : World) : Prop :=
  forall k a, pack_cache (eng w) !! k = Some a -> allocated w a /\ points_to w a k.

Lemma load_inv_empty w : m_idx (attr w) = [] -> cache_coherent w -> load_inv w.
Proof.
  intros Hidx Hc. split; [| | done].
  - rewrite Hidx. intros k Hk. by apply elem_of_nil in Hk.
  - rewrite Hidx. apply NoDup_nil_2.
Qed.

Lemma chunks_0 cap : chunks cap 0 = [].
Proof. unfold chunks. by rewrite Zdiv_0_l, Zmod_0_l. Qed.

(** C1 (amended).  A writer loads a sequence of batches of [R] rows in all
    into an empty column, and every call of [LoadData] returns.  Then
    [hdr.nr] is [R], and every pack but possibly the last has [1 << pss]
    rows.  [LoadData] puts a whole batch into one pack, so the number of
    packs is [ceil (R / (1 << pss))] when no batch is empty and every batch
    fits into what is left of the last pack.  [PreparePackForLoad] appends a
    new DPN exactly when the view is empty or the last pack has [1 << pss]
    rows, and otherwise calls [CopyPackForWrite] on the last pack. *)
Theorem LoadData_rows_and_packs (batches : list (ValueCache * option TX_ID))
    (w w' : World) :
  let cap := pack_capacity w in
  let R := total (batch_sizes batches) in
  m_idx (attr w) = [] -> h_nr (hdr (attr w)) = 0 -> cache_coherent w ->
  R < 2 ^ 64 ->
  load_all batches w = (Ret tt, w') ->
  h_nr (hdr (attr w')) = R /\
  (forall i, 0 <= i < Z.of_nat (length (m_idx (attr w'))) - 1 ->
     exists k d, view_dpn w' i = Some (k, d) /\ nr d = cap) /\
  (fits cap 0 (batch_sizes batches) ->
   Z.of_nat (length (m_idx (attr w'))) = (R + cap - 1) / cap) /\
  (forall w0 x, m_tx (attr w0) = Some x ->
     let last_pack := Z.of_nat (length (m_idx (attr w0))) - 1 in
     (m_idx (attr w0) = [] -> PreparePackForLoad w0 = (Ret tt, appended x w0)) /\
     (forall k d, view_dpn w0 last_pack = Some (k, d) ->
        PreparePackForLoad w0 =
          if nr d =? pack_capacity w0 then (Ret tt, appended x w0)
          else CopyPackForWrite last_pack w0)).
Proof.
  intros cap R Hidx Hnr Hcache HR Hrun.
  pose proof (load_inv_empty w Hidx Hcache) as Hinv.
  destruct (load_all_spec _ _ _ Hinv Hrun) as (Hinv' & Hp' & Hn' & Hv').
  assert (view_nrs w = []) as Hv0 by (unfold view_nrs; by rewrite Hidx).
  rewrite Hv0 in Hv'. fold cap in Hv'.
  assert (length (view_nrs w') = length (m_idx (attr w'))) as Hlen
    by (unfold view_nrs; apply length_fmap).
  split; [| split; [| split]].
  - rewrite Hn', Hnr. rewrite loads_rows_total; [done | done | | done].
    apply batch_sizes_nonneg.
  - intros i Hi.
    assert (full_but_last cap (view_nrs w')) as Hfull.
    { rewrite Hv'. apply loads_nrs_full. intros j Hj. simpl in Hj. lia. }
    specialize (Hfull (Z.to_nat i)). rewrite Hlen in Hfull.
    specialize (Hfull ltac:(lia)). unfold view_nrs in Hfull.
    rewrite list_lookup_fmap in Hfull.
    destruct (m_idx (attr w') !! Z.to_nat i) as [k |] eqn:Hk; [| done].
    simpl in Hfull. injection Hfull as Hfull.
    destruct (inv_view w' Hinv' k) as (d & Hd & _); [by eapply list_elem_of_lookup_2 |].
    exists k, d. rewrite Hd in Hfull. split; [| done].
    unfold view_dpn. rewrite (proj2 (Z.ltb_ge i 0)) by lia. rewrite Hk. simpl.
    by rewrite Hd.
  - intros Hfit. rewrite <- Hlen, Hv'. destruct batches as [| b batches].
    + simpl. unfold R. simpl.
      destruct (decide (cap = 0)) as [-> | Hne]; [done |].
      pose proof (pack_capacity_range w). fold cap in H.
      rewrite Z.div_small; lia.
    + pose proof (pack_capacity_range w) as Hr. fold cap in Hr.
      assert (0 < cap) as Hcap.
      { destruct Hfit as [Hn _]. rewrite Zmod_0_l in Hn. lia. }
      rewrite <- (chunks_0 cap), loads_nrs_chunks by (done || lia).
      rewrite Z.add_0_l. apply chunks_length; [done |].
      apply total_nonneg, batch_sizes_nonneg.
  - intros w0 x Hx. by apply PreparePackForLoad_cases.
Qed.

(** * More of the controller *)

(** ** Everything but the tagged words *)

(** The header, the view and the DPNs of the arena with their tagged words
    blanked: what the lock protocol never writes. *)
Definition keep_stats (w : World) :=
  (hdr (attr w), m_idx (attr w), DPN_SetPackPtr 0 <$> dpns (share w)).

Lemma keep_stats_upd_dpn k f w :
  (forall d, DPN_SetPackPtr 0 (f d) = DPN_SetPackPtr 0 d) ->
  keep_stats (upd_dpn k f w) = keep_stats w.
Proof.
  intros Hf. unfold keep_stats, upd_dpn. simpl. f_equal.
  apply list_eq. intros i. rewrite !list_lookup_fmap.
  destruct (decide (i = k)) as [-> | Hne].
  - rewrite list_lookup_alter_eq. destruct (dpns (share w) !! k); simpl; [| done].
    by rewrite Hf.
  - by rewrite list_lookup_alter_ne.
Qed.

Ltac frame_stats :=
  frame;
  try (apply keep_stats_upd_dpn; intros ?; unfold DPN_IncRef, DPN_CAS;
       repeat case_match; reflexivity).

Lemma unchanged_stats_LockPackForUse_loop :
  forall fuel pn k, unchanged keep_stats (LockPackForUse_loop fuel pn k).
Proof.
  intros fuel; induction fuel as [| fuel IH]; intros pn k; simpl;
    [apply unchanged_out_of_fuel |].
  apply unchanged_bind; [frame | intros dpn].
  destruct (DPN_IncRef dpn).1; [frame_stats |].
  destruct (DPN_CAS 0 loading_flag dpn).1; [frame_stats | apply IH].
Qed.

Lemma unchanged_stats_LockPackForUse :
  forall fuel pn, unchanged keep_stats (LockPackForUse fuel pn).
Proof. frame_lock unchanged_stats_LockPackForUse_loop. Qed.

Lemma unchanged_stats_UnlockPackFromUse pn : unchanged keep_stats (UnlockPackFromUse pn).
Proof. frame_stats. Qed.

(** ** Locking and unlocking a pack *)

Lemma land_lnot_split x m : Z.land x m + Z.land x (Z.lnot m) = x.
Proof.
  assert (Z.land (Z.land x m) (Z.land x (Z.lnot m)) = 0) as Hdisj.
  { apply Z.bits_inj'. intros n Hn.
    rewrite !Z.land_spec, Z.lnot_spec, Z.bits_0 by done.
    by destruct (Z.testbit x n), (Z.testbit m n). }
  rewrite (Z.add_nocarry_lxor _ _ Hdisj), (Z.lxor_lor _ _ Hdisj).
  apply Z.bits_inj'. intros n Hn.
  rewrite Z.lor_spec, !Z.land_spec, Z.lnot_spec by done.
  by destruct (Z.testbit x n), (Z.testbit m n).
Qed.

(** The tag bits of a pointer with one reference are one reference. *)
Lemma heap_addr_count n :
  0 <= n < heap_limit -> Z.land (heap_addr n + tag_one) (Z.lnot tag_mask) = tag_one.
Proof.
  intros Hn. pose proof (land_lnot_split (heap_addr n + tag_one) tag_mask) as Hs.
  rewrite (heap_addr_tag n Hn) in Hs. lia.
Qed.

Lemma alter_restore (f : DPN -> DPN) (k : nat) (l : list DPN) d :
  l !! k = Some d -> f d = d -> alter f k l = l.
Proof.
  intros Hk Hf. apply list_eq. intros i. destruct (decide (i = k)) as [-> | Hne].
  - by rewrite list_lookup_alter_eq, Hk; simpl; rewrite Hf.
  - by rewrite list_lookup_alter_ne.
Qed.

Lemma DPN_SetPackPtr_restore d : DPN_SetPackPtr (pack_ptr d) d = d.
Proof. by destruct d. Qed.

Lemma lock_dpn_committed w pn k d :
  view_dpn w pn = Some (k, d) -> DPN_IsLocal d = false -> lock_dpn pn w = (Ret k, w).
Proof. intros Hv Hl. unfold lock_dpn. by rewrite bind_eq, get_dpn_eq, Hv, Hl. Qed.

Lemma view_dpn_upd_dpn w pn k d f :
  view_dpn w pn = Some (k, d) -> view_dpn (upd_dpn k f w) pn = Some (k, f d).
Proof.
  unfold view_dpn. destruct (pn <? 0); [done |]. simpl.
  destruct (m_idx (attr w) !! Z.to_nat pn) as [k' |]; simpl; [| done].
  destruct (dpns (share w) !! k') as [d' |] eqn:Hd; simpl; [| done].
  intros [= -> ->]. by rewrite list_lookup_alter_eq, Hd.
Qed.

Lemma view_dpn_upd_eng w pn f : view_dpn (upd_eng f w) pn = view_dpn w pn.
Proof. done. Qed.

Lemma modify_dpn_eq w k f d :
  dpns (share w) !! k = Some d -> modify_dpn k f w = (Ret tt, upd_dpn k f w).
Proof. intros Hk. unfold modify_dpn. by rewrite Hk. Qed.

Lemma view_dpn_arena w pn k d : view_dpn w pn = Some (k, d) -> dpns (share w) !! k = Some d.
Proof.
  unfold view_dpn. destruct (pn <? 0); [done |].
  destruct (m_idx (attr w) !! Z.to_nat pn) as [k' |]; simpl; [| done].
  destruct (dpns (share w) !! k') as [d' |] eqn:Hd; simpl; [| done].
  by intros [= -> ->].
Qed.

Lemma upd_dpn_restore w k f g d :
  dpns (share w) !! k = Some d -> g (f d) = d -> upd_dpn k g (upd_dpn k f w) = w.
Proof.
  destruct w as [a [l hh hc hb] e]. unfold upd_dpn, upd_share, share_set_dpns. simpl.
  intros Hk Hgf. do 2 f_equal. apply list_eq. intros i. destruct (decide (i = k)) as [-> | Hne].
  - rewrite !list_lookup_alter_eq, Hk. simpl. by rewrite Hgf.
  - by rewrite !list_lookup_alter_ne.
Qed.

Lemma DPN_IncRef_pointer d :
  pack_ptr d <> 0 -> pack_ptr d <> loading_flag ->
  DPN_IncRef d = (true, DPN_SetPackPtr (u64 (pack_ptr d + tag_one)) d).
Proof.
  intros H0 Hf. unfold DPN_IncRef.
  by rewrite (proj2 (Z.eqb_neq _ _) H0), (proj2 (Z.eqb_neq _ _) Hf).
Qed.

(** A reader takes a pack that others hold and gives it back: the state is
    as it was. *)
Lemma lock_unlock_shared w pn k d fuel :
  view_dpn w pn = Some (k, d) -> DPN_IsLocal d = false -> DPN_Trivial d = false ->
  pack_ptr d <> loading_flag -> 0 < pack_ptr d -> pack_ptr d + tag_one < 2 ^ 64 ->
  Z.land (pack_ptr d + tag_one) (Z.lnot tag_mask) <> tag_one ->
  (LockPackForUse (S fuel) pn;; UnlockPackFromUse pn) w = (Ret tt, w).
Proof.
  intros Hv Hl Ht Hf H0 Hmax Hc. pose proof (view_dpn_arena _ _ _ _ Hv) as Hk.
  pose proof tag_one_nonneg as Htag.
  assert (pack_ptr d <> 0) as Hnz by lia.
  pose proof (DPN_IncRef_pointer d Hnz Hf) as Hinc.
  rewrite (u64_small (pack_ptr d + tag_one)) in Hinc by lia.
  assert (LockPackForUse (S fuel) pn w
          = (Ret tt, upd_dpn k (fun d => (DPN_IncRef d).2) w)) as Hlock.
  { unfold LockPackForUse. rewrite bind_eq, (lock_dpn_committed w pn k d) by done.
    rewrite bind_eq. unfold read_dpn at 1. rewrite Hk, Ht. cbn [andb].
    cbn [LockPackForUse_loop]. rewrite bind_eq. unfold read_dpn at 1. rewrite Hk.
    rewrite Hinc. cbn [fst]. by apply modify_dpn_eq with d. }
  rewrite bind_eq, Hlock.
  pose proof (view_dpn_upd_dpn w pn k d (fun d => (DPN_IncRef d).2) Hv) as Hv1.
  cbv beta in Hv1. rewrite Hinc in Hv1. cbn [snd] in Hv1.
  set (d1 := DPN_SetPackPtr (pack_ptr d + tag_one) d) in *.
  unfold UnlockPackFromUse.
  rewrite bind_eq, (lock_dpn_committed _ pn k d1) by done.
  rewrite bind_eq. unfold read_dpn at 1. rewrite (view_dpn_arena _ _ _ _ Hv1).
  change (DPN_Trivial d1) with (DPN_Trivial d). rewrite Ht.
  unfold DPN_GetPackPtr. cbn [d1 pack_ptr DPN_SetPackPtr].
  rewrite bind_eq. unfold ASSERT.
  rewrite (proj2 (Z.gtb_gt _ _)) by lia. cbn [mret M_ret].
  rewrite (proj2 (Z.eqb_neq _ _) Hc).
  replace (pack_ptr d + tag_one - tag_one) with (pack_ptr d) by lia.
  rewrite bind_eq, (modify_dpn_eq _ k _ d1) by (by apply (view_dpn_arena _ pn)).
  rewrite (proj2 (Z.eqb_neq (pack_ptr d) 0)) by lia. cbn [mret M_ret]. f_equal.
  apply upd_dpn_restore with d; [done |]. cbv beta. rewrite Hinc. cbn [snd]. fold d1.
  unfold DPN_CAS. cbn [d1 pack_ptr DPN_SetPackPtr]. rewrite Z.eqb_refl. cbn [snd].
  by destruct d.
Qed.

Lemma share_upd_dpn_restore w k f d :
  dpns (share w) !! k = Some d -> f d = d -> share (upd_dpn k f w) = share w.
Proof.
  destruct w as [a [l hh hc hb] e]. unfold upd_dpn, upd_share, share_set_dpns. simpl.
  intros Hk Hf. f_equal. by apply alter_restore with d.
Qed.

Lemma share_ext (s s' : ColumnShare) :
  dpns s = dpns s' -> has_filter_hist s = has_filter_hist s' ->
  has_filter_cmap s = has_filter_cmap s' -> has_filter_bloom s = has_filter_bloom s' ->
  s = s'.
Proof. destruct s, s'. simpl. by intros -> -> -> ->. Qed.

(** The state after [GetOrFetchObject] missed the cache and built the pack
    of DPN [k] with body [b]. *)
Definition fetched (k : PACK_INDEX) (b : Pack) (w : World) : World :=
  upd_eng (fun e =>
    eng_set_packs (pack_heap e) (<[k := heap_addr (heap_count (eng w))]> (pack_cache e))
                  (heap_count e) e)
    (upd_eng (eng_set_packs
                (<[heap_addr (heap_count (eng w)) :=
                     {| po_body := b; po_dpn := k; po_locks := 1 |}]> (pack_heap (eng w)))
                (pack_cache (eng w)) (heap_count (eng w) + 1)) w).

Lemma cache_fetch_miss k d b w :
  pack_cache (eng w) !! k = None -> dpns (share w) !! k = Some d ->
  Pack_new (pack_type (attr w)) d = Some b ->
  0 <= heap_count (eng w) < heap_limit ->
  cache_GetOrFetchObject_Pack k w = (Ret (heap_addr (heap_count (eng w))), fetched k b w).
Proof.
  intros Hc Hd Hnew Hn. unfold cache_GetOrFetchObject_Pack. msimpl. rewrite Hc.
  unfold Fetch_Pack, read_dpn, GetPackType. rewrite !bind_eq, Hd. msimpl. rewrite Hnew.
  msimpl. unfold pack_alloc.
  rewrite (proj2 (Z.leb_le _ _) (proj1 Hn)), (proj2 (Z.ltb_lt _ _) (proj2 Hn)).
  cbn [andb]. unfold cache_PutObject_Pack. msimpl. reflexivity.
Qed.

(** The first reader of a committed pack that is not in memory loads it,
    and gives it back: the DPNs are as they were, and the pack stays in the
    cache, unlocked. *)
Lemma lock_unlock_first w pn k d b fuel :
  view_dpn w pn = Some (k, d) -> DPN_IsLocal d = false -> DPN_Trivial d = false ->
  pack_ptr d = 0 -> pack_cache (eng w) !! k = None ->
  Pack_new (pack_type (attr w)) (DPN_SetPackPtr loading_flag d) = Some b ->
  0 <= heap_count (eng w) < heap_limit ->
  exists w',
    (LockPackForUse (S fuel) pn;; UnlockPackFromUse pn) w = (Ret tt, w') /\
    attr w' = attr w /\ share w' = share w /\
    pack_cache (eng w') = <[k := heap_addr (heap_count (eng w))]> (pack_cache (eng w)) /\
    pack_heap (eng w') =
      <[heap_addr (heap_count (eng w)) := {| po_body := b; po_dpn := k; po_locks := 0 |}]>
        (pack_heap (eng w)) /\
    heap_count (eng w') = heap_count (eng w) + 1.
Proof.
  intros Hv Hl Ht Hp Hc Hnew Hn. pose proof (view_dpn_arena _ _ _ _ Hv) as Hk.
  pose proof tag_one_nonneg as Htag. pose proof loading_flag_nonzero as Hflag.
  pose proof (heap_addr_range _ Hn) as Hr.
  pose proof (heap_addr_tag _ Hn) as Htagged.
  pose proof (heap_addr_count _ Hn) as Hcount.
  set (a := heap_addr (heap_count (eng w))) in *.
  set (df := DPN_SetPackPtr loading_flag d).
  set (dp := DPN_SetPackPtr (a + tag_one) d).
  assert ((DPN_CAS 0 loading_flag d).2 = df) as Hcas1
    by (unfold DPN_CAS; by rewrite Hp).
  assert ((DPN_CAS loading_flag (a + tag_one) df).2 = dp) as Hcas2
    by (unfold DPN_CAS; simpl; by rewrite Z.eqb_refl).
  assert ((DPN_CAS (a + tag_one) 0 dp).2 = d) as Hcas3.
  { unfold DPN_CAS. simpl. rewrite Z.eqb_refl. simpl. rewrite <- Hp. by destruct d. }
  set (w1 := upd_dpn k (fun d0 => (DPN_CAS 0 loading_flag d0).2) w).
  assert (view_dpn w1 pn = Some (k, df)) as Hv1.
  { unfold w1. rewrite (view_dpn_upd_dpn w pn k d) by done. by rewrite Hcas1. }
  set (w2 := fetched k b w1).
  assert (view_dpn w2 pn = Some (k, df)) as Hv2 by exact Hv1.
  set (w3 := upd_dpn k (fun d0 => (DPN_CAS loading_flag (u64 (a + tag_one)) d0).2) w2).
  assert (view_dpn w3 pn = Some (k, dp)) as Hv3.
  { unfold w3. rewrite (view_dpn_upd_dpn w2 pn k df) by done.
    by rewrite u64_small, Hcas2 by lia. }
  assert (LockPackForUse (S fuel) pn w = (Ret tt, w3)) as Hlock.
  { unfold LockPackForUse. rewrite bind_eq, (lock_dpn_committed w pn k d) by done.
    rewrite bind_eq. unfold read_dpn at 1. rewrite Hk, Ht. cbn [andb].
    cbn [LockPackForUse_loop]. rewrite bind_eq. unfold read_dpn at 1. rewrite Hk.
    unfold DPN_IncRef at 1. rewrite Hp. cbn [Z.eqb orb fst].
    unfold DPN_CAS at 1. rewrite Hp. cbn [Z.eqb fst].
    rewrite bind_eq, (modify_dpn_eq w k _ d) by done. fold w1.
    rewrite bind_eq. unfold try_catch_rethrow, get_pc.
    rewrite bind_eq, (idx_at_eq w1 pn k df) by done.
    rewrite (cache_fetch_miss k df b w1); [| done | by eapply view_dpn_arena | done | done].
    fold w2. change (heap_addr (heap_count (eng w1))) with a.
    rewrite bind_eq. unfold read_dpn at 1. rewrite (view_dpn_arena _ _ _ _ Hv2).
    rewrite bind_eq, (modify_dpn_eq w2 k _ df) by (by eapply view_dpn_arena). fold w3.
    unfold DPN_CAS, df. simpl. rewrite Z.eqb_refl. reflexivity. }
  set (w4 := upd_dpn k (fun d0 => (DPN_CAS (a + tag_one) 0 d0).2) w3).
  set (o0 := {| po_body := b; po_dpn := k; po_locks := 0 |}).
  set (w5 := upd_eng (fun e =>
               eng_set_packs (<[a := o0]> (pack_heap e)) (pack_cache e) (heap_count e) e) w4).
  assert (UnlockPackFromUse pn w3 = (Ret tt, w5)) as Hunlock.
  { unfold UnlockPackFromUse. rewrite bind_eq, (lock_dpn_committed w3 pn k dp) by done.
    rewrite bind_eq. unfold read_dpn at 1. rewrite (view_dpn_arena _ _ _ _ Hv3).
    change (DPN_Trivial dp) with (DPN_Trivial d). rewrite Ht.
    unfold DPN_GetPackPtr. cbn [dp pack_ptr DPN_SetPackPtr].
    rewrite bind_eq. unfold ASSERT. rewrite (proj2 (Z.gtb_gt _ _)) by lia.
    cbn [mret M_ret]. rewrite Hcount, Z.eqb_refl.
    rewrite bind_eq, (modify_dpn_eq w3 k _ dp) by (by eapply view_dpn_arena). fold w4.
    cbn [Z.eqb]. rewrite Htagged. unfold Pack_Unlock, pack_deref.
    rewrite bind_eq. rewrite (proj2 (Z.eqb_neq a 0)) by lia.
    assert (pack_heap (eng w4) !! a
            = Some {| po_body := b; po_dpn := k; po_locks := 1 |}) as ->
      by apply lookup_insert_eq.
    reflexivity. }
  exists w5. split; [by rewrite bind_eq, Hlock |].
  split; [done |]. split; [| split; [done |]; split; [| done]].
  - apply share_ext; [| done | done | done].
    change (dpns (share w5))
      with (alter (fun d0 => (DPN_CAS (a + tag_one) 0 d0).2) k
              (alter (fun d0 => (DPN_CAS loading_flag (u64 (a + tag_one)) d0).2) k
                 (alter (fun d0 => (DPN_CAS 0 loading_flag d0).2) k (dpns (share w))))).
    apply list_eq. intros i. destruct (decide (i = k)) as [-> | Hne].
    + rewrite !list_lookup_alter_eq, Hk. simpl.
      by rewrite Hcas1, u64_small, Hcas2, Hcas3 by lia.
    + by rewrite !list_lookup_alter_ne.
  - change (pack_heap (eng w5))
      with (<[a := o0]> (<[a := {| po_body := b; po_dpn := k; po_locks := 1 |}]>
                           (pack_heap (eng w)))).
    apply insert_insert_eq.
Qed.

(** X1.  [LockPackForUse(pn)] followed by [UnlockPackFromUse(pn)] on a
    committed pack with a body.  When the tagged word holds a pointer with
    references, and one more fits, the state is as it was before.  When the
    word is zero and the pack is not in the cache, the pack is built and
    enters the cache, and afterwards the column and every DPN are as they
    were: the word is zero again, and the new pack object is in the cache
    with no lock on it. *)
Theorem LockPackForUse_UnlockPackFromUse (w : World) (pn : Z) (k : PACK_INDEX) (d : DPN)
    (fuel : nat) :
  view_dpn w pn = Some (k, d) -> DPN_IsLocal d = false -> DPN_Trivial d = false ->
  (pack_ptr d <> loading_flag -> 0 < pack_ptr d -> pack_ptr d + tag_one < 2 ^ 64 ->
   Z.land (pack_ptr d + tag_one) (Z.lnot tag_mask) <> tag_one ->
   (LockPackForUse (S fuel) pn;; UnlockPackFromUse pn) w = (Ret tt, w)) /\
  (forall b,
     pack_ptr d = 0 -> pack_cache (eng w) !! k = None ->
     Pack_new (pack_type (attr w)) (DPN_SetPackPtr loading_flag d) = Some b ->
     0 <= heap_count (eng w) < heap_limit ->
     exists w',
       (LockPackForUse (S fuel) pn;; UnlockPackFromUse pn) w = (Ret tt, w') /\
       attr w' = attr w /\ share w' = share w /\
       pack_cache (eng w') = <[k := heap_addr (heap_count (eng w))]> (pack_cache (eng w)) /\
       pack_heap (eng w') =
         <[heap_addr (heap_count (eng w)) :=
             {| po_body := b; po_dpn := k; po_locks := 0 |}]> (pack_heap (eng w)) /\
       heap_count (eng w') = heap_count (eng w) + 1).
Proof.
  intros Hv Hl Ht. split.
  - intros. by apply lock_unlock_shared with k d.
  - intros b Hp Hc Hnew Hn. by apply lock_unlock_first with d.
Qed.

(** ** Copy on write of a pack *)

(** The header, the view, the first [pos] DPNs of the arena and its size. *)
Definition keep_below (pos : nat) (w : World) :=
  (hdr (attr w), m_idx (attr w), take pos (dpns (share w)), length (dpns (share w))).

Lemma keep_below_upd_dpn pos f w : keep_below pos (upd_dpn pos f w) = keep_below pos w.
Proof.
  unfold keep_below, upd_dpn. simpl. by rewrite take_alter_ge, length_alter by done.
Qed.

Lemma CopyPackForWrite_committed w w' pi k d x :
  view_dpn w pi = Some (k, d) -> DPN_IsLocal d = false -> m_tx (attr w) = Some x ->
  CopyPackForWrite pi w = (Ret tt, w') ->
  let pos := length (dpns (share w)) in
  hdr (attr w') = hdr (attr w) /\
  m_idx (attr w') = <[Z.to_nat pi := pos]> (m_idx (attr w)) /\
  take pos (dpns (share w')) = dpns (share w) /\
  length (dpns (share w')) = S pos /\
  exists d', dpns (share w') !! pos = Some d' /\
    DPN_SetPackPtr 0 d' = DPN_SetPackPtr 0 (init_dpn x (Some (k, d))).
Proof.
  intros Hv Hl Hx Hrun pos. unfold CopyPackForWrite in Hrun.
  rewrite bind_eq, get_dpn_eq, Hv, Hl in Hrun.
  unfold tx_GetID in Hrun. rewrite bind_eq, Hx in Hrun.
  rewrite bind_eq in Hrun. unfold alloc_dpn in Hrun. rewrite bind_eq in Hrun.
  cbn [gets] in Hrun. rewrite bind_eq in Hrun. unfold set_m_idx in Hrun.
  cbn [modify] in Hrun. fold pos in Hrun.
  match type of Hrun with
  | ?rest ?w2 = _ =>
      assert (unchanged (keep_below pos) rest) as Hb
        by (frame; apply keep_below_upd_dpn);
      assert (unchanged keep_stats rest) as Hs by frame_stats;
      specialize (Hb w2); specialize (Hs w2); set (w2' := w2) in *
  end.
  rewrite Hrun in Hb, Hs. simpl in Hb, Hs.
  unfold keep_below in Hb. injection Hb as Hh Hi Ht Hlen.
  unfold keep_stats in Hs. injection Hs as _ _ Hd.
  unfold pos in *. clear pos.
  rewrite take_app_length in Ht. rewrite length_app in Hlen. simpl in Hlen.
  split; [done |]. split; [done |]. split; [done |]. split; [lia |].
  assert ((DPN_SetPackPtr 0 <$> dpns (share w')) !! length (dpns (share w))
          = Some (DPN_SetPackPtr 0 (init_dpn x (Some (k, d))))) as Hpos.
  { rewrite Hd, list_lookup_fmap, lookup_app_r by done.
    by rewrite Nat.sub_diag. }
  rewrite list_lookup_fmap in Hpos.
  destruct (dpns (share w') !! length (dpns (share w))) as [d' |]; [| done].
  exists d'. split; [done |]. apply (inj Some), Hpos.
Qed.

Lemma CopyPackForWrite_local w pi k d :
  view_dpn w pi = Some (k, d) -> DPN_IsLocal d = true -> CopyPackForWrite pi w = (Ret tt, w).
Proof. intros Hv Hl. unfold CopyPackForWrite. by rewrite bind_eq, get_dpn_eq, Hv, Hl. Qed.

Lemma CopyPackForWrite_returns w pi k d x b :
  view_dpn w pi = Some (k, d) -> DPN_IsLocal d = false -> m_tx (attr w) = Some x ->
  pack_cache (eng w) !! k = None ->
  pack_cache (eng w) !! length (dpns (share w)) = None ->
  Pack_new (pack_type (attr w)) (init_dpn x (Some (k, d))) = Some b ->
  0 <= heap_count (eng w) < heap_limit ->
  exists w', CopyPackForWrite pi w = (Ret tt, w').
Proof.
  intros Hv Hl Hx Hck Hcp Hnew Hn. unfold CopyPackForWrite.
  rewrite bind_eq, get_dpn_eq, Hv, Hl.
  unfold tx_GetID. rewrite bind_eq, Hx.
  rewrite bind_eq. unfold alloc_dpn. rewrite bind_eq. cbn [gets].
  rewrite bind_eq. unfold set_m_idx. cbn [modify].
  set (pos := length (dpns (share w))) in *.
  set (w2 := upd_attr _ _).
  assert (0 <= pi /\ (Z.to_nat pi < length (m_idx (attr w)))%nat) as [H0 Hlt].
  { unfold view_dpn in Hv. destruct (pi <? 0) eqn:Hneg; [done |].
    apply Z.ltb_ge in Hneg. split; [done |].
    destruct (m_idx (attr w) !! Z.to_nat pi) eqn:Hi; [| done]. by eapply lookup_lt_Some. }
  assert (idx_at pi w2 = (Ret pos, w2)) as Hidx.
  { apply idx_at_lookup; [done |]. unfold w2. simpl. by apply list_lookup_insert_eq. }
  assert (dpns (share w2) !! pos = Some (init_dpn x (Some (k, d)))) as Hpos.
  { unfold w2. simpl. by rewrite lookup_app_r, Nat.sub_diag. }
  unfold get_pc. rewrite bind_eq, Hidx.
  unfold cache_GetLockedObject_Pack. msimpl.
  change (pack_cache (eng w2)) with (pack_cache (eng w)). rewrite Hck.
  cbn [mret M_ret Z.eqb negb]. rewrite !bind_eq, Hidx.
  rewrite (cache_fetch_miss pos (init_dpn x (Some (k, d))) b w2) by done.
  rewrite (modify_dpn_eq _ pos _ (init_dpn x (Some (k, d)))) by done.
  by eexists.
Qed.

(** X2.  [CopyPackForWrite(pi)] does nothing to a pack whose DPN is local.
    For a committed DPN, when it returns, the view points at a new DPN at
    the end of the arena, which is local, has the committed one as base and
    carries its counts and statistics; the DPNs that were in the arena, the
    committed one among them, and the header are as they were; and a second
    call does nothing.  It returns when the writer's pack is not in memory
    and can be read. *)
Theorem CopyPackForWrite_shadow (w : World) (pi : Z) (k : PACK_INDEX) (d : DPN) :
  view_dpn w pi = Some (k, d) ->
  (DPN_IsLocal d = true -> CopyPackForWrite pi w = (Ret tt, w)) /\
  (forall x, DPN_IsLocal d = false -> m_tx (attr w) = Some x ->
     let pos := length (dpns (share w)) in
     (forall w', CopyPackForWrite pi w = (Ret tt, w') ->
        hdr (attr w') = hdr (attr w) /\
        m_idx (attr w') = <[Z.to_nat pi := pos]> (m_idx (attr w)) /\
        take pos (dpns (share w')) = dpns (share w) /\
        length (dpns (share w')) = S pos /\
        (exists d', dpns (share w') !! pos = Some d' /\
           local d' = true /\ base d' = Some k /\ xmin d' = x /\ xmax d' = MAX_XID /\
           nr d' = nr d /\ nn d' = nn d /\ min_i d' = min_i d /\ max_i d' = max_i d /\
           sum_i d' = sum_i d /\ addr d' = addr d /\ len d' = len d) /\
        CopyPackForWrite pi w' = (Ret tt, w')) /\
     (forall b,
        pack_cache (eng w) !! k = None -> pack_cache (eng w) !! pos = None ->
        Pack_new (pack_type (attr w)) (init_dpn x (Some (k, d))) = Some b ->
        0 <= heap_count (eng w) < heap_limit ->
        exists w', CopyPackForWrite pi w = (Ret tt, w'))).
Proof.
  intros Hv. split; [by apply CopyPackForWrite_local with k |].
  intros x Hl Hx pos. split.
  - intros w' Hrun.
    destruct (CopyPackForWrite_committed _ _ _ _ _ _ Hv Hl Hx Hrun)
      as (Hh & Hi & Ht & Hlen & d' & Hd' & Heq).
    split; [done |]. split; [done |]. split; [done |]. split; [done |].
    assert (local d' = true /\ base d' = Some k /\ xmin d' = x /\ xmax d' = MAX_XID /\
            nr d' = nr d /\ nn d' = nn d /\ min_i d' = min_i d /\ max_i d' = max_i d /\
            sum_i d' = sum_i d /\ addr d' = addr d /\ len d' = len d) as Hfields.
    { repeat split;
        [ apply (f_equal local) in Heq | apply (f_equal base) in Heq
        | apply (f_equal xmin) in Heq | apply (f_equal xmax) in Heq
        | apply (f_equal nr) in Heq | apply (f_equal nn) in Heq
        | apply (f_equal min_i) in Heq | apply (f_equal max_i) in Heq
        | apply (f_equal sum_i) in Heq | apply (f_equal addr) in Heq
        | apply (f_equal len) in Heq ]; exact Heq. }
    split; [by exists d' |].
    apply CopyPackForWrite_local with (length (dpns (share w))) d'; [| apply Hfields].
    unfold view_dpn in *. destruct (pi <? 0); [done |]. rewrite Hi.
    destruct (m_idx (attr w) !! Z.to_nat pi) eqn:Hk; [| done].
    rewrite list_lookup_insert_eq by (by eapply lookup_lt_Some). simpl.
    by rewrite Hd'.
  - intros b Hck Hcp Hnew Hn. by eapply CopyPackForWrite_returns.
Qed.

(** ** Rollback *)

(** A loop over the packs of the view, whose body works on the DPN index and
    leaves the view alone, is a loop over the indices of the view. *)
Lemma for_each_view_from (body : Z -> M unit) (step : PACK_INDEX -> M unit) :
  (forall i k w, 0 <= i -> m_idx (attr w) !! Z.to_nat i = Some k -> body i w = step k w) ->
  (forall k, unchanged (fun w => m_idx (attr w)) (step k)) ->
  forall rest s w, drop s (m_idx (attr w)) = rest ->
    for_each (Z.of_nat <$> seq s (length rest)) body w = for_each rest step w.
Proof.
  intros Hbody Hstep rest. induction rest as [| k rest IH]; intros s w Hdrop; [done |].
  assert (m_idx (attr w) !! s = Some k) as Hk.
  { rewrite <- (Nat.add_0_r s), <- lookup_drop, Hdrop. done. }
  simpl. rewrite !bind_eq.
  rewrite (Hbody _ k) by (rewrite ?Nat2Z.id; done || lia).
  pose proof (Hstep k w) as Hidx. destruct (step k w) as [[[] | e | c |] w1]; try done.
  simpl in Hidx. apply IH. rewrite Hidx.
  rewrite (drop_S _ _ _ Hk) in Hdrop. congruence.
Qed.

Lemma for_each_view (body : Z -> M unit) (step : PACK_INDEX -> M unit) w :
  (forall i k w, 0 <= i -> m_idx (attr w) !! Z.to_nat i = Some k -> body i w = step k w) ->
  (forall k, unchanged (fun w => m_idx (attr w)) (step k)) ->
  for_each (indices (length (m_idx (attr w)))) body w = for_each (m_idx (attr w)) step w.
Proof. intros Hbody Hstep. by apply (for_each_view_from body step Hbody Hstep _ 0%nat). Qed.

Lemma idx_at_Some i k w :
  0 <= i -> m_idx (attr w) !! Z.to_nat i = Some k -> idx_at i w = (Ret k, w).
Proof.
  intros Hi Hk. unfold idx_at. rewrite (proj2 (Z.ltb_ge i 0)) by lia. by rewrite Hk.
Qed.

(** What [Rollback] does to the DPN at index [k] of the arena. *)
Definition Rollback_step (k : PACK_INDEX) : M unit :=
  d ← read_dpn k;
  if DPN_IsLocal d
  then cache_DropObject_Pack k;; modify_dpn k (fun _ => DPN_reset)
  else mret tt.

Lemma Rollback_pack_step i k w :
  0 <= i -> m_idx (attr w) !! Z.to_nat i = Some k -> Rollback_pack i w = Rollback_step k w.
Proof.
  intros Hi Hk. pose proof (idx_at_Some i k w Hi Hk) as Hidx.
  unfold Rollback_pack, Rollback_step, get_pc. rewrite !bind_eq, get_dpn_eq.
  unfold view_dpn, read_dpn. rewrite (proj2 (Z.ltb_ge i 0)) by lia. rewrite Hk. simpl.
  destruct (dpns (share w) !! k) as [d |]; [| done].
  simpl. destruct (DPN_IsLocal d); [| done]. by rewrite bind_eq, Hidx.
Qed.

(** The local DPNs among those the view names. *)
Definition view_local (keys : list PACK_INDEX) (w : World) (k : PACK_INDEX) : bool :=
  bool_decide (k ∈ keys) && from_option local false (dpns (share w) !! k).

(** What [Rollback] leaves alone. *)
Definition keep_rollback (w : World) :=
  (hdr (attr w), m_idx (attr w), m_version (attr w), no_change (attr w),
   m_dict (attr w), pack_heap (eng w), deferred (eng w)).

Lemma unchanged_Rollback_step k : unchanged keep_rollback (Rollback_step k).
Proof. frame. Qed.

Lemma Rollback_keys keys : forall w,
  (forall k, k ∈ keys -> is_Some (dpns (share w) !! k)) ->
  exists w', for_each keys Rollback_step w = (Ret tt, w') /\
    (forall k, dpns (share w') !! k =
               if view_local keys w k then Some DPN_reset else dpns (share w) !! k) /\
    (forall k, pack_cache (eng w') !! k =
               if view_local keys w k then None else pack_cache (eng w) !! k).
Proof.
  induction keys as [| k0 keys IH]; intros w Hin.
  - exists w. split; [done |]. split; intros k; unfold view_local;
      by rewrite bool_decide_eq_false_2 by apply not_elem_of_nil.
  - destruct (Hin k0) as [d0 Hd0]; [by left |].
    simpl. rewrite bind_eq. unfold Rollback_step at 1. rewrite bind_eq.
    unfold read_dpn at 1. rewrite Hd0.
    destruct (DPN_IsLocal d0) eqn:Hl0.
    + rewrite bind_eq. cbn [cache_DropObject_Pack modify]. unfold modify_dpn at 1.
      set (w0 := upd_eng _ w).
      assert (dpns (share w0) !! k0 = Some d0) as Hd0' by done. rewrite Hd0'.
      set (w1 := upd_dpn k0 _ w0).
      assert (forall k, dpns (share w1) !! k =
                        if decide (k = k0) then Some DPN_reset else dpns (share w) !! k) as Hw1.
      { intros k. unfold w1, upd_dpn. simpl. destruct (decide (k = k0)) as [-> | Hne].
        - by rewrite list_lookup_alter_eq, Hd0.
        - by rewrite list_lookup_alter_ne. }
      destruct (IH w1) as (w' & Hrun & Hd & Hc).
      { intros k Hk. rewrite Hw1. destruct (decide (k = k0)); [done |].
        apply Hin. by right. }
      exists w'. split; [done |].
      assert (forall k, view_local keys w1 k =
                        if decide (k = k0) then false else view_local keys w k) as Hrb.
      { intros k. unfold view_local. rewrite Hw1. destruct (decide (k = k0)); [| done].
        simpl. apply andb_false_r. }
      assert (forall k, view_local (k0 :: keys) w k =
                        if decide (k = k0) then true else view_local keys w k) as Hrb0.
      { intros k. unfold view_local. destruct (decide (k = k0)) as [-> | Hne].
        - rewrite bool_decide_eq_true_2 by (by left). by rewrite Hd0.
        - f_equal. apply bool_decide_ext. rewrite elem_of_cons.
          split; [intros [? | ?]; done | by right]. }
      split; intros k.
      * rewrite Hd, Hrb, Hrb0, Hw1. by destruct (decide (k = k0)).
      * rewrite Hc, Hrb, Hrb0. destruct (decide (k = k0)) as [-> | Hne].
        -- unfold w1, w0. simpl. apply lookup_delete_eq.
        -- unfold w1, w0. simpl. by rewrite lookup_delete_ne.
    + cbn [mret M_ret]. destruct (IH w) as (w' & Hrun & Hd & Hc).
      { intros k Hk. apply Hin. by right. }
      exists w'. split; [done |].
      assert (forall k, view_local (k0 :: keys) w k = view_local keys w k) as Hrb0.
      { intros k. unfold view_local. destruct (decide (k = k0)) as [-> | Hne].
        - rewrite Hd0. simpl. unfold DPN_IsLocal in Hl0. by rewrite Hl0, !andb_false_r.
        - f_equal. apply bool_decide_ext. rewrite elem_of_cons.
          split; [intros [? | ?]; done | by right]. }
      split; intros k; by rewrite Hrb0.
Qed.

(** X3.  [Rollback] returns whenever the DPNs of the view lie in the arena.
    It resets the local DPNs of the view and takes their packs out of the
    cache, and forgets the transaction.  The committed DPNs and the cache
    entries of their packs stay; so do the header and the view, which keep
    what the transaction made of them: the row counts it reached, and the
    indices of the DPNs that are now reset.  The pack objects are not
    unlocked. *)
Theorem Rollback_resets_local_packs (w : World) :
  (forall k, k ∈ m_idx (attr w) -> is_Some (dpns (share w) !! k)) ->
  exists w', Rollback w = (Ret tt, w') /\
    m_tx (attr w') = None /\
    hdr (attr w') = hdr (attr w) /\
    m_idx (attr w') = m_idx (attr w) /\
    m_version (attr w') = m_version (attr w) /\
    pack_heap (eng w') = pack_heap (eng w) /\
    (forall k, dpns (share w') !! k =
               if view_local (m_idx (attr w)) w k then Some DPN_reset
               else dpns (share w) !! k) /\
    (forall k, pack_cache (eng w') !! k =
               if view_local (m_idx (attr w)) w k then None
               else pack_cache (eng w) !! k).
Proof.
  intros Hin. destruct (Rollback_keys _ w Hin) as (w1 & Hrun & Hd & Hc).
  assert (keep_rollback w1 = keep_rollback w) as Hkeep.
  { change w1 with (Ret tt, w1).2. rewrite <- Hrun.
    apply unchanged_for_each. intros k. apply unchanged_Rollback_step. }
  unfold keep_rollback in Hkeep.
  exists (upd_attr (fun a => attr_set_tx (m_version a) None (current_tx a) a) w1).
  split.
  - unfold Rollback. rewrite bind_eq. cbn [gets]. rewrite bind_eq.
    rewrite (for_each_view Rollback_pack Rollback_step).
    + by rewrite Hrun.
    + intros i k w0. apply Rollback_pack_step.
    + intros k. frame.
  - simpl. repeat split; try congruence; done.
Qed.

(** ** PostCommit after a change *)

(** What [PostCommit] does to the DPN at index [k] of the arena. *)
Definition PostCommit_step (k : PACK_INDEX) : M unit :=
  dpn ← read_dpn k;
  if DPN_IsLocal dpn then
    modify_dpn k (DPN_set_local false);;
    match base dpn with
    | Some b => mx ← gets (fun w => max_xid (eng w)); modify_dpn b (DPN_set_xmax mx)
    | None => mret tt
    end
  else mret tt.

Lemma PostCommit_pack_step i k w :
  0 <= i -> m_idx (attr w) !! Z.to_nat i = Some k -> PostCommit_pack i w = PostCommit_step k w.
Proof.
  intros Hi Hk. unfold PostCommit_pack, PostCommit_step. rewrite !bind_eq, get_dpn_eq.
  unfold view_dpn, read_dpn. rewrite (proj2 (Z.ltb_ge i 0)) by lia. rewrite Hk. simpl.
  by destruct (dpns (share w) !! k) as [d |].
Qed.

(** [b] is the base of a local DPN of the view: the committed DPN that a
    pack written by the transaction replaces. *)
Definition is_base (keys : list PACK_INDEX) (w : World) (b : PACK_INDEX) : Prop :=
  exists k d, k ∈ keys /\ dpns (share w) !! k = Some d /\ local d = true /\ base d = Some b.

(** The arena after the commit: the DPNs of the view are no longer local,
    the bases of those that were have [mx] as [xmax], and nothing else
    differs. *)
Definition published (keys : list PACK_INDEX) (mx : TX_ID) (w w' : World) : Prop :=
  length (dpns (share w')) = length (dpns (share w)) /\
  forall k d d', dpns (share w) !! k = Some d -> dpns (share w') !! k = Some d' ->
    DPN_set_xmax 0 (DPN_set_local false d') = DPN_set_xmax 0 (DPN_set_local false d) /\
    local d' = local d && negb (bool_decide (k ∈ keys)) /\
    (xmax d' = xmax d \/ xmax d' = mx) /\
    (is_base keys w k -> xmax d' = mx) /\
    (xmax d' <> xmax d -> is_base keys w k).

Lemma published_nil mx w : published [] mx w w.
Proof.
  split; [done |]. intros k d d' Hd Hd'. assert (d' = d) as -> by congruence.
  split; [done |]. split.
  { rewrite bool_decide_eq_false_2 by apply not_elem_of_nil. by rewrite andb_true_r. }
  split; [by left |]. split; [| done].
  intros (k1 & d1 & Hk1 & _). by apply not_elem_of_nil in Hk1.
Qed.

Lemma published_skip k0 d0 keys mx w w' :
  dpns (share w) !! k0 = Some d0 -> local d0 = false ->
  published keys mx w w' -> published (k0 :: keys) mx w w'.
Proof.
  intros Hd0 Hl0 [Hlen Hp]. split; [done |]. intros k d d' Hd Hd'.
  destruct (Hp k d d' Hd Hd') as (Heq & Hl & Hx & Hb & Hn).
  assert (is_base (k0 :: keys) w k <-> is_base keys w k) as Hbase.
  { split; intros (k1 & d1 & Hk1 & Hd1 & Hl1 & Hb1); exists k1, d1.
    - apply elem_of_cons in Hk1 as [-> | Hk1]; [congruence | done].
    - split; [by right | done]. }
  split; [done |]. split.
  { rewrite Hl. destruct (decide (k = k0)) as [-> | Hne].
    - assert (d = d0) as -> by congruence. by rewrite Hl0.
    - f_equal. f_equal. apply bool_decide_ext. rewrite elem_of_cons.
      split; [by right | intros [? | ?]; done]. }
  split; [done |]. rewrite Hbase. done.
Qed.

Lemma published_cons k0 d0 keys mx w w2 w' :
  dpns (share w) !! k0 = Some d0 -> local d0 = true ->
  length (dpns (share w2)) = length (dpns (share w)) ->
  (forall k d, dpns (share w) !! k = Some d ->
     dpns (share w2) !! k =
       Some ((if decide (Some k = base d0) then DPN_set_xmax mx else id)
               ((if decide (k = k0) then DPN_set_local false else id) d))) ->
  published keys mx w2 w' -> published (k0 :: keys) mx w w'.
Proof.
  intros Hd0 Hl0 Hlen2 Hw2 [Hlen Hp]. split; [congruence |]. intros k d d' Hd Hd'.
  pose proof (Hw2 k d Hd) as Hd2.
  destruct (Hp k _ d' Hd2 Hd') as (Heq & Hl & Hx & Hb & Hn).
  assert (forall k', is_base keys w2 k' -> is_base (k0 :: keys) w k') as Hbase2.
  { intros k' (k1 & d1 & Hk1 & Hd1 & Hl1 & Hb1).
    assert (is_Some (dpns (share w) !! k1)) as [d1' Hd1'].
    { apply lookup_lt_is_Some. rewrite <- Hlen2. by eapply lookup_lt_Some. }
    rewrite (Hw2 k1 d1' Hd1') in Hd1. injection Hd1 as <-.
    exists k1, d1'. split; [by right |]. split; [done |].
    destruct (decide (Some k1 = base d0)), (decide (k1 = k0)); simpl in *; done. }
  assert (forall k', is_base (k0 :: keys) w k' -> Some k' = base d0 \/ is_base keys w2 k')
    as Hbase.
  { intros k' (k1 & d1 & Hk1 & Hd1 & Hl1 & Hb1).
    destruct (decide (k1 = k0)) as [-> | Hne].
    - left. congruence.
    - right. exists k1, ((if decide (Some k1 = base d0) then DPN_set_xmax mx else id) d1).
      apply elem_of_cons in Hk1 as [? | Hk1]; [done |].
      split; [done |]. rewrite (Hw2 k1 d1 Hd1).
      destruct (decide (k1 = k0)); [done |].
      split; [done |]. by destruct (decide (Some k1 = base d0)). }
  split; [| split; [| split; [| split]]].
  - rewrite Heq. by destruct (decide (Some k = base d0)), (decide (k = k0)).
  - rewrite Hl. destruct (decide (k = k0)) as [-> | Hne].
    + rewrite (bool_decide_eq_true_2 (k0 ∈ k0 :: keys)) by (by left).
      rewrite andb_false_r. by destruct (decide (Some k0 = base d0)).
    + assert (bool_decide (k ∈ k0 :: keys) = bool_decide (k ∈ keys)) as ->.
      { apply bool_decide_ext. rewrite elem_of_cons.
        split; [intros [? | ?]; done | by right]. }
      by destruct (decide (Some k = base d0)).
  - destruct Hx as [Hx | Hx]; [| by right]. rewrite Hx.
    destruct (decide (Some k = base d0)), (decide (k = k0)); simpl; auto.
  - intros Hk. destruct (Hbase k Hk) as [Hkb | Hk2]; [| by apply Hb].
    destruct Hx as [Hx | Hx]; [| done]. rewrite Hx. by rewrite decide_True by done.
  - intros Hne. destruct (decide (Some k = base d0)) as [Hkb | Hkb].
    + exists k0, d0. split; [by left | done].
    + apply Hbase2, Hn. intros Hx2. apply Hne. rewrite Hx2.
      by destruct (decide (k = k0)).
Qed.

Lemma unchanged_PostCommit_step k :
  unchanged (fun w => (attr w, eng w, has_filter_bloom (share w),
                       has_filter_cmap (share w), has_filter_hist (share w)))
            (PostCommit_step k).
Proof. frame. Qed.

Lemma PostCommit_keys keys : forall w,
  (forall k, k ∈ keys -> is_Some (dpns (share w) !! k)) ->
  (forall b, is_base keys w b -> is_Some (dpns (share w) !! b)) ->
  exists w', for_each keys PostCommit_step w = (Ret tt, w') /\
    published keys (max_xid (eng w)) w w'.
Proof.
  induction keys as [| k0 keys IH]; intros w Hin Hbase.
  - exists w. split; [done | apply published_nil].
  - destruct (Hin k0) as [d0 Hd0]; [by left |].
    simpl. rewrite bind_eq. unfold PostCommit_step at 1. rewrite bind_eq.
    unfold read_dpn at 1. rewrite Hd0. unfold DPN_IsLocal.
    destruct (local d0) eqn:Hl0.
    + set (mx := max_xid (eng w)).
      set (w2 := match base d0 with
                 | Some b => upd_dpn b (DPN_set_xmax mx) (upd_dpn k0 (DPN_set_local false) w)
                 | None => upd_dpn k0 (DPN_set_local false) w
                 end).
      assert ((modify_dpn k0 (DPN_set_local false);;
               match base d0 with
               | Some b => mx ← gets (fun w => max_xid (eng w)); modify_dpn b (DPN_set_xmax mx)
               | None => mret tt
               end) w = (Ret tt, w2)) as Hstep.
      { rewrite bind_eq. unfold modify_dpn at 1. rewrite Hd0. unfold w2.
        destruct (base d0) as [b |] eqn:Hb; [| done].
        rewrite bind_eq. cbn [gets]. unfold modify_dpn.
        destruct (Hbase b) as [db Hdb].
        { exists k0, d0. split; [by left | done]. }
        assert (is_Some (dpns (share (upd_dpn k0 (DPN_set_local false) w)) !! b)) as [db' ->].
        { apply lookup_lt_is_Some. unfold upd_dpn. simpl. rewrite length_alter.
          by eapply lookup_lt_Some. }
        done. }
      rewrite Hstep.
      assert (length (dpns (share w2)) = length (dpns (share w))) as Hlen2.
      { unfold w2. destruct (base d0); unfold upd_dpn; simpl; by rewrite !length_alter. }
      assert (forall k d, dpns (share w) !! k = Some d ->
                dpns (share w2) !! k =
                  Some ((if decide (Some k = base d0) then DPN_set_xmax mx else id)
                          ((if decide (k = k0) then DPN_set_local false else id) d))) as Hw2.
      { intros k d Hd.
        assert (dpns (share (upd_dpn k0 (DPN_set_local false) w)) !! k =
                Some ((if decide (k = k0) then DPN_set_local false else id) d)) as H1.
        { unfold upd_dpn. simpl. destruct (decide (k = k0)) as [-> | Hne].
          - by rewrite list_lookup_alter_eq, Hd.
          - by rewrite list_lookup_alter_ne. }
        unfold w2. destruct (base d0) as [b |].
        - unfold upd_dpn in H1 |- *. simpl in H1 |- *.
          destruct (decide (Some k = Some b)) as [[= ->] | Hne].
          + by rewrite list_lookup_alter_eq, H1.
          + rewrite list_lookup_alter_ne by congruence. done.
        - rewrite H1. by destruct (decide (Some k = None)). }
      assert (eng w2 = eng w) as Heng by (unfold w2; by destruct (base d0)).
      destruct (IH w2) as (w' & Hrun & Hp).
      { intros k Hk. apply lookup_lt_is_Some. rewrite Hlen2.
        apply lookup_lt_is_Some, Hin. by right. }
      { intros b (k1 & d1 & Hk1 & Hd1 & Hl1 & Hb1).
        apply lookup_lt_is_Some. rewrite Hlen2. apply lookup_lt_is_Some, Hbase.
        assert (is_Some (dpns (share w) !! k1)) as [d1' Hd1'].
        { apply lookup_lt_is_Some. rewrite <- Hlen2. by eapply lookup_lt_Some. }
        rewrite (Hw2 k1 d1' Hd1') in Hd1. injection Hd1 as <-.
        exists k1, d1'. split; [by right |]. split; [done |].
        destruct (decide (Some k1 = base d0)), (decide (k1 = k0)); simpl in *; done. }
      exists w'. split; [done |]. rewrite Heng in Hp.
      by eapply published_cons.
    + cbn [mret M_ret]. destruct (IH w) as (w' & Hrun & Hp).
      { intros k Hk. apply Hin. by right. }
      { intros b (k1 & d1 & Hk1 & Hrest). apply Hbase. exists k1, d1.
        split; [by right | done]. }
      exists w'. split; [done |]. by eapply published_skip.
Qed.

(** The removals that [PostCommit] hands to the engine: the file of the
    version that was read and the filter files of that version. *)
Definition removals (w : World) : list (DeferPath * Z) :=
  let v := m_version (attr w) in
  let tid := m_tid (attr w) in
  [(VersionPath v, tid)]
  ++ (if has_filter_bloom (share w) then [(FilterPath FT_BLOOM v, tid)] else [])
  ++ (if has_filter_cmap (share w) then [(FilterPath FT_CMAP v, tid)] else [])
  ++ (if has_filter_hist (share w) then [(FilterPath FT_HIST v, tid)] else []).

Definition queue_removals (w : World) : World :=
  upd_eng (fun e => eng_set_deferred (deferred e ++ removals w) e) w.

Lemma PostCommit_removals {B} (k : M B) w :
  (v ← gets (fun w => m_version (attr w));
   DeferRemove (VersionPath v);;
   hb ← gets (fun w => has_filter_bloom (share w));
   (if (hb : bool) then DeferRemove (FilterPath FT_BLOOM v) else mret tt);;
   hc ← gets (fun w => has_filter_cmap (share w));
   (if (hc : bool) then DeferRemove (FilterPath FT_CMAP v) else mret tt);;
   hh ← gets (fun w => has_filter_hist (share w));
   (if (hh : bool) then DeferRemove (FilterPath FT_HIST v) else mret tt);;
   k) w = k (queue_removals w).
Proof.
  unfold queue_removals, removals. destruct w as [a s e]. destruct e. simpl.
  destruct (has_filter_bloom s) eqn:Hb, (has_filter_cmap s) eqn:Hc,
    (has_filter_hist s) eqn:Hh;
    msimpl; unfold DeferRemove; msimpl; simpl; rewrite ?Hb, ?Hc, ?Hh;
    msimpl; simpl; rewrite ?Hb, ?Hc, ?Hh; msimpl; simpl;
    rewrite ?Hb, ?Hc, ?Hh; msimpl; unfold upd_eng, eng_set_deferred; simpl;
    rewrite <- ?app_assoc; reflexivity.
Qed.

(** [PostCommit] of a writer that changed the column returns when the DPNs
    of the view and the bases of its local DPNs lie in the arena. *)
Lemma PostCommit_changed_returns (w : World) (x : TX_ID) :
  no_change (attr w) = false -> m_tx (attr w) = Some x ->
  (forall k, k ∈ m_idx (attr w) -> is_Some (dpns (share w) !! k)) ->
  (forall b, is_base (m_idx (attr w)) w b -> is_Some (dpns (share w) !! b)) ->
  exists w', PostCommit w = (Ret tt, w').
Proof.
  intros Hnc Hx Hin Hbase.
  destruct (PostCommit_keys _ w Hin Hbase) as (w1 & Hrun & _).
  assert (attr w1 = attr w) as Ha1.
  { change w1 with (Ret tt, w1).2. rewrite <- Hrun.
    apply (unchanged_for_each (fun w => attr w)). intros k. frame. }
  eexists. unfold PostCommit. rewrite bind_eq. cbn [gets]. rewrite Hnc. cbn [negb].
  rewrite bind_eq. rewrite (bind_eq (gets _)). cbn [gets].
  rewrite (bind_eq (for_each _ _)).
  rewrite (for_each_view PostCommit_pack PostCommit_step);
    [| intros i k w0; apply PostCommit_pack_step | intros k; frame].
  rewrite Hrun.
  rewrite PostCommit_removals. rewrite bind_eq. unfold tx_GetID.
  assert (m_tx (attr (queue_removals w1)) = Some x) as -> by (simpl; congruence).
  reflexivity.
Qed.

(** C10.  [PostCommit] nulls the transaction handle whatever [no_change]
    is.  Whenever it returns, the handle is null.  When [no_change] is true
    it returns with the handle null and everything else as it was: the DPNs
    of the share (their local flags and [xmax]), the engine with its
    deferred removals, [m_version] and every other member of the
    controller.  When [no_change] is false it returns as well, with the
    handle null, for a writer whose view and whose bases of local DPNs lie
    in the arena. *)
Theorem PostCommit_no_change_only_clears_tx (w : World) :
  (forall w', PostCommit w = (Ret tt, w') -> m_tx (attr w') = None) /\
  (no_change (attr w) = true ->
   PostCommit w = (Ret tt, clear_tx w) /\
   share (clear_tx w) = share w /\
   eng (clear_tx w) = eng w /\
   deferred (eng (clear_tx w)) = deferred (eng w) /\
   dpns (share (clear_tx w)) = dpns (share w) /\
   m_version (attr (clear_tx w)) = m_version (attr w) /\
   attr (clear_tx w) = attr_set_tx (m_version (attr w)) None (current_tx (attr w)) (attr w)) /\
  (forall x, no_change (attr w) = false -> m_tx (attr w) = Some x ->
   (forall k, k ∈ m_idx (attr w) -> is_Some (dpns (share w) !! k)) ->
   (forall b, is_base (m_idx (attr w)) w b -> is_Some (dpns (share w) !! b)) ->
   exists w', PostCommit w = (Ret tt, w') /\ m_tx (attr w') = None).
Proof.
  assert (forall w', PostCommit w = (Ret tt, w') -> m_tx (attr w') = None) as Hnull.
  { intros w' Hp. unfold PostCommit in Hp.
    apply bind_ret_inv in Hp as (nc & w0 & _ & Hp).
    apply bind_ret_inv in Hp as ([] & w1 & _ & Hp).
    by injection Hp as <-. }
  split; [exact Hnull |]. split.
  - intros Hnc. repeat split.
    unfold PostCommit, gets. rewrite bind_eq, Hnc. done.
  - intros x Hnc Hx Hin Hbase.
    destruct (PostCommit_changed_returns w x Hnc Hx Hin Hbase) as [w' Hrun].
    exists w'. split; [exact Hrun | by apply Hnull].
Qed.

(** X4.  [PostCommit] of a transaction [x] that changed the column, when
    the DPNs of the view and the bases of its local DPNs lie in the arena:
    it returns; no DPN of the view is local any more; the base of every DPN
    that was local has [MaxXID()] as its [xmax]; no other field of any DPN
    changes; the file of the version that was read and its filter files are
    queued for removal after what was queued already; [m_version] is [x] and
    the transaction handle is null.  The header, the view and the pack cache
    are as before. *)
Theorem PostCommit_publishes (w : World) (x : TX_ID) :
  no_change (attr w) = false -> m_tx (attr w) = Some x ->
  (forall k, k ∈ m_idx (attr w) -> is_Some (dpns (share w) !! k)) ->
  (forall b, is_base (m_idx (attr w)) w b -> is_Some (dpns (share w) !! b)) ->
  exists w', PostCommit w = (Ret tt, w') /\
    m_version (attr w') = x /\ m_tx (attr w') = None /\
    hdr (attr w') = hdr (attr w) /\ m_idx (attr w') = m_idx (attr w) /\
    pack_cache (eng w') = pack_cache (eng w) /\
    deferred (eng w') = deferred (eng w) ++ removals w /\
    published (m_idx (attr w)) (max_xid (eng w)) w w' /\
    (forall i k d, view_dpn w' i = Some (k, d) -> DPN_IsLocal d = false).
Proof.
  intros Hnc Hx Hin Hbase.
  destruct (PostCommit_keys _ w Hin Hbase) as (w1 & Hrun & Hp).
  assert ((attr w1, eng w1, has_filter_bloom (share w1), has_filter_cmap (share w1),
           has_filter_hist (share w1)) =
          (attr w, eng w, has_filter_bloom (share w), has_filter_cmap (share w),
           has_filter_hist (share w))) as Hkeep.
  { change w1 with (Ret tt, w1).2. rewrite <- Hrun.
    apply (unchanged_for_each
             (fun w => (attr w, eng w, has_filter_bloom (share w),
                        has_filter_cmap (share w), has_filter_hist (share w)))).
    intros k. apply unchanged_PostCommit_step. }
  assert (attr w1 = attr w) as Ha1 by congruence.
  assert (eng w1 = eng w) as He1 by congruence.
  assert (removals w1 = removals w) as Hr1.
  { unfold removals. rewrite Ha1.
    replace (has_filter_bloom (share w1)) with (has_filter_bloom (share w)) by congruence.
    replace (has_filter_cmap (share w1)) with (has_filter_cmap (share w)) by congruence.
    replace (has_filter_hist (share w1)) with (has_filter_hist (share w)) by congruence.
    done. }
  exists (upd_attr (fun a => attr_set_tx (m_version a) None (current_tx a) a)
            (upd_attr (fun a => attr_set_tx x (m_tx a) (current_tx a) a)
               (queue_removals w1))).
  split.
  - unfold PostCommit. rewrite bind_eq. cbn [gets]. rewrite Hnc. cbn [negb].
    rewrite bind_eq. rewrite (bind_eq (gets _)). cbn [gets].
    rewrite (bind_eq (for_each _ _)).
    rewrite (for_each_view PostCommit_pack PostCommit_step);
      [| intros i k w0; apply PostCommit_pack_step | intros k; frame].
    rewrite Hrun.
    rewrite PostCommit_removals. rewrite bind_eq. unfold tx_GetID.
    assert (m_tx (attr (queue_removals w1)) = Some x) as -> by (simpl; congruence).
    reflexivity.
  - simpl. rewrite Ha1, He1, Hr1. do 6 (split; [done |]). split.
    + destruct Hp as [Hlen Hp]. split; [done |]. intros k d d' Hd Hd'. by apply Hp.
    + intros i k d Hv. unfold view_dpn in Hv. simpl in Hv. rewrite Ha1 in Hv.
      destruct (i <? 0); [done |].
      destruct (m_idx (attr w) !! Z.to_nat i) as [k' |] eqn:Hk; [| done]. simpl in Hv.
      destruct (dpns (share w1) !! k') as [d' |] eqn:Hd'; [| done].
      injection Hv as -> ->.
      destruct (Hin k) as [d0 Hd0]; [by eapply list_elem_of_lookup_2 |].
      destruct Hp as [_ Hp]. destruct (Hp k d0 d Hd0 Hd') as (_ & Hl & _).
      unfold DPN_IsLocal. rewrite Hl.
      rewrite bool_decide_eq_true_2 by (by eapply list_elem_of_lookup_2).
      apply andb_false_r.
Qed.

(** ** Truncate *)



(** ** Saving a version and loading it again *)

Lemma SaveVersion_written w w' x :
  m_tx (attr w) = Some x -> 0 <= h_np (hdr (attr w)) ->
  SaveVersion w = (Ret true, w') ->
  version_files (eng w') !! x = Some (hdr (attr w'), m_idx (attr w')) /\
  h_np (hdr (attr w')) = Z.of_nat (length (m_idx (attr w'))).
Proof.
  intros Htx Hnp Hs. unfold SaveVersion, gets in Hs. rewrite bind_eq in Hs.
  apply bind_ret_inv in Hs as ([] & w0 & Ha & Hs).
  assert (w0 = w) as ->.
  { unfold ASSERT in Ha. by destruct (negb _); injection Ha. }
  rewrite bind_eq in Hs.
  apply bind_ret_inv in Hs as ([] & w1 & Hloop & Hs).
  rewrite bind_eq in Hs.
  destruct (no_change (attr w1)) eqn:Hnc; [done |].
  apply bind_ret_inv in Hs as ([] & w2 & Hh & Hs).
  apply bind_ret_inv in Hs as ([] & w3 & Hw & Hs). injection Hs as <-.
  pose proof (unchanged_for_each keep_saved (indices (length (m_idx (attr w))))
                SaveVersion_pack unchanged_saved_SaveVersion_pack w) as Hk1.
  rewrite Hloop in Hk1. simpl in Hk1.
  pose proof (unchanged_index_SaveVersion_header w1) as Hk2.
  rewrite Hh in Hk2. simpl in Hk2.
  injection Hk1 as Hhdr1 Hidx1 Htx1 _ _ _.
  injection Hk2 as Hidx2 Htx2 _ Hdp2.
  apply write_version_file_ret in Hw as (x' & Hx & Hle & Hattr & Hshare & Hfile).
  assert (x' = x) as -> by congruence.
  apply SaveVersion_header_ret in Hh.
  assert (Hnp2 : h_np (hdr (attr w2)) = Z.of_nat (length (m_idx (attr w2)))).
  { destruct (decide (m_idx (attr w1) = [])) as [He | He].
    - rewrite (bool_decide_eq_true_2 _ He) in Hh. subst w2.
      rewrite He in *. simpl in *. rewrite Hhdr1 in *. lia.
    - rewrite (bool_decide_eq_false_2 _ He) in Hh. rewrite Hidx2. apply Hh. }
  rewrite Hattr. split; [| done].
  rewrite Hfile, Hnp2, Nat2Z.id, firstn_all. done.
Qed.

(** What fetching the dictionary leaves alone. *)
Definition keep_loaded (w : World) :=
  (hdr (attr w), m_idx (attr w), is_unique (attr w), is_unique_updated (attr w)).

Lemma unchanged_loaded_cache_GetOrFetchObject_FTree v :
  unchanged keep_loaded (cache_GetOrFetchObject_FTree v).
Proof. frame. Qed.

Lemma LoadVersion_reads w x h idx :
  version_files (eng w) !! x = Some (h, idx) -> h_np h = Z.of_nat (length idx) ->
  (forall w', LoadVersion x w = (Ret tt, w') ->
     hdr (attr w') = h /\ m_idx (attr w') = idx /\
     is_unique (attr w') = h_unique h /\ is_unique_updated (attr w') = h_unique_updated h) /\
  (h_dict_ver h = 0 -> exists w', LoadVersion x w = (Ret tt, w')).
Proof.
  intros Hfile Hnp.
  assert ((length idx <? Z.to_nat (h_np h))%nat = false) as Hlen
    by (apply Nat.ltb_ge; lia).
  assert (take (Z.to_nat (h_np h)) idx = idx) as Htake
    by (rewrite Hnp, Nat2Z.id; apply firstn_all).
  split.
  - intros w' Hrun. unfold LoadVersion in Hrun. rewrite bind_eq in Hrun. cbn [gets] in Hrun.
    rewrite Hfile in Hrun.
    apply bind_ret_inv in Hrun as ([] & w1 & H1 & Hrun). injection H1 as <-.
    apply bind_ret_inv in Hrun as ([] & w2 & H2 & Hrun). injection H2 as <-.
    apply bind_ret_inv in Hrun as ([] & w3 & H3 & Hrun).
    assert (keep_loaded w3 =
            (h, m_idx (attr w), h_unique h, h_unique_updated h)) as Hkeep.
    { destruct (negb (h_dict_ver h =? 0)).
      - apply bind_ret_inv in H3 as (a & w2' & Hf & H3). injection H3 as <-.
        pose proof (unchanged_ret_eq _ _ _ _ _
                      (unchanged_loaded_cache_GetOrFetchObject_FTree (h_dict_ver h)) Hf) as Hk.
        unfold keep_loaded in *. simpl in *. by rewrite Hk.
      - by injection H3 as <-. }
    rewrite bind_eq in Hrun. cbn [gets] in Hrun. rewrite bind_eq in Hrun.
    cbn [set_m_idx modify] in Hrun. rewrite Hlen, Htake in Hrun.
    injection Hrun as <-. unfold keep_loaded in Hkeep. simpl.
    injection Hkeep as Hh _ Hu Huu. done.
  - intros Hdv. unfold LoadVersion. rewrite bind_eq. cbn [gets]. rewrite Hfile.
    rewrite Hdv. simpl. msimpl. unfold set_m_idx. msimpl. rewrite Hlen. by eexists.
Qed.

(** X6.  The version a writer saved can be loaded again.  When
    [SaveVersion] returned true for transaction [x], [LoadVersion(x)] on a
    controller that finds the file of [x] as it was written sets the header
    and the view to what the writer had after saving, and the uniqueness
    flags to those of the header, whatever the controller held before; and
    it returns when the column has no dictionary. *)
Theorem SaveVersion_LoadVersion (w w1 w2 : World) (x : TX_ID) :
  m_tx (attr w) = Some x -> 0 <= h_np (hdr (attr w)) ->
  SaveVersion w = (Ret true, w1) ->
  version_files (eng w2) !! x = version_files (eng w1) !! x ->
  (forall w3, LoadVersion x w2 = (Ret tt, w3) ->
     hdr (attr w3) = hdr (attr w1) /\ m_idx (attr w3) = m_idx (attr w1) /\
     is_unique (attr w3) = h_unique (hdr (attr w1)) /\
     is_unique_updated (attr w3) = h_unique_updated (hdr (attr w1))) /\
  (h_dict_ver (hdr (attr w1)) = 0 -> exists w3, LoadVersion x w2 = (Ret tt, w3)).
Proof.
  intros Htx Hnp Hsave Hsame.
  destruct (SaveVersion_written _ _ _ Htx Hnp Hsave) as [Hfile Hnp1].
  rewrite <- Hsame in Hfile.
  exact (LoadVersion_reads w2 x _ _ Hfile Hnp1).
Qed.

(** ** MaxS *)

(** The comparison [CompareAndSetCurrentMax] makes: that of the collation of
    the column, or the plain one. *)
Definition collate (w : World) (a b : BString) : Z :=
  let c := ct_Collation (ct (attr w)) in
  if RequiresUTFConversions c then CollationStrCmp c a b else BString_CompareWith a b.

Definition pick_max (w : World) (max tstmp : BString) : BString :=
  if collate w tstmp max >? 0 then tstmp else max.

Lemma CompareAndSetCurrentMax_eq tstmp max w :
  CompareAndSetCurrentMax tstmp max w = (Ret (pick_max w max tstmp), w).
Proof.
  unfold CompareAndSetCurrentMax, pick_max, collate, Type_, gets. rewrite bind_eq.
  destruct (RequiresUTFConversions _); by destruct (_ >? 0).
Qed.

(** The pack object of pack [b] of the view, when it is in memory. *)
Definition view_pack (w : World) (b : Z) : option PackObj :=
  '(_, d) ← view_dpn w b;
  let p := Z.land (pack_ptr d) tag_mask in
  if p =? 0 then None else pack_heap (eng w) !! p.

(** The string in row [n] of pack [b] of a string column; nothing for a
    null row. *)
Definition row_string (w : World) (bn : Z * Z) : option BString :=
  o ← view_pack w bn.1;
  if Pack_IsNull (po_body o) bn.2 then None
  else Some (PackStr_GetValueBinary (po_body o) bn.2).

(** The strings of the rows a filter selects, in the order of the rows. *)
Definition selected_strings (w : World) (f : Filter) : list BString :=
  omap (row_string w) (FilterOnesIterator f).

(** Pack [b] has rows that are not null and is in memory. *)
Definition pack_ready (w : World) (b : Z) : Prop :=
  exists k d, view_dpn w b = Some (k, d) /\ DPN_NullOnly d = false /\
    (nr d =? 0) = false /\ is_Some (view_pack w b).

Lemma view_pack_get w b k d o :
  view_dpn w b = Some (k, d) -> view_pack w b = Some o ->
  get_pack b w = (Ret (Z.land (pack_ptr d) tag_mask), w) /\
  pack_deref (Z.land (pack_ptr d) tag_mask) w = (Ret o, w).
Proof.
  intros Hv Ho. unfold view_pack in Ho. rewrite Hv in Ho. simpl in Ho.
  unfold get_pack, pack_deref, DPN_GetPackPtr. rewrite bind_eq, get_dpn_eq, Hv.
  split; [done |]. destruct (_ =? 0); [done |]. by rewrite Ho.
Qed.

Lemma MaxS_in_pack_str w b k d o :
  pack_type (attr w) = PT_STR ->
  view_dpn w b = Some (k, d) -> view_pack w b = Some o ->
  forall it max, exists it' max',
    MaxS_in_pack b (Z.land (pack_ptr d) tag_mask) d it max w = (Ret (it', max'), w) /\
    foldl (pick_max w) max' (omap (row_string w) it')
      = foldl (pick_max w) max (omap (row_string w) it) /\
    it' ⊆ it /\
    (length it' <= length it)%nat /\
    (forall n it0, it = (b, n) :: it0 -> (length it' < length it)%nat).
Proof.
  intros Hpt Hv Ho. destruct (view_pack_get _ _ _ _ _ Hv Ho) as [_ Hp].
  induction it as [| [b' n] it IH]; intros max.
  - exists [], max. simpl. split; [done |]. split; [done |]. split; [done |].
    split; [lia | done].
  - simpl. destruct (Z.eqb_spec b b') as [<- | Hne].
    + unfold GetPackType, gets. rewrite bind_eq, Hpt, bind_eq.
      rewrite bool_decide_eq_true_2 by done. rewrite bind_eq, Hp.
      assert (row_string w (b, n) =
              if Pack_IsNull (po_body o) n then None
              else Some (PackStr_GetValueBinary (po_body o) n)) as Hrow
        by (unfold row_string; simpl; by rewrite Ho).
      rewrite Hrow.
      destruct (Pack_IsNull (po_body o) n); simpl.
      * destruct (IH max) as (it' & max' & Hrun & Hfold & Hsub & Hle & _).
        exists it', max'. rewrite Hrun. split; [done |]. split; [done |].
        split; [by apply list_subseteq_cons |]. split; [lia |]. intros; lia.
      * rewrite CompareAndSetCurrentMax_eq.
        destruct (IH (pick_max w max (PackStr_GetValueBinary (po_body o) n)))
          as (it' & max' & Hrun & Hfold & Hsub & Hle & _).
        exists it', max'. rewrite Hrun. split; [done |]. split; [done |].
        split; [by apply list_subseteq_cons |]. split; [lia |]. intros; lia.
    + exists ((b', n) :: it), max. split; [done |]. split; [done |]. split; [done |].
      split; [done |]. intros n0 it0 [= ? _]. done.
Qed.

Lemma MaxS_loop_str w f :
  pack_type (attr w) = PT_STR ->
  forall fuel it max,
    (length it < fuel)%nat ->
    (forall b n, (b, n) ∈ it -> pack_ready w b) ->
    MaxS_loop fuel f it max w = (Ret (foldl (pick_max w) max (omap (row_string w) it)), w).
Proof.
  intros Hpt fuel. induction fuel as [| fuel IH]; intros it max Hlen Hready; [lia |].
  destruct it as [| [b n] it]; [done |].
  destruct (Hready b n) as (k & d & Hv & Hno & Hnr & [o Ho]); [by left |].
  destruct (view_pack_get _ _ _ _ _ Hv Ho) as [Hget _].
  assert ((b >=? Z.of_nat (length (m_idx (attr w)))) = false) as Hb.
  { unfold view_dpn in Hv. destruct (Z.ltb_spec b 0); [done |].
    destruct (m_idx (attr w) !! Z.to_nat b) eqn:Hk; [| done].
    apply lookup_lt_Some in Hk. lia. }
  cbn [MaxS_loop]. unfold SizeOfPack, gets. rewrite bind_eq, Hb.
  rewrite bind_eq, get_dpn_eq, Hv. cbn beta iota.
  rewrite bind_eq, Hget. unfold GetPackType, gets. rewrite bind_eq, Hpt.
  rewrite bind_eq. rewrite bool_decide_eq_false_2 by done. cbn [mret M_ret].
  rewrite Hno, Hnr. cbn [orb negb].
  destruct (MaxS_in_pack_str w b k d o Hpt Hv Ho ((b, n) :: it) max)
    as (it' & max' & Hrun & Hfold & Hsub & Hle & Hlt).
  rewrite bind_eq, Hrun. rewrite IH.
  - by rewrite Hfold.
  - specialize (Hlt n it eq_refl). lia.
  - intros b0 n0 Hin. apply (Hready b0 n0). by apply Hsub.
Qed.

(** The running maximum is the start value or one of the candidates. *)
Lemma pick_max_elem w l : forall m,
  foldl (pick_max w) m l = m \/ foldl (pick_max w) m l ∈ l.
Proof.
  induction l as [| t l IH]; intros m; simpl; [by left |].
  destruct (IH (pick_max w m t)) as [-> | Hin]; [| right; by right].
  unfold pick_max. destruct (_ >? 0); [right; by left | by left].
Qed.

(** Under the laws of a total preorder no candidate is above the running
    maximum. *)
Section pick_max_order.
Variable w : World.
Hypothesis Hrefl : forall t, collate w t t <= 0.
Hypothesis Htotal : forall a b, collate w a b > 0 -> collate w b a <= 0.
Hypothesis Htrans : forall a b c,
  collate w a b <= 0 -> collate w b c <= 0 -> collate w a c <= 0.

Lemma pick_max_ge m t : collate w m (pick_max w m t) <= 0 /\
                        collate w t (pick_max w m t) <= 0.
Proof.
  unfold pick_max. destruct (Z.gtb_spec (collate w t m) 0) as [Hgt | Hle].
  - split; [apply Htotal; lia | apply Hrefl].
  - split; [apply Hrefl | done].
Qed.

Lemma pick_max_start l : forall m, collate w m (foldl (pick_max w) m l) <= 0.
Proof.
  induction l as [| t l IH]; intros m; simpl; [apply Hrefl |].
  eapply Htrans; [apply (pick_max_ge m t) | apply IH].
Qed.

Lemma pick_max_upper l : forall m v,
  v ∈ l -> collate w v (foldl (pick_max w) m l) <= 0.
Proof.
  induction l as [| t l IH]; intros m v Hv; simpl.
  - by apply not_elem_of_nil in Hv.
  - apply elem_of_cons in Hv as [-> | Hv]; [| by apply IH].
    eapply Htrans; [apply (pick_max_ge m t) | apply pick_max_start].
Qed.
End pick_max_order.

(** X7.  [MaxS] on a column kept in string packs, for a filter with a block
    for every pack whose selected rows lie in packs that have values and are
    in memory: with fuel above the number of selected rows it returns, the
    state is as before, and the result is what [CompareAndSetCurrentMax]
    keeps of the strings of the selected rows that are not null, taken in
    the order of the rows and starting from the null string.  The result is
    the null string or one of those strings; and when the comparison of the
    column is a total preorder, none of those strings compares above the
    result. *)
Theorem MaxS_string_packs (w : World) (f : Filter) (fuel : nat) :
  pack_type (attr w) = PT_STR ->
  IsStringType (ct_TypeName (ct (attr w))) = true ->
  Filter_IsEmpty f = false ->
  h_nr (hdr (attr w)) <> 0 -> h_nr (hdr (attr w)) <> h_nn (hdr (attr w)) ->
  Filter_NumOfBlocks f = Z.of_nat (length (m_idx (attr w))) ->
  dict_ready w ->
  (forall b n, (b, n) ∈ FilterOnesIterator f -> pack_ready w b) ->
  (length (FilterOnesIterator f) < fuel)%nat ->
  let r := foldl (pick_max w) None (selected_strings w f) in
  MaxS fuel f w = (Ret r, w) /\
  (r = None \/ r ∈ selected_strings w f) /\
  ((forall t, collate w t t <= 0) ->
   (forall a b, collate w a b > 0 -> collate w b a <= 0) ->
   (forall a b c, collate w a b <= 0 -> collate w b c <= 0 -> collate w a c <= 0) ->
   forall v, v ∈ selected_strings w f -> collate w v r <= 0).
Proof.
  intros Hpt Hstr Hne Hn Hnn Hblocks Hdict Hready Hfuel r. split; [| split].
  - unfold MaxS, TypeName, NumOfObj, NumOfNulls, SizeOfPack, gets. rewrite !bind_eq.
    rewrite Hne, Hstr. cbn [negb orb].
    rewrite (proj2 (Z.eqb_neq _ _) Hn), (proj2 (Z.eqb_neq _ _) Hnn). cbn [orb].
    rewrite bind_eq, Hblocks, Z.eqb_refl. cbn [negb].
    rewrite bind_eq, (LoadPackInfo_ready w Hdict).
    by apply MaxS_loop_str.
  - apply pick_max_elem.
  - intros Hrefl Htotal Htrans v Hv. by apply pick_max_upper.
Qed.

(** ** Rounds of MinS and MaxS that do not advance *)

(** The dictionary is at hand when the column is dictionary-encoded. *)
Definition decodes (w : World) : Prop :=
  ct_IsLookup (ct (attr w)) = true ->
  exists a t, m_dict (attr w) = Some a /\ dict_heap (eng w) !! a = Some t.

Lemma DecodeValue_S_returns w code :
  decodes w -> exists s, DecodeValue_S code w = (Ret s, w).
Proof.
  intros Hdec. unfold DecodeValue_S. destruct (code =? NULL_VALUE_64); [by eexists |].
  unfold Type_, gets. rewrite bind_eq.
  destruct (ct_IsLookup (ct (attr w))) eqn:Hl.
  - destruct (Hdec Hl) as (a & t & Ha & Ht). rewrite !bind_eq. unfold dict_deref.
    rewrite Ha, Ht. by eexists.
  - repeat (case_match; try by eexists).
Qed.

(** The first pack of the iterator is one that [MinS] and [MaxS] take for
    uniform. *)
Definition taken_for_uniform (f : Filter) (b : Z) (d : DPN) : Prop :=
  ontological_status PT_INT d = UNIFORM \/
  (ontological_status PT_INT d = UNIFORM_AND_NULLS /\ Filter_IsFull f b = true).

Lemma view_dpn_in_view w b k d :
  view_dpn w b = Some (k, d) -> (b >=? Z.of_nat (length (m_idx (attr w)))) = false.
Proof.
  intros Hv. unfold view_dpn in Hv. destruct (Z.ltb_spec b 0); [done |].
  destruct (m_idx (attr w) !! Z.to_nat b) eqn:Hk; [| done].
  apply lookup_lt_Some in Hk. lia.
Qed.

Lemma get_pack_eq w b k d :
  view_dpn w b = Some (k, d) -> get_pack b w = (Ret (Z.land (pack_ptr d) tag_mask), w).
Proof. intros Hv. unfold get_pack. by rewrite bind_eq, get_dpn_eq, Hv. Qed.

Lemma MaxS_loop_uniform w f b n rest k d :
  dict_ready w -> decodes w -> pack_type (attr w) = PT_INT ->
  view_dpn w b = Some (k, d) -> taken_for_uniform f b d ->
  forall fuel max, MaxS_loop fuel f ((b, n) :: rest) max w = (OutOfFuel, w).
Proof.
  intros Hdict Hdec Hpt Hv Hu fuel. induction fuel as [| fuel IH]; intros max; [done |].
  cbn [MaxS_loop]. unfold SizeOfPack, gets.
  rewrite bind_eq, (view_dpn_in_view _ _ _ _ Hv).
  rewrite bind_eq, get_dpn_eq, Hv. cbn beta iota.
  rewrite bind_eq, (get_pack_eq _ _ _ _ Hv). unfold GetPackType, gets.
  rewrite bind_eq, Hpt. rewrite bool_decide_eq_true_2 by done.
  rewrite bind_eq, bind_eq, (GetPackOntologicalStatus_ready _ _ _ _ Hdict Hv), Hpt.
  assert ((if bool_decide (ontological_status PT_INT d = UNIFORM)
           then mret true
           else st' ← GetPackOntologicalStatus b;
                mret (bool_decide (st' = UNIFORM_AND_NULLS) && Filter_IsFull f b)) w
          = (Ret true, w)) as ->.
  { destruct Hu as [Hu | [Hu Hfull]].
    - by rewrite bool_decide_eq_true_2.
    - rewrite bool_decide_eq_false_2 by (rewrite Hu; done).
      rewrite bind_eq, (GetPackOntologicalStatus_ready _ _ _ _ Hdict Hv), Hpt.
      by rewrite bool_decide_eq_true_2, Hfull. }
  destruct (DecodeValue_S_returns w (min_i d) Hdec) as [s Hs].
  rewrite bind_eq, Hs, bind_eq, CompareAndSetCurrentMax_eq. apply IH.
Qed.

(** X8.  [MaxS] on a string column kept in integer packs never returns when
    the first row the filter selects lies in a pack that is uniform, or
    uniform with nulls and selected in full: the round decodes the value of
    the pack and compares it, and leaves the iterator where it was.
    Whatever the fuel, the loop is still running when it is used up. *)
Theorem MaxS_uniform_pack_never_returns (w : World) (f : Filter) (b n : Z)
    (rest : list (Z * Z)) (k : PACK_INDEX) (d : DPN) :
  IsStringType (ct_TypeName (ct (attr w))) = true ->
  Filter_IsEmpty f = false ->
  h_nr (hdr (attr w)) <> 0 -> h_nr (hdr (attr w)) <> h_nn (hdr (attr w)) ->
  Filter_NumOfBlocks f = Z.of_nat (length (m_idx (attr w))) ->
  dict_ready w -> decodes w ->
  pack_type (attr w) = PT_INT ->
  FilterOnesIterator f = (b, n) :: rest ->
  view_dpn w b = Some (k, d) ->
  taken_for_uniform f b d ->
  forall fuel, MaxS fuel f w = (OutOfFuel, w).
Proof.
  intros Hstr Hne Hn Hnn Hblocks Hdict Hdec Hpt Hit Hv Hu fuel.
  unfold MaxS, TypeName, NumOfObj, NumOfNulls, SizeOfPack, gets. rewrite !bind_eq.
  rewrite Hne, Hstr. cbn [negb orb].
  rewrite (proj2 (Z.eqb_neq _ _) Hn), (proj2 (Z.eqb_neq _ _) Hnn). cbn [orb].
  rewrite bind_eq, Hblocks, Z.eqb_refl. cbn [negb].
  rewrite bind_eq, (LoadPackInfo_ready w Hdict), Hit.
  by eapply MaxS_loop_uniform.
Qed.

Lemma not_uniform_nulls_only w f b k d :
  dict_ready w -> view_dpn w b = Some (k, d) -> DPN_NullOnly d = true ->
  (pt ← GetPackType;
   if bool_decide (pt = PT_INT) then
     st ← GetPackOntologicalStatus b;
     if bool_decide (st = UNIFORM) then mret true
     else
       st' ← GetPackOntologicalStatus b;
       mret (bool_decide (st' = UNIFORM_AND_NULLS) && Filter_IsFull f b)
   else mret false) w = (Ret false, w).
Proof.
  intros Hdict Hv Hno. unfold GetPackType, gets. rewrite bind_eq.
  case_bool_decide; [| done].
  rewrite bind_eq, (GetPackOntologicalStatus_ready _ _ _ _ Hdict Hv).
  unfold ontological_status. rewrite Hno. simpl.
  rewrite bind_eq, (GetPackOntologicalStatus_ready _ _ _ _ Hdict Hv).
  unfold ontological_status. rewrite Hno. done.
Qed.

Lemma MinS_loop_nulls_only w f b n rest k d :
  dict_ready w -> view_dpn w b = Some (k, d) -> DPN_NullOnly d = true ->
  forall fuel min set, MinS_loop fuel f ((b, n) :: rest) min set w = (OutOfFuel, w).
Proof.
  intros Hdict Hv Hno fuel. induction fuel as [| fuel IH]; intros min set; [done |].
  cbn [MinS_loop]. unfold SizeOfPack, gets.
  rewrite bind_eq, (view_dpn_in_view _ _ _ _ Hv).
  rewrite bind_eq, get_dpn_eq, Hv. cbn beta iota.
  rewrite bind_eq, (get_pack_eq _ _ _ _ Hv).
  pose proof (not_uniform_nulls_only w f b k d Hdict Hv Hno) as Hu.
  rewrite bind_eq in Hu. unfold GetPackType, gets in *. rewrite bind_eq.
  rewrite bind_eq, Hu. rewrite Hno. cbn [orb negb]. apply IH.
Qed.

Lemma MaxS_loop_nulls_only w f b n rest k d :
  dict_ready w -> view_dpn w b = Some (k, d) -> DPN_NullOnly d = true ->
  forall fuel max, MaxS_loop fuel f ((b, n) :: rest) max w = (OutOfFuel, w).
Proof.
  intros Hdict Hv Hno fuel. induction fuel as [| fuel IH]; intros max; [done |].
  cbn [MaxS_loop]. unfold SizeOfPack, gets.
  rewrite bind_eq, (view_dpn_in_view _ _ _ _ Hv).
  rewrite bind_eq, get_dpn_eq, Hv. cbn beta iota.
  rewrite bind_eq, (get_pack_eq _ _ _ _ Hv).
  pose proof (not_uniform_nulls_only w f b k d Hdict Hv Hno) as Hu.
  rewrite bind_eq in Hu. unfold GetPackType, gets in *. rewrite bind_eq.
  rewrite bind_eq, Hu. rewrite Hno. cbn [orb negb]. apply IH.
Qed.

(** X9.  [MinS] and [MaxS] never return when the first row the filter
    selects lies in a pack that holds nulls only, in a column that has
    values elsewhere: neither branch of the round takes the pack, and the
    iterator stays where it was.  Whatever the fuel, the loop is still
    running when it is used up. *)
Theorem MinS_MaxS_nulls_only_pack_never_return (w : World) (f : Filter) (b n : Z)
    (rest : list (Z * Z)) (k : PACK_INDEX) (d : DPN) :
  IsStringType (ct_TypeName (ct (attr w))) = true ->
  Filter_IsEmpty f = false ->
  h_nr (hdr (attr w)) <> 0 -> h_nr (hdr (attr w)) <> h_nn (hdr (attr w)) ->
  Filter_NumOfBlocks f = Z.of_nat (length (m_idx (attr w))) ->
  dict_ready w ->
  FilterOnesIterator f = (b, n) :: rest ->
  view_dpn w b = Some (k, d) ->
  DPN_NullOnly d = true ->
  forall fuel, MinS fuel f w = (OutOfFuel, w) /\ MaxS fuel f w = (OutOfFuel, w).
Proof.
  intros Hstr Hne Hn Hnn Hblocks Hdict Hit Hv Hno fuel. split.
  - unfold MinS, TypeName, NumOfObj, NumOfNulls, SizeOfPack, gets. rewrite !bind_eq.
    rewrite Hne, Hstr. cbn [negb orb].
    rewrite (proj2 (Z.eqb_neq _ _) Hn), (proj2 (Z.eqb_neq _ _) Hnn). cbn [orb].
    rewrite bind_eq, Hblocks, Z.eqb_refl. cbn [negb].
    rewrite bind_eq, (LoadPackInfo_ready w Hdict), Hit.
    by eapply MinS_loop_nulls_only.
  - unfold MaxS, TypeName, NumOfObj, NumOfNulls, SizeOfPack, gets. rewrite !bind_eq.
    rewrite Hne, Hstr. cbn [negb orb].
    rewrite (proj2 (Z.eqb_neq _ _) Hn), (proj2 (Z.eqb_neq _ _) Hnn). cbn [orb].
    rewrite bind_eq, Hblocks, Z.eqb_refl. cbn [negb].
    rewrite bind_eq, (LoadPackInfo_ready w Hdict), Hit.
    by eapply MaxS_loop_nulls_only.
Qed.

(** ** Encoding a string and decoding its code *)

Lemma i32_small x : - 2 ^ 31 <= x < 2 ^ 31 -> i32 x = x.
Proof.
  intros Hx. unfold i32, wrap_signed.
  replace (2 ^ (32 - 1)) with (2 ^ 31) by reflexivity.
  rewrite Z.mod_small; lia.
Qed.

Lemma FTree_find_lookup s l : forall i,
  0 <= i ->
  FTree_find s l i < 0 \/
  (i <= FTree_find s l i /\ l !! Z.to_nat (FTree_find s l i - i) = Some s).
Proof.
  induction l as [| x l IH]; intros i Hi; simpl; [left; lia |].
  case_bool_decide as Hx.
  - right. split; [lia |]. rewrite Z.sub_diag. simpl. by rewrite Hx.
  - destruct (IH (i + 1)) as [Hneg | [Hle Hl]]; [lia | by left |].
    right. split; [lia |].
    replace (Z.to_nat (FTree_find s l (i + 1) - i))
      with (S (Z.to_nat (FTree_find s l (i + 1) - (i + 1)))) by lia.
    done.
Qed.

(** The dictionary at hand after a value was added to it: the values that
    were there, then the new one. *)
Lemma dict_copy_on_write_add_values s w a t c w' :
  m_dict (attr w) = Some a -> dict_heap (eng w) !! a = Some t ->
  FTree_GetEncodedValue t s < 0 ->
  dict_copy_on_write_add s w = (Ret c, w') ->
  c = Z.of_nat (length (ft_values t)) /\ ct (attr w') = ct (attr w) /\
  exists a' t', m_dict (attr w') = Some a' /\ dict_heap (eng w') !! a' = Some t' /\
                ft_values t' = ft_values t ++ [s].
Proof.
  intros Hm Ht Hs Hrun. destruct (ft_changed t) eqn:Hc.
  - rewrite (dict_copy_on_write_add_later s w a t Hm Ht Hc) in Hrun.
    injection Hrun as <- <-. rewrite FTree_Add_missing by done. simpl.
    split; [done |]. split; [done |]. eexists a, _. split; [done |].
    rewrite lookup_insert_eq. split; [reflexivity |].
    by rewrite FTree_Add_missing by done.
  - unfold dict_copy_on_write_add in Hrun. msimpl_in Hrun. rewrite Hm in Hrun.
    unfold dict_deref at 1 in Hrun. rewrite Ht in Hrun.
    unfold FTree_Changed in Hrun. rewrite Hc in Hrun. msimpl_in Hrun.
    unfold dict_alloc at 1 in Hrun.
    destruct ((0 <=? heap_count (eng w)) && (heap_count (eng w) <? heap_limit));
      [| done].
    set (a' := heap_addr (heap_count (eng w))) in *.
    unfold set_m_dict, dict_store, modify_hdr, get_hdr, cache_PutObject_FTree in Hrun.
    msimpl_in Hrun. unfold dict_deref at 1 in Hrun.
    cbn [eng upd_eng upd_attr dict_heap eng_set_dicts] in Hrun.
    assert (exists t0, <[a' := FTree_Clone t]> (dict_heap (eng w)) !! a = Some t0 /\
                       ft_values t0 = ft_values t) as (t0 & Ht0 & Hv0).
    { destruct (decide (a = a')) as [-> | Hne].
      - exists (FTree_Clone t). by rewrite lookup_insert_eq.
      - exists t. by rewrite lookup_insert_ne. }
    rewrite Ht0 in Hrun. msimpl_in Hrun.
    cbn [attr upd_eng upd_attr upd_hdr m_dict attr_set_hdr attr_set_m_dict] in Hrun.
    unfold dict_deref in Hrun.
    cbn [eng upd_eng upd_attr upd_hdr dict_heap eng_set_dicts] in Hrun.
    assert (exists t1, <[a := FTree_Unlock t0]> (<[a' := FTree_Clone t]> (dict_heap (eng w)))
                         !! a' = Some t1 /\ ft_values t1 = ft_values t) as (t1 & Ht1 & Hv1).
    { destruct (decide (a = a')) as [-> | Hne].
      - exists (FTree_Unlock t0). by rewrite lookup_insert_eq.
      - exists (FTree_Clone t). by rewrite lookup_insert_ne, lookup_insert_eq. }
    rewrite Ht1 in Hrun. msimpl_in Hrun.
    assert (FTree_GetEncodedValue t1 s < 0) as Hs1
      by (unfold FTree_GetEncodedValue in *; by rewrite Hv1).
    rewrite (FTree_Add_missing t1 s Hs1) in Hrun. simpl in Hrun.
    injection Hrun as <- <-. simpl. rewrite Hv1.
    split; [done |]. split; [done |]. eexists a', _. split; [done |].
    rewrite lookup_insert_eq. done.
Qed.

(** X10.  In a dictionary-encoded string column whose dictionary is at hand
    and holds fewer than 2^31 values, the code [EncodeValue_T] returns for a
    string, adding the string when it is new, decodes to that string; it
    reports success; and every code that decoded to a string before decodes
    to the same string afterwards, also when the dictionary was cloned for
    the new value. *)
Theorem EncodeValue_T_DecodeValue_S (w w' : World) (s : string) (c : Z)
    (rc : ErrorCode) (a : Z) (t : FTree) :
  IsStringType (ct_TypeName (ct (attr w))) = true ->
  ct_IsLookup (ct (attr w)) = true ->
  m_dict (attr w) = Some a -> dict_heap (eng w) !! a = Some t ->
  NULL_VALUE_64 < 0 -> Z.of_nat (length (ft_values t)) < 2 ^ 31 ->
  EncodeValue_T (Some s) true w = (Ret (c, rc), w') ->
  rc = EC_SUCCESS /\
  DecodeValue_S c w' = (Ret (Some s), w') /\
  (forall c0 s0, DecodeValue_S c0 w = (Ret (Some s0), w) ->
                 DecodeValue_S c0 w' = (Ret (Some s0), w')).
Proof.
  intros Hstr Hlook Hm Ht Hnull Hsize Hrun.
  assert (forall w1 a1 t1 c1 s1,
            ct (attr w1) = ct (attr w) -> m_dict (attr w1) = Some a1 ->
            dict_heap (eng w1) !! a1 = Some t1 -> c1 <> NULL_VALUE_64 ->
            FTree_GetRealValue t1 (i32 c1) = Some s1 ->
            DecodeValue_S c1 w1 = (Ret (Some s1), w1)) as Hdecode.
  { intros w1 a1 t1 c1 s1 Hct Hm1 Ht1 Hc1 Hv. unfold DecodeValue_S.
    rewrite (proj2 (Z.eqb_neq _ _) Hc1). unfold Type_, gets. rewrite bind_eq, Hct, Hlook.
    rewrite !bind_eq. unfold dict_deref. by rewrite Hm1, Ht1, Hv. }
  assert (forall c0 s0, DecodeValue_S c0 w = (Ret (Some s0), w) ->
            c0 <> NULL_VALUE_64 /\ FTree_GetRealValue t (i32 c0) = Some s0) as Hbefore.
  { intros c0 s0 Hd. unfold DecodeValue_S in Hd.
    destruct (Z.eqb_spec c0 NULL_VALUE_64) as [-> | Hne]; [done |].
    split; [done |]. unfold Type_, gets in Hd. rewrite bind_eq, Hlook in Hd.
    rewrite !bind_eq in Hd. unfold dict_deref in Hd. rewrite Hm, Ht in Hd.
    by injection Hd. }
  unfold EncodeValue_T, TypeName, gets in Hrun. rewrite bind_eq, Hstr in Hrun.
  rewrite bind_eq in Hrun.
  assert (LoadPackInfo w = (Ret tt, w)) as Hload
    by (apply LoadPackInfo_ready; right; by rewrite Hm).
  rewrite Hload in Hrun. rewrite !bind_eq in Hrun. unfold dict_deref at 1 in Hrun.
  rewrite Hm, Ht in Hrun.
  pose proof (FTree_find_lookup s (ft_values t) 0 ltac:(lia)) as Hfind.
  fold (FTree_GetEncodedValue t s) in Hfind.
  destruct (Z.ltb_spec (FTree_GetEncodedValue t s) 0) as [Hneg | Hpos].
  - cbn [negb] in Hrun. rewrite bind_eq in Hrun.
    destruct (bool_decide (m_tx (attr w) = None)); [done |]. msimpl_in Hrun.
    destruct (dict_copy_on_write_add s w) as [[c1 | e | f |] w1] eqn:Hadd; try done.
    injection Hrun as <- <- <-.
    destruct (dict_copy_on_write_add_values _ _ _ _ _ _ Hm Ht Hneg Hadd)
      as (-> & Hct & a' & t' & Hm' & Ht' & Hv').
    split; [done |].
    assert (i32 (Z.of_nat (length (ft_values t))) = Z.of_nat (length (ft_values t))) as Hi
      by (apply i32_small; lia).
    split.
    + apply (Hdecode _ a' t'); [done | done | done | lia |].
      unfold FTree_GetRealValue. rewrite Hi, Hv'.
      rewrite (proj2 (Z.ltb_ge _ _)) by lia. rewrite Nat2Z.id.
      by rewrite lookup_app_r, Nat.sub_diag.
    + intros c0 s0 Hd. destruct (Hbefore c0 s0 Hd) as [Hne Hv].
      apply (Hdecode _ a' t'); [done | done | done | done |].
      unfold FTree_GetRealValue in *. destruct (i32 c0 <? 0); [done |].
      rewrite Hv'. by apply lookup_app_l_Some.
  - destruct Hfind as [? | [_ Hfind]]; [lia |]. rewrite Z.sub_0_r in Hfind.
    injection Hrun as <- <- <-. split; [done |]. split; [| done].
    assert (FTree_GetEncodedValue t s < Z.of_nat (length (ft_values t))) as Hlt.
    { apply lookup_lt_Some in Hfind. lia. }
    apply (Hdecode _ a t); [done | done | done | lia |].
    unfold FTree_GetRealValue. rewrite i32_small by lia.
    by rewrite (proj2 (Z.ltb_ge _ _)) by lia.
Qed.

(** ** Batches that need no pack *)

(** [LoadData] starts a new pack: the view is empty or its last pack is
    full. *)
Definition new_pack (w : World) : Prop :=
  m_idx (attr w) = [] \/
  exists k d, view_dpn w (Z.of_nat (length (m_idx (attr w))) - 1) = Some (k, d) /\
              nr d = pack_capacity w.

(** The state after the first lines of [LoadData]. *)
Definition started (ci : option TX_ID) (w : World) : World :=
  match ci with
  | Some _ =>
      upd_attr (fun a => attr_set_tx (m_version a) (m_tx a) ci a)
        (upd_attr (attr_set_no_change false) w)
  | None => upd_attr (attr_set_no_change false) w
  end.

(** The counters of the header after a batch came into a nullable column. *)
Definition counted (nvs : ValueCache) (h : COL_VER_HDR) : COL_VER_HDR :=
  hdr_set_counts (u64 (h_nr h + vc_NumOfValues nvs)) (u64 (h_nn h + vc_NumOfNulls nvs))
                 (u64 (h_natural_size h + vc_SumarizedSize nvs)) h.

(** The bounds of the header after a pack with the one value [v] came. *)
Definition extend_bounds (v : Z) (h : COL_VER_HDR) : COL_VER_HDR :=
  if h_nr h =? 0 then hdr_set_max v (hdr_set_min v h)
  else
    let h1 := if h_min h >? v then hdr_set_min v h else h in
    if h_max h1 <? v then hdr_set_max v h1 else h1.

Lemma LoadData_new_pack nvs ci w x :
  m_tx (attr w) = Some x -> new_pack w ->
  LoadData nvs ci w =
  (let pi := Z.of_nat (length (m_idx (attr w))) in
   pt ← GetPackType;
   match pt with
   | PT_INT => LoadDataPackN pi nvs
   | PT_STR => LoadDataPackS pi nvs
   end;;
   '(_, dpn) ← get_dpn pi;
   (if negb (DPN_Trivial dpn) then p ← get_pack pi; Pack_Save_at p else mret tt);;
   ty ← Type_;
   modify_hdr (fun h =>
     hdr_set_counts (u64 (h_nr h + vc_NumOfValues nvs))
                    (u64 (h_nn h + (if ct_NotNull ty then 0 else vc_NumOfNulls nvs)))
                    (u64 (h_natural_size h + vc_SumarizedSize nvs)) h))
    (appended x (started ci w)).
Proof.
  intros Hx Hnew.
  assert (PreparePackForLoad (started ci w) = (Ret tt, appended x (started ci w))) as Hprep.
  { assert (m_tx (attr (started ci w)) = Some x) as Hx' by (by destruct ci).
    destruct (PreparePackForLoad_cases (started ci w) x Hx') as [Hempty Hlast].
    destruct Hnew as [Hidx | (k & d & Hv & Hnr)].
    - apply Hempty. by destruct ci.
    - assert (view_dpn (started ci w) (Z.of_nat (length (m_idx (attr (started ci w)))) - 1)
              = Some (k, d)) as Hv' by (by destruct ci).
      rewrite (Hlast k d Hv').
      assert (pack_capacity (started ci w) = pack_capacity w) as -> by (by destruct ci).
      by rewrite Hnr, Z.eqb_refl. }
  unfold LoadData. rewrite bind_eq. cbn [set_no_change modify].
  assert ((match ci with
           | Some _ => modify (upd_attr (fun a => attr_set_tx (m_version a) (m_tx a) ci a))
           | None => mret tt
           end) (upd_attr (attr_set_no_change false) w) = (Ret tt, started ci w)) as Hci
    by (by destruct ci).
  rewrite bind_eq, Hci. rewrite bind_eq, Hprep. unfold SizeOfPack at 1. rewrite bind_eq.
  cbn [gets].
  assert (Z.of_nat (length (m_idx (attr (appended x (started ci w))))) - 1
          = Z.of_nat (length (m_idx (attr w)))) as ->.
  { assert (m_idx (attr (started ci w)) = m_idx (attr w)) as Hi by (by destruct ci).
    simpl. rewrite Hi, length_app. simpl. lia. }
  reflexivity.
Qed.

Lemma appended_facts ci x w :
  let w1 := appended x (started ci w) in
  let pos := length (dpns (share w)) in
  pack_type (attr w1) = pack_type (attr w) /\ ct (attr w1) = ct (attr w) /\
  hdr (attr w1) = hdr (attr w) /\
  idx_at (Z.of_nat (length (m_idx (attr w)))) w1 = (Ret pos, w1) /\
  dpns (share w1) = dpns (share w) ++ [init_dpn x None] /\
  eng w1 = eng w.
Proof.
  intros w1 pos. unfold w1, pos. destruct ci; simpl; repeat split;
    unfold idx_at; simpl; rewrite (proj2 (Z.ltb_ge _ _)) by lia;
    by rewrite Nat2Z.id, lookup_app_r, Nat.sub_diag.
Qed.

(** The DPN of a pack that holds [n] nulls and nothing else, and of one that
    holds [n] times the value [v]. *)
Definition nulls_only_dpn (x : TX_ID) (n : Z) : DPN :=
  DPN_set_counts (u32 n) (u32 n) (init_dpn x None).

Definition uniform_dpn (x : TX_ID) (n v sm : Z) : DPN :=
  DPN_set_counts (u32 n) 0 (DPN_set_stats v v sm (init_dpn x None)).

Lemma upd_dpn_appended ci x w f :
  dpns (share (upd_dpn (length (dpns (share w))) f (appended x (started ci w))))
  = dpns (share w) ++ [f (init_dpn x None)].
Proof.
  destruct (appended_facts ci x w) as (_ & _ & _ & _ & Hd & _).
  unfold upd_dpn, upd_share. cbn [share dpns share_set_dpns]. rewrite Hd.
  apply list_eq. intros i. destruct (decide (i = length (dpns (share w)))) as [-> | Hne].
  - rewrite list_lookup_alter_eq. by rewrite !lookup_app_r, !Nat.sub_diag.
  - rewrite list_lookup_alter_ne by done.
    destruct (decide (i < length (dpns (share w)))%nat).
    + by rewrite !lookup_app_l.
    + rewrite !lookup_app_r by lia.
      destruct (i - length (dpns (share w)))%nat as [| j] eqn:Hj; [lia | done].
Qed.

Lemma LoadData_finish_trivial nvs pi k d w :
  view_dpn w pi = Some (k, d) -> DPN_Trivial d = true ->
  ct_NotNull (ct (attr w)) = false ->
  ('(_, dpn) ← get_dpn pi;
   (if negb (DPN_Trivial dpn) then p ← get_pack pi; Pack_Save_at p else mret tt);;
   ty ← Type_;
   modify_hdr (fun h =>
     hdr_set_counts (u64 (h_nr h + vc_NumOfValues nvs))
                    (u64 (h_nn h + (if ct_NotNull ty then 0 else vc_NumOfNulls nvs)))
                    (u64 (h_natural_size h + vc_SumarizedSize nvs)) h)) w
  = (Ret tt, upd_hdr (counted nvs) w).
Proof.
  intros Hv Ht Hnn. rewrite bind_eq, get_dpn_eq, Hv. cbn beta iota. rewrite Ht.
  cbn [negb]. rewrite bind_eq. cbn [mret M_ret]. unfold Type_, gets. rewrite bind_eq.
  by rewrite Hnn.
Qed.

Lemma view_dpn_last w2 idx arena d :
  m_idx (attr w2) = idx ++ [length arena] -> dpns (share w2) = arena ++ [d] ->
  view_dpn w2 (Z.of_nat (length idx)) = Some (length arena, d).
Proof.
  intros Hi Hd. unfold view_dpn. rewrite (proj2 (Z.ltb_ge _ _)) by lia.
  rewrite Hi, Nat2Z.id, lookup_app_r, Nat.sub_diag by done. simpl.
  by rewrite Hd, lookup_app_r, Nat.sub_diag.
Qed.

Lemma LoadData_nulls nvs ci w x :
  pack_type (attr w) = PT_INT -> ct_NotNull (ct (attr w)) = false ->
  m_tx (attr w) = Some x -> new_pack w ->
  vc_NumOfNulls nvs = vc_NumOfValues nvs ->
  LoadData nvs ci w =
  (Ret tt, upd_hdr (counted nvs)
             (upd_dpn (length (dpns (share w)))
                (fun d => DPN_set_counts (u32 (nr d + vc_NumOfValues nvs))
                                         (u32 (nn d + vc_NumOfValues nvs)) d)
                (appended x (started ci w)))).
Proof.
  intros Hpt Hnotnull Hx Hnew Hnulls.
  rewrite (LoadData_new_pack nvs ci w x Hx Hnew). cbv zeta.
  destruct (appended_facts ci x w) as (Hpt1 & Hct1 & Hh1 & Hidx & Hd1 & He1).
  set (w1 := appended x (started ci w)) in *.
  set (pos := length (dpns (share w))) in *.
  assert (read_dpn pos w1 = (Ret (init_dpn x None), w1)) as Hread.
  { unfold read_dpn. rewrite Hd1. unfold pos. by rewrite lookup_app_r, Nat.sub_diag. }
  unfold GetPackType, gets. rewrite bind_eq, Hpt1, Hpt.
  assert (LoadDataPackN (Z.of_nat (length (m_idx (attr w)))) nvs w1 =
          (Ret tt, upd_dpn pos
                     (fun d => DPN_set_counts (u32 (nr d + vc_NumOfValues nvs))
                                              (u32 (nn d + vc_NumOfValues nvs)) d) w1)) as Hload.
  { unfold LoadDataPackN, Type_, gets. rewrite bind_eq, Hct1, Hnotnull.
    rewrite bind_eq. cbn [mret M_ret]. rewrite bind_eq, Hidx, bind_eq, Hread.
    rewrite bool_decide_eq_true_2 by done. rewrite Hnulls, Z.eqb_refl. simpl.
    unfold modify_dpn. by rewrite Hd1, lookup_app_r, Nat.sub_diag. }
  rewrite bind_eq, Hload.
  apply (LoadData_finish_trivial nvs _ pos
           (DPN_set_counts (u32 (nr (init_dpn x None) + vc_NumOfValues nvs))
                           (u32 (nn (init_dpn x None) + vc_NumOfValues nvs))
                           (init_dpn x None))).
  - apply view_dpn_last; [by destruct ci |].
    apply (upd_dpn_appended ci x w
             (fun d => DPN_set_counts (u32 (nr d + vc_NumOfValues nvs))
                                      (u32 (nn d + vc_NumOfValues nvs)) d)).
  - unfold DPN_Trivial. simpl. apply Z.eqb_refl.
  - by rewrite <- Hnotnull, <- Hct1.
Qed.

Lemma alter_snoc (f : DPN -> DPN) (l : list DPN) (d : DPN) :
  alter f (length l) (l ++ [d]) = l ++ [f d].
Proof. rewrite <- (Nat.add_0_r (length l)) at 1. by rewrite alter_app_r. Qed.

Lemma LoadData_uniform nvs ci w x :
  pack_type (attr w) = PT_INT -> ct_NotNull (ct (attr w)) = false ->
  IsRealType (ct_TypeName (ct (attr w))) = false ->
  m_tx (attr w) = Some x -> new_pack w ->
  vc_NumOfNulls nvs = 0 -> 0 < vc_NumOfValues nvs ->
  vc_MinInt nvs None = vc_MaxInt nvs None ->
  exists w', LoadData nvs ci w = (Ret tt, w') /\
    m_idx (attr w') = m_idx (attr w) ++ [length (dpns (share w))] /\
    dpns (share w') = dpns (share w) ++
      [uniform_dpn x (vc_NumOfValues nvs) (vc_MinInt nvs None) (i64 (vc_SumInt nvs None))] /\
    eng w' = eng w /\
    hdr (attr w') = counted nvs (extend_bounds (vc_MinInt nvs None) (hdr (attr w))).
Proof.
  intros Hpt Hnotnull Hreal Hx Hnew Hnulls Hvalues Hminmax.
  rewrite (LoadData_new_pack nvs ci w x Hx Hnew). cbv zeta.
  destruct (appended_facts ci x w) as (Hpt1 & Hct1 & Hh1 & Hidx & Hd1 & He1).
  set (w1 := appended x (started ci w)) in *.
  set (pos := length (dpns (share w))) in *.
  set (v := vc_MinInt nvs None) in *.
  assert (read_dpn pos w1 = (Ret (init_dpn x None), w1)) as Hread.
  { unfold read_dpn. rewrite Hd1. unfold pos. by rewrite lookup_app_r, Nat.sub_diag. }
  unfold GetPackType, gets. rewrite bind_eq, Hpt1, Hpt.
  set (f1 := fun d => DPN_set_stats (min_i d) (max_i d)
                        (i64 (sum_i d + vc_SumInt nvs None)) d).
  set (f2 := fun d => DPN_set_counts (u32 (nr d + vc_NumOfValues nvs)) (nn d)
                        (DPN_set_stats v v (sum_i d) d)).
  set (w2 := upd_dpn pos f2 (upd_dpn pos f1 w1)).
  assert (exists g, LoadDataPackN (Z.of_nat (length (m_idx (attr w)))) nvs w1 =
                      (Ret tt, upd_hdr g w2) /\
                    g (hdr (attr w)) = extend_bounds v (hdr (attr w))) as (g & Hload & Hg).
  { unfold LoadDataPackN, Type_, gets. rewrite bind_eq, Hct1, Hnotnull.
    rewrite bind_eq. cbn [mret M_ret]. rewrite bind_eq, Hidx, bind_eq, Hread.
    rewrite bool_decide_eq_true_2 by done. rewrite Hnulls.
    rewrite (proj2 (Z.eqb_neq 0 (vc_NumOfValues nvs))) by lia. cbn [andb].
    rewrite Hreal. cbn [negb]. fold v. rewrite <- Hminmax. fold v.
    assert (dpns (share w1) !! pos = Some (init_dpn x None)) as Hl0
      by (rewrite Hd1; unfold pos; by rewrite lookup_app_r, Nat.sub_diag).
    rewrite bind_eq, (modify_dpn_eq w1 pos _ _ Hl0). fold f1.
    assert (dpns (share (upd_dpn pos f1 w1)) !! pos = Some (f1 (init_dpn x None))) as Hl1
      by (by rewrite lookup_upd_dpn, Hl0).
    rewrite bind_eq. unfold read_dpn at 1. rewrite Hl1.
    assert (nn (f1 (init_dpn x None)) = 0) as -> by done.
    assert (nr (f1 (init_dpn x None)) = 0) as -> by done.
    change (u64 (0 + 0) =? 0) with true. rewrite !Z.eqb_refl. cbn [andb orb].
    rewrite bind_eq, (modify_dpn_eq _ pos _ _ Hl1). fold f2. fold w2.
    assert (dpns (share w2) !! pos = Some (f2 (f1 (init_dpn x None)))) as Hl2
      by (unfold w2; by rewrite lookup_upd_dpn, Hl1).
    rewrite bind_eq. unfold read_dpn. rewrite Hl2.
    unfold NumOfObj, gets. rewrite bind_eq.
    change (h_nr (hdr (attr w2))) with (h_nr (hdr (attr w1))).
    change (min_i (f2 (f1 (init_dpn x None)))) with v.
    change (max_i (f2 (f1 (init_dpn x None)))) with v.
    unfold extend_bounds. rewrite Hh1.
    destruct (h_nr (hdr (attr w)) =? 0) eqn:Hnr.
    - exists (fun h => hdr_set_max v (hdr_set_min v h)). split; [reflexivity | done].
    - unfold get_hdr, gets. rewrite bind_eq.
      change (hdr (attr w2)) with (hdr (attr w1)). rewrite Hh1.
      destruct (h_min (hdr (attr w)) >? v) eqn:Hmin.
      + rewrite bind_eq. cbn [set_hdr_min modify_hdr modify]. rewrite bind_eq.
        change (h_max (hdr (attr (upd_hdr (hdr_set_min v) w2))))
          with (h_max (hdr (attr w1))). rewrite Hh1.
        change (h_max (hdr_set_min v (hdr (attr w)))) with (h_max (hdr (attr w))).
        destruct (h_max (hdr (attr w)) <? v) eqn:Hmax.
        * exists (fun h => hdr_set_max v (hdr_set_min v h)). split; [reflexivity | done].
        * exists (hdr_set_min v). split; [reflexivity | done].
      + rewrite bind_eq. cbn [mret M_ret]. rewrite bind_eq.
        change (hdr (attr w2)) with (hdr (attr w1)). rewrite Hh1.
        destruct (h_max (hdr (attr w)) <? v) eqn:Hmax.
        * exists (hdr_set_max v). split; [reflexivity | done].
        * exists (fun h => h). split; [reflexivity | done]. }
  rewrite bind_eq, Hload.
  exists (upd_hdr (counted nvs) (upd_hdr g w2)). split.
  - apply (LoadData_finish_trivial nvs _ pos (f2 (f1 (init_dpn x None)))).
    + apply view_dpn_last; [by destruct ci |].
      unfold w2. simpl.
      assert (dpns (share (started ci w)) = dpns (share w)) as -> by (by destruct ci).
      unfold pos. by rewrite !alter_snoc.
    + unfold DPN_Trivial. simpl. apply Z.eqb_refl.
    + by rewrite <- Hnotnull, <- Hct1.
  - split; [by destruct ci |]. split.
    + unfold w2. simpl.
      assert (dpns (share (started ci w)) = dpns (share w)) as -> by (by destruct ci).
      unfold pos. rewrite !alter_snoc.
      unfold uniform_dpn, f2, f1. simpl. rewrite Z.add_0_l. done.
    + split; [done |]. simpl. rewrite <- Hg. by destruct ci.
Qed.

(** X11.  A batch that needs no pack.  When [LoadData] starts a new pack in
    a nullable column kept in integer packs, a batch of nulls only, and a
    batch without nulls whose values are all the same integer, are recorded
    in the new DPN alone: the DPN is appended to the arena and to the view
    with the counts of the batch (and, for the uniform batch, the value as
    minimum and maximum and the sum of the batch), it has no body, and the
    engine with its pack cache and pack objects is as before: no pack is
    fetched, built or saved.  The header counts the rows and nulls of the
    batch, and the uniform batch extends its bounds by the value.  As
    [min_s] and [max_s] share their bytes with [min_i] and [max_i], read as
    strings the bounds of the uniform DPN are the bytes of the value, and
    those of the nulls-only DPN the bytes of zero. *)
Theorem LoadData_without_body (nvs : ValueCache) (ci : option TX_ID) (w : World)
    (x : TX_ID) :
  pack_type (attr w) = PT_INT -> ct_NotNull (ct (attr w)) = false ->
  m_tx (attr w) = Some x -> new_pack w ->
  let n := vc_NumOfValues nvs in
  let v := vc_MinInt nvs None in
  let pos := length (dpns (share w)) in
  (vc_NumOfNulls nvs = n ->
   DPN_Trivial (nulls_only_dpn x n) = true /\
   ontological_status PT_INT (nulls_only_dpn x n) = NULLS_ONLY /\
   min_s (nulls_only_dpn x n) = word_bytes 0 /\
   max_s (nulls_only_dpn x n) = word_bytes 0 /\
   exists w', LoadData nvs ci w = (Ret tt, w') /\
     m_idx (attr w') = m_idx (attr w) ++ [pos] /\
     dpns (share w') = dpns (share w) ++ [nulls_only_dpn x n] /\
     eng w' = eng w /\
     hdr (attr w') = counted nvs (hdr (attr w))) /\
  (IsRealType (ct_TypeName (ct (attr w))) = false ->
   vc_NumOfNulls nvs = 0 -> 0 < n < 2 ^ 32 -> vc_MaxInt nvs None = v ->
   DPN_Trivial (uniform_dpn x n v (i64 (vc_SumInt nvs None))) = true /\
   ontological_status PT_INT (uniform_dpn x n v (i64 (vc_SumInt nvs None))) = UNIFORM /\
   min_s (uniform_dpn x n v (i64 (vc_SumInt nvs None))) = word_bytes v /\
   max_s (uniform_dpn x n v (i64 (vc_SumInt nvs None))) = word_bytes v /\
   exists w', LoadData nvs ci w = (Ret tt, w') /\
     m_idx (attr w') = m_idx (attr w) ++ [pos] /\
     dpns (share w') = dpns (share w) ++ [uniform_dpn x n v (i64 (vc_SumInt nvs None))] /\
     eng w' = eng w /\
     hdr (attr w') = counted nvs (extend_bounds v (hdr (attr w)))).
Proof.
  intros Hpt Hnotnull Hx Hnew n v pos. split.
  - intros Hnulls. split; [apply Z.eqb_refl |]. split.
    { unfold ontological_status, DPN_NullOnly. simpl. by rewrite Z.eqb_refl. }
    split; [done |]. split; [done |].
    eexists. split; [by apply LoadData_nulls |].
    split; [by destruct ci |]. split.
    { simpl.
      assert (dpns (share (started ci w)) = dpns (share w)) as -> by (by destruct ci).
      by rewrite alter_snoc. }
    split; [by destruct ci |]. simpl. by destruct ci.
  - intros Hreal Hnulls Hn Hmax. split; [apply Z.eqb_refl |]. split.
    { unfold ontological_status, DPN_NullOnly. simpl.
      rewrite u32_small by lia. rewrite (proj2 (Z.eqb_neq n 0)) by lia.
      by rewrite Z.eqb_refl. }
    split; [done |]. split; [done |].
    apply LoadData_uniform; try done. lia.
Qed.

(** ** The string bounds of a pack *)

Lemma GetMinString_loop_spec s m rounds : forall cur,
  0 <= cur <= m -> cur <= Z.of_nat rounds ->
  (forall i, cur <= i < m -> byte_at s i = x00) ->
  let L := GetMinString_loop rounds s cur in
  0 <= L <= m /\ (forall i, L <= i < m -> byte_at s i = x00) /\
  (0 < L -> byte_at s (L - 1) <> x00).
Proof.
  induction rounds as [| rounds IH]; intros cur Hcur Hfuel Hzero; simpl.
  - assert (cur = 0) as -> by lia. split; [lia |]. split; [done | lia].
  - rewrite byte_eqb_spec. destruct (Z.gtb_spec cur 0) as [Hpos | Hle]; simpl.
    + case_bool_decide as Hb.
      * apply IH; [lia | lia |]. intros i Hi.
        destruct (decide (i = cur - 1)) as [-> | Hne]; [done | apply Hzero; lia].
      * split; [lia |]. split; [done | done].
    + split; [lia |]. split; [done | lia].
Qed.

Lemma GetMaxString_loop_spec s m rounds : forall cur,
  -1 <= cur < m -> cur + 1 <= Z.of_nat rounds ->
  (forall i, cur < i < m -> byte_at s i <> x00) ->
  let r := GetMaxString_loop rounds s cur in
  (r = -1 /\ forall i, 0 <= i < m -> byte_at s i <> x00) \/
  (0 <= r < m /\ byte_at s r = x00 /\ forall i, r < i < m -> byte_at s i <> x00).
Proof.
  induction rounds as [| rounds IH]; intros cur Hcur Hfuel Hnz; simpl.
  - assert (cur = -1) as -> by lia. left. split; [done |]. intros i Hi. apply Hnz. lia.
  - rewrite byte_eqb_spec. destruct (Z.geb_spec cur 0) as [Hpos | Hneg]; simpl.
    + case_bool_decide as Hb; simpl.
      * right. split; [lia |]. done.
      * apply IH; [lia | lia |]. intros i Hi.
        destruct (decide (i = cur)) as [-> | Hne]; [done | apply Hnz; lia].
    + assert (cur = -1) as -> by lia. left. split; [done |]. intros i Hi. apply Hnz. lia.
Qed.

(** The bound on the length of the strings of a pack that is not
    nulls-only, in a column kept in string packs: [GetActualSize], at most
    8. *)
Definition bound_len (w : World) (d : DPN) : Z :=
  let sz := if ct_IsLookup (ct (attr w)) then ct_Precision (ct (attr w))
            else u64 (sum_i d) in
  if sz >? 8 then 8 else sz.

Lemma GetActualSize_str w pack k d :
  dict_ready w -> view_dpn w pack = Some (k, d) ->
  pack_type (attr w) = PT_STR -> DPN_NullOnly d = false ->
  GetActualSize pack w =
  (Ret (if ct_IsLookup (ct (attr w)) then ct_Precision (ct (attr w)) else u64 (sum_i d)), w).
Proof.
  intros Hdict Hv Hpt Hno. unfold GetActualSize.
  rewrite bind_eq, (GetPackOntologicalStatus_ready _ _ _ _ Hdict Hv), Hpt.
  unfold ontological_status. rewrite Hno. simpl.
  unfold Type_, GetPackType, gets. rewrite !bind_eq, Hpt.
  destruct (ct_IsLookup (ct (attr w))); simpl; [done |].
  by rewrite bind_eq, get_dpn_eq, Hv.
Qed.

(** X12.  The string bounds of a pack, once the dictionary is at hand.
    [GetMinString] and [GetMaxString] return the null string for a
    nulls-only pack and for a column kept in integer packs.  Otherwise,
    with [m] the smaller of 8 and [GetActualSize(pack)]: [GetMinString]
    returns the first [m] bytes of [min_s] without their trailing NUL
    bytes; [GetMaxString] returns the first [m] bytes of [max_s] when none
    of them is NUL, and otherwise the bytes before the last NUL among them,
    earlier NUL bytes included. *)
Theorem GetMinString_GetMaxString_spec (w : World) (pack : Z) (k : PACK_INDEX) (d : DPN) :
  dict_ready w -> view_dpn w pack = Some (k, d) ->
  (DPN_NullOnly d = true \/ pack_type (attr w) = PT_INT ->
   GetMinString pack w = (Ret None, w) /\ GetMaxString pack w = (Ret None, w)) /\
  (pack_type (attr w) = PT_STR -> DPN_NullOnly d = false ->
   let m := bound_len w d in
   0 <= m ->
   (exists L, GetMinString pack w = (Ret (BString_of_bytes (min_s d) L), w) /\
      0 <= L <= m /\
      (forall i, L <= i < m -> byte_at (min_s d) i = x00) /\
      (0 < L -> byte_at (min_s d) (L - 1) <> x00)) /\
   (exists L, GetMaxString pack w = (Ret (BString_of_bytes (max_s d) L), w) /\
      ((L = m /\ forall i, 0 <= i < m -> byte_at (max_s d) i <> x00) \/
       (0 <= L < m /\ byte_at (max_s d) L = x00 /\
        forall i, L < i < m -> byte_at (max_s d) i <> x00)))).
Proof.
  intros Hdict Hv.
  pose proof (GetPackOntologicalStatus_ready _ _ _ _ Hdict Hv) as Hst.
  pose proof (LoadPackInfo_ready w Hdict) as Hload.
  split.
  - intros Hnone.
    assert (bool_decide (ontological_status (pack_type (attr w)) d = NULLS_ONLY)
            || negb (bool_decide (pack_type (attr w) = PT_STR)) = true) as Hc.
    { destruct Hnone as [Hno | Hpt].
      - unfold ontological_status. rewrite Hno. done.
      - rewrite Hpt. apply orb_true_r. }
    split.
    + unfold GetMinString, GetPackType, gets. rewrite bind_eq, Hload, bind_eq, Hst, bind_eq.
      by rewrite Hc.
    + unfold GetMaxString, GetPackType, gets. rewrite bind_eq, Hload, bind_eq, Hst, bind_eq.
      by rewrite Hc.
  - intros Hpt Hno m Hm.
    assert (bool_decide (ontological_status (pack_type (attr w)) d = NULLS_ONLY)
            || negb (bool_decide (pack_type (attr w) = PT_STR)) = false) as Hc.
    { rewrite Hpt. unfold ontological_status. rewrite Hno. done. }
    pose proof (GetActualSize_str _ _ _ _ Hdict Hv Hpt Hno) as Hsz.
    assert (m <= 8) as Hm8.
    { unfold m, bound_len. cbv zeta.
      match goal with |- context [?a >? 8] => destruct (Z.gtb_spec a 8) end; lia. }
    split.
    + exists (GetMinString_loop 8 (min_s d) m). split.
      * unfold GetMinString, GetPackType, gets.
        rewrite bind_eq, Hload, bind_eq, Hst, bind_eq, Hc.
        rewrite bind_eq, get_dpn_eq, Hv. cbn beta iota. by rewrite bind_eq, Hsz.
      * apply GetMinString_loop_spec; [lia | simpl; lia | intros; lia].
    + destruct (GetMaxString_loop_spec (max_s d) m 8 (m - 1)) as [[Hr Hall] | (Hr & Hz & Hnz)];
        [lia | simpl; lia | intros; lia | |].
      * exists m. split.
        -- unfold GetMaxString, GetPackType, gets.
           rewrite bind_eq, Hload, bind_eq, Hst, bind_eq, Hc.
           rewrite bind_eq, get_dpn_eq, Hv. cbn beta iota. rewrite bind_eq, Hsz.
           fold (bound_len w d). fold m. by rewrite Hr.
        -- left. done.
      * exists (GetMaxString_loop 8 (max_s d) (m - 1)). split.
        -- unfold GetMaxString, GetPackType, gets.
           rewrite bind_eq, Hload, bind_eq, Hst, bind_eq, Hc.
           rewrite bind_eq, get_dpn_eq, Hv. cbn beta iota. rewrite bind_eq, Hsz.
           fold (bound_len w d). fold m.
           by rewrite (proj2 (Z.geb_le _ _)) by lia.
        -- right. done.
Qed.

(** ** Encoding without adding *)

Lemma EncodeValue_T_lookup_only rcbs w :
  dict_ready w -> (EncodeValue_T rcbs false w).2 = w.
Proof.
  intros Hdict. unfold EncodeValue_T. destruct rcbs as [s |]; [| done].
  unfold TypeName, gets. rewrite bind_eq.
  destruct (IsStringType (ct_TypeName (ct (attr w)))).
  - rewrite bind_eq, (LoadPackInfo_ready w Hdict). rewrite !bind_eq.
    unfold dict_deref. destruct (m_dict (attr w)) as [a |]; [| done].
    destruct (dict_heap (eng w) !! a) as [t |]; [| done].
    by destruct (FTree_GetEncodedValue t s <? 0).
  - destruct (_ || _); [done |]. by destruct (RCNum_Parse (Some s) _).
Qed.

(** X13.  [EncodeValue64] only reads.  Once the dictionary is at hand it
    leaves the state as it is, whatever it is given and however it ends; in
    particular it adds nothing to the dictionary: a string that a
    dictionary-encoded column does not know is encoded as [NULL_VALUE_32],
    with success reported and [rounded] false. *)
Theorem EncodeValue64_only_reads (v : option RCDataType) (w : World) :
  dict_ready w ->
  (EncodeValue64 v w).2 = w /\
  (forall s a t,
     v = Some (RCBString (Some s)) ->
     ct_IsLookup (ct (attr w)) = true ->
     IsStringType (ct_TypeName (ct (attr w))) = true ->
     m_dict (attr w) = Some a -> dict_heap (eng w) !! a = Some t ->
     EncodeValue64 v w =
       (Ret (if FTree_GetEncodedValue t s <? 0 then NULL_VALUE_32
             else FTree_GetEncodedValue t s, false, EC_SUCCESS), w)).
Proof.
  intros Hdict. split.
  - unfold EncodeValue64. destruct v as [v |]; [| done].
    destruct (RCDataType_IsNull v); [done |].
    unfold Type_, gets. rewrite bind_eq.
    destruct (_ && _).
    + rewrite bind_eq.
      pose proof (EncodeValue_T_lookup_only (RCDataType_ToBString v) w Hdict) as Hro.
      destruct (EncodeValue_T (RCDataType_ToBString v) false w) as [[[c rc] | e | f |] w1];
        simpl in Hro; by subst w1.
    + destruct (_ || _); [by destruct v |].
      unfold GetPackType, gets. rewrite bind_eq.
      case_bool_decide; simpl; [| done]. rewrite bind_eq. cbn [mret M_ret].
      destruct v as [nl vv vp is_real t | |]; [| done | done].
      repeat (case_match; try done).
  - intros s a t -> Hlook Hstr Hm Ht. unfold EncodeValue64. simpl.
    unfold Type_, gets. rewrite bind_eq, Hlook. simpl.
    rewrite bind_eq. unfold EncodeValue_T, TypeName, gets. rewrite bind_eq, Hstr.
    rewrite bind_eq, (LoadPackInfo_ready w Hdict). rewrite !bind_eq.
    unfold dict_deref. rewrite Hm, Ht.
    by destruct (FTree_GetEncodedValue t s <? 0).
Qed.

(** ** An update the index rejects *)

Lemma readonly_UpdateIfIndex row col v : readonly (UpdateIfIndex row col v).
Proof. frame. Qed.

(** What the lock protocol leaves alone of the controller and the index. *)
Definition keep_key (w : World) := (table_index (eng w), m_cid (attr w)).

Lemma unchanged_key_LockPackForUse_loop :
  forall fuel pn k, unchanged keep_key (LockPackForUse_loop fuel pn k).
Proof. frame_lock_loop. Qed.

Lemma unchanged_key_LockPackForUse :
  forall fuel pn, unchanged keep_key (LockPackForUse fuel pn).
Proof. frame_lock unchanged_key_LockPackForUse_loop. Qed.

(** X14.  An update that the primary-key index rejects changes nothing but
    [no_change].  When the pack of the row is committed, in memory and in
    use by others, and [UpdateIfIndex] throws under the lock, [UpdateData]
    ends with that exception after the pack was unlocked again: the state is
    the one before the call with [no_change] false, tagged words included.
    A null value for a column of the primary key is rejected in this way
    with "primary key not support null!". *)
Theorem UpdateData_rejected_by_index (fuel : nat) (row : Z) (v : Value) (w : World)
    (k : PACK_INDEX) (d : DPN) :
  let pn := Z.shiftr row (pss (attr w)) in
  let w0 := upd_attr (attr_set_no_change false) w in
  view_dpn w pn = Some (k, d) -> DPN_IsLocal d = false -> DPN_Trivial d = false ->
  pack_ptr d <> loading_flag -> 0 < pack_ptr d -> pack_ptr d + tag_one < 2 ^ 64 ->
  Z.land (pack_ptr d + tag_one) (Z.lnot tag_mask) <> tag_one ->
  (forall e,
     outcome (UpdateIfIndex row (m_cid (attr w)) v) (run (LockPackForUse (S fuel) pn) w0)
       = Throw e ->
     UpdateData (S fuel) row v w = (Throw e, w0)) /\
  (forall tab,
     table_index (eng w) = Some tab -> m_cid (attr w) ∈ ti_KeyCols tab -> v = V_none ->
     UpdateData (S fuel) row v w
       = (Throw (Exception "primary key not support null!"), w0)).
Proof.
  intros pn w0 Hv Hl Ht Hload Hpos Hroom Hshared.
  assert (view_dpn w0 pn = Some (k, d)) as Hv0 by done.
  pose proof (lock_unlock_shared w0 pn k d fuel Hv0 Hl Ht Hload Hpos Hroom Hshared) as Hround.
  apply bind_ret_inv in Hround as ([] & w1 & Hlock & Hunlock).
  assert (run (LockPackForUse (S fuel) pn) w0 = w1) as Hrun by (unfold run; by rewrite Hlock).
  pose proof (unchanged_ret_eq _ _ _ _ _ (unchanged_key_LockPackForUse (S fuel) pn) Hlock)
    as Hkey.
  unfold keep_key in Hkey. simpl in Hkey. injection Hkey as Htab Hcid.
  assert (forall e, outcome (UpdateIfIndex row (m_cid (attr w)) v) w1 = Throw e ->
            UpdateData (S fuel) row v w = (Throw e, w0)) as Hgen.
  { intros e He. unfold UpdateData. rewrite bind_eq. cbn [set_no_change modify]. fold w0.
    unfold row2pack, gets. rewrite bind_eq. change (pss (attr w0)) with (pss (attr w)).
    fold pn. rewrite bind_eq, Hlock. unfold scope_exit.
    assert (UpdateData_locked row pn v w1 = (Throw e, w1)) as ->.
    { unfold UpdateData_locked, gets. rewrite bind_eq, Hcid, bind_eq.
      pose proof (readonly_UpdateIfIndex row (m_cid (attr w)) v w1) as Hro.
      unfold outcome in He.
      destruct (UpdateIfIndex row (m_cid (attr w)) v w1) as [o w1'].
      simpl in He, Hro. by subst. }
    by rewrite Hunlock. }
  split.
  - intros e He. apply Hgen. by rewrite <- Hrun.
  - intros tab Htb Hcol ->. apply Hgen. unfold outcome, UpdateIfIndex, gets.
    rewrite bind_eq, Htab, Htb. by rewrite bool_decide_eq_true_2.
Qed.

(** ** Refreshing and saving the filters *)


















End Theory.

(** * Examples

    The theorems at work on the implementation of the interfaces given
    above, and the inputs at which the behaviour of the code departs from
    the written specification. *)

(** A value of scale 4 stored in a DECIMAL column of scale 2 loses two
    digits: 1.2345 becomes 1.23 and [rounded] is set. *)
Lemma EncodeValue64_scale_reconciliation_witness :
  integer_path (example_world decimal2 PT_INT 16) CT_NUM /\
  scale_reconciled (example_world decimal2 PT_INT 16) 12345 4 CT_NUM.
Proof.
  split.
  - repeat split.
  - apply EncodeValue64_scale_reconciliation. repeat split.
Defined.

(** The value 10^18 of scale 0 does not fit a DECIMAL column of scale 1:
    the multiplying loop saturates, and [rounded] is returned false. *)
Lemma EncodeValue64_saturated_not_rounded :
  EncodeValue64_mul 1 (10 ^ 18) = inl PLUS_INF_64 /\
  outcome (EncodeValue64 (Some (RCNum false (10 ^ 18) 0 false CT_NUM)))
          (example_world decimal1 PT_INT 16)
  = Ret (PLUS_INF_64, false, EC_SUCCESS).
Proof. split; reflexivity. Qed.

Lemma GetPrefixLength_spec_witness :
  LoadPackInfo column_abc_abd = (Ret tt, column_abc_abd) /\
  view_dpn column_abc_abd 0 = Some (0%nat, example_str_dpn 2 0 3 bytes_abc bytes_abd) /\
  exists n, GetPrefixLength 0 column_abc_abd = (Ret n, column_abc_abd) /\
            prefix_before_nul bytes_abc bytes_abd n.
Proof.
  split; [reflexivity |]. split; [reflexivity |].
  exact (GetPrefixLength_spec column_abc_abd column_abc_abd 0 0%nat
           (example_str_dpn 2 0 3 bytes_abc bytes_abd) eq_refl eq_refl).
Defined.

(** The length of the common prefix of two byte fields, as the
    specification words it. *)
Fixpoint common_prefix_length (a b : list byte) : Z :=
  match a, b with
  | x :: a', y :: b' => if bool_decide (x = y) then 1 + common_prefix_length a' b' else 0
  | _, _ => 0
  end.

(** Both bounds of the pack are "ab": the two eight-byte fields agree in all
    their eight bytes, and [GetPrefixLength] answers 2. *)
Lemma GetPrefixLength_stops_at_NUL :
  Z.min 8 (common_prefix_length bytes_ab bytes_ab) = 8 /\
  outcome (GetPrefixLength 0) column_ab = Ret 2.
Proof. split; reflexivity. Qed.

Lemma GetSum_spec_witness :
  LoadPackInfo column_ints = (Ret tt, column_ints) /\
  view_dpn column_ints 0 = Some (0%nat, example_dpn 5 0 3 40 100) /\
  GetSum 0 false column_ints = (Ret (100, true), column_ints).
Proof.
  split; [reflexivity |]. split; [reflexivity |].
  exact (GetSum_spec column_ints column_ints 0 0%nat
           (example_dpn 5 0 3 40 100) false eq_refl eq_refl).
Defined.

(** On a DOUBLE column the guard is not consulted: the minimum -1.0 lies,
    as a 64-bit pattern, far below [MINUS_INF_64 / (SHORT_MAX + 1)], and
    [GetSum] returns the sum all the same. *)
Lemma GetSum_float_ignores_guard :
  sum_guard (example_dpn 2 0 (-4616189618054758400) 4607182418800017408 0) = true /\
  outcome (GetSum 0 true) column_doubles = Ret (0, false) /\
  0 <> NULL_VALUE_64.
Proof. repeat split; done. Qed.

(** Locking a pack of nulls does nothing; locking a pack whose file cannot
    be read throws and leaves the tagged word at zero. *)
Lemma LockPackForUse_trivial_and_failed_load_witness :
  (view_dpn column_nulls 0 = Some (0%nat, nulls_dpn) /\
   DPN_IsLocal nulls_dpn = false /\ DPN_Trivial nulls_dpn = true /\
   LockPackForUse 1 0 column_nulls = (Ret tt, column_nulls)) /\
  (outcome (LockPackForUse (P := unreadable_packs) 1 0) column_unreadable
     = Throw IOException /\
   exists k d', lock_dpn 0 column_unreadable = (Ret k, column_unreadable) /\
     dpns (share (run (LockPackForUse (P := unreadable_packs) 1 0) column_unreadable)) !! k
       = Some d' /\
     pack_ptr d' = 0 /\ pack_ptr d' <> loading_flag).
Proof.
  split.
  - split; [reflexivity |]. split; [reflexivity |]. split; [reflexivity |].
    exact (proj1 (LockPackForUse_trivial_and_failed_load column_nulls 0)
             1%nat 0%nat nulls_dpn eq_refl eq_refl eq_refl).
  - split; [reflexivity |].
    exact (proj1 (proj2
             (LockPackForUse_trivial_and_failed_load (P := unreadable_packs)
                column_unreadable 0))
             1%nat IOException _ eq_refl).
Defined.

(** C2 (the code departs from it).  A VARCHAR column is loaded with the rows
    "b", "a", "c" and all three are selected; the smallest is "a", and
    [MinS] answers "c", the last candidate it looked at. *)
Theorem MinS_returns_last_candidate :
  outcome (LoadData (example_batch [V_string "b"; V_string "a"; V_string "c"]) None)
          (example_world varchar_type PT_STR 16) = Ret tt /\
  outcome (MinS 2 all_three_rows) column_b_a_c = Ret (Some "c"%string) /\
  BString_CompareWith (Some "a"%string) (Some "c"%string) < 0.
Proof. repeat split; vm_compute; reflexivity. Qed.

Lemma column_ints_no_local_dpn : no_local_dpn column_ints.
Proof.
  intros i Hi. change (0 <= i < 1) in Hi. assert (i = 0) as -> by lia.
  by exists 0%nat, (example_dpn 5 0 3 40 100).
Qed.

(** A writer that changed nothing saves nothing; a writer that loaded three
    rows writes the version file of its transaction. *)
Lemma SaveVersion_spec_witness :
  (m_tx (attr column_ints) <> None /\ no_change (attr column_ints) = true /\
   no_local_dpn column_ints /\ SaveVersion column_ints = (Ret false, column_ints)) /\
  (0 <= h_np (hdr (attr column_b_a_c)) /\
   SaveVersion column_b_a_c = (Ret true, run SaveVersion column_b_a_c) /\
   persisted column_b_a_c (run SaveVersion column_b_a_c)).
Proof.
  assert (SaveVersion column_b_a_c = (Ret true, run SaveVersion column_b_a_c)) as Hsave
    by (apply outcome_run; vm_compute; reflexivity).
  split.
  - split; [discriminate |]. split; [reflexivity |].
    split; [apply column_ints_no_local_dpn |].
    apply (proj1 (SaveVersion_spec column_ints)); [discriminate | reflexivity |].
    apply column_ints_no_local_dpn.
  - split; [vm_compute; discriminate |]. split; [exact Hsave |].
    apply (proj2 (proj2 (SaveVersion_spec column_b_a_c)));
      [vm_compute; discriminate | exact Hsave].
Defined.

(** "blue" enters a dictionary of two colours: the code is 2, the version
    goes from 1 to 2, and the clone is at hand and in the cache; "pink"
    after it leaves the version at 2. *)
Lemma dictionary_copy_on_write_witness :
  (0 <= h_dict_ver (hdr (attr column_colours)) /\
   h_dict_ver (hdr (attr column_colours)) + 1 < 2 ^ 32) /\
  (exists w',
     EncodeValue_T (Some "blue"%string) true column_colours = (Ret (2, EC_SUCCESS), w') /\
     UpdateData_lookup (V_string "blue") column_colours = (Ret (V_int 2), w') /\
     h_dict_ver (hdr (attr w')) = 2 /\
     m_dict (attr w') = Some (heap_addr 1) /\
     dict_cache (eng w') !! 2 = Some (heap_addr 1)) /\
  h_dict_ver (hdr (attr (run_ops [OpEncodeValue_T (Some "blue"%string) true;
                                  OpEncodeValue_T (Some "pink"%string) true]
                                 column_colours))) <= 2.
Proof.
  assert (0 <= h_dict_ver (hdr (attr column_colours))) as H0 by (vm_compute; discriminate).
  assert (h_dict_ver (hdr (attr column_colours)) + 1 < 2 ^ 32) as H1 by reflexivity.
  split; [by split |].
  destruct (dictionary_copy_on_write column_colours H0 H1) as (Hfirst & _ & Hops).
  split.
  - destruct (Hfirst "blue"%string (heap_addr 0)
                (FTree_Lock (FTree_LoadData ["red"; "green"]%string)))
      as (w' & He & Hu & Hv & Hm & Hc & _).
    + reflexivity.
    + reflexivity.
    + reflexivity.
    + discriminate.
    + reflexivity.
    + split; [vm_compute; discriminate | reflexivity].
    + vm_compute; discriminate.
    + exists w'. split; [exact (He eq_refl) |]. split; [exact (Hu eq_refl) |].
      split; [exact Hv |]. split; [exact Hm | exact Hc].
  - exact (proj2 (Hops [] [OpEncodeValue_T (Some "blue"%string) true;
                           OpEncodeValue_T (Some "pink"%string) true])).
Defined.

(** The second row of a committed pack of strings is set to null by the
    writer: the bounds of the header stay, and the count of nulls follows
    the DPN of the pack. *)
Lemma UpdateData_header_statistics_witness :
  pack_type (attr column_ab) = PT_STR /\
  UpdateData 2 1 V_none column_ab = (Ret tt, run (UpdateData 2 1 V_none) column_ab) /\
  (h_min (hdr (attr (run (UpdateData 2 1 V_none) column_ab))) = h_min (hdr (attr column_ab)) /\
   h_max (hdr (attr (run (UpdateData 2 1 V_none) column_ab))) = h_max (hdr (attr column_ab))) /\
  exists k d k' d',
    view_dpn column_ab (Z.shiftr 1 (pss (attr column_ab))) = Some (k, d) /\
    view_dpn (run (UpdateData 2 1 V_none) column_ab) (Z.shiftr 1 (pss (attr column_ab)))
      = Some (k', d') /\
    h_nn (hdr (attr (run (UpdateData 2 1 V_none) column_ab)))
      = u64 (u64 (h_nn (hdr (attr column_ab)) - nn d) + nn d').
Proof.
  assert (UpdateData 2 1 V_none column_ab = (Ret tt, run (UpdateData 2 1 V_none) column_ab))
    as Hrun by (apply outcome_run; vm_compute; reflexivity).
  split; [reflexivity |]. split; [exact Hrun |].
  split.
  - exact (proj1 (UpdateData_header_statistics 2 1 V_none column_ab) eq_refl).
  - exact (proj2 (UpdateData_header_statistics 2 1 V_none column_ab) _ Hrun).
Defined.

(** Four rows come in batches of one, one and two into packs of two rows:
    the header counts four rows and the view has two packs. *)
Lemma LoadData_rows_and_packs_witness :
  (m_idx (attr column_of_pairs) = [] /\ h_nr (hdr (attr column_of_pairs)) = 0 /\
   cache_coherent column_of_pairs /\ total (batch_sizes fitting_batches) < 2 ^ 64 /\
   load_all fitting_batches column_of_pairs
     = (Ret tt, run (load_all fitting_batches) column_of_pairs) /\
   fits (pack_capacity column_of_pairs) 0 (batch_sizes fitting_batches)) /\
  h_nr (hdr (attr (run (load_all fitting_batches) column_of_pairs))) = 4 /\
  (forall i, 0 <= i < Z.of_nat (length (m_idx (attr
               (run (load_all fitting_batches) column_of_pairs)))) - 1 ->
     exists k d, view_dpn (run (load_all fitting_batches) column_of_pairs) i = Some (k, d) /\
                 nr d = 2) /\
  Z.of_nat (length (m_idx (attr (run (load_all fitting_batches) column_of_pairs)))) = 2.
Proof.
  assert (cache_coherent column_of_pairs) as Hcache.
  { intros k a Hk. exfalso. revert Hk. apply lookup_empty_Some. }
  assert (load_all fitting_batches column_of_pairs
          = (Ret tt, run (load_all fitting_batches) column_of_pairs)) as Hrun
    by (apply outcome_run; vm_compute; reflexivity).
  assert (fits (pack_capacity column_of_pairs) 0 (batch_sizes fitting_batches)) as Hfit
    by (vm_compute; intuition discriminate).
  assert (total (batch_sizes fitting_batches) < 2 ^ 64) as Hsum by reflexivity.
  split; [exact (conj eq_refl (conj eq_refl (conj Hcache (conj Hsum (conj Hrun Hfit))))) |].
  destruct (LoadData_rows_and_packs fitting_batches column_of_pairs _
              eq_refl eq_refl Hcache Hsum Hrun) as (Hnr & Hfull & Hlen & _).
  split; [exact Hnr |]. split; [exact Hfull | exact (Hlen Hfit)].
Defined.

(** A batch of three rows comes into packs of two rows: the three rows are
    in one pack, where two packs were promised. *)
Lemma LoadData_does_not_split_a_batch :
  m_idx (attr column_of_pairs) = [] /\ h_nr (hdr (attr column_of_pairs)) = 0 /\
  pack_capacity column_of_pairs = 2 /\
  outcome (LoadData batch_of_three None) column_of_pairs = Ret tt /\
  h_nr (hdr (attr (run (LoadData batch_of_three None) column_of_pairs))) = 3 /\
  (3 + 2 - 1) / 2 = 2 /\
  length (m_idx (attr (run (LoadData batch_of_three None) column_of_pairs))) = 1%nat /\
  view_nrs (run (LoadData batch_of_three None) column_of_pairs) = [3].
Proof. repeat split; vm_compute; reflexivity. Qed.

(** The pack of [column_ints] in the hands of one reader: the tagged word
    is the address of the first object with one reference. *)
Definition column_in_use : World :=
  example_column int_type PT_INT 16 5 0
    [DPN_SetPackPtr (heap_addr 0 + tag_one) (example_dpn 5 0 3 40 100)].

(** A second reader comes and goes; and the first reader of a pack that is
    not in memory comes and goes. *)
Lemma LockPackForUse_UnlockPackFromUse_witness :
  (LockPackForUse 1 0;; UnlockPackFromUse 0) column_in_use = (Ret tt, column_in_use) /\
  exists w',
    (LockPackForUse 1 0;; UnlockPackFromUse 0) column_ints = (Ret tt, w') /\
    attr w' = attr column_ints /\ share w' = share column_ints /\
    pack_cache (eng w') = <[0%nat := heap_addr 0]> (pack_cache (eng column_ints)) /\
    pack_heap (eng w') =
      <[heap_addr 0 := {| po_body := replicate 5 V_none; po_dpn := 0%nat; po_locks := 0 |}]>
        (pack_heap (eng column_ints)) /\
    heap_count (eng w') = heap_count (eng column_ints) + 1.
Proof.
  split.
  - refine (proj1 (LockPackForUse_UnlockPackFromUse column_in_use 0 0%nat
                    (DPN_SetPackPtr (heap_addr 0 + tag_one) (example_dpn 5 0 3 40 100))
                    0%nat _ _ _) _ _ _ _).
    + reflexivity.
    + reflexivity.
    + reflexivity.
    + discriminate.
    + reflexivity.
    + reflexivity.
    + discriminate.
  - refine (proj2 (LockPackForUse_UnlockPackFromUse column_ints 0 0%nat
                    (example_dpn 5 0 3 40 100) 0%nat _ _ _) _ _ _ _ _).
    + reflexivity.
    + reflexivity.
    + reflexivity.
    + reflexivity.
    + reflexivity.
    + reflexivity.
    + split; [discriminate | reflexivity].
Defined.

(** The writer of transaction 5 shadows the committed pack of
    [column_ints]: the view moves to a second DPN, the first stays. *)
Lemma CopyPackForWrite_shadow_witness :
  view_dpn column_ints 0 = Some (0%nat, example_dpn 5 0 3 40 100) /\
  (exists w', CopyPackForWrite 0 column_ints = (Ret tt, w')) /\
  (forall w', CopyPackForWrite 0 column_ints = (Ret tt, w') ->
     m_idx (attr w') = [1%nat] /\
     take 1 (dpns (share w')) = dpns (share column_ints) /\
     CopyPackForWrite 0 w' = (Ret tt, w')).
Proof.
  split; [reflexivity |].
  destruct (proj2 (CopyPackForWrite_shadow column_ints 0 0%nat
                     (example_dpn 5 0 3 40 100) eq_refl) 5 eq_refl eq_refl)
    as [Hres Hret].
  split.
  - refine (Hret (replicate 5 V_none) _ _ _ _).
    + reflexivity.
    + reflexivity.
    + reflexivity.
    + split; [discriminate | reflexivity].
  - intros w' Hrun. destruct (Hres w' Hrun) as (_ & Hi & Ht & _ & _ & Hagain).
    split; [exact Hi |]. split; [exact Ht | exact Hagain].
Defined.

(** The column [column_ints] after its writer took the pack for writing:
    the view holds the shadow DPN, at index 1 of the arena. *)
Definition column_in_write : World := run (CopyPackForWrite 0) column_ints.

(** Rolling back [column_in_write] resets the shadow DPN and leaves the
    committed one; the view still names the shadow. *)
Lemma Rollback_resets_local_packs_witness :
  exists w', Rollback column_in_write = (Ret tt, w') /\
    m_tx (attr w') = None /\ m_idx (attr w') = [1%nat] /\
    dpns (share w') !! 1%nat = Some DPN_reset /\
    dpns (share w') !! 0%nat = Some (example_dpn 5 0 3 40 100).
Proof.
  destruct (Rollback_resets_local_packs column_in_write)
    as (w' & Hrun & Htx & _ & Hi & _ & _ & Hd & _).
  - intros k Hk. change (m_idx (attr column_in_write)) with [1%nat] in Hk.
    apply list_elem_of_singleton in Hk. subst k. eexists. reflexivity.
  - exists w'. split; [exact Hrun |]. split; [exact Htx |].
    split; [rewrite Hi; reflexivity |].
    split; [rewrite (Hd 1%nat); reflexivity | rewrite (Hd 0%nat); reflexivity].
Defined.

(** The column [column_ints] after its writer appended one row: the last
    pack was taken for writing, the view holds its shadow DPN, whose base is
    the committed DPN at index 0. *)
Definition column_appended : World :=
  run (LoadData (example_batch [V_int 7]) None) column_ints.

(** The commit of [column_appended]: version 5 replaces version 3, whose
    files are queued for removal, and the committed DPN of the pack ends at
    the largest transaction id. *)
Lemma PostCommit_publishes_witness :
  exists w', PostCommit column_appended = (Ret tt, w') /\
    m_version (attr w') = 5 /\ m_tx (attr w') = None /\
    deferred (eng w') =
      [(VersionPath 3, 1); (FilterPath FT_BLOOM 3, 1); (FilterPath FT_CMAP 3, 1);
       (FilterPath FT_HIST 3, 1)] /\
    (forall d, dpns (share w') !! 0%nat = Some d -> xmax d = 100) /\
    (forall d, dpns (share w') !! 1%nat = Some d -> local d = false).
Proof.
  assert (no_change (attr column_appended) = false) as Hnc by (vm_compute; reflexivity).
  assert (m_tx (attr column_appended) = Some 5) as Hx by (vm_compute; reflexivity).
  assert (m_idx (attr column_appended) = [1%nat]) as Hidx by (vm_compute; reflexivity).
  assert (exists d, dpns (share column_appended) !! 0%nat = Some d) as [d0 H0]
    by (vm_compute; eexists; reflexivity).
  assert (exists d, dpns (share column_appended) !! 1%nat = Some d /\
                    local d = true /\ base d = Some 0%nat) as (d1 & H1 & Hl1 & Hb1)
    by (vm_compute; eexists; split; [reflexivity | split; reflexivity]).
  assert (is_base (m_idx (attr column_appended)) column_appended 0%nat) as Hbase.
  { exists 1%nat, d1. split; [| split; [exact H1 | split; [exact Hl1 | exact Hb1]]].
    rewrite Hidx. apply list_elem_of_singleton. reflexivity. }
  destruct (PostCommit_publishes column_appended 5 Hnc Hx)
    as (w' & Hrun & Hv & Htx & _ & _ & _ & Hdef & [Hlen Hp] & _).
  - intros k Hk. rewrite Hidx in Hk.
    apply list_elem_of_singleton in Hk. subst k. exists d1. exact H1.
  - intros b (k & d & Hk & Hd & Hl & Hb). rewrite Hidx in Hk.
    apply list_elem_of_singleton in Hk. subst k.
    rewrite H1 in Hd. injection Hd as <-. rewrite Hb1 in Hb. injection Hb as <-.
    exists d0. exact H0.
  - exists w'. split; [exact Hrun |]. split; [exact Hv |]. split; [exact Htx |].
    split; [rewrite Hdef; vm_compute; reflexivity |]. split.
    + intros d Hd. rewrite (proj1 (proj2 (proj2 (proj2 (Hp 0%nat d0 d H0 Hd)))) Hbase).
      vm_compute; reflexivity.
    + intros d Hd. rewrite (proj1 (proj2 (Hp 1%nat d1 d H1 Hd))), Hl1, Hidx.
      vm_compute; reflexivity.
Defined.

(** A writer that changed nothing commits: only the handle is cleared.  The
    writer of [column_appended], who changed the column, commits: the call
    returns and the handle is null. *)
Lemma PostCommit_no_change_only_clears_tx_witness :
  (no_change (attr column_ints) = true /\
   PostCommit column_ints = (Ret tt, clear_tx column_ints)) /\
  (no_change (attr column_appended) = false /\
   exists w', PostCommit column_appended = (Ret tt, w') /\ m_tx (attr w') = None).
Proof.
  assert (no_change (attr column_ints) = true) as Hnc0 by (vm_compute; reflexivity).
  assert (no_change (attr column_appended) = false) as Hnc by (vm_compute; reflexivity).
  assert (m_tx (attr column_appended) = Some 5) as Hx by (vm_compute; reflexivity).
  assert (m_idx (attr column_appended) = [1%nat]) as Hidx by (vm_compute; reflexivity).
  assert (exists d, dpns (share column_appended) !! 0%nat = Some d) as [d0 H0]
    by (vm_compute; eexists; reflexivity).
  assert (exists d, dpns (share column_appended) !! 1%nat = Some d /\
                    local d = true /\ base d = Some 0%nat) as (d1 & H1 & Hl1 & Hb1)
    by (vm_compute; eexists; split; [reflexivity | split; reflexivity]).
  split.
  - split; [exact Hnc0 |].
    exact (proj1 (proj1 (proj2 (PostCommit_no_change_only_clears_tx column_ints)) Hnc0)).
  - split; [exact Hnc |].
    apply (proj2 (proj2 (PostCommit_no_change_only_clears_tx column_appended)) 5 Hnc Hx).
    + intros k Hk. rewrite Hidx in Hk.
      apply list_elem_of_singleton in Hk. subst k. exists d1. exact H1.
    + intros b (k & d & Hk & Hd & Hl & Hb). rewrite Hidx in Hk.
      apply list_elem_of_singleton in Hk. subst k.
      rewrite H1 in Hd. injection Hd as <-. rewrite Hb1 in Hb. injection Hb as <-.
      exists d0. exact H0.
Defined.


(** A controller that opens the column of [column_b_a_c] after its writer
    saved version 5: it holds nothing yet, and finds the files and the
    arena as the writer left them. *)
Definition column_reopened : World :=
  {| attr := example_attr varchar_type PT_STR 16;
     share := share (run SaveVersion column_b_a_c);
     eng := eng (run SaveVersion column_b_a_c) |}.

(** Loading version 5 gives the reader the three rows in one pack that the
    writer saved. *)
Lemma SaveVersion_LoadVersion_witness :
  m_idx (attr column_reopened) = [] /\
  exists w3, LoadVersion 5 column_reopened = (Ret tt, w3) /\
    h_nr (hdr (attr w3)) = 3 /\ h_np (hdr (attr w3)) = 1 /\ m_idx (attr w3) = [0%nat].
Proof.
  assert (SaveVersion column_b_a_c = (Ret true, run SaveVersion column_b_a_c)) as Hsave
    by (apply outcome_run; vm_compute; reflexivity).
  assert (m_tx (attr column_b_a_c) = Some 5) as Htx by (vm_compute; reflexivity).
  assert (0 <= h_np (hdr (attr column_b_a_c))) as Hnp by (vm_compute; discriminate).
  assert (h_dict_ver (hdr (attr (run SaveVersion column_b_a_c))) = 0) as Hdv
    by (vm_compute; reflexivity).
  assert (version_files (eng column_reopened) !! 5 =
          version_files (eng (run SaveVersion column_b_a_c)) !! 5) as Hsame
    by (vm_compute; reflexivity).
  destruct (SaveVersion_LoadVersion column_b_a_c _ column_reopened 5 Htx Hnp Hsave Hsame)
    as [Hread Hret].
  split; [vm_compute; reflexivity |].
  destruct (Hret Hdv) as [w3 H3]. exists w3. split; [exact H3 |].
  destruct (Hread w3 H3) as (Hh & Hi & _).
  rewrite Hh, Hi. repeat split; vm_compute; reflexivity.
Defined.

(** The byte-wise comparison is a total preorder. *)
Lemma string_compare_trans (a : string) : forall b c,
  String.compare a b <> Gt -> String.compare b c <> Gt -> String.compare a c <> Gt.
Proof.
  induction a as [| x a IH]; intros [| y b] [| z c]; simpl; try done.
  unfold Ascii.compare.
  destruct (N.compare_spec (Ascii.N_of_ascii x) (Ascii.N_of_ascii y)) as [Hxy | Hxy | Hxy],
    (N.compare_spec (Ascii.N_of_ascii y) (Ascii.N_of_ascii z)) as [Hyz | Hyz | Hyz],
    (N.compare_spec (Ascii.N_of_ascii x) (Ascii.N_of_ascii z)) as [Hxz | Hxz | Hxz];
    try done; try lia.
  apply IH.
Qed.

Lemma BString_compare_refl (t : BString) : BString_compare t t <= 0.
Proof.
  destruct t as [s |]; simpl; [| done].
  pose proof (String.compare_antisym s s) as Ha.
  by destruct (String.compare s s).
Qed.

Lemma BString_compare_total (a b : BString) :
  BString_compare a b > 0 -> BString_compare b a <= 0.
Proof.
  destruct a as [x |], b as [y |]; simpl; try done.
  rewrite (String.compare_antisym x y). by destruct (String.compare y x).
Qed.

Lemma BString_compare_trans (a b c : BString) :
  BString_compare a b <= 0 -> BString_compare b c <= 0 -> BString_compare a c <= 0.
Proof.
  destruct a as [x |], b as [y |], c as [z |]; simpl; try done.
  intros Hxy Hyz. pose proof (string_compare_trans x y z) as Ht.
  destruct (String.compare x y), (String.compare y z), (String.compare x z);
    simpl in *; try done; exfalso; by apply Ht.
Qed.

(** The largest of the rows "b", "a", "c" is "c", and none of the three
    compares above it. *)
Lemma MaxS_string_packs_witness :
  MaxS 4 all_three_rows column_b_a_c = (Ret (Some "c"%string), column_b_a_c) /\
  selected_strings column_b_a_c all_three_rows
    = [Some "b"%string; Some "a"%string; Some "c"%string] /\
  forall v, v ∈ selected_strings column_b_a_c all_three_rows ->
    BString_compare v (Some "c"%string) <= 0.
Proof.
  assert (pack_ready column_b_a_c 0) as Hready.
  { exists 0%nat, (default (0%nat, DPN_reset) (view_dpn column_b_a_c 0)).2.
    split; [vm_compute; reflexivity |]. split; [vm_compute; reflexivity |].
    split; [vm_compute; reflexivity |].
    apply (bool_decide_eq_true_1 (is_Some (view_pack column_b_a_c 0))).
    vm_compute; reflexivity. }
  assert (forall a b, collate column_b_a_c a b = BString_compare a b) as Hcollate
    by (intros a b; vm_compute; reflexivity).
  assert (foldl (pick_max column_b_a_c) None (selected_strings column_b_a_c all_three_rows)
          = Some "c"%string) as Hmax by (vm_compute; reflexivity).
  destruct (MaxS_string_packs column_b_a_c all_three_rows 4) as (Hrun & _ & Hup).
  - vm_compute; reflexivity.
  - vm_compute; reflexivity.
  - vm_compute; reflexivity.
  - vm_compute; discriminate.
  - vm_compute; discriminate.
  - vm_compute; reflexivity.
  - left. vm_compute; reflexivity.
  - intros b n Hin. vm_compute in Hin.
    repeat (apply elem_of_cons in Hin as [Hin | Hin];
            [injection Hin as -> _; exact Hready |]).
    by apply not_elem_of_nil in Hin.
  - vm_compute. lia.
  - rewrite Hmax in Hrun, Hup. split; [exact Hrun |].
    split; [vm_compute; reflexivity |].
    intros v Hv. rewrite <- Hcollate. apply Hup; [| | | exact Hv].
    + intros t. rewrite Hcollate. apply BString_compare_refl.
    + intros a b. rewrite !Hcollate. apply BString_compare_total.
    + intros a b c. rewrite !Hcollate. apply BString_compare_trans.
Defined.

(** A dictionary-encoded column of one pack whose two rows both hold the
    code of "green", and the filter that selects both rows. *)
Definition column_all_green : World :=
  upd_hdr (hdr_set_dict_ver 1)
    (upd_attr (attr_set_m_dict (Some (heap_addr 0)))
       (upd_eng (eng_set_dicts
                   {[heap_addr 0 := FTree_Lock (FTree_LoadData ["red"; "green"]%string)]}
                   {[1 := heap_addr 0]} 1)
          (example_column lookup_type PT_INT 16 2 0 [example_dpn 2 0 1 1 2]))).

Definition both_rows : Filter := {| f_blocks := [[true; true]] |}.

(** [MaxS] does not return on [column_all_green]; [MinS] answers "green". *)
Lemma MaxS_uniform_pack_never_returns_witness :
  (forall fuel, MaxS fuel both_rows column_all_green = (OutOfFuel, column_all_green)) /\
  outcome (MinS 2 both_rows) column_all_green = Ret (Some "green"%string).
Proof.
  split; [| vm_compute; reflexivity].
  apply (MaxS_uniform_pack_never_returns column_all_green both_rows 0 0 [(0, 1)]
           0%nat (example_dpn 2 0 1 1 2)).
  - vm_compute; reflexivity.
  - vm_compute; reflexivity.
  - vm_compute; discriminate.
  - vm_compute; discriminate.
  - vm_compute; reflexivity.
  - right. vm_compute; discriminate.
  - intros _. exists (heap_addr 0), (FTree_Lock (FTree_LoadData ["red"; "green"]%string)).
    split; vm_compute; reflexivity.
  - vm_compute; reflexivity.
  - vm_compute; reflexivity.
  - vm_compute; reflexivity.
  - left. vm_compute; reflexivity.
Defined.

(** A string column of a pack of five nulls and a pack of two rows, and the
    filter that selects the first null. *)
Definition column_nulls_then_ab : World :=
  example_column varchar_type PT_STR 16 7 5
    [nulls_dpn; example_str_dpn 2 0 2 bytes_ab bytes_ab].

Definition first_null_row : Filter :=
  {| f_blocks := [[true; false; false; false; false]; [false; false]] |}.

Lemma MinS_MaxS_nulls_only_pack_never_return_witness :
  (forall fuel,
     MinS fuel first_null_row column_nulls_then_ab = (OutOfFuel, column_nulls_then_ab)) /\
  (forall fuel,
     MaxS fuel first_null_row column_nulls_then_ab = (OutOfFuel, column_nulls_then_ab)).
Proof.
  apply forall_and_distr.
  apply (MinS_MaxS_nulls_only_pack_never_return column_nulls_then_ab first_null_row 0 0 []
           0%nat nulls_dpn).
  - vm_compute; reflexivity.
  - vm_compute; reflexivity.
  - vm_compute; discriminate.
  - vm_compute; discriminate.
  - vm_compute; reflexivity.
  - left. vm_compute; reflexivity.
  - vm_compute; reflexivity.
  - vm_compute; reflexivity.
  - vm_compute; reflexivity.
Defined.

(** "blue" is new to the dictionary of [column_colours] and gets the code
    2, which decodes to "blue"; the code 1 still decodes to "green". *)
Lemma EncodeValue_T_DecodeValue_S_witness :
  outcome (EncodeValue_T (Some "blue"%string) true) column_colours = Ret (2, EC_SUCCESS) /\
  DecodeValue_S 1 column_colours = (Ret (Some "green"%string), column_colours) /\
  (let w' := run (EncodeValue_T (Some "blue"%string) true) column_colours in
   DecodeValue_S 2 w' = (Ret (Some "blue"%string), w') /\
   DecodeValue_S 1 w' = (Ret (Some "green"%string), w')).
Proof.
  assert (EncodeValue_T (Some "blue"%string) true column_colours
          = (Ret (2, EC_SUCCESS),
             run (EncodeValue_T (Some "blue"%string) true) column_colours)) as Hrun
    by (apply outcome_run; vm_compute; reflexivity).
  assert (DecodeValue_S 1 column_colours = (Ret (Some "green"%string), column_colours))
    as Hgreen by reflexivity.
  split; [vm_compute; reflexivity |]. split; [exact Hgreen |].
  destruct (EncodeValue_T_DecodeValue_S column_colours
              (run (EncodeValue_T (Some "blue"%string) true) column_colours)
              "blue"%string 2 EC_SUCCESS
              (heap_addr 0) (FTree_Lock (FTree_LoadData ["red"; "green"]%string)))
    as (_ & Hblue & Hold).
  - vm_compute; reflexivity.
  - vm_compute; reflexivity.
  - vm_compute; reflexivity.
  - vm_compute; reflexivity.
  - vm_compute; reflexivity.
  - vm_compute; reflexivity.
  - exact Hrun.
  - split; [exact Hblue | exact (Hold 1 "green"%string Hgreen)].
Defined.

(** Two nulls, and the value 97 twice, loaded into the empty column
    [column_of_pairs]: one DPN without a body each, and an engine that holds
    no pack.  Read as a string, the lower bound of the uniform DPN is the
    byte 97, the letter a, followed by seven NUL bytes. *)
Lemma LoadData_without_body_witness :
  (exists w', LoadData (example_batch [V_none; V_none]) None column_of_pairs = (Ret tt, w') /\
     dpns (share w') = [nulls_only_dpn 5 2] /\ eng w' = eng column_of_pairs /\
     h_nr (hdr (attr w')) = 2 /\ h_nn (hdr (attr w')) = 2) /\
  (exists w', LoadData (example_batch [V_int 97; V_int 97]) None column_of_pairs
                = (Ret tt, w') /\
     dpns (share w') = [uniform_dpn 5 2 97 194] /\ eng w' = eng column_of_pairs /\
     h_nr (hdr (attr w')) = 2 /\ h_min (hdr (attr w')) = 97 /\ h_max (hdr (attr w')) = 97) /\
  min_s (uniform_dpn 5 2 97 194) = [x61; x00; x00; x00; x00; x00; x00; x00].
Proof.
  assert (pack_type (attr column_of_pairs) = PT_INT) as Hpt by (vm_compute; reflexivity).
  assert (ct_NotNull (ct (attr column_of_pairs)) = false) as Hnn by (vm_compute; reflexivity).
  assert (m_tx (attr column_of_pairs) = Some 5) as Hx by (vm_compute; reflexivity).
  assert (new_pack column_of_pairs) as Hnew by (left; vm_compute; reflexivity).
  split.
  - destruct (proj1 (LoadData_without_body (example_batch [V_none; V_none]) None
                       column_of_pairs 5 Hpt Hnn Hx Hnew))
      as (_ & _ & _ & _ & w' & Hrun & _ & Hd & He & Hh); [vm_compute; reflexivity |].
    exists w'. split; [exact Hrun |]. split; [rewrite Hd; vm_compute; reflexivity |].
    split; [exact He |]. rewrite Hh. split; vm_compute; reflexivity.
  - destruct (proj2 (LoadData_without_body (example_batch [V_int 97; V_int 97]) None
                       column_of_pairs 5 Hpt Hnn Hx Hnew))
      as (_ & _ & Hmin & _ & w' & Hrun & _ & Hd & He & Hh).
    + vm_compute; reflexivity.
    + vm_compute; reflexivity.
    + vm_compute. split; reflexivity.
    + vm_compute; reflexivity.
    + split.
      * exists w'. split; [exact Hrun |]. split; [rewrite Hd; vm_compute; reflexivity |].
        split; [exact He |]. rewrite Hh. repeat split; vm_compute; reflexivity.
      * vm_compute; reflexivity.
Defined.

(** A string column of one pack with the rows "aaaa" and "b": the smallest
    string is "aaaa", the largest is "b", and the longest has four bytes. *)
Definition bytes_aaaa : list byte := [x61; x61; x61; x61; x00; x00; x00; x00].
Definition bytes_b : list byte := [x62; x00; x00; x00; x00; x00; x00; x00].

Definition aaaa_b_dpn : DPN := example_str_dpn 2 0 4 bytes_aaaa bytes_b.

Definition column_aaaa_b : World := example_column varchar_type PT_STR 16 2 0 [aaaa_b_dpn].

(** The lower bound comes back as "aaaa"; the upper bound as "b" followed by
    two NUL bytes, cut at the last NUL among its first four bytes. *)
Lemma GetMinString_GetMaxString_spec_witness :
  (exists L, GetMinString 0 column_aaaa_b
               = (Ret (BString_of_bytes bytes_aaaa L), column_aaaa_b) /\ 0 <= L <= 4) /\
  (exists L, GetMaxString 0 column_aaaa_b
               = (Ret (BString_of_bytes bytes_b L), column_aaaa_b) /\ 0 <= L <= 4) /\
  outcome (GetMinString 0) column_aaaa_b = Ret (Some "aaaa"%string) /\
  outcome (GetMaxString 0) column_aaaa_b
    = Ret (Some (String.string_of_list_byte [x62; x00; x00])).
Proof.
  assert (dict_ready column_aaaa_b) as Hdict by (left; vm_compute; reflexivity).
  assert (view_dpn column_aaaa_b 0 = Some (0%nat, aaaa_b_dpn)) as Hv
    by (vm_compute; reflexivity).
  assert (pack_type (attr column_aaaa_b) = PT_STR) as Hpt by (vm_compute; reflexivity).
  assert (DPN_NullOnly aaaa_b_dpn = false) as Hno by (vm_compute; reflexivity).
  assert (bound_len column_aaaa_b aaaa_b_dpn = 4) as Hm by (vm_compute; reflexivity).
  destruct (proj2 (GetMinString_GetMaxString_spec column_aaaa_b 0 0%nat aaaa_b_dpn Hdict Hv)
              Hpt Hno) as [(L1 & Hmin & HL1 & _) (L2 & Hmax & HL2)].
  - rewrite Hm. discriminate.
  - rewrite Hm in HL1, HL2.
    split; [exists L1; split; [exact Hmin | exact HL1] |].
    split; [exists L2; split; [exact Hmax | destruct HL2 as [[-> _] | [? _]]; lia] |].
    split; vm_compute; reflexivity.
Defined.

(** "blue" is not in the dictionary of [column_colours]: it is encoded as
    [NULL_VALUE_32] and the dictionary stays as it is; "green" has code 1. *)
Lemma EncodeValue64_only_reads_witness :
  EncodeValue64 (Some (RCBString (Some "blue"%string))) column_colours
    = (Ret (- 2 ^ 31, false, EC_SUCCESS), column_colours) /\
  EncodeValue64 (Some (RCBString (Some "green"%string))) column_colours
    = (Ret (1, false, EC_SUCCESS), column_colours).
Proof.
  assert (dict_ready column_colours) as Hdict by (right; vm_compute; discriminate).
  assert (ct_IsLookup (ct (attr column_colours)) = true) as Hl by (vm_compute; reflexivity).
  assert (IsStringType (ct_TypeName (ct (attr column_colours))) = true) as Hs
    by (vm_compute; reflexivity).
  assert (m_dict (attr column_colours) = Some (heap_addr 0)) as Hm
    by (vm_compute; reflexivity).
  assert (dict_heap (eng column_colours) !! heap_addr 0
          = Some (FTree_Lock (FTree_LoadData ["red"; "green"]%string))) as Ht
    by (vm_compute; reflexivity).
  split.
  - rewrite (proj2 (EncodeValue64_only_reads _ column_colours Hdict)
               "blue"%string _ _ eq_refl Hl Hs Hm Ht).
    reflexivity.
  - rewrite (proj2 (EncodeValue64_only_reads _ column_colours Hdict)
               "green"%string _ _ eq_refl Hl Hs Hm Ht).
    reflexivity.
Defined.

(** The column [column_in_use] as the only column of the primary key of its
    table. *)
Definition key_on_column_0 : RCTableIndex :=
  {| ti_KeyCols := [0]; ti_UpdateIndex := fun _ _ _ => EC_SUCCESS |}.

Definition column_keyed : World :=
  {| attr := attr column_in_use; share := share column_in_use;
     eng := {| pack_heap := ∅; pack_cache := ∅; dict_heap := ∅; dict_cache := ∅;
               heap_count := 0; filter_files := fun _ => ∅; version_files := ∅;
               dict_files := ∅; deferred := []; max_xid := 100;
               sysvar_sync_buffers := false;
               sysvar_enable_histogram_cmap_bloom := true;
               table_index := Some key_on_column_0 |} |}.

(** A null for row 0 of the key column is rejected, and the pack is back in
    the hands of its one reader. *)
Lemma UpdateData_rejected_by_index_witness :
  UpdateData 1 0 V_none column_keyed
    = (Throw (Exception "primary key not support null!"),
       upd_attr (attr_set_no_change false) column_keyed).
Proof.
  refine (proj2 (UpdateData_rejected_by_index 0 0 V_none column_keyed 0%nat
                   (DPN_SetPackPtr (heap_addr 0 + tag_one) (example_dpn 5 0 3 40 100))
                   _ _ _ _ _ _ _) key_on_column_0 _ _ eq_refl).
  - vm_compute; reflexivity.
  - vm_compute; reflexivity.
  - vm_compute; reflexivity.
  - vm_compute; discriminate.
  - vm_compute; reflexivity.
  - vm_compute; reflexivity.
  - vm_compute; discriminate.
  - vm_compute; reflexivity.
  - apply list_elem_of_singleton. vm_compute; reflexivity.
Defined.

